(** * Bonkfun-Bundler: a shallow embedding of the bot and its properties

    The TypeScript sources embedded here are [utils/wallet.ts] (WalletManager),
    [contracts/nadfun.ts] (NadFunContract), [bundler/transactionBundler.ts]
    (TransactionBundler), [bot/volumeBot.ts] (VolumeBot), [bot/recovery.ts]
    (RecoveryManager), [bot/orchestrator.ts] (BotOrchestrator), [config.ts]
    and [types.ts]. The file has three parts: the embedding of the program,
    the vocabulary of the statements with the scenarios they are run on, and
    the theorems.

    Conventions of the embedding:
    - [bigint] values are [Z]; JavaScript [number]s that hold counts, indices
      and millisecond values are [Z]; [number]s that hold MON amounts are
      exact rationals [Q] (the rounding of IEEE doubles is not modelled), and
      the result of a division that may be [Infinity] or [NaN] is an
      [option Q];
    - the collaborators the program talks to (the RPC provider, the ethers
      library, the file system, the clock, [Math.random]) are the fields of
      a [Gateway] over an abstract outside world [Env]; a promise they return
      either resolves or rejects ([answer]);
    - an [async] method is a state-and-error computation [M] over [Sys], the
      objects of the program together with the outside world; log lines are
      left out;
    - [Wallet[]] arrays and [BotState] objects live in a store and are
      referred to by location, so that two fields can hold the same array;
    - [trace] records what the program asked of the outside world, newest
      entry first: the transactions it submitted, with how they ended, the
      polls, and the timers. The program never reads it. *)

From Stdlib Require Import ZArith QArith Qround String Ascii List Lia Lqa DecimalString Floats.
From stdpp Require Import base gmap list strings.

Open Scope Z_scope.

(* ===================================================================== *)
(** ** types.ts *)
(* ===================================================================== *)

Inductive WalletType := funding | volume | recovery.

Record Wallet := {
  address : string;
  privateKey : string;
  publicKey : string;
  index : Z;
  type : WalletType
}.

Record TokenConfig := {
  name : string;
  symbol : string;
  description : option string;
  imageUrl : option string
}.

Inductive Phase := idle | phase_funding | bonding | phase_volume | phase_recovery | completed.

(** A location of the object store. *)
Definition loc := nat.

(** [fundingWallets] and [volumeWallets] hold references to arrays. *)
Record BotState := {
  phase : Phase;
  tokenAddress : option string;
  fundingWallets : loc;
  volumeWallets : loc;
  totalMonDeposited : Q;
  bondingCurveComplete : bool;
  volumeGenerated : Q;
  startTime : option Z
}.

Record TransactionBundle := {
  transactions : list string;
  signatures : list string
}.

Inductive TradeType := buy | sell.

Record TradeOrder := {
  order_wallet : Wallet;
  order_type : TradeType;
  amountMon : Q;
  order_tokenAddress : string;
  timestamp : Z
}.

(* ===================================================================== *)
(** ** config.ts *)
(* ===================================================================== *)

Record Config := {
  monad_rpcUrl : string;
  monad_bundlerRpcUrl : string;
  bondingCurve_targetMon : Q;
  bondingCurve_walletCount : Z;
  bondingCurve_minWallets : Z;
  bondingCurve_maxWallets : Z;
  volume_walletCount : Z;
  volume_minTradeIntervalMs : Z;
  volume_maxTradeIntervalMs : Z;
  volume_tradeAmountMinMon : Q;
  volume_tradeAmountMaxMon : Q;
  contracts_nadFun : string;
  contracts_bondingCurve : string;
  recovery_walletAddress : string;
  wallet_seed : string
}.

(** The part of the environment [config.ts] reads. *)
Record ProcessEnv := {
  MONAD_RPC_URL : option string;
  BUNDLER_RPC_URL : option string;
  BONDING_CURVE_TARGET_MON : option Q;
  FUNDING_WALLET_COUNT : option Z;
  MIN_FUNDING_WALLETS : option Z;
  MAX_FUNDING_WALLETS : option Z;
  VOLUME_WALLET_COUNT : option Z;
  MIN_TRADE_INTERVAL_MS : option Z;
  MAX_TRADE_INTERVAL_MS : option Z;
  TRADE_AMOUNT_MIN_MON : option Q;
  TRADE_AMOUNT_MAX_MON : option Q;
  NAD_FUN_CONTRACT_ADDRESS : option string;
  BONDING_CURVE_CONTRACT_ADDRESS : option string;
  RECOVERY_WALLET_ADDRESS : option string;
  FUNDING_WALLET_SEED : option string
}.

(** [process.env.X || d] with the variable already parsed: the default is
    taken when the variable is not set. *)
Definition or_default {A} (v : option A) (d : A) : A :=
  match v with Some x => x | None => d end.

(** [process.env.X || ''] on a string: an empty value also yields the default. *)
Definition or_string (v : option string) (d : string) : string :=
  match v with
  | Some x => if String.eqb x "" then d else x
  | None => d
  end.

Definition config_of (e : ProcessEnv) : Config := {|
  monad_rpcUrl := or_string (MONAD_RPC_URL e) "https://rpc.monad.xyz";
  monad_bundlerRpcUrl := or_string (BUNDLER_RPC_URL e) "";
  bondingCurve_targetMon := or_default (BONDING_CURVE_TARGET_MON e) (1296000 # 1);
  bondingCurve_walletCount := or_default (FUNDING_WALLET_COUNT e) 100;
  bondingCurve_minWallets := or_default (MIN_FUNDING_WALLETS e) 100;
  bondingCurve_maxWallets := or_default (MAX_FUNDING_WALLETS e) 150;
  volume_walletCount := or_default (VOLUME_WALLET_COUNT e) 50;
  volume_minTradeIntervalMs := or_default (MIN_TRADE_INTERVAL_MS e) 5000;
  volume_maxTradeIntervalMs := or_default (MAX_TRADE_INTERVAL_MS e) 30000;
  volume_tradeAmountMinMon := or_default (TRADE_AMOUNT_MIN_MON e) (10 # 1);
  volume_tradeAmountMaxMon := or_default (TRADE_AMOUNT_MAX_MON e) (100 # 1);
  contracts_nadFun := or_string (NAD_FUN_CONTRACT_ADDRESS e) "";
  contracts_bondingCurve := or_string (BONDING_CURVE_CONTRACT_ADDRESS e) "";
  recovery_walletAddress := or_string (RECOVERY_WALLET_ADDRESS e) "";
  wallet_seed := or_string (FUNDING_WALLET_SEED e) ""
|}.

(* ===================================================================== *)
(** ** Collaborators *)
(* ===================================================================== *)

(** What an awaited promise of a collaborator settles to. *)
Inductive answer (A : Type) : Type :=
| Resolved (a : A)
| Rejected (e : string).
Arguments Resolved {A} a.
Arguments Rejected {A} e.

(** The call a transaction encodes (the ABI fragments of [NAD_FUN_ABI] that
    the program uses), or no data for a plain transfer. *)
Inductive CallData :=
| CreateToken (name symbol description imageUrl : string)
| BuyToken (token : string) (amount : Z)
| SellToken (token : string) (amount : Z)
| NoData.

Record TransactionRequest := {
  tx_to : string;
  tx_data : CallData;
  tx_value : Z
}.

Record Log := { log_address : string }.

Record TransactionReceipt := {
  receipt_hash : string;
  receipt_logs : list Log
}.

Record BondingCurveStatus := {
  liquidity : Z;
  threshold : Z;
  isComplete : bool
}.

Record HDNode := {
  hd_address : string;
  hd_privateKey : string;
  hd_publicKey : string
}.

(** What [fs.writeFile] is asked to store. *)
Inductive FileData :=
| SeedFile (seedPhrase : string)
| WalletInfoFile (address publicKey : string) (index : Z) (type : WalletType)
| KeyFile (privateKey : string).

(** [defaultPath] of ethers: where [HDNodeWallet.fromPhrase] derives when
    it is given no path. *)
Definition defaultPath : string := "m/44'/60'/0'/0/0".

Record Gateway (Env : Type) := {
  (* ethers.HDNodeWallet.fromPhrase(phrase, password, path): the account of
     the mnemonic [phrase] with the BIP-39 password [password], derived at
     [path]; no effect on the world *)
  fromPhrase : string -> string -> string -> answer HDNode;
  (* bip39.generateMnemonic() *)
  generateMnemonic : Env -> answer string * Env;
  (* fs/promises *)
  fs_mkdir : string -> Env -> answer unit * Env;
  fs_writeFile : string -> FileData -> Env -> answer unit * Env;
  (* contract.method.populateTransaction(args, overrides) on the contract at
     the given address: it reads the world and changes nothing; the promise
     rejects when an argument cannot be resolved or encoded, and what it
     resolves to is built by [populate] below *)
  populateTransaction : string -> CallData -> Z -> Env -> answer unit;
  (* signer.sendTransaction(tx), the signer given by its wallet *)
  sendTransaction : Wallet -> TransactionRequest -> Env -> answer string * Env;
  (* response.wait() of the transaction with the given hash *)
  wait : string -> Env -> answer TransactionReceipt * Env;
  (* provider.getTransactionReceipt(hash) *)
  getTransactionReceipt : string -> Env -> answer (option TransactionReceipt) * Env;
  (* signer.signTransaction(tx) *)
  signTransaction : Wallet -> TransactionRequest -> Env -> answer string * Env;
  (* read-only contract calls and provider.getBalance *)
  call_getBondingCurveStatus : string -> Env -> answer BondingCurveStatus * Env;
  call_getTokenPrice : string -> Env -> answer Z * Env;
  call_getTokenBalance : string -> string -> Env -> answer Z * Env;
  getBalance : string -> Env -> answer Z * Env;
  (* Date.now() *)
  Date_now : Env -> Z;
  (* the world after a timer of the given delay has fired *)
  elapse : Z -> Env -> Env;
  (* Math.random() *)
  Math_random : Env -> Q * Env;
  (* ethers.parseEther(x.toString()) for a number x *)
  parseEther_of_number : Q -> answer Z
}.

Arguments fromPhrase {Env} _ _ _ _.
Arguments generateMnemonic {Env} _ _.
Arguments fs_mkdir {Env} _ _ _.
Arguments fs_writeFile {Env} _ _ _ _.
Arguments populateTransaction {Env} _ _ _ _ _.
Arguments sendTransaction {Env} _ _ _ _.
Arguments wait {Env} _ _ _.
Arguments getTransactionReceipt {Env} _ _ _.
Arguments signTransaction {Env} _ _ _ _.
Arguments call_getBondingCurveStatus {Env} _ _ _.
Arguments call_getTokenPrice {Env} _ _ _.
Arguments call_getTokenBalance {Env} _ _ _ _.
Arguments getBalance {Env} _ _ _.
Arguments Date_now {Env} _ _.
Arguments elapse {Env} _ _ _.
Arguments Math_random {Env} _ _.
Arguments parseEther_of_number {Env} _ _.

(* ===================================================================== *)
(** ** The program state and its monad *)
(* ===================================================================== *)

(** How a submitted transaction ended: [sendTransaction] rejected, or it
    returned a hash and [wait] rejected, or both resolved. *)
Inductive TxOutcome :=
| NotSent (e : string)
| NotConfirmed (hash : string) (e : string)
| Confirmed (hash : string) (receipt : TransactionReceipt).

Inductive Event :=
| EvTx (signer : Wallet) (tx : TransactionRequest) (outcome : TxOutcome)
| EvPoll (token : string) (now : Z)
| EvSleep (ms : Z)
| EvSetTimeout (ms : Z)
| EvClearTimeout.

(** The callback [scheduleNextTrade] hands to [setTimeout]: its delay and
    the wallet list its closure captured. *)
Record Timer := {
  timer_delay : Z;
  timer_wallets : list Wallet
}.

Record VolumeBot := {
  vb_tokenAddress : string;
  vb_isRunning : bool;
  vb_tradeInterval : option Timer;
  vb_tradeHistory : list TradeOrder
}.

Record RecoveryManager := {
  rm_tokenAddress : string;
  rm_recoveryAddress : string
}.

Section State.
Context {Env : Type}.

Record Sys := {
  env : Env;
  trace : list Event;
  (* the store *)
  arrays : gmap loc (list Wallet);
  states : gmap loc BotState;
  (* WalletManager *)
  wm_fundingWallets : loc;
  wm_volumeWallets : loc;
  wm_seedPhrase : string;
  (* BotOrchestrator *)
  orch_state : loc;
  orch_volumeBot : option VolumeBot;
  orch_recoveryManager : option RecoveryManager
}.

Definition set_env (f : Env -> Env) (s : Sys) : Sys :=
  {| env := f (env s); trace := trace s; arrays := arrays s; states := states s;
     wm_fundingWallets := wm_fundingWallets s; wm_volumeWallets := wm_volumeWallets s;
     wm_seedPhrase := wm_seedPhrase s; orch_state := orch_state s;
     orch_volumeBot := orch_volumeBot s; orch_recoveryManager := orch_recoveryManager s |}.

Definition set_trace (f : list Event -> list Event) (s : Sys) : Sys :=
  {| env := env s; trace := f (trace s); arrays := arrays s; states := states s;
     wm_fundingWallets := wm_fundingWallets s; wm_volumeWallets := wm_volumeWallets s;
     wm_seedPhrase := wm_seedPhrase s; orch_state := orch_state s;
     orch_volumeBot := orch_volumeBot s; orch_recoveryManager := orch_recoveryManager s |}.

Definition set_arrays (f : gmap loc (list Wallet) -> gmap loc (list Wallet)) (s : Sys) : Sys :=
  {| env := env s; trace := trace s; arrays := f (arrays s); states := states s;
     wm_fundingWallets := wm_fundingWallets s; wm_volumeWallets := wm_volumeWallets s;
     wm_seedPhrase := wm_seedPhrase s; orch_state := orch_state s;
     orch_volumeBot := orch_volumeBot s; orch_recoveryManager := orch_recoveryManager s |}.

Definition set_states (f : gmap loc BotState -> gmap loc BotState) (s : Sys) : Sys :=
  {| env := env s; trace := trace s; arrays := arrays s; states := f (states s);
     wm_fundingWallets := wm_fundingWallets s; wm_volumeWallets := wm_volumeWallets s;
     wm_seedPhrase := wm_seedPhrase s; orch_state := orch_state s;
     orch_volumeBot := orch_volumeBot s; orch_recoveryManager := orch_recoveryManager s |}.

Definition set_wm_fundingWallets (l : loc) (s : Sys) : Sys :=
  {| env := env s; trace := trace s; arrays := arrays s; states := states s;
     wm_fundingWallets := l; wm_volumeWallets := wm_volumeWallets s;
     wm_seedPhrase := wm_seedPhrase s; orch_state := orch_state s;
     orch_volumeBot := orch_volumeBot s; orch_recoveryManager := orch_recoveryManager s |}.

Definition set_wm_volumeWallets (l : loc) (s : Sys) : Sys :=
  {| env := env s; trace := trace s; arrays := arrays s; states := states s;
     wm_fundingWallets := wm_fundingWallets s; wm_volumeWallets := l;
     wm_seedPhrase := wm_seedPhrase s; orch_state := orch_state s;
     orch_volumeBot := orch_volumeBot s; orch_recoveryManager := orch_recoveryManager s |}.

Definition set_wm_seedPhrase (p : string) (s : Sys) : Sys :=
  {| env := env s; trace := trace s; arrays := arrays s; states := states s;
     wm_fundingWallets := wm_fundingWallets s; wm_volumeWallets := wm_volumeWallets s;
     wm_seedPhrase := p; orch_state := orch_state s;
     orch_volumeBot := orch_volumeBot s; orch_recoveryManager := orch_recoveryManager s |}.

Definition set_orch_state (l : loc) (s : Sys) : Sys :=
  {| env := env s; trace := trace s; arrays := arrays s; states := states s;
     wm_fundingWallets := wm_fundingWallets s; wm_volumeWallets := wm_volumeWallets s;
     wm_seedPhrase := wm_seedPhrase s; orch_state := l;
     orch_volumeBot := orch_volumeBot s; orch_recoveryManager := orch_recoveryManager s |}.

Definition set_orch_volumeBot (f : option VolumeBot -> option VolumeBot) (s : Sys) : Sys :=
  {| env := env s; trace := trace s; arrays := arrays s; states := states s;
     wm_fundingWallets := wm_fundingWallets s; wm_volumeWallets := wm_volumeWallets s;
     wm_seedPhrase := wm_seedPhrase s; orch_state := orch_state s;
     orch_volumeBot := f (orch_volumeBot s); orch_recoveryManager := orch_recoveryManager s |}.

Definition set_orch_recoveryManager (r : option RecoveryManager) (s : Sys) : Sys :=
  {| env := env s; trace := trace s; arrays := arrays s; states := states s;
     wm_fundingWallets := wm_fundingWallets s; wm_volumeWallets := wm_volumeWallets s;
     wm_seedPhrase := wm_seedPhrase s; orch_state := orch_state s;
     orch_volumeBot := orch_volumeBot s; orch_recoveryManager := r |}.

(** How a method ends: it returns, it throws, or the bound given to a
    loop of the model was used up before the loop ended. *)
Inductive result (A : Type) : Type :=
| Ok (a : A)
| Err (e : string)
| OutOfFuel.

Definition M (A : Type) : Type := Sys -> result A * Sys.

Definition ret {A} (a : A) : M A := fun s => (Ok _ a, s).

Definition bind {A B} (m : M A) (k : A -> M B) : M B :=
  fun s =>
    match m s with
    | (Ok _ a, s') => k a s'
    | (Err _ e, s') => (Err _ e, s')
    | (OutOfFuel _, s') => (OutOfFuel _, s')
    end.

Definition throw {A} (e : string) : M A := fun s => (Err _ e, s).

(** [try { m } catch (error) { h error }] *)
Definition try_catch {A} (m : M A) (h : string -> M A) : M A :=
  fun s =>
    match m s with
    | (Err _ e, s') => h e s'
    | r => r
    end.

Definition get : M Sys := fun s => (Ok _ s, s).
Definition modify (f : Sys -> Sys) : M unit := fun s => (Ok _ tt, f s).

(** Awaiting a promise of a collaborator. *)
Definition await {A} (call : Env -> answer A * Env) : M A :=
  fun s =>
    match call (env s) with
    | (Resolved a, e') => (Ok _ a, set_env (fun _ => e') s)
    | (Rejected msg, e') => (Err _ msg, set_env (fun _ => e') s)
    end.

(** A promise that is already settled. *)
Definition settled {A} (a : answer A) : M A :=
  match a with
  | Resolved x => ret x
  | Rejected msg => throw msg
  end.

Definition emit (ev : Event) : M unit := modify (set_trace (cons ev)).

End State.

Arguments Sys : clear implicits.
Arguments M : clear implicits.
Arguments Ok {A} a.
Arguments Err {A} e.
Arguments OutOfFuel {A}.

Notation "x <- m ;; k" := (bind m (fun x => k))
  (at level 100, m at next level, right associativity).
Notation "m ;;; k" := (bind m (fun _ => k))
  (at level 100, right associativity).

(* ===================================================================== *)
(** ** Helpers shared by the classes *)
(* ===================================================================== *)

Section Helpers.
Context {Env : Type}.
Variable gw : Gateway Env.

(** [for (const x of l) { await f(x) }], collecting what [f] returns. *)
Fixpoint mapM {A B} (f : A -> M Env B) (l : list A) : M Env (list B) :=
  match l with
  | [] => ret []
  | x :: l' =>
      y <- f x ;;
      ys <- mapM f l' ;;
      ret (y :: ys)
  end.

(** [new Array] holding [ws]: a fresh location of the store. *)
Definition newArray (ws : list Wallet) : M Env loc :=
  fun s =>
    let l := fresh (dom (arrays s)) in
    (Ok l, set_arrays (fun h => <[l := ws]> h) s).

Definition readArray (l : loc) : M Env (list Wallet) :=
  fun s => (Ok (default [] (arrays s !! l)), s).

(** [await new Promise(resolve => setTimeout(resolve, ms))] *)
Definition sleep (ms : Z) : M Env unit :=
  modify (set_env (elapse gw ms)) ;;;
  emit (EvSleep ms).

(** [const response = await signer.sendTransaction(tx); await response.wait()] *)
Definition sendAndWait (signer : Wallet) (tx : TransactionRequest)
  : M Env (string * TransactionReceipt) :=
  fun s =>
    match sendTransaction gw signer tx (env s) with
    | (Rejected e, e1) =>
        (Err e, set_trace (cons (EvTx signer tx (NotSent e))) (set_env (fun _ => e1) s))
    | (Resolved h, e1) =>
        match wait gw h e1 with
        | (Rejected e, e2) =>
            (Err e, set_trace (cons (EvTx signer tx (NotConfirmed h e))) (set_env (fun _ => e2) s))
        | (Resolved r, e2) =>
            (Ok (h, r), set_trace (cons (EvTx signer tx (Confirmed h r))) (set_env (fun _ => e2) s))
        end
    end.

(** [contract.method.populateTransaction(args, { value })]: the request
    is the call, encoded for the contract, with the value attached. *)
Definition populate (contract : string) (data : CallData) (value : Z)
  : M Env TransactionRequest :=
  s <- get ;;
  settled (populateTransaction gw contract data value (env s)) ;;;
  ret {| tx_to := contract; tx_data := data; tx_value := value |}.

(** [Math.random()] *)
Definition random : M Env Q :=
  fun s =>
    let '(r, e') := Math_random gw (env s) in
    (Ok r, set_env (fun _ => e') s).

(** [Date.now()] *)
Definition now : M Env Z := fun s => (Ok (Date_now gw (env s)), s).

(** Reading a property of [undefined]. *)
Definition defined {A} (o : option A) : M Env A :=
  match o with
  | Some a => ret a
  | None => throw "TypeError: Cannot read properties of undefined"
  end.

End Helpers.

(** The decimal digits of a counter, as a template literal prints them. *)
Definition dec (n : nat) : string := NilZero.string_of_uint (Nat.to_uint n).

(* ===================================================================== *)
(** ** utils/wallet.ts *)
(* ===================================================================== *)

Module WalletManager.
Section WalletManager.
Context {Env : Type}.
Variable gw : Gateway Env.
Variable config : Config.

Definition WALLETS_DIR : string := "wallets".

Definition saveSeedPhrase : M Env unit :=
  s <- get ;;
  await (fs_writeFile gw (WALLETS_DIR +:+ "/seed.txt") (SeedFile (wm_seedPhrase s))).

Definition initialize : M Env unit :=
  await (fs_mkdir gw WALLETS_DIR) ;;;
  if String.eqb (wallet_seed config) "" then
    m <- await (generateMnemonic gw) ;;
    modify (set_wm_seedPhrase m) ;;;
    saveSeedPhrase
  else
    modify (set_wm_seedPhrase (wallet_seed config)).

Definition saveWalletInfo (wallet : Wallet) (category : string) : M Env unit :=
  let walletDir := WALLETS_DIR +:+ "/" +:+ category in
  await (fs_mkdir gw walletDir) ;;;
  let walletFile := walletDir +:+ "/wallet_" +:+ dec (Z.to_nat (index wallet)) +:+ ".json" in
  await (fs_writeFile gw walletFile
           (WalletInfoFile (address wallet) (publicKey wallet) (index wallet) (type wallet))) ;;;
  let keyFile := walletDir +:+ "/wallet_" +:+ dec (Z.to_nat (index wallet)) +:+ ".key" in
  await (fs_writeFile gw keyFile (KeyFile (privateKey wallet))).

(** [`m/44'/60'/0'/0/${i}`] *)
Definition fundingPath (i : nat) : string := "m/44'/60'/0'/0/" +:+ dec i.

(** [`m/44'/60'/1'/0/${i}`] *)
Definition volumePath (i : nat) : string := "m/44'/60'/1'/0/" +:+ dec i.

(** The body of the loop of [generateFundingWallets]. The call
    [fromPhrase(this.seedPhrase, derivationPath)] has two arguments: the
    second parameter of [fromPhrase] is the password, and the path, the
    third, is left to its default. *)
Definition fundingWalletAt (i : nat) : M Env Wallet :=
  s <- get ;;
  let derivationPath := fundingPath i in
  hdNode <- settled (fromPhrase gw (wm_seedPhrase s) derivationPath defaultPath) ;;
  let wallet := {| address := hd_address hdNode;
                   privateKey := hd_privateKey hdNode;
                   publicKey := hd_publicKey hdNode;
                   index := Z.of_nat i;
                   type := funding |} in
  saveWalletInfo wallet "funding" ;;;
  ret wallet.

(** Returns the array it stored in [this.fundingWallets]. *)
Definition generateFundingWallets (count : Z) : M Env loc :=
  ws <- mapM (fundingWalletAt) (seq 0 (Z.to_nat count)) ;;
  wallets <- newArray ws ;;
  modify (set_wm_fundingWallets wallets) ;;;
  ret wallets.

(** The body of the loop of [generateVolumeWallets]; the call of
    [fromPhrase] has two arguments here as well. *)
Definition volumeWalletAt (baseIndex : Z) (i : nat) : M Env Wallet :=
  s <- get ;;
  hdNode <- settled (fromPhrase gw (wm_seedPhrase s) (volumePath i) defaultPath) ;;
  let wallet := {| address := hd_address hdNode;
                   privateKey := hd_privateKey hdNode;
                   publicKey := hd_publicKey hdNode;
                   index := baseIndex + Z.of_nat i;
                   type := volume |} in
  saveWalletInfo wallet "volume" ;;;
  ret wallet.

Definition generateVolumeWallets (count : Z) : M Env loc :=
  s <- get ;;
  fws <- readArray (wm_fundingWallets s) ;;
  let baseIndex := Z.of_nat (length fws) in
  ws <- mapM (volumeWalletAt baseIndex) (seq 0 (Z.to_nat count)) ;;
  wallets <- newArray ws ;;
  modify (set_wm_volumeWallets wallets) ;;;
  ret wallets.

(** The three getters return a fresh array; the model returns its content. *)
Definition getFundingWallets : M Env (list Wallet) :=
  s <- get ;; readArray (wm_fundingWallets s).

Definition getVolumeWallets : M Env (list Wallet) :=
  s <- get ;; readArray (wm_volumeWallets s).

Definition getAllWallets : M Env (list Wallet) :=
  s <- get ;;
  fws <- readArray (wm_fundingWallets s) ;;
  vws <- readArray (wm_volumeWallets s) ;;
  ret (fws ++ vws).

(** [wallets[Math.floor(Math.random() * wallets.length)]] *)
Definition getRandomWallet (wallets : list Wallet) : M Env (option Wallet) :=
  r <- random gw ;;
  let index := Qfloor (r * inject_Z (Z.of_nat (length wallets))) in
  ret (if index <? 0 then None else wallets !! Z.to_nat index).

Definition verifyWalletIsolation : M Env bool := ret true.

End WalletManager.
End WalletManager.

(* ===================================================================== *)
(** ** contracts/nadfun.ts *)
(* ===================================================================== *)

Module NadFunContract.
Section NadFunContract.
Context {Env : Type}.
Variable gw : Gateway Env.
Variable config : Config.

(** The check the constructor makes. *)
Definition constructor : M Env unit :=
  if String.eqb (contracts_nadFun config) "" then
    throw "NAD_FUN_CONTRACT_ADDRESS not configured"
  else ret tt.

(** [contract.method(args, overrides)] on the contract connected to the
    signer: the transaction is populated and sent. *)
Definition invoke (wallet : Wallet) (data : CallData) (value : Z)
  : M Env (string * TransactionReceipt) :=
  tx <- populate gw (contracts_nadFun config) data value ;;
  sendAndWait gw wallet tx.

Definition createToken (wallet : Wallet) (tokenConfig : TokenConfig) : M Env string :=
  try_catch
    (sent <- invoke wallet
         (CreateToken (name tokenConfig) (symbol tokenConfig)
            (or_string (description tokenConfig) "")
            (or_string (imageUrl tokenConfig) "")) 0 ;;
     let receipt := snd sent in
     let tokenAddress :=
       match receipt_logs receipt with
       | l :: _ => log_address l
       | [] => ""
       end in
     ret tokenAddress)
    (fun error => throw error).

Definition buyToken (wallet : Wallet) (tokenAddress : string) (amountMon : Z) : M Env Z :=
  try_catch
    (sent <- invoke wallet (BuyToken tokenAddress amountMon) amountMon ;;
     let receipt := snd sent in
     let tokensReceived := 0 in
     ret tokensReceived)
    (fun error => throw error).

Definition sellToken (wallet : Wallet) (tokenAddress : string) (amountTokens : Z) : M Env Z :=
  try_catch
    (sent <- invoke wallet (SellToken tokenAddress amountTokens) 0 ;;
     let receipt := snd sent in
     let monReceived := 0 in
     ret monReceived)
    (fun error => throw error).

Definition getBondingCurveStatus (tokenAddress : string) : M Env BondingCurveStatus :=
  try_catch
    (result <- await (call_getBondingCurveStatus gw tokenAddress) ;;
     ret {| liquidity := liquidity result;
            threshold := threshold result;
            isComplete := isComplete result |})
    (fun error => throw error).

Definition getTokenPrice (tokenAddress : string) : M Env Z :=
  try_catch (await (call_getTokenPrice gw tokenAddress)) (fun error => throw error).

Definition getTokenBalance (tokenAddress walletAddress : string) : M Env Z :=
  try_catch (await (call_getTokenBalance gw tokenAddress walletAddress))
            (fun error => throw error).

Definition getMonBalance (walletAddress : string) : M Env Z :=
  try_catch (await (getBalance gw walletAddress)) (fun error => throw error).

Definition transferMon (fromWallet : Wallet) (toAddress : string) (amount : Z) : M Env string :=
  try_catch
    (sent <- sendAndWait gw fromWallet
         {| tx_to := toAddress; tx_data := NoData; tx_value := amount |} ;;
     let receipt := snd sent in
     ret (receipt_hash receipt))
    (fun error => throw error).

End NadFunContract.
End NadFunContract.

(* ===================================================================== *)
(** ** bundler/transactionBundler.ts *)
(* ===================================================================== *)

Module TransactionBundler.
Section TransactionBundler.
Context {Env : Type}.
Variable gw : Gateway Env.
Variable config : Config.

Definition constructor : M Env unit := NadFunContract.constructor config.

Definition createBuyTransaction (signer : Wallet) (tokenAddress : string) (amountMon : Z)
  : M Env TransactionRequest :=
  populate gw (contracts_nadFun config) (BuyToken tokenAddress amountMon) amountMon.

(** The loop over [receipt.logs] has an empty body. *)
Definition extractTokenAddress (receipt : option TransactionReceipt) : option string :=
  match receipt with
  | None => None
  | Some r =>
      let _ := fold_left (fun (u : unit) (log : Log) => u) (receipt_logs r) tt in
      None
  end.

(** The loop of [submitToBundler]; the two arrays it fills are the
    accumulators. *)
Fixpoint submitEach (txs : list TransactionRequest) (signer : Wallet)
    (transactions_serialized signatures : list string) : M Env TransactionBundle :=
  match txs with
  | [] => ret {| transactions := transactions_serialized; signatures := signatures |}
  | tx :: txs' =>
      signedTx <- await (signTransaction gw signer tx) ;;
      sent <- sendAndWait gw signer tx ;;
      let hash := fst sent in
      submitEach txs' signer (transactions_serialized ++ [signedTx]) (signatures ++ [hash])
  end.

Definition submitToBundler (txs : list TransactionRequest) (signer : Wallet)
  : M Env TransactionBundle :=
  submitEach txs signer [] [].

(** [if (tokenAddress)]: neither null nor the empty string. *)
Definition truthy (a : option string) : option string :=
  match a with
  | Some x => if String.eqb x "" then None else Some x
  | None => None
  end.

Definition bundleTokenCreationAndBuy (fundingWallet : option Wallet)
    (tokenConfig : TokenConfig) (buyAmountMon : Z) : M Env TransactionBundle :=
  signer <- defined fundingWallet ;;
  try_catch
    (createTx <- populate gw (contracts_nadFun config)
                   (CreateToken (name tokenConfig) (symbol tokenConfig)
                      (or_string (description tokenConfig) "")
                      (or_string (imageUrl tokenConfig) "")) 0 ;;
     if negb (String.eqb (monad_bundlerRpcUrl config) "") then
       submitToBundler [createTx] signer
     else
       sent <- sendAndWait gw signer createTx ;;
       let createHash := fst sent in
       receipt <- await (getTransactionReceipt gw createHash) ;;
       let tokenAddress := extractTokenAddress receipt in
       match truthy tokenAddress with
       | Some tokenAddress =>
           buyTx <- createBuyTransaction signer tokenAddress buyAmountMon ;;
           bought <- sendAndWait gw signer buyTx ;;
           let buyHash := fst bought in
           ret {| transactions := [createHash; buyHash];
                  signatures := [createHash; buyHash] |}
       | None => ret {| transactions := []; signatures := [] |}
       end)
    (fun error => throw error).

(** The callback of [wallets.map] in [bundleMultipleBuys]: the buy of
    wallet number [index], for [amounts[index]]. The callbacks only read
    the world; [Promise.all] over them is taken in index order. *)
Definition populateBuy (tokenAddress : string) (amounts : list Z) (index : nat)
  : M Env TransactionRequest :=
  match amounts !! index with
  | Some amount =>
      populate gw (contracts_nadFun config) (BuyToken tokenAddress amount) amount
  | None => throw "invalid BigNumberish value"
  end.

(** The sequential loop of [bundleMultipleBuys] from wallet number [i] on;
    [transactions] and [signatures] are the two arrays filled so far. *)
Fixpoint submitSequentially (wallets : list Wallet) (txs : list TransactionRequest)
    (transactions signatures : list string) : M Env TransactionBundle :=
  match wallets, txs with
  | wallet :: wallets', tx :: txs' =>
      sent <- sendAndWait gw wallet tx ;;
      let hash := fst sent in
      sleep gw 100 ;;;
      submitSequentially wallets' txs' (transactions ++ [hash]) (signatures ++ [hash])
  | _, _ => ret {| transactions := transactions; signatures := signatures |}
  end.

Definition bundleMultipleBuys (wallets : list Wallet) (tokenAddress : string)
    (amounts : list Z) : M Env TransactionBundle :=
  txs <- mapM (populateBuy tokenAddress amounts) (seq 0 (length wallets)) ;;
  if negb (String.eqb (monad_bundlerRpcUrl config) "") then
    signer <- defined (wallets !! 0%nat) ;;
    submitToBundler txs signer
  else
    submitSequentially wallets txs [] [].

End TransactionBundler.
End TransactionBundler.

(* ===================================================================== *)
(** ** bot/volumeBot.ts *)
(* ===================================================================== *)

Module VolumeBot.
Section VolumeBot.
Context {Env : Type}.
Variable gw : Gateway Env.
Variable config : Config.

Definition constructor (tokenAddress : string) : VolumeBot :=
  {| vb_tokenAddress := tokenAddress;
     vb_isRunning := false;
     vb_tradeInterval := None;
     vb_tradeHistory := [] |}.

(** The bot the orchestrator holds. *)
Definition this : M Env VolumeBot :=
  s <- get ;; defined (orch_volumeBot s).

Definition set_isRunning (b : bool) : M Env unit :=
  modify (set_orch_volumeBot (option_map (fun vb =>
    {| vb_tokenAddress := vb_tokenAddress vb; vb_isRunning := b;
       vb_tradeInterval := vb_tradeInterval vb;
       vb_tradeHistory := vb_tradeHistory vb |}))).

Definition set_tradeInterval (t : option Timer) : M Env unit :=
  modify (set_orch_volumeBot (option_map (fun vb =>
    {| vb_tokenAddress := vb_tokenAddress vb; vb_isRunning := vb_isRunning vb;
       vb_tradeInterval := t;
       vb_tradeHistory := vb_tradeHistory vb |}))).

(** [this.tradeHistory.push(order)] *)
Definition push_order (order : TradeOrder) : M Env unit :=
  modify (set_orch_volumeBot (option_map (fun vb =>
    {| vb_tokenAddress := vb_tokenAddress vb; vb_isRunning := vb_isRunning vb;
       vb_tradeInterval := vb_tradeInterval vb;
       vb_tradeHistory := vb_tradeHistory vb ++ [order] |}))).

Definition getRandomInterval : M Env Z :=
  let min := volume_minTradeIntervalMs config in
  let max := volume_maxTradeIntervalMs config in
  r <- random gw ;;
  ret (Qfloor (r * inject_Z (max - min + 1)) + min).

Definition getRandomTradeAmount : M Env Q :=
  let min := volume_tradeAmountMinMon config in
  let max := volume_tradeAmountMaxMon config in
  r <- random gw ;;
  ret (r * (max - min) + min)%Q.

Definition executeBuy (wallet : option Wallet) (amountMon : Q) : M Env unit :=
  wallet <- defined wallet ;;
  vb <- this ;;
  amountMonBigInt <- settled (parseEther_of_number gw amountMon) ;;
  balance <- NadFunContract.getMonBalance gw (address wallet) ;;
  if balance <? amountMonBigInt then ret tt
  else
    NadFunContract.buyToken gw config wallet (vb_tokenAddress vb) amountMonBigInt ;;;
    date <- now gw ;;
    let order := {| order_wallet := wallet;
                    order_type := buy;
                    amountMon := amountMon;
                    order_tokenAddress := vb_tokenAddress vb;
                    timestamp := date |} in
    push_order order.

Definition executeSell (wallet : option Wallet) (amountMon : Q) : M Env unit :=
  wallet <- defined wallet ;;
  vb <- this ;;
  tokenBalance <- NadFunContract.getTokenBalance gw (vb_tokenAddress vb) (address wallet) ;;
  if tokenBalance =? 0 then ret tt
  else
    tokenPrice <- NadFunContract.getTokenPrice gw (vb_tokenAddress vb) ;;
    amountMonBigInt <- settled (parseEther_of_number gw amountMon) ;;
    (if tokenPrice =? 0 then throw "RangeError: Division by zero" else ret tt) ;;;
    let tokensToSell := Z.quot (amountMonBigInt * 10 ^ 18) tokenPrice in
    (if tokenBalance <? tokensToSell then
       NadFunContract.sellToken gw config wallet (vb_tokenAddress vb) tokenBalance
     else
       NadFunContract.sellToken gw config wallet (vb_tokenAddress vb) tokensToSell) ;;;
    date <- now gw ;;
    let order := {| order_wallet := wallet;
                    order_type := sell;
                    amountMon := amountMon;
                    order_tokenAddress := vb_tokenAddress vb;
                    timestamp := date |} in
    push_order order.

Definition executeRandomTrade (wallets : list Wallet) : M Env unit :=
  wallet <- WalletManager.getRandomWallet gw wallets ;;
  r <- random gw ;;
  let tradeType := if Qle_bool r (1 # 2) then sell else buy in
  amountMon <- getRandomTradeAmount ;;
  try_catch
    (match tradeType with
     | buy => executeBuy wallet amountMon
     | sell => executeSell wallet amountMon
     end)
    (fun error => ret tt).

(** [setTimeout] registers the callback; [timerFired] below runs it. *)
Definition scheduleNextTrade (wallets : list Wallet) : M Env unit :=
  vb <- this ;;
  if negb (vb_isRunning vb) then ret tt
  else
    interval <- getRandomInterval ;;
    emit (EvSetTimeout interval) ;;;
    set_tradeInterval (Some {| timer_delay := interval; timer_wallets := wallets |}).

(** The callback given to [setTimeout], run when the pending timer fires. *)
Definition timerFired : M Env unit :=
  vb <- this ;;
  match vb_tradeInterval vb with
  | None => ret tt
  | Some timer =>
      set_tradeInterval None ;;;
      modify (set_env (elapse gw (timer_delay timer))) ;;;
      try_catch (executeRandomTrade (timer_wallets timer)) (fun error => ret tt) ;;;
      scheduleNextTrade (timer_wallets timer)
  end.

Definition start : M Env unit :=
  vb <- this ;;
  if vb_isRunning vb then ret tt
  else
    volumeWallets <- WalletManager.getVolumeWallets ;;
    if (length volumeWallets =? 0)%nat then throw "No volume wallets available"
    else
      set_isRunning true ;;;
      scheduleNextTrade volumeWallets.

Definition stop : M Env unit :=
  vb <- this ;;
  set_isRunning false ;;;
  match vb_tradeInterval vb with
  | Some _ => emit EvClearTimeout ;;; set_tradeInterval None
  | None => ret tt
  end.

Definition getTradeHistory : M Env (list TradeOrder) :=
  vb <- this ;; ret (vb_tradeHistory vb).

Definition getTotalVolume : M Env Q :=
  vb <- this ;;
  ret (fold_left (fun sum order => (sum + amountMon order)%Q) (vb_tradeHistory vb) (0 # 1)).

End VolumeBot.
End VolumeBot.

(* ===================================================================== *)
(** ** bot/recovery.ts *)
(* ===================================================================== *)

Module RecoveryManager.
Section RecoveryManager.
Context {Env : Type}.
Variable gw : Gateway Env.
Variable config : Config.

Definition constructor (tokenAddress : string) : M Env RecoveryManager :=
  let recoveryAddress := recovery_walletAddress config in
  if String.eqb recoveryAddress "" then
    throw "Recovery wallet address not configured"
  else
    ret {| rm_tokenAddress := tokenAddress; rm_recoveryAddress := recoveryAddress |}.

(** [ethers.parseEther('0.001')] *)
Definition gasReserve : Z := 10 ^ 15.

Definition recoverFromWallet (this : RecoveryManager) (wallet : Wallet) : M Env Z :=
  let totalRecovered := 0 in
  tokenBalance <- NadFunContract.getTokenBalance gw (rm_tokenAddress this) (address wallet) ;;
  totalRecovered <-
    (if 0 <? tokenBalance then
       try_catch
         (monReceived <- NadFunContract.sellToken gw config wallet
                           (rm_tokenAddress this) tokenBalance ;;
          ret (totalRecovered + monReceived))
         (fun error => ret totalRecovered)
     else ret totalRecovered) ;;
  monBalance <- NadFunContract.getMonBalance gw (address wallet) ;;
  if 0 <? monBalance then
    let transferAmount :=
      if gasReserve <? monBalance then monBalance - gasReserve else 0 in
    if 0 <? transferAmount then
      try_catch
        (NadFunContract.transferMon gw wallet (rm_recoveryAddress this) transferAmount ;;;
         ret (totalRecovered + transferAmount))
        (fun error => ret totalRecovered)
    else ret totalRecovered
  else ret totalRecovered.

(** The loop of [executeRecovery], with the two counters it updates. *)
Fixpoint sweep (this : RecoveryManager) (wallets : list Wallet)
    (totalMonRecovered : Z) (walletsProcessed : Z) : M Env (Z * Z) :=
  match wallets with
  | [] => ret (totalMonRecovered, walletsProcessed)
  | wallet :: rest =>
      counters <-
        try_catch
          (recovered <- recoverFromWallet this wallet ;;
           let totalMonRecovered := totalMonRecovered + recovered in
           let walletsProcessed := walletsProcessed + 1 in
           (* the awaited timer always resolves *)
           sleep gw 1000 ;;;
           ret (totalMonRecovered, walletsProcessed))
          (fun error => ret (totalMonRecovered, walletsProcessed)) ;;
      sweep this rest (fst counters) (snd counters)
  end.

(** Returns [(totalMonRecovered, walletsProcessed)]. *)
Definition executeRecovery (this : RecoveryManager) : M Env (Z * Z) :=
  allWallets <- WalletManager.getAllWallets ;;
  sweep this allWallets 0 0.

Definition shouldRecover (this : RecoveryManager) (expectedDemand : Q) : M Env bool :=
  currentPrice <- NadFunContract.getTokenPrice gw (rm_tokenAddress this) ;;
  ret false.

End RecoveryManager.
End RecoveryManager.

(* ===================================================================== *)
(** ** bot/orchestrator.ts *)
(* ===================================================================== *)

(** A [number] that results from a division: [None] stands for [Infinity]
    and [NaN]. *)
Definition number := option Q.

(** [a / n] for a count [n]. *)
Definition div_count (a : number) (n : nat) : number :=
  match a with
  | Some x => if (n =? 0)%nat then None else Some (x / inject_Z (Z.of_nat n))%Q
  | None => None
  end.

Definition sub (a b : number) : number :=
  match a, b with
  | Some x, Some y => Some (x - y)%Q
  | _, _ => None
  end.

Module BotOrchestrator.
Section BotOrchestrator.
Context {Env : Type}.
Variable gw : Gateway Env.
Variable config : Config.

(** [new BotOrchestrator()] in the world [e]: the wallet manager with its
    two empty arrays, the two constructors that check the configuration,
    and the initial state with two empty arrays of its own. *)
Definition constructor (e : Env) : result (Sys Env) :=
  let s0 := {| env := e; trace := [];
               arrays := <[1%nat := []]> (<[0%nat := []]> ∅);
               states := ∅;
               wm_fundingWallets := 0%nat; wm_volumeWallets := 1%nat;
               wm_seedPhrase := "";
               orch_state := 0%nat;
               orch_volumeBot := None; orch_recoveryManager := None |} in
  fst ((NadFunContract.constructor config ;;;
   TransactionBundler.constructor config ;;;
   fundingWallets <- newArray [] ;;
   volumeWallets <- newArray [] ;;
   modify (set_states (fun h =>
     <[0%nat := {| phase := idle;
                   tokenAddress := None;
                   fundingWallets := fundingWallets;
                   volumeWallets := volumeWallets;
                   totalMonDeposited := 0 # 1;
                   bondingCurveComplete := false;
                   volumeGenerated := 0 # 1;
                   startTime := None |}]> h)) ;;;
   get) s0).

(** [this.state] *)
Definition readState : M Env BotState :=
  s <- get ;; defined (states s !! orch_state s).

(** An assignment to a field of [this.state]. *)
Definition writeState (f : BotState -> BotState) : M Env unit :=
  modify (fun s => set_states (fun h => alter f (orch_state s) h) s).

Definition with_phase (p : Phase) (st : BotState) : BotState :=
  {| phase := p; tokenAddress := tokenAddress st;
     fundingWallets := fundingWallets st; volumeWallets := volumeWallets st;
     totalMonDeposited := totalMonDeposited st;
     bondingCurveComplete := bondingCurveComplete st;
     volumeGenerated := volumeGenerated st; startTime := startTime st |}.

Definition with_tokenAddress (a : option string) (st : BotState) : BotState :=
  {| phase := phase st; tokenAddress := a;
     fundingWallets := fundingWallets st; volumeWallets := volumeWallets st;
     totalMonDeposited := totalMonDeposited st;
     bondingCurveComplete := bondingCurveComplete st;
     volumeGenerated := volumeGenerated st; startTime := startTime st |}.

Definition with_fundingWallets (l : loc) (st : BotState) : BotState :=
  {| phase := phase st; tokenAddress := tokenAddress st;
     fundingWallets := l; volumeWallets := volumeWallets st;
     totalMonDeposited := totalMonDeposited st;
     bondingCurveComplete := bondingCurveComplete st;
     volumeGenerated := volumeGenerated st; startTime := startTime st |}.

Definition with_volumeWallets (l : loc) (st : BotState) : BotState :=
  {| phase := phase st; tokenAddress := tokenAddress st;
     fundingWallets := fundingWallets st; volumeWallets := l;
     totalMonDeposited := totalMonDeposited st;
     bondingCurveComplete := bondingCurveComplete st;
     volumeGenerated := volumeGenerated st; startTime := startTime st |}.

Definition with_totalMonDeposited (q : Q) (st : BotState) : BotState :=
  {| phase := phase st; tokenAddress := tokenAddress st;
     fundingWallets := fundingWallets st; volumeWallets := volumeWallets st;
     totalMonDeposited := q;
     bondingCurveComplete := bondingCurveComplete st;
     volumeGenerated := volumeGenerated st; startTime := startTime st |}.

Definition with_bondingCurveComplete (b : bool) (st : BotState) : BotState :=
  {| phase := phase st; tokenAddress := tokenAddress st;
     fundingWallets := fundingWallets st; volumeWallets := volumeWallets st;
     totalMonDeposited := totalMonDeposited st;
     bondingCurveComplete := b;
     volumeGenerated := volumeGenerated st; startTime := startTime st |}.

Definition initialize : M Env unit := WalletManager.initialize gw config.

Definition phase1_GenerateFundingWallets : M Env unit :=
  writeState (with_phase phase_funding) ;;;
  let walletCount := bondingCurve_walletCount config in
  wallets <- WalletManager.generateFundingWallets gw walletCount ;;
  writeState (with_fundingWallets wallets) ;;;
  isIsolated <- WalletManager.verifyWalletIsolation ;;
  ret tt.

(** [ethers.parseEther(x.toString())]; ["Infinity"] and ["NaN"] are refused. *)
Definition parseEther (x : number) : M Env Z :=
  match x with
  | Some q => settled (parseEther_of_number gw q)
  | None => throw "invalid FixedNumber string value"
  end.

(** [targetMon / fundingWallets.length] *)
Definition monPerWallet (targetMon : Q) (walletCount : nat) : number :=
  div_count (Some targetMon) walletCount.

(** [(targetMon - monPerWallet) / remainingWallets.length], the remaining
    wallets being all but the first. *)
Definition amountPerRemainingWallet (targetMon : Q) (walletCount : nat) : number :=
  let remainingAmount := sub (Some targetMon) (monPerWallet targetMon walletCount) in
  div_count remainingAmount (walletCount - 1).

Definition phase2_FundBondingCurve (tokenConfig : TokenConfig) : M Env unit :=
  writeState (with_phase bonding) ;;;
  st <- readState ;;
  fundingWallets <- readArray (fundingWallets st) ;;
  let targetMon := bondingCurve_targetMon config in
  let monPerWallet := monPerWallet targetMon (length fundingWallets) in
  let firstWallet := fundingWallets !! 0%nat in
  firstBuyAmount <- parseEther monPerWallet ;;
  TransactionBundler.bundleTokenCreationAndBuy gw config firstWallet tokenConfig firstBuyAmount ;;;
  let tokenAddress := "" in
  writeState (with_tokenAddress (Some tokenAddress)) ;;;
  let remainingWallets := drop 1 fundingWallets in
  let amountPerRemainingWallet := amountPerRemainingWallet targetMon (length fundingWallets) in
  buyAmounts <- mapM (fun _ => parseEther amountPerRemainingWallet) remainingWallets ;;
  TransactionBundler.bundleMultipleBuys gw config remainingWallets tokenAddress buyAmounts ;;;
  writeState (with_totalMonDeposited targetMon).

(** [!this.state.tokenAddress] fails for a non-empty string only. *)
Definition tokenAddressSet (st : BotState) : option string :=
  TransactionBundler.truthy (tokenAddress st).

Definition pollInterval : Z := 30000.
Definition maxWaitTime : Z := 3600000.

(** The [while] loop of [phase3_WaitForBondingCurve], for at most [fuel]
    evaluations of its condition. *)
Fixpoint pollLoop (fuel : nat) (startTime : Z) : M Env unit :=
  match fuel with
  | O => fun s => (OutOfFuel, s)
  | S fuel' =>
      date <- now gw ;;
      if date - startTime <? maxWaitTime then
        st <- readState ;;
        emit (EvPoll (default "" (tokenAddress st)) date) ;;;
        status <- NadFunContract.getBondingCurveStatus gw (default "" (tokenAddress st)) ;;
        if isComplete status then
          writeState (with_bondingCurveComplete true)
        else
          sleep gw pollInterval ;;;
          pollLoop fuel' startTime
      else
        throw "Bonding curve did not complete within timeout"
  end.

Definition phase3_WaitForBondingCurve (fuel : nat) : M Env unit :=
  st <- readState ;;
  match tokenAddressSet st with
  | None => throw "Token address not set"
  | Some _ =>
      startTime <- now gw ;;
      pollLoop fuel startTime
  end.

(** The loop of [fundVolumeWallets] from volume wallet number [i] on. *)
Fixpoint fundEach (fundingWallets : list Wallet) (monPerWallet : Q)
    (wallets : list Wallet) (i : nat) : M Env unit :=
  match wallets with
  | [] => ret tt
  | volumeWallet :: rest =>
      let fundingWallet :=
        if (length fundingWallets =? 0)%nat then None
        else fundingWallets !! (i mod length fundingWallets)%nat in
      amount <- parseEther (Some monPerWallet) ;;
      fundingWallet <- defined fundingWallet ;;
      NadFunContract.transferMon gw fundingWallet (address volumeWallet) amount ;;;
      sleep gw 500 ;;;
      fundEach fundingWallets monPerWallet rest (S i)
  end.

Definition fundVolumeWallets (wallets : list Wallet) : M Env unit :=
  let avgTradeAmount :=
    ((volume_tradeAmountMinMon config + volume_tradeAmountMaxMon config) / (2 # 1))%Q in
  let monPerWallet := (avgTradeAmount * (10 # 1))%Q in
  st <- readState ;;
  all <- readArray (fundingWallets st) ;;
  let fundingWallets := take (Nat.min 10 (length all)) all in
  fundEach fundingWallets monPerWallet wallets 0.

Definition phase4_StartVolumeGeneration : M Env unit :=
  writeState (with_phase phase_volume) ;;;
  volumeWallets <- WalletManager.generateVolumeWallets gw (volume_walletCount config) ;;
  writeState (with_volumeWallets volumeWallets) ;;;
  ws <- readArray volumeWallets ;;
  fundVolumeWallets ws ;;;
  st <- readState ;;
  match tokenAddressSet st with
  | None => throw "Token address not set"
  | Some tokenAddress =>
      modify (set_orch_volumeBot (fun _ => Some (VolumeBot.constructor tokenAddress))) ;;;
      VolumeBot.start gw config
  end.

Definition execute (tokenConfig : TokenConfig) (fuel : nat) : M Env unit :=
  try_catch
    (phase1_GenerateFundingWallets ;;;
     phase2_FundBondingCurve tokenConfig ;;;
     phase3_WaitForBondingCurve fuel ;;;
     phase4_StartVolumeGeneration)
    (fun error => throw error).

Definition stopVolumeBot : M Env unit :=
  s <- get ;;
  match orch_volumeBot s with
  | Some _ => VolumeBot.stop
  | None => ret tt
  end.

Definition triggerRecovery (expectedDemand : Q) : M Env unit :=
  writeState (with_phase phase_recovery) ;;;
  st <- readState ;;
  match tokenAddressSet st with
  | None => throw "Token address not set"
  | Some tokenAddress =>
      stopVolumeBot ;;;
      recoveryManager <- RecoveryManager.constructor config tokenAddress ;;
      modify (set_orch_recoveryManager (Some recoveryManager)) ;;;
      result <- RecoveryManager.executeRecovery gw config recoveryManager ;;
      writeState (with_phase completed)
  end.

(** [{ ...this.state }]: a new object with the fields of [this.state]. *)
Definition getState : M Env loc :=
  st <- readState ;;
  fun s =>
    let l := fresh (dom (states s)) in
    (Ok l, set_states (fun h => <[l := st]> h) s).

Definition stop : M Env unit := stopVolumeBot.

End BotOrchestrator.
End BotOrchestrator.

(* ===================================================================== *)
(** ** What a reader of [getState] can do with the object it received *)
(* ===================================================================== *)

Section Reader.
Context {Env : Type}.

(** [snapshot.fundingWallets.push(w)] and the like: [push] on the array
    at [l]. *)
Definition array_push (l : loc) (w : Wallet) : M Env unit :=
  modify (set_arrays (fun h => alter (fun ws => ws ++ [w]) l h)).

(** [snapshot.field = v]: an assignment to a field of the object at [l]. *)
Definition object_assign (l : loc) (f : BotState -> BotState) : M Env unit :=
  modify (set_states (fun h => alter f l h)).

(** The orchestrator's own state with its arrays read out: phase, token
    address, funding wallets, volume wallets. *)
Definition internalView (s : Sys Env)
  : option (Phase * option string * list Wallet * list Wallet) :=
  match states s !! orch_state s with
  | Some st =>
      Some (phase st, tokenAddress st,
            default [] (arrays s !! fundingWallets st),
            default [] (arrays s !! volumeWallets st))
  | None => None
  end.

End Reader.

(* ===================================================================== *)
(** ** A scripted outside world, to run the program on *)
(* ===================================================================== *)

Module Script.

Record World := {
  clock : Z;                         (* Date.now() *)
  randoms : list Q;                  (* what Math.random() returns next *)
  hashes : nat;                      (* transactions sent so far *)
  monOf : string -> Z;               (* MON balance of an address *)
  tokensOf : string -> Z;            (* token balance of an address *)
  price : Z;                         (* token price *)
  completeAt : option Z;             (* when the bonding curve completes *)
  refuses : Wallet -> TransactionRequest -> bool;  (* sends the node rejects *)
  creationLogs : list Log            (* logs of a creation receipt *)
}.

Definition tick (f : Z -> Z) (w : World) : World :=
  {| clock := f (clock w); randoms := randoms w; hashes := hashes w;
     monOf := monOf w; tokensOf := tokensOf w; price := price w;
     completeAt := completeAt w; refuses := refuses w;
     creationLogs := creationLogs w |}.

Definition sent (w : World) : World :=
  {| clock := clock w; randoms := randoms w; hashes := S (hashes w);
     monOf := monOf w; tokensOf := tokensOf w; price := price w;
     completeAt := completeAt w; refuses := refuses w;
     creationLogs := creationLogs w |}.

Definition drawn (w : World) : World :=
  {| clock := clock w; randoms := tail (randoms w); hashes := hashes w;
     monOf := monOf w; tokensOf := tokensOf w; price := price w;
     completeAt := completeAt w; refuses := refuses w;
     creationLogs := creationLogs w |}.

Definition hashOf (n : nat) : string := "0x" +:+ dec n.

Definition wei (q : Q) : answer Z :=
  let r := Qred (q * inject_Z (10 ^ 18)) in
  if (Qden r =? 1)%positive then Resolved (Qnum r)
  else Rejected "too many decimals".

(** A scripted number that is not of [[0, 1)] is replaced by 0. *)
Definition unit_interval (r : Q) : Q :=
  if Qle_bool (0 # 1) r && negb (Qle_bool (1 # 1) r) then r else 0 # 1.

(** The name of the account of a mnemonic with a password at a path: at
    the default path, the mnemonic and the password; elsewhere, the path in
    front of them. *)
Definition account (phrase password path : string) : string :=
  if String.eqb path defaultPath then phrase +:+ "@" +:+ password
  else path +:+ ":" +:+ phrase +:+ "@" +:+ password.

Definition gateway : Gateway World := {|
  fromPhrase := fun phrase password path =>
    if String.eqb phrase "" then Rejected "invalid mnemonic"
    else Resolved {| hd_address := account phrase password path;
                     hd_privateKey := "key:" +:+ account phrase password path;
                     hd_publicKey := "pub:" +:+ account phrase password path |};
  generateMnemonic := fun w => (Resolved "fresh seed", w);
  fs_mkdir := fun _ w => (Resolved tt, w);
  fs_writeFile := fun _ _ w => (Resolved tt, w);
  populateTransaction := fun contract data value w => Resolved tt;
  sendTransaction := fun signer tx w =>
    if refuses w signer tx then (Rejected "transaction rejected", w)
    else (Resolved (hashOf (hashes w)), sent w);
  wait := fun hash w =>
    (Resolved {| receipt_hash := hash; receipt_logs := [] |}, w);
  getTransactionReceipt := fun hash w =>
    (Resolved (Some {| receipt_hash := hash; receipt_logs := creationLogs w |}), w);
  signTransaction := fun signer tx w => (Resolved ("signed:" +:+ address signer), w);
  call_getBondingCurveStatus := fun token w =>
    (Resolved {| liquidity := 0; threshold := 0;
                 isComplete := match completeAt w with
                               | Some t => t <=? clock w
                               | None => false
                               end |}, w);
  call_getTokenPrice := fun token w => (Resolved (price w), w);
  call_getTokenBalance := fun token a w => (Resolved (tokensOf w a), w);
  getBalance := fun a w => (Resolved (monOf w a), w);
  Date_now := clock;
  elapse := fun ms w => tick (fun t => t + ms) w;
  Math_random := fun w => (unit_interval (hd (0 # 1) (randoms w)), drawn w);
  parseEther_of_number := wei
|}.

(** A quiet world: the clock at 0, no balances, nothing refused. *)
Definition quiet : World := {|
  clock := 0; randoms := []; hashes := 0;
  monOf := fun _ => 0; tokensOf := fun _ => 0; price := 1;
  completeAt := None; refuses := fun _ _ => false; creationLogs := []
|}.

(** A configuration with the contract, the recovery address and a seed
    set, and the defaults of [config.ts] otherwise. *)
Definition processEnv : ProcessEnv := {|
  MONAD_RPC_URL := None; BUNDLER_RPC_URL := None;
  BONDING_CURVE_TARGET_MON := None; FUNDING_WALLET_COUNT := None;
  MIN_FUNDING_WALLETS := None; MAX_FUNDING_WALLETS := None;
  VOLUME_WALLET_COUNT := None; MIN_TRADE_INTERVAL_MS := None;
  MAX_TRADE_INTERVAL_MS := None; TRADE_AMOUNT_MIN_MON := None;
  TRADE_AMOUNT_MAX_MON := None;
  NAD_FUN_CONTRACT_ADDRESS := Some "0xNADFUN";
  BONDING_CURVE_CONTRACT_ADDRESS := None;
  RECOVERY_WALLET_ADDRESS := Some "0xRECOVERY";
  FUNDING_WALLET_SEED := Some "seed"
|}.

Definition withFundingCount (n : Z) (e : ProcessEnv) : ProcessEnv := {|
  MONAD_RPC_URL := MONAD_RPC_URL e; BUNDLER_RPC_URL := BUNDLER_RPC_URL e;
  BONDING_CURVE_TARGET_MON := BONDING_CURVE_TARGET_MON e;
  FUNDING_WALLET_COUNT := Some n;
  MIN_FUNDING_WALLETS := MIN_FUNDING_WALLETS e;
  MAX_FUNDING_WALLETS := MAX_FUNDING_WALLETS e;
  VOLUME_WALLET_COUNT := VOLUME_WALLET_COUNT e;
  MIN_TRADE_INTERVAL_MS := MIN_TRADE_INTERVAL_MS e;
  MAX_TRADE_INTERVAL_MS := MAX_TRADE_INTERVAL_MS e;
  TRADE_AMOUNT_MIN_MON := TRADE_AMOUNT_MIN_MON e;
  TRADE_AMOUNT_MAX_MON := TRADE_AMOUNT_MAX_MON e;
  NAD_FUN_CONTRACT_ADDRESS := NAD_FUN_CONTRACT_ADDRESS e;
  BONDING_CURVE_CONTRACT_ADDRESS := BONDING_CURVE_CONTRACT_ADDRESS e;
  RECOVERY_WALLET_ADDRESS := RECOVERY_WALLET_ADDRESS e;
  FUNDING_WALLET_SEED := FUNDING_WALLET_SEED e
|}.

(** Runs [m] from the state [s], then [k] from the state [m] left. *)
Definition andThen {A B} (r : result A * Sys World) (k : M World B) : result B * Sys World :=
  match r with
  | (Ok _, s) => k s
  | (Err e, s) => (Err e, s)
  | (OutOfFuel, s) => (OutOfFuel, s)
  end.

(** [new BotOrchestrator()] followed by [initialize()] and the first phase. *)
Definition afterPhase1 (config : Config) (w : World) : result unit * Sys World :=
  match BotOrchestrator.constructor config w with
  | Ok s =>
      andThen (BotOrchestrator.initialize gateway config s)
              (BotOrchestrator.phase1_GenerateFundingWallets gateway config)
  | Err e => (Err e, {| env := w; trace := []; arrays := ∅; states := ∅;
                        wm_fundingWallets := 0%nat; wm_volumeWallets := 0%nat;
                        wm_seedPhrase := ""; orch_state := 0%nat;
                        orch_volumeBot := None; orch_recoveryManager := None |})
  | OutOfFuel => (OutOfFuel, {| env := w; trace := []; arrays := ∅; states := ∅;
                        wm_fundingWallets := 0%nat; wm_volumeWallets := 0%nat;
                        wm_seedPhrase := ""; orch_state := 0%nat;
                        orch_volumeBot := None; orch_recoveryManager := None |})
  end.

End Script.

(* ===================================================================== *)
(** ** Vocabulary of the statements *)
(* ===================================================================== *)

(** [wp m Q s]: running [m] from [s] ends in a result and a state that
    satisfy [Q]. *)
Definition wp {Env A} (m : M Env A) (Q : result A -> Sys Env -> Prop) (s : Sys Env) : Prop :=
  Q (fst (m s)) (snd (m s)).

(** The amounts of the buys a trace records, oldest first. *)
Definition buyValues (t : list Event) : list Z :=
  rev (omap (fun ev =>
              match ev with
              | EvTx _ {| tx_data := BuyToken _ _; tx_value := v |} _ => Some v
              | _ => None
              end) t).

(** The two divisions of [phase2_FundBondingCurve] on doubles. *)
Definition monPerWallet_double (targetMon walletCount : float) : float :=
  (targetMon / walletCount)%float.

Definition amountPerRemainingWallet_double (targetMon walletCount : float) : float :=
  ((targetMon - monPerWallet_double targetMon walletCount) / (walletCount - 1))%float.

(** The segments of a derivation path, split at ["/"]; [acc] is the segment
    being read. *)
Fixpoint segmentsFrom (acc : string) (path : string) : list string :=
  match path with
  | EmptyString => [acc]
  | String c rest =>
      if Ascii.eqb c "/"%char then acc :: segmentsFrom "" rest
      else segmentsFrom (acc +:+ String c "") rest
  end.

Definition segments (path : string) : list string := segmentsFrom "" path.

(** In [m / purpose' / coin_type' / account' / change / address_index], the
    segment number 3 is the account. *)
Definition accountSegment (path : string) : option string := segments path !! 3%nat.

(** [w] is what [fromPhrase] derives from the mnemonic [seed] with the
    password [password] at [path]. *)
Definition derivedAt {Env} (gw : Gateway Env) (seed password path : string) (w : Wallet)
  : Prop :=
  exists node, fromPhrase gw seed password path = Resolved node /\
               address w = hd_address node /\
               privateKey w = hd_privateKey node /\
               publicKey w = hd_publicKey node.

(** The longest common prefix of two lists of segments. *)
Fixpoint commonPrefix (a b : list string) : list string :=
  match a, b with
  | x :: a', y :: b' => if String.eqb x y then x :: commonPrefix a' b' else []
  | _, _ => []
  end.

(** [fromPhrase] sends no two passwords of one mnemonic to the same
    address, at a given path. *)
Definition collisionFree {Env} (gw : Gateway Env) : Prop :=
  forall seed path p1 p2 n1 n2,
    fromPhrase gw seed p1 path = Resolved n1 ->
    fromPhrase gw seed p2 path = Resolved n2 ->
    hd_address n1 = hd_address n2 ->
    p1 = p2.

(** The wallet manager of the scripted world, with the seed ["seed"]. *)
Definition scriptedManager : Sys Script.World :=
  {| env := Script.quiet; trace := [];
     arrays := <[1%nat := []]> (<[0%nat := []]> ∅); states := ∅;
     wm_fundingWallets := 0%nat; wm_volumeWallets := 1%nat;
     wm_seedPhrase := "seed"; orch_state := 0%nat;
     orch_volumeBot := None; orch_recoveryManager := None |}.

(** The funding wallets the orchestrator holds, once [m] has run. *)
Definition fundingWalletsAfter {A} (run : result A * Sys Script.World) : option (list Wallet) :=
  match fst run, internalView (snd run) with
  | Ok _, Some (_, _, ws, _) => Some ws
  | _, _ => None
  end.

(** What an event moved to the address [to] by a plain transfer that was
    confirmed. *)
Definition transferOf (to : string) (ev : Event) : Z :=
  match ev with
  | EvTx _ tx (Confirmed _ _) =>
      match tx_data tx with
      | NoData => if String.eqb (tx_to tx) to then tx_value tx else 0
      | _ => 0
      end
  | _ => 0
  end.

(** The sum of the confirmed plain transfers to [to] in a trace. *)
Definition transferredTo (to : string) (t : list Event) : Z :=
  fold_right (fun ev acc => transferOf to ev + acc) 0 t.

(** Both balance reads of the gateway always resolve. *)
Definition readsResolve {Env} (gw : Gateway Env) : Prop :=
  (forall token a e, exists v e', call_getTokenBalance gw token a e = (Resolved v, e')) /\
  (forall a e, exists v e', getBalance gw a e = (Resolved v, e')).

(** The wallets [executeRecovery] goes through: funding, then volume. *)
Definition allWalletsOf {Env} (s : Sys Env) : list Wallet :=
  default [] (arrays s !! wm_fundingWallets s) ++ default [] (arrays s !! wm_volumeWallets s).

(** A recovery scenario: three funding wallets W1, W2, W3 that hold 1 MON
    each; W2 also holds 5 tokens, and the node rejects W2's sale. *)
Module RecoveryScenario.

Definition W2 : string := "seed@m/44'/60'/0'/0/1".

Definition world : Script.World := {|
  Script.clock := 0; Script.randoms := []; Script.hashes := 0;
  Script.monOf := fun _ => 10 ^ 18;
  Script.tokensOf := fun a => if String.eqb a W2 then 5 else 0;
  Script.price := 1;
  Script.completeAt := None;
  Script.refuses := fun signer tx =>
    match tx_data tx with
    | SellToken _ _ => String.eqb (address signer) W2
    | _ => false
    end;
  Script.creationLogs := []
|}.

Definition config : Config := config_of (Script.withFundingCount 3 Script.processEnv).

Definition start : Sys Script.World := snd (Script.afterPhase1 config world).

Definition manager : RecoveryManager :=
  {| rm_tokenAddress := "0xTOKEN"; rm_recoveryAddress := "0xRECOVERY" |}.

Definition wallet (i : nat) : Wallet :=
  {| address := "seed@" +:+ WalletManager.fundingPath i;
     privateKey := "key:seed@" +:+ WalletManager.fundingPath i;
     publicKey := "pub:seed@" +:+ WalletManager.fundingPath i;
     index := Z.of_nat i;
     type := funding |}.

(** What [recoverFromWallet] returns for a wallet on its own. *)
Definition contribution (w : Wallet) : Z :=
  match fst (RecoveryManager.recoverFromWallet Script.gateway config manager w start) with
  | Ok v => v
  | _ => 0
  end.

End RecoveryScenario.

(** The transactions a trace records as submitted, oldest first, each with
    its signer and how it ended. *)
Definition submissions (t : list Event) : list (Wallet * TransactionRequest * TxOutcome) :=
  rev (omap (fun ev =>
              match ev with
              | EvTx signer tx out => Some (signer, tx, out)
              | _ => None
              end) t).

Definition confirmedHash (sub : Wallet * TransactionRequest * TxOutcome) : option string :=
  match snd sub with
  | Confirmed hash _ => Some hash
  | _ => None
  end.

Definition isConfirmed (sub : Wallet * TransactionRequest * TxOutcome) : Prop :=
  exists hash receipt, snd sub = Confirmed hash receipt.

(** The submission was rejected, or its confirmation was, with the error [e]. *)
Definition failedWith (e : string) (sub : Wallet * TransactionRequest * TxOutcome) : Prop :=
  snd sub = NotSent e \/ exists hash, snd sub = NotConfirmed hash e.

(** The buy [bundleMultipleBuys] builds for an amount. *)
Definition buyRequest (config : Config) (token : string) (amount : Z) : TransactionRequest :=
  {| tx_to := contracts_nadFun config; tx_data := BuyToken token amount; tx_value := amount |}.

(** The operations a call of [bundleMultipleBuys] is given, in input order. *)
Definition operations (config : Config) (wallets : list Wallet) (token : string)
    (amounts : list Z) : list (Wallet * TransactionRequest) :=
  zip wallets (map (buyRequest config token) amounts).

(** A bundling scenario: three funding wallets, no bundler configured, and
    a node that rejects what the second wallet sends. *)
Module BundleScenario.

Definition W2 : string := "seed@m/44'/60'/0'/0/1".

Definition world : Script.World := {|
  Script.clock := 0; Script.randoms := []; Script.hashes := 0;
  Script.monOf := fun _ => 0; Script.tokensOf := fun _ => 0; Script.price := 1;
  Script.completeAt := None;
  Script.refuses := fun signer tx => String.eqb (address signer) W2;
  Script.creationLogs := []
|}.

Definition config : Config := config_of (Script.withFundingCount 3 Script.processEnv).

Definition start : Sys Script.World := snd (Script.afterPhase1 config world).

Definition wallets : list Wallet := allWalletsOf start.

Definition amounts : list Z := [10 ^ 18; 10 ^ 18; 10 ^ 18].

End BundleScenario.

(** A funding scenario: three funding wallets, no bundler configured, a
    node that accepts everything, and a creation receipt whose log carries
    the address of the new token. *)
Module FundingScenario.

Definition world : Script.World := {|
  Script.clock := 0; Script.randoms := []; Script.hashes := 0;
  Script.monOf := fun _ => 0; Script.tokensOf := fun _ => 0; Script.price := 1;
  Script.completeAt := None;
  Script.refuses := fun _ _ => false;
  Script.creationLogs := [{| log_address := "0xNEWTOKEN" |}]
|}.

Definition config : Config := config_of (Script.withFundingCount 3 Script.processEnv).

Definition tokenConfig : TokenConfig :=
  {| name := "My Token"; symbol := "MTK";
     description := Some "Token created by bundler bot"; imageUrl := Some "" |}.

(** The state when phase 2 has run. *)
Definition afterPhase2 : result unit * Sys Script.World :=
  Script.andThen (Script.afterPhase1 config world)
    (BotOrchestrator.phase2_FundBondingCurve Script.gateway config tokenConfig).

(** The same gateway, with a library that refuses to build a call whose
    token address is the empty string. *)
Definition strict : Gateway Script.World := {|
  fromPhrase := fromPhrase Script.gateway;
  generateMnemonic := generateMnemonic Script.gateway;
  fs_mkdir := fs_mkdir Script.gateway;
  fs_writeFile := fs_writeFile Script.gateway;
  populateTransaction := fun contract data value w =>
    match data with
    | BuyToken token _ | SellToken token _ =>
        if String.eqb token "" then Rejected "unconfigured name" else Resolved tt
    | _ => Resolved tt
    end;
  sendTransaction := sendTransaction Script.gateway;
  wait := wait Script.gateway;
  getTransactionReceipt := getTransactionReceipt Script.gateway;
  signTransaction := signTransaction Script.gateway;
  call_getBondingCurveStatus := call_getBondingCurveStatus Script.gateway;
  call_getTokenPrice := call_getTokenPrice Script.gateway;
  call_getTokenBalance := call_getTokenBalance Script.gateway;
  getBalance := getBalance Script.gateway;
  Date_now := Date_now Script.gateway;
  elapse := elapse Script.gateway;
  Math_random := Math_random Script.gateway;
  parseEther_of_number := parseEther_of_number Script.gateway
|}.

Definition afterPhase2_strict : result unit * Sys Script.World :=
  Script.andThen (Script.afterPhase1 config world)
    (BotOrchestrator.phase2_FundBondingCurve strict config tokenConfig).

(** Who submitted what, oldest first. *)
Definition submitted (s : Sys Script.World) : list (string * CallData * bool) :=
  map (fun sub => (address sub.1.1, tx_data sub.1.2,
                   match sub.2 with Confirmed _ _ => true | _ => false end))
      (submissions (trace s)).

End FundingScenario.

Definition isCreation (sub : Wallet * TransactionRequest * TxOutcome) : Prop :=
  exists name symbol description imageUrl,
    tx_data sub.1.2 = CreateToken name symbol description imageUrl.

(** The status source never reports completion. *)
Definition neverCompletes {Env} (gw : Gateway Env) : Prop :=
  forall token e, exists status e',
    call_getBondingCurveStatus gw token e = (Resolved status, e') /\
    isComplete status = false.

(** The clock does not go back while a status is read, and a timer of
    [ms] milliseconds fires no earlier than [ms] milliseconds later. *)
Definition clockAdvances {Env} (gw : Gateway Env) : Prop :=
  (forall token e,
      Date_now gw e <= Date_now gw (snd (call_getBondingCurveStatus gw token e))) /\
  (forall ms e, Date_now gw e + ms <= Date_now gw (elapse gw ms e)).

(** What the poll loop may leave in the trace when it started at
    [startTime]: a poll made before the deadline, or a sleep of the poll
    interval. *)
Definition pollEvent (startTime : Z) (ev : Event) : Prop :=
  match ev with
  | EvPoll _ date => date - startTime < BotOrchestrator.maxWaitTime
  | EvSleep ms => ms = BotOrchestrator.pollInterval
  | _ => False
  end.

Definition isPoll (ev : Event) : bool :=
  match ev with EvPoll _ _ => true | _ => false end.

(** What the rounds of the poll loop leave in the trace, newest first: in
    each round a poll of the status of [token], made at the date the list
    gives for the round, and then a wait of the poll interval. *)
Definition rounds (token : string) (dates : list Z) : list Event :=
  flat_map (fun date => [EvSleep BotOrchestrator.pollInterval; EvPoll token date])
           (rev dates).

(** The dates at which the poll loop read the clock: [from] at first;
    after the poll it made at a date [d], a date [next] with [R d next];
    and [till] when it polled no more. [dates] are the dates of the polls,
    oldest first. *)
Fixpoint pollDates (R : Z -> Z -> Prop) (from : Z) (dates : list Z) (till : Z) : Prop :=
  match dates with
  | [] => till = from
  | d :: rest => d = from /\ exists next, R d next /\ pollDates R next rest till
  end.

Definition atLeastOneInterval (d next : Z) : Prop :=
  d + BotOrchestrator.pollInterval <= next.

Definition exactlyOneInterval (d next : Z) : Prop :=
  next = d + BotOrchestrator.pollInterval.

(** The clock stands still while a status is read, and a timer of [ms]
    milliseconds fires exactly [ms] milliseconds later. *)
Definition exactTimers {Env} (gw : Gateway Env) : Prop :=
  (forall token e,
      Date_now gw (snd (call_getBondingCurveStatus gw token e)) = Date_now gw e) /\
  (forall ms e, Date_now gw (elapse gw ms e) = Date_now gw e + ms).

(** The number of polls a trace records. *)
Definition polls (t : list Event) : nat := length (filter (fun ev => isPoll ev = true) t).

(** A polling scenario: the state phase 2 left, with a token address
    stored by hand (phase 2 stores none), and a status source that never
    reports completion. *)
Module PollScenario.

Definition stuck : Gateway Script.World := {|
  fromPhrase := fromPhrase Script.gateway;
  generateMnemonic := generateMnemonic Script.gateway;
  fs_mkdir := fs_mkdir Script.gateway;
  fs_writeFile := fs_writeFile Script.gateway;
  populateTransaction := populateTransaction Script.gateway;
  sendTransaction := sendTransaction Script.gateway;
  wait := wait Script.gateway;
  getTransactionReceipt := getTransactionReceipt Script.gateway;
  signTransaction := signTransaction Script.gateway;
  call_getBondingCurveStatus := fun token w =>
    (Resolved {| liquidity := 0; threshold := 1; isComplete := false |}, w);
  call_getTokenPrice := call_getTokenPrice Script.gateway;
  call_getTokenBalance := call_getTokenBalance Script.gateway;
  getBalance := getBalance Script.gateway;
  Date_now := Date_now Script.gateway;
  elapse := elapse Script.gateway;
  Math_random := Math_random Script.gateway;
  parseEther_of_number := parseEther_of_number Script.gateway
|}.

Definition start : Sys Script.World :=
  snd (object_assign (orch_state (snd FundingScenario.afterPhase2))
         (BotOrchestrator.with_tokenAddress (Some "0xNEWTOKEN"))
         (snd FundingScenario.afterPhase2)).

End PollScenario.

(** The state one round of the poll loop leaves when the status read at
    [s] left the world [e1] and was not complete. *)
Definition afterRound {Env} (gw : Gateway Env) (token : string) (e1 : Env) (s : Sys Env)
  : Sys Env :=
  set_trace (cons (EvSleep BotOrchestrator.pollInterval))
    (set_env (elapse gw BotOrchestrator.pollInterval)
       (set_env (fun _ => e1)
          (set_trace (cons (EvPoll token (Date_now gw (env s)))) s))).

(** [Math.random()] returns a number of [[0, 1)]. *)
Definition randomInRange {Env} (gw : Gateway Env) : Prop :=
  forall e, (0 <= fst (Math_random gw e))%Q /\ (fst (Math_random gw e) < 1)%Q.

(** A delay handed to [setTimeout] by the scheduler lies within the two
    configured bounds. *)
Definition intervalOk (config : Config) (ev : Event) : Prop :=
  match ev with
  | EvSetTimeout ms =>
      volume_minTradeIntervalMs config <= ms <= volume_maxTradeIntervalMs config
  | _ => True
  end.

(** The amount of a recorded order lies within the two configured bounds. *)
Definition amountOk (config : Config) (order : TradeOrder) : Prop :=
  (volume_tradeAmountMinMon config <= amountMon order)%Q /\
  (amountMon order <= volume_tradeAmountMaxMon config)%Q.

(** The trade history of the bot the orchestrator holds. *)
Definition tradeHistoryOf {Env} (s : Sys Env) : list TradeOrder :=
  match orch_volumeBot s with
  | Some vb => vb_tradeHistory vb
  | None => []
  end.

(** What can happen to a volume bot: it is started, its pending timer
    fires, or it is stopped. *)
Inductive schedulerStep {Env} (gw : Gateway Env) (config : Config)
  : Sys Env -> Sys Env -> Prop :=
| step_start s : schedulerStep gw config s (snd (VolumeBot.start gw config s))
| step_timer s : schedulerStep gw config s (snd (VolumeBot.timerFired gw config s))
| step_stop s : schedulerStep gw config s (snd (VolumeBot.stop s)).

(** A run of the scheduler: any number of such steps. *)
Inductive schedulerRun {Env} (gw : Gateway Env) (config : Config)
  : Sys Env -> Sys Env -> Prop :=
| run_nil s : schedulerRun gw config s s
| run_step s1 s2 s3 :
    schedulerRun gw config s1 s2 -> schedulerStep gw config s2 s3 ->
    schedulerRun gw config s1 s3.

(** [m] keeps the invariant [I] of the state, and what it returns
    satisfies [P]. *)
Definition keeps {Env A} (I : Sys Env -> Prop) (m : M Env A) (P : A -> Prop) : Prop :=
  forall s, I s -> wp m (fun r s' => I s' /\ forall a, r = Ok a -> P a) s.

(** The invariant of a run that started with the trace [t0]: the delays
    given to [setTimeout] since, and the amounts of the recorded orders,
    are within their bounds. *)
Definition schedulerInv {Env} (config : Config) (t0 : list Event) (s : Sys Env) : Prop :=
  (exists new, trace s = new ++ t0 /\ Forall (intervalOk config) new) /\
  Forall (amountOk config) (tradeHistoryOf s).

(** A trading scenario: two volume wallets that hold MON and tokens, a new
    bot for the token, and a random source that is a fixed list. *)
Module TradeScenario.

Definition world : Script.World := {|
  Script.clock := 0;
  Script.randoms := [1 # 2; 3 # 4; 9 # 10; 1 # 3; 0 # 1; 1 # 4; 1 # 10; 99 # 100; 7 # 8];
  Script.hashes := 0;
  Script.monOf := fun _ => 1000 * 10 ^ 18;
  Script.tokensOf := fun _ => 50 * 10 ^ 18;
  Script.price := 10 ^ 18;
  Script.completeAt := None;
  Script.refuses := fun _ _ => false;
  Script.creationLogs := []
|}.

Definition config : Config := config_of (Script.withFundingCount 3 Script.processEnv).

Definition start : Sys Script.World :=
  set_orch_volumeBot (fun _ => Some (VolumeBot.constructor "0xTOKEN"))
    (snd (Script.andThen (Script.afterPhase1 config world)
            (WalletManager.generateVolumeWallets Script.gateway 2))).

(** The bot is started and its timer fires twice. *)
Definition finish : Sys Script.World :=
  snd (VolumeBot.timerFired Script.gateway config
         (snd (VolumeBot.timerFired Script.gateway config
                 (snd (VolumeBot.start Script.gateway config start))))).

(** The delays given to [setTimeout], oldest first. *)
Definition delays (s : Sys Script.World) : list Z :=
  rev (omap (fun ev => match ev with EvSetTimeout ms => Some ms | _ => None end) (trace s)).

End TradeScenario.

(** A reader scenario: phase 1 has derived three funding wallets; a reader
    calls [getState] and then writes to what it received. *)
Module SnapshotScenario.

Definition config : Config := config_of (Script.withFundingCount 3 Script.processEnv).

Definition start : Sys Script.World := snd (Script.afterPhase1 config Script.quiet).

(** The state after [const snapshot = orchestrator.getState()]. *)
Definition read : result loc * Sys Script.World := BotOrchestrator.getState start.

Definition snapshot : loc :=
  match fst read with Ok l => l | _ => 0%nat end.

Definition intruder : Wallet :=
  {| address := "0xINTRUDER"; privateKey := "key"; publicKey := "pub";
     index := 99; type := funding |}.

(** [snapshot.phase = 'completed'] *)
Definition afterAssign : Sys Script.World :=
  snd (object_assign snapshot (BotOrchestrator.with_phase completed) (snd read)).

(** [snapshot.fundingWallets.push(intruder)] *)
Definition afterPush : Sys Script.World :=
  match states (snd read) !! snapshot with
  | Some st => snd (array_push (fundingWallets st) intruder (snd read))
  | None => snd read
  end.

Definition fundingAddresses (s : Sys Script.World) : option (list string) :=
  option_map (fun view => map address view.1.2) (internalView s).

End SnapshotScenario.

(** A dust scenario: the wallets hold 0.0005 MON each and no tokens. *)
Module DustScenario.

Definition world : Script.World := {|
  Script.clock := 0; Script.randoms := []; Script.hashes := 0;
  Script.monOf := fun _ => 5 * 10 ^ 14;
  Script.tokensOf := fun _ => 0;
  Script.price := 1;
  Script.completeAt := None;
  Script.refuses := fun _ _ => false;
  Script.creationLogs := []
|}.

Definition start : Sys Script.World :=
  snd (Script.afterPhase1 RecoveryScenario.config world).

End DustScenario.

(** A completion scenario: the state of the polling scenario, and a
    bonding curve that completes 90 s after the start. *)
Module CompletionScenario.

Definition start : Sys Script.World :=
  set_env (fun w => {|
    Script.clock := Script.clock w; Script.randoms := Script.randoms w;
    Script.hashes := Script.hashes w; Script.monOf := Script.monOf w;
    Script.tokensOf := Script.tokensOf w; Script.price := Script.price w;
    Script.completeAt := Some (Script.clock w + 90000);
    Script.refuses := Script.refuses w; Script.creationLogs := Script.creationLogs w |})
    PollScenario.start.

End CompletionScenario.

(** The state object exists and the token address it holds is [a]. *)
Definition holdsTokenAddress {Env} (a : option string) (s : Sys Env) : Prop :=
  exists st, states s !! orch_state s = Some st /\ tokenAddress st = a.

(** Everything of [s'] but the outside world and the trace is as in [s]. *)
Definition sameObjects {Env} (s s' : Sys Env) : Prop :=
  arrays s' = arrays s /\ states s' = states s /\
  wm_fundingWallets s' = wm_fundingWallets s /\ wm_volumeWallets s' = wm_volumeWallets s /\
  wm_seedPhrase s' = wm_seedPhrase s /\ orch_state s' = orch_state s /\
  orch_volumeBot s' = orch_volumeBot s /\ orch_recoveryManager s' = orch_recoveryManager s.

(** The status source reports completion on poll number [n + 1] of a loop
    that started at [startTime] and reads the clock in the world [e]: that
    poll and the [n] polls before it are made before the deadline, their
    status reads resolve, and the first [n] of them report no completion. *)
Fixpoint completesOnPoll {Env} (gw : Gateway Env) (token : string) (startTime : Z)
    (n : nat) (e : Env) : Prop :=
  Date_now gw e - startTime < BotOrchestrator.maxWaitTime /\
  exists status e',
    call_getBondingCurveStatus gw token e = (Resolved status, e') /\
    match n with
    | O => isComplete status = true
    | S n' =>
        isComplete status = false /\
        completesOnPoll gw token startTime n' (elapse gw BotOrchestrator.pollInterval e')
    end.

(** [m] keeps the invariant [I] of the state, it does not use up a loop
    bound, and what it returns satisfies [P]. *)
Definition preserves {Env A} (I : Sys Env -> Prop) (m : M Env A) (P : A -> Prop) : Prop :=
  forall s, I s -> wp m (fun r s' => I s' /\ r <> OutOfFuel /\ forall a, r = Ok a -> P a) s.

(** The creation [createToken] and [bundleTokenCreationAndBuy] build for a
    token configuration. *)
Definition creationRequest (config : Config) (tokenConfig : TokenConfig) : TransactionRequest :=
  {| tx_to := contracts_nadFun config;
     tx_data := CreateToken (name tokenConfig) (symbol tokenConfig)
                  (or_string (description tokenConfig) "")
                  (or_string (imageUrl tokenConfig) "");
     tx_value := 0 |}.

(** What a call that submits the one transaction [tx], signed by [signer],
    leaves in the trace [t'] when it ends in [r], the trace having been [t]:
    the transaction, confirmed, when it returns; nothing, or the transaction
    and how it failed, when it throws. *)
Definition submitsOnce {A} (signer : Wallet) (tx : TransactionRequest)
    (r : result A) (t t' : list Event) : Prop :=
  match r with
  | Ok _ => exists hash receipt, t' = EvTx signer tx (Confirmed hash receipt) :: t
  | Err e => t' = t \/ exists out, t' = EvTx signer tx out :: t /\ failedWith e (signer, tx, out)
  | OutOfFuel => False
  end.

(** The configuration [e] with BUNDLER_RPC_URL set to [url]. *)
Definition withBundler (url : string) (e : ProcessEnv) : ProcessEnv := {|
  MONAD_RPC_URL := MONAD_RPC_URL e; BUNDLER_RPC_URL := Some url;
  BONDING_CURVE_TARGET_MON := BONDING_CURVE_TARGET_MON e;
  FUNDING_WALLET_COUNT := FUNDING_WALLET_COUNT e;
  MIN_FUNDING_WALLETS := MIN_FUNDING_WALLETS e;
  MAX_FUNDING_WALLETS := MAX_FUNDING_WALLETS e;
  VOLUME_WALLET_COUNT := VOLUME_WALLET_COUNT e;
  MIN_TRADE_INTERVAL_MS := MIN_TRADE_INTERVAL_MS e;
  MAX_TRADE_INTERVAL_MS := MAX_TRADE_INTERVAL_MS e;
  TRADE_AMOUNT_MIN_MON := TRADE_AMOUNT_MIN_MON e;
  TRADE_AMOUNT_MAX_MON := TRADE_AMOUNT_MAX_MON e;
  NAD_FUN_CONTRACT_ADDRESS := NAD_FUN_CONTRACT_ADDRESS e;
  BONDING_CURVE_CONTRACT_ADDRESS := BONDING_CURVE_CONTRACT_ADDRESS e;
  RECOVERY_WALLET_ADDRESS := RECOVERY_WALLET_ADDRESS e;
  FUNDING_WALLET_SEED := FUNDING_WALLET_SEED e
|}.

(** A bundler scenario: the three funding wallets of the bundling
    scenario, a node that accepts everything, and a bundler URL configured. *)
Module BundlerScenario.

Definition config : Config :=
  config_of (withBundler "https://bundler.example" (Script.withFundingCount 3 Script.processEnv)).

Definition start : Sys Script.World := snd (Script.afterPhase1 config Script.quiet).

Definition wallets : list Wallet := allWalletsOf start.

Definition amounts : list Z := [10 ^ 18; 2 * 10 ^ 18; 3 * 10 ^ 18].

End BundlerScenario.

(** The volume wallets the wallet manager holds. *)
Definition volumeWalletsOf {Env} (s : Sys Env) : list Wallet :=
  default [] (arrays s !! wm_volumeWallets s).

(** Whether a transaction is a [buyToken] or a [sellToken] call. *)
Definition tradeKind (tx : TransactionRequest) : option TradeType :=
  match tx_data tx with
  | BuyToken _ _ => Some buy
  | SellToken _ _ => Some sell
  | _ => None
  end.

(** The trade a submission made, when it was confirmed: who traded, and
    which way. *)
Definition confirmedTrade (sub : Wallet * TransactionRequest * TxOutcome)
  : option (Wallet * TradeType) :=
  match sub.2, tradeKind sub.1.2 with
  | Confirmed _ _, Some kind => Some (sub.1.1, kind)
  | _, _ => None
  end.

(** Who traded, and which way, according to an order of the history. *)
Definition orderKey (order : TradeOrder) : Wallet * TradeType :=
  (order_wallet order, order_type order).

(** A transaction of the volume bot for [token]: it is signed by a wallet
    of [V] and calls the nad.fun contract, either [buyToken] on the token,
    paying the amount it buys for, or [sellToken] on the token, paying
    nothing. *)
Definition botSubmission (config : Config) (V : list Wallet) (token : string)
    (sub : Wallet * TransactionRequest * TxOutcome) : Prop :=
  sub.1.1 ∈ V /\ tx_to sub.1.2 = contracts_nadFun config /\
  ((exists a, tx_data sub.1.2 = BuyToken token a /\ tx_value sub.1.2 = a) \/
   (exists a, tx_data sub.1.2 = SellToken token a /\ tx_value sub.1.2 = 0)).

(** What the volume bot for [token] did between [s] and [s']: it changed
    no wallet list; what it submitted were transactions of the bot; and the
    orders it added to the history are its confirmed trades, in order. *)
Definition traded {Env} (config : Config) (V : list Wallet) (token : string)
    (s s' : Sys Env) : Prop :=
  arrays s' = arrays s /\ wm_volumeWallets s' = wm_volumeWallets s /\
  exists new rec,
    trace s' = new ++ trace s /\
    tradeHistoryOf s' = tradeHistoryOf s ++ rec /\
    Forall (botSubmission config V token) (submissions new) /\
    map orderKey rec = omap confirmedTrade (submissions new) /\
    Forall (fun order => order_tokenAddress order = token) rec.

(** The bot for [token] exists, a pending timer holds the wallets [V],
    which are the volume wallets, and the bot is running exactly when a
    timer is pending. *)
Definition botHealthy {Env} (V : list Wallet) (token : string) (s : Sys Env) : Prop :=
  volumeWalletsOf s = V /\
  exists vb, orch_volumeBot s = Some vb /\ vb_tokenAddress vb = token /\
    match vb_tradeInterval vb with
    | Some timer => vb_isRunning vb = true /\ timer_wallets timer = V
    | None => vb_isRunning vb = false
    end.

(** [vb'] is the bot [vb] with the orders [rec] added to its history. *)
Definition botAfter (vb : VolumeBot) (rec : list TradeOrder) (vb' : VolumeBot) : Prop :=
  vb_tokenAddress vb' = vb_tokenAddress vb /\ vb_isRunning vb' = vb_isRunning vb /\
  vb_tradeInterval vb' = vb_tradeInterval vb /\
  vb_tradeHistory vb' = vb_tradeHistory vb ++ rec.

(** What one trade of [amount] MON by the wallet [w] adds to the trace and
    to the history: nothing; or one transaction of the bot that failed, and
    no order; or one transaction that was confirmed, and its order. *)
Definition oneTrade (config : Config) (token : string) (w : Wallet) (kind : TradeType)
    (amount : Q) (new : list Event) (rec : list TradeOrder) : Prop :=
  (new = [] /\ rec = []) \/
  exists tx out,
    new = [EvTx w tx out] /\
    tx_to tx = contracts_nadFun config /\
    match kind with
    | buy => exists a, tx_data tx = BuyToken token a /\ tx_value tx = a
    | sell => exists a, tx_data tx = SellToken token a /\ tx_value tx = 0
    end /\
    match out with
    | Confirmed _ _ =>
        exists date,
          rec = [{| order_wallet := w; order_type := kind; amountMon := amount;
                    order_tokenAddress := token; timestamp := date |}]
    | _ => rec = []
    end.

(** A computation of the bot [vb] that made one trade at most, between [s]
    and [s']. *)
Definition tradeStep {Env} (config : Config) (w : Wallet) (kind : TradeType) (amount : Q)
    (vb : VolumeBot) (s s' : Sys Env) : Prop :=
  arrays s' = arrays s /\ wm_volumeWallets s' = wm_volumeWallets s /\
  exists new rec vb',
    trace s' = new ++ trace s /\
    orch_volumeBot s' = Some vb' /\ botAfter vb rec vb' /\
    oneTrade config (vb_tokenAddress vb) w kind amount new rec.

(** The sale [recoverFromWallet] submits for a wallet: of the whole token
    balance [b] it read in the world [e], which was not zero. *)
Definition recoverySale {Env} (gw : Gateway Env) (config : Config) (this : RecoveryManager)
    (wallet : Wallet) (e : Env) (sub : Wallet * TransactionRequest * TxOutcome) : Prop :=
  sub.1.1 = wallet /\
  exists b e', call_getTokenBalance gw (rm_tokenAddress this) (address wallet) e
                 = (Resolved b, e') /\
               0 < b /\
               sub.1.2 = {| tx_to := contracts_nadFun config;
                            tx_data := SellToken (rm_tokenAddress this) b;
                            tx_value := 0 |}.

(** The transfer [recoverFromWallet] submits for a wallet: to the recovery
    address, of a MON balance [m] it read, which was above the gas reserve,
    less the gas reserve. *)
Definition recoveryTransfer {Env} (gw : Gateway Env) (this : RecoveryManager)
    (wallet : Wallet) (sub : Wallet * TransactionRequest * TxOutcome) : Prop :=
  sub.1.1 = wallet /\
  exists m e e', getBalance gw (address wallet) e = (Resolved m, e') /\
                 RecoveryManager.gasReserve < m /\
                 sub.1.2 = {| tx_to := rm_recoveryAddress this; tx_data := NoData;
                              tx_value := m - RecoveryManager.gasReserve |}.

(** What [recoverFromWallet] did for a wallet between [s] and [s']: one
    sale at most, then one transfer at most. *)
Definition recoveredFrom {Env} (gw : Gateway Env) (config : Config) (this : RecoveryManager)
    (wallet : Wallet) (s s' : Sys Env) : Prop :=
  sameObjects s s' /\
  exists new sales transfers,
    trace s' = new ++ trace s /\
    submissions new = sales ++ transfers /\
    (length sales <= 1)%nat /\ (length transfers <= 1)%nat /\
    Forall (recoverySale gw config this wallet (env s)) sales /\
    Forall (recoveryTransfer gw this wallet) transfers.

(** The scripted gateway with a node that reports a MON balance of 0.0005
    MON for every address, whatever the world. *)
Module DustyNode.

Definition gateway : Gateway Script.World := {|
  fromPhrase := fromPhrase Script.gateway;
  generateMnemonic := generateMnemonic Script.gateway;
  fs_mkdir := fs_mkdir Script.gateway;
  fs_writeFile := fs_writeFile Script.gateway;
  populateTransaction := populateTransaction Script.gateway;
  sendTransaction := sendTransaction Script.gateway;
  wait := wait Script.gateway;
  getTransactionReceipt := getTransactionReceipt Script.gateway;
  signTransaction := signTransaction Script.gateway;
  call_getBondingCurveStatus := call_getBondingCurveStatus Script.gateway;
  call_getTokenPrice := call_getTokenPrice Script.gateway;
  call_getTokenBalance := call_getTokenBalance Script.gateway;
  getBalance := fun a w => (Resolved (5 * 10 ^ 14), w);
  Date_now := Date_now Script.gateway;
  elapse := elapse Script.gateway;
  Math_random := Math_random Script.gateway;
  parseEther_of_number := parseEther_of_number Script.gateway
|}.

End DustyNode.

(** What the poll loop left in the trace when it returned: a last poll,
    made before the deadline, whose status read reported completion, after
    polls and sleeps only. *)
Definition endsWithCompletion {Env} (gw : Gateway Env) (startTime : Z) (new : list Event) : Prop :=
  exists token date older e status e',
    new = EvPoll token date :: older /\
    date - startTime < BotOrchestrator.maxWaitTime /\
    Forall (pollEvent startTime) older /\
    call_getBondingCurveStatus gw token e = (Resolved status, e') /\
    isComplete status = true.

(** A transaction of a recovery by the manager [this] over the wallets
    [W]: it is signed by a wallet of [W], and is either a sale of tokens of
    the manager's token, a call of the nad.fun contract that pays nothing,
    or a plain transfer of a positive amount to the recovery address. *)
Definition recoverySubmission (config : Config) (this : RecoveryManager) (W : list Wallet)
    (sub : Wallet * TransactionRequest * TxOutcome) : Prop :=
  sub.1.1 ∈ W /\
  ((exists b, 0 < b /\
              sub.1.2 = {| tx_to := contracts_nadFun config;
                           tx_data := SellToken (rm_tokenAddress this) b;
                           tx_value := 0 |}) \/
   (exists a, 0 < a /\
              sub.1.2 = {| tx_to := rm_recoveryAddress this; tx_data := NoData;
                           tx_value := a |})).

(** The bot as [stop] leaves it. *)
Definition stoppedBot (vb : VolumeBot) : VolumeBot :=
  {| vb_tokenAddress := vb_tokenAddress vb; vb_isRunning := false;
     vb_tradeInterval := None; vb_tradeHistory := vb_tradeHistory vb |}.

(** The configuration [e] with RECOVERY_WALLET_ADDRESS not set. *)
Definition withoutRecoveryAddress (e : ProcessEnv) : ProcessEnv := {|
  MONAD_RPC_URL := MONAD_RPC_URL e; BUNDLER_RPC_URL := BUNDLER_RPC_URL e;
  BONDING_CURVE_TARGET_MON := BONDING_CURVE_TARGET_MON e;
  FUNDING_WALLET_COUNT := FUNDING_WALLET_COUNT e;
  MIN_FUNDING_WALLETS := MIN_FUNDING_WALLETS e;
  MAX_FUNDING_WALLETS := MAX_FUNDING_WALLETS e;
  VOLUME_WALLET_COUNT := VOLUME_WALLET_COUNT e;
  MIN_TRADE_INTERVAL_MS := MIN_TRADE_INTERVAL_MS e;
  MAX_TRADE_INTERVAL_MS := MAX_TRADE_INTERVAL_MS e;
  TRADE_AMOUNT_MIN_MON := TRADE_AMOUNT_MIN_MON e;
  TRADE_AMOUNT_MAX_MON := TRADE_AMOUNT_MAX_MON e;
  NAD_FUN_CONTRACT_ADDRESS := NAD_FUN_CONTRACT_ADDRESS e;
  BONDING_CURVE_CONTRACT_ADDRESS := BONDING_CURVE_CONTRACT_ADDRESS e;
  RECOVERY_WALLET_ADDRESS := None;
  FUNDING_WALLET_SEED := FUNDING_WALLET_SEED e
|}.

(** A scenario for [triggerRecovery]: the trading scenario, with the token
    address stored in the state by hand (phase 2 stores none) and the bot
    started. *)
Module TriggerScenario.

Definition start : Sys Script.World :=
  snd (VolumeBot.start Script.gateway TradeScenario.config
         (snd (object_assign (orch_state TradeScenario.start)
                 (BotOrchestrator.with_tokenAddress (Some "0xTOKEN")) TradeScenario.start))).

(** The state object of the orchestrator at [start]. *)
Definition state : BotState :=
  {| phase := phase_funding; tokenAddress := Some "0xTOKEN";
     fundingWallets := 4%nat; volumeWallets := 3%nat;
     totalMonDeposited := 0 # 1; bondingCurveComplete := false;
     volumeGenerated := 0 # 1; startTime := None |}.

Definition unconfigured : Config :=
  config_of (withoutRecoveryAddress (Script.withFundingCount 3 Script.processEnv)).

End TriggerScenario.

(** The transfers [fundVolumeWallets] has to make from wallet number [i]
    of its list on, oldest first: wallet number [i] is paid [amount] by
    funding wallet number [i mod n] of the [n] funding wallets it uses. *)
Fixpoint fundingPlan (fundingWallets : list Wallet) (amount : Z) (wallets : list Wallet)
    (i : nat) : list (Wallet * TransactionRequest) :=
  match wallets with
  | [] => []
  | volumeWallet :: rest =>
      match fundingWallets !! (i mod length fundingWallets)%nat with
      | Some fundingWallet =>
          (fundingWallet,
           {| tx_to := address volumeWallet; tx_data := NoData; tx_value := amount |})
            :: fundingPlan fundingWallets amount rest (S i)
      | None => []
      end
  end.

(* ===================================================================== *)
(** * Reasoning about computations *)
(* ===================================================================== *)

Section Wp.
Context {Env : Type}.

Lemma wp_run {A} (m : M Env A) Q s r s' :
  m s = (r, s') -> wp m Q s -> Q r s'.
Proof. unfold wp. intros ->. auto. Qed.

Lemma wp_mono {A} (m : M Env A) (Q Q' : result A -> Sys Env -> Prop) s :
  wp m Q s -> (forall r s', Q r s' -> Q' r s') -> wp m Q' s.
Proof. unfold wp. auto. Qed.

Lemma wp_ret {A} (a : A) (Q : result A -> Sys Env -> Prop) s :
  Q (Ok a) s -> wp (ret a) Q s.
Proof. auto. Qed.

Lemma wp_throw {A} e (Q : result A -> Sys Env -> Prop) s :
  Q (Err e) s -> wp (throw e) Q s.
Proof. auto. Qed.

Lemma wp_bind {A B} (m : M Env A) (k : A -> M Env B) Q s :
  wp m (fun r s' =>
          match r with
          | Ok a => wp (k a) Q s'
          | Err e => Q (Err e) s'
          | OutOfFuel => Q OutOfFuel s'
          end) s ->
  wp (bind m k) Q s.
Proof.
  unfold wp, bind. destruct (m s) as [[a|e|] s']; simpl; auto.
Qed.

Lemma wp_try_catch {A} (m : M Env A) (h : string -> M Env A) Q s :
  wp m (fun r s' =>
          match r with
          | Err e => wp (h e) Q s'
          | _ => Q r s'
          end) s ->
  wp (try_catch m h) Q s.
Proof.
  unfold wp, try_catch. destruct (m s) as [[a|e|] s']; simpl; auto.
Qed.

(** [catch (error) { throw error }] changes nothing. *)
Lemma try_rethrow {A} (m : M Env A) s :
  try_catch m (fun error => throw error) s = m s.
Proof.
  unfold try_catch, throw. destruct (m s) as [[a|e|] s']; reflexivity.
Qed.

Lemma wp_rethrow {A} (m : M Env A) Q s :
  wp m Q s -> wp (try_catch m (fun error => throw error)) Q s.
Proof. unfold wp. rewrite try_rethrow. auto. Qed.

Lemma wp_get Q (s : Sys Env) : Q (Ok s) s -> wp get Q s.
Proof. auto. Qed.

Lemma wp_modify f Q (s : Sys Env) : Q (Ok tt) (f s) -> wp (modify f) Q s.
Proof. auto. Qed.

Lemma wp_await {A} (call : Env -> answer A * Env) Q s :
  (forall a e', call (env s) = (Resolved a, e') -> Q (Ok a) (set_env (fun _ => e') s)) ->
  (forall msg e', call (env s) = (Rejected msg, e') -> Q (Err msg) (set_env (fun _ => e') s)) ->
  wp (await call) Q s.
Proof.
  unfold wp, await. destruct (call (env s)) as [[a|msg] e']; simpl; auto.
Qed.

Lemma wp_settled {A} (a : answer A) Q (s : Sys Env) :
  (forall x, a = Resolved x -> Q (Ok x) s) ->
  (forall msg, a = Rejected msg -> Q (Err msg) s) ->
  wp (settled a) Q s.
Proof.
  destruct a; unfold wp; simpl; intros H1 H2; [apply H1|apply H2]; reflexivity.
Qed.

Lemma wp_defined {A} (o : option A) Q (s : Sys Env) :
  (forall a, o = Some a -> Q (Ok a) s) ->
  (o = None -> Q (Err "TypeError: Cannot read properties of undefined") s) ->
  wp (defined o) Q s.
Proof.
  destruct o; unfold wp; simpl; intros H1 H2; [apply H1|apply H2]; reflexivity.
Qed.

Lemma wp_readArray l Q (s : Sys Env) :
  Q (Ok (default [] (arrays s !! l))) s -> wp (readArray l) Q s.
Proof. auto. Qed.

Lemma wp_newArray ws Q (s : Sys Env) :
  Q (Ok (fresh (dom (arrays s))))
    (set_arrays (fun h => <[fresh (dom (arrays s)) := ws]> h) s) ->
  wp (newArray ws) Q s.
Proof. auto. Qed.

Lemma wp_emit ev Q (s : Sys Env) :
  Q (Ok tt) (set_trace (cons ev) s) -> wp (emit ev) Q s.
Proof. auto. Qed.

(** A loop keeps an invariant [I] of the state, and relates what it
    returns to what it was given, when each round does. *)
Lemma wp_mapM {A B} (I : Sys Env -> Prop) (P : A -> B -> Prop)
    (f : A -> M Env B) (l : list A) :
  (forall x s, I s -> wp (f x) (fun r s' => I s' /\ forall y, r = Ok y -> P x y) s) ->
  forall s, I s ->
    wp (mapM f l) (fun r s' => I s' /\ forall ys, r = Ok ys -> Forall2 P l ys) s.
Proof.
  intros Hf. induction l as [|x l IH]; intros s Hs; simpl.
  - apply wp_ret. split; [assumption|]. intros ys [= <-]. constructor.
  - apply wp_bind. eapply wp_mono; [apply Hf, Hs|].
    intros [y|e|] s1 [HI HP]; [|split; [assumption|discriminate]..].
    apply wp_bind. eapply wp_mono; [apply IH, HI|].
    intros [ys|e|] s2 [HI2 HP2]; [|split; [assumption|discriminate]..].
    apply wp_ret. split; [assumption|]. intros zs [= <-].
    constructor; auto.
Qed.

(** The same, for rounds that cannot use up a loop bound. *)
Lemma wp_mapM_total {A B} (I : Sys Env -> Prop) (P : A -> B -> Prop)
    (f : A -> M Env B) (l : list A) :
  (forall x s, I s ->
     wp (f x) (fun r s' => I s' /\ r <> OutOfFuel /\ forall y, r = Ok y -> P x y) s) ->
  forall s, I s ->
    wp (mapM f l)
       (fun r s' => I s' /\ r <> OutOfFuel /\ forall ys, r = Ok ys -> Forall2 P l ys) s.
Proof.
  intros Hf. induction l as [|x l IH]; intros s Hs; simpl.
  - apply wp_ret. repeat split; [assumption|discriminate|]. intros ys [= <-]. constructor.
  - apply wp_bind. eapply wp_mono; [apply Hf, Hs|].
    intros [y|e|] s1 (HI & Hne & HP); [|repeat split; [assumption|discriminate..]|congruence].
    apply wp_bind. eapply wp_mono; [apply IH, HI|].
    intros [ys|e|] s2 (HI2 & Hne2 & HP2);
      [|repeat split; [assumption|discriminate..]|congruence].
    apply wp_ret. repeat split; [assumption|discriminate|]. intros zs [= <-].
    constructor; auto.
Qed.

End Wp.

Ltac wp_step :=
  lazymatch goal with
  | |- wp (bind _ _) _ _ => apply wp_bind
  | |- wp (ret _) _ _ => apply wp_ret
  | |- wp (throw _) _ _ => apply wp_throw
  | |- wp get _ _ => apply wp_get
  | |- wp (modify _) _ _ => apply wp_modify
  | |- wp (try_catch _ _) _ _ => apply wp_try_catch
  | |- wp (await _) _ _ => apply wp_await; intros
  | |- wp (settled _) _ _ => apply wp_settled; intros
  | |- wp (defined _) _ _ => apply wp_defined; intros
  | |- wp (readArray _) _ _ => apply wp_readArray
  | |- wp (newArray _) _ _ => apply wp_newArray
  | |- wp (emit _) _ _ => apply wp_emit
  | |- wp (if ?b then _ else _) _ _ => destruct b eqn:?
  | |- wp (match ?o with Some _ => _ | None => _ end) _ _ => destruct o eqn:?
  end.

Ltac wp_steps := repeat (wp_step; cbn beta iota).

(* ===================================================================== *)
(** * Phase 2: how the target is split over the funding wallets *)
(* ===================================================================== *)

Section Split.

Import BotOrchestrator.

(** With two wallets or more, a remaining wallet is asked for the same
    amount as the first one: [(T - T/n) / (n - 1) = T/n]. *)
Lemma remaining_share_equals_first (targetMon : Q) (n : nat) :
  (2 <= n)%nat ->
  exists a b, monPerWallet targetMon n = Some a /\
              amountPerRemainingWallet targetMon n = Some b /\
              (a == b)%Q.
Proof.
  intros Hn. unfold amountPerRemainingWallet, monPerWallet, div_count, sub.
  destruct (Nat.eqb_spec n 0) as [->|_]; [lia|].
  destruct (Nat.eqb_spec (n - 1) 0) as [E|_]; [lia|].
  eexists _, _. split; [reflexivity|]. split; [reflexivity|].
  replace (Z.of_nat (n - 1)) with (Z.of_nat n + -1) by lia.
  assert (Hz : (1 < Z.of_nat n)) by lia.
  generalize dependent (Z.of_nat n). intros z Hz.
  rewrite inject_Z_plus.
  assert (H1 : ~ (inject_Z z == 0)%Q).
  { intros H. unfold Qeq, inject_Z in H. simpl in H. lia. }
  assert (H2 : ~ (inject_Z z + inject_Z (-1) == 0)%Q).
  { intros H. unfold Qeq, Qplus, inject_Z in H. simpl in H. lia. }
  field. split; assumption.
Qed.

(** For 1,296,000 MON and 100 wallets both divisions, done on doubles,
    give exactly 12960. *)
Lemma split_on_doubles :
  monPerWallet_double 1296000 100 = 12960%float /\
  amountPerRemainingWallet_double 1296000 100 = 12960%float.
Proof. split; vm_compute; reflexivity. Qed.

End Split.

(** C4, as the specification words it, fails: with a target of 1,296,000
    MON and 100 funding wallets the amount asked of each of the 99 remaining
    wallets is not 13,090.9... MON (it does not lie between 13,090.9 and
    13,091). *)
Lemma remaining_share_is_not_13090_9 :
  ~ exists b, BotOrchestrator.amountPerRemainingWallet (1296000 # 1) 100 = Some b /\
              ((130909 # 10) <= b)%Q /\ (b < (13091 # 1))%Q.
Proof.
  intros (b & Hb & Hlo & _). vm_compute in Hb. injection Hb as <-.
  vm_compute in Hlo. apply Hlo. reflexivity.
Qed.

(** C4, amended: with a target of 1,296,000 MON and 100 funding wallets the
    amount for the first wallet's create-and-buy is 12,960 MON, and each of
    the 99 remaining wallets is asked for (1,296,000 - 12,960) / 99 MON,
    which is 12,960 MON again; run on the default configuration, phase 2
    hands 12,960 * 10^18 wei to each of the 99 buys it submits. *)
Theorem funding_split_1296000_over_100 :
  (exists a, BotOrchestrator.monPerWallet (1296000 # 1) 100 = Some a /\
             (a == 12960 # 1)%Q) /\
  (exists b, BotOrchestrator.amountPerRemainingWallet (1296000 # 1) 100 = Some b /\
             (b == ((1296000 # 1) - (12960 # 1)) / (99 # 1))%Q /\
             (b == 12960 # 1)%Q) /\
  (let config := config_of Script.processEnv in
   let tokenConfig := {| name := "My Token"; symbol := "MTK";
                         description := None; imageUrl := None |} in
   let run := Script.andThen (Script.afterPhase1 config Script.quiet)
                (BotOrchestrator.phase2_FundBondingCurve Script.gateway config tokenConfig) in
   fst run = Ok tt /\
   buyValues (trace (snd run)) = repeat (12960 * 10 ^ 18) 99).
Proof.
  split; [|split].
  - eexists. split; [vm_compute; reflexivity|]. vm_compute. reflexivity.
  - eexists. split; [vm_compute; reflexivity|]. split; vm_compute; reflexivity.
  - cbv zeta. split; vm_compute; reflexivity.
Qed.

(* ===================================================================== *)
(** * Wallet derivation *)
(* ===================================================================== *)

Section Derivation.
Context {Env : Type}.
Variable gw : Gateway Env.

Import WalletManager.

Lemma saveWalletInfo_keeps_seed wallet category (s : Sys Env) :
  wp (saveWalletInfo gw wallet category)
     (fun _ s' => wm_seedPhrase s' = wm_seedPhrase s /\ arrays s' = arrays s /\
                  wm_fundingWallets s' = wm_fundingWallets s) s.
Proof.
  unfold saveWalletInfo. wp_steps; repeat split; reflexivity.
Qed.

Lemma fundingWalletAt_spec seed i (s : Sys Env) :
  wm_seedPhrase s = seed ->
  wp (fundingWalletAt gw i)
     (fun r s' => wm_seedPhrase s' = seed /\
                  forall w, r = Ok w ->
                    derivedAt gw seed (fundingPath i) defaultPath w /\ type w = funding) s.
Proof.
  intros Hs. unfold fundingWalletAt. wp_steps.
  - eapply wp_mono; [apply saveWalletInfo_keeps_seed|].
    intros [[]|e|] s' (H1 & _); simpl; try (split; [congruence|discriminate]).
    wp_steps. split; [congruence|]. intros w [= <-]. rewrite Hs in *.
    split; [|reflexivity]. exists x. simpl. auto.
  - split; [assumption|discriminate].
Qed.

Lemma volumeWalletAt_spec seed base i (s : Sys Env) :
  wm_seedPhrase s = seed ->
  wp (volumeWalletAt gw base i)
     (fun r s' => wm_seedPhrase s' = seed /\
                  forall w, r = Ok w ->
                    derivedAt gw seed (volumePath i) defaultPath w /\ type w = volume) s.
Proof.
  intros Hs. unfold volumeWalletAt. wp_steps.
  - eapply wp_mono; [apply saveWalletInfo_keeps_seed|].
    intros [[]|e|] s' (H1 & _); simpl; try (split; [congruence|discriminate]).
    wp_steps. split; [congruence|]. intros w [= <-]. rewrite Hs in *.
    split; [|reflexivity]. exists x. simpl. auto.
  - split; [assumption|discriminate].
Qed.

(** What a successful [generateFundingWallets count] leaves: an array of
    [count] wallets, wallet number [i] derived at the default path with the
    password [fundingPath i]. *)
Lemma generateFundingWallets_spec count (s : Sys Env) :
  wp (generateFundingWallets gw count)
     (fun r s' =>
        forall l, r = Ok l ->
          wm_fundingWallets s' = l /\
          exists ws, arrays s' !! l = Some ws /\
            Forall2 (fun i w => derivedAt gw (wm_seedPhrase s) (fundingPath i) defaultPath w /\
                                type w = funding)
                    (seq 0 (Z.to_nat count)) ws) s.
Proof.
  unfold generateFundingWallets. wp_step.
  eapply wp_mono.
  { apply (wp_mapM (fun s' => wm_seedPhrase s' = wm_seedPhrase s)
                   (fun i w => derivedAt gw (wm_seedPhrase s) (fundingPath i) defaultPath w /\
                               type w = funding)).
    - intros i s0 H0. apply fundingWalletAt_spec. assumption.
    - reflexivity. }
  intros [ws|e|] s1 [H1 H2]; try discriminate.
  wp_steps. intros l [= <-]. simpl. split; [reflexivity|].
  exists ws. split; [apply lookup_insert_eq|]. auto.
Qed.

Lemma generateVolumeWallets_spec count (s : Sys Env) :
  wp (generateVolumeWallets gw count)
     (fun r s' =>
        forall l, r = Ok l ->
          wm_volumeWallets s' = l /\
          exists ws, arrays s' !! l = Some ws /\
            Forall2 (fun i w => derivedAt gw (wm_seedPhrase s) (volumePath i) defaultPath w /\
                                type w = volume)
                    (seq 0 (Z.to_nat count)) ws) s.
Proof.
  unfold generateVolumeWallets. wp_steps.
  eapply wp_mono.
  { apply (wp_mapM (fun s' => wm_seedPhrase s' = wm_seedPhrase s)
                   (fun i w => derivedAt gw (wm_seedPhrase s) (volumePath i) defaultPath w /\
                               type w = volume)).
    - intros i s0 H0. apply volumeWalletAt_spec. assumption.
    - reflexivity. }
  intros [ws|e|] s1 [H1 H2]; try discriminate.
  wp_steps. intros l [= <-]. simpl. split; [reflexivity|].
  exists ws. split; [apply lookup_insert_eq|]. auto.
Qed.

(** The number of wallets derived is the count asked for, whatever it is. *)
Lemma generateFundingWallets_length count (s : Sys Env) l s' :
  generateFundingWallets gw count s = (Ok l, s') ->
  exists ws, arrays s' !! l = Some ws /\ length ws = Z.to_nat count.
Proof.
  intros H. destruct (wp_run _ _ _ _ _ H (generateFundingWallets_spec count s) l eq_refl)
    as (_ & ws & Hws & HF).
  exists ws. split; [assumption|].
  apply Forall2_length in HF. rewrite length_seq in HF. auto.
Qed.

(** Where the wallets of the two namespaces are derived. *)
Lemma namespaces_derivation nf nv (s t : Sys Env) lf lv s' t' :
  generateFundingWallets gw nf s = (Ok lf, s') ->
  generateVolumeWallets gw nv t = (Ok lv, t') ->
  Forall2 (fun i w => derivedAt gw (wm_seedPhrase s) (fundingPath i) defaultPath w)
          (seq 0 (Z.to_nat nf)) (default [] (arrays s' !! lf)) /\
  Forall2 (fun j w => derivedAt gw (wm_seedPhrase t) (volumePath j) defaultPath w)
          (seq 0 (Z.to_nat nv)) (default [] (arrays t' !! lv)).
Proof.
  intros Hf Hv.
  destruct (wp_run _ _ _ _ _ Hf (generateFundingWallets_spec nf s) lf eq_refl)
    as (_ & fs & -> & HFf).
  destruct (wp_run _ _ _ _ _ Hv (generateVolumeWallets_spec nv t) lv eq_refl)
    as (_ & vs & -> & HFv).
  split; (eapply Forall2_impl; [eassumption|]); intros i w [H _]; exact H.
Qed.

End Derivation.

Section Isolation.
Context {Env : Type}.
Variable gw : Gateway Env.

Import WalletManager.

Lemma funding_path_segments i :
  segments (fundingPath i) = "m" :: "44'" :: "60'" :: "0'" :: "0" :: segments (dec i).
Proof. reflexivity. Qed.

Lemma volume_path_segments i :
  segments (volumePath i) = "m" :: "44'" :: "60'" :: "1'" :: "0" :: segments (dec i).
Proof. reflexivity. Qed.

Lemma funding_path_is_no_volume_path i j : fundingPath i <> volumePath j.
Proof. unfold fundingPath, volumePath. simpl. discriminate. Qed.

Lemma Forall2_elem {A B} (P : A -> B -> Prop) l (ws : list B) w :
  Forall2 P l ws -> w ∈ ws -> exists i, P i w.
Proof.
  induction 1 as [|i w' l ws HP _ IH]; intros Hin.
  - inversion Hin.
  - apply elem_of_cons in Hin as [->|Hin]; eauto.
Qed.

End Isolation.

Lemma append_cancel (p a b : string) : p +:+ a = p +:+ b -> a = b.
Proof.
  induction p as [|c p IH]; simpl; intros H; [assumption|].
  injection H as H. auto.
Qed.

Lemma script_gateway_collisionFree : collisionFree Script.gateway.
Proof.
  intros seed path p1 p2 n1 n2. simpl.
  destruct (String.eqb seed ""); [discriminate|].
  intros [= <-] [= <-]. simpl. unfold Script.account.
  destruct (String.eqb path defaultPath); intros H.
  - apply append_cancel in H. apply (append_cancel "@") in H. assumption.
  - apply append_cancel in H. apply (append_cancel ":") in H.
    apply append_cancel in H. apply (append_cancel "@") in H. assumption.
Qed.

(** C6, on the code: the second parameter of [HDNodeWallet.fromPhrase] is
    the password of the mnemonic, and the path is the third. The code gives
    the string it calls [derivationPath] as the second argument and no
    third one, so, for every seed and every pair of counts, funding wallet
    number [i] is the account at the default path [m/44'/60'/0'/0/0] of the
    seed with the password [m/44'/60'/0'/0/i], and volume wallet number [j]
    is the account at the same default path of the seed with the password
    [m/44'/60'/1'/0/j]. Both namespaces are derived at one path, whose
    account segment is [0']; the account segments [0'] and [1'] stand in
    the passwords only. With the scripted library, whose accounts are named
    after mnemonic, password and path, the first volume wallet is not the
    account of the seed at [m/44'/60'/1'/0/0]. *)
Theorem both_namespaces_derive_at_the_default_path :
  (forall Env (gw : Gateway Env) (nf nv : Z) (s t : Sys Env) lf lv s' t',
      WalletManager.generateFundingWallets gw nf s = (Ok lf, s') ->
      WalletManager.generateVolumeWallets gw nv t = (Ok lv, t') ->
      Forall2 (fun i w =>
                 derivedAt gw (wm_seedPhrase s) (WalletManager.fundingPath i) defaultPath w)
              (seq 0 (Z.to_nat nf)) (default [] (arrays s' !! lf)) /\
      Forall2 (fun j w =>
                 derivedAt gw (wm_seedPhrase t) (WalletManager.volumePath j) defaultPath w)
              (seq 0 (Z.to_nat nv)) (default [] (arrays t' !! lv))) /\
  accountSegment defaultPath = Some "0'" /\
  (forall i j,
      accountSegment (WalletManager.fundingPath i) = Some "0'" /\
      accountSegment (WalletManager.volumePath j) = Some "1'") /\
  (let f := WalletManager.generateFundingWallets Script.gateway 1 scriptedManager in
   let v := WalletManager.generateVolumeWallets Script.gateway 1 (snd f) in
   map address (allWalletsOf (snd v)) = ["seed@m/44'/60'/0'/0/0"; "seed@m/44'/60'/1'/0/0"] /\
   fromPhrase Script.gateway "seed" "m/44'/60'/1'/0/0" defaultPath
     = Resolved {| hd_address := "seed@m/44'/60'/1'/0/0";
                   hd_privateKey := "key:seed@m/44'/60'/1'/0/0";
                   hd_publicKey := "pub:seed@m/44'/60'/1'/0/0" |} /\
   fromPhrase Script.gateway "seed" "" "m/44'/60'/1'/0/0"
     = Resolved {| hd_address := "m/44'/60'/1'/0/0:seed@";
                   hd_privateKey := "key:m/44'/60'/1'/0/0:seed@";
                   hd_publicKey := "pub:m/44'/60'/1'/0/0:seed@" |}).
Proof.
  split; [|split; [|split]].
  - intros Env gw nf nv s t lf lv s' t'. apply namespaces_derivation.
  - reflexivity.
  - intros i j. unfold accountSegment.
    rewrite funding_path_segments, volume_path_segments. split; reflexivity.
  - cbv zeta. repeat split; vm_compute; reflexivity.
Qed.

(* ===================================================================== *)
(** * Phase 1: how many funding wallets are derived *)
(* ===================================================================== *)

(** C8, on the code: [generateFundingWallets] derives as many wallets as it
    is asked for, and phase 1 asks for [config.bondingCurve.walletCount]:
    [minWallets] and [maxWallets] are never read. With no variable set
    phase 1 derives 100 wallets; with FUNDING_WALLET_COUNT=5 it derives 5,
    fewer than the minimum of 100; with FUNDING_WALLET_COUNT=200 it derives
    200, more than the maximum of 150. *)
Theorem phase1_ignores_the_wallet_bounds :
  (forall Env (gw : Gateway Env) (count : Z) (s : Sys Env) l s',
      WalletManager.generateFundingWallets gw count s = (Ok l, s') ->
      exists ws, arrays s' !! l = Some ws /\ length ws = Z.to_nat count) /\
  (let count (n : option Z) :=
     let config := config_of (match n with
                              | Some n => Script.withFundingCount n Script.processEnv
                              | None => Script.processEnv
                              end) in
     (bondingCurve_minWallets config, bondingCurve_maxWallets config,
      option_map (fun ws => length ws)
                 (fundingWalletsAfter (Script.afterPhase1 config Script.quiet))) in
   count None = (100, 150, Some 100%nat) /\
   count (Some 5) = (100, 150, Some 5%nat) /\
   count (Some 200) = (100, 150, Some 200%nat)).
Proof.
  split; [intros Env gw count s l s'; apply generateFundingWallets_length|].
  cbv zeta. split; [vm_compute; reflexivity|].
  split; vm_compute; reflexivity.
Qed.

(* ===================================================================== *)
(** * Recovery *)
(* ===================================================================== *)

Section Recovery.
Context {Env : Type}.
Variable gw : Gateway Env.
Variable config : Config.

Import NadFunContract RecoveryManager.

Lemma sendAndWait_spec signer tx (s : Sys Env) :
  wp (sendAndWait gw signer tx)
     (fun r s' =>
        exists out, trace s' = EvTx signer tx out :: trace s /\
          match r with
          | Ok (h, rc) => out = Confirmed h rc
          | Err e => out = NotSent e \/ exists h, out = NotConfirmed h e
          | OutOfFuel => False
          end) s.
Proof.
  unfold wp, sendAndWait.
  destruct (sendTransaction gw signer tx (env s)) as [[h|e] e1]; simpl.
  - destruct (wait gw h e1) as [[rc|e] e2]; simpl; eauto.
  - eauto.
Qed.

Lemma populate_spec contract data value (s : Sys Env) :
  wp (populate gw contract data value)
     (fun r s' => trace s' = trace s /\ r <> OutOfFuel /\
                  forall tx, r = Ok tx ->
                    tx = {| tx_to := contract; tx_data := data; tx_value := value |}) s.
Proof.
  unfold populate. wp_steps; simpl; repeat split; try discriminate.
  intros tx [= <-]. reflexivity.
Qed.

Lemma sellToken_spec to wallet token amount (s : Sys Env) :
  wp (sellToken gw config wallet token amount)
     (fun r s' => r <> OutOfFuel /\ (forall v, r = Ok v -> v = 0) /\
                  transferredTo to (trace s') = transferredTo to (trace s)) s.
Proof.
  unfold sellToken, invoke. apply wp_rethrow.
  wp_steps. eapply wp_mono; [apply populate_spec|].
  intros [tx|e|] s1 (Ht & Hne & Htx); try congruence.
  - specialize (Htx _ eq_refl). subst tx.
    eapply wp_mono; [apply sendAndWait_spec|].
    intros [[h rc]|e|] s2 (out & Hout & Hr); [| |contradiction].
    + wp_steps. repeat split; try discriminate; try congruence.
      rewrite Hout, <- Ht. subst out. reflexivity.
    + repeat split; try discriminate.
      rewrite Hout, <- Ht. destruct Hr as [->|[h ->]]; reflexivity.
  - repeat split; try discriminate. congruence.
Qed.

Lemma buyToken_spec to wallet token amount (s : Sys Env) :
  wp (buyToken gw config wallet token amount)
     (fun r s' => r <> OutOfFuel /\ (forall v, r = Ok v -> v = 0) /\
                  transferredTo to (trace s') = transferredTo to (trace s)) s.
Proof.
  unfold buyToken, invoke. apply wp_rethrow.
  wp_steps. eapply wp_mono; [apply populate_spec|].
  intros [tx|e|] s1 (Ht & Hne & Htx); try congruence.
  - specialize (Htx _ eq_refl). subst tx.
    eapply wp_mono; [apply sendAndWait_spec|].
    intros [[h rc]|e|] s2 (out & Hout & Hr); [| |contradiction].
    + wp_steps. repeat split; try discriminate; try congruence.
      rewrite Hout, <- Ht. subst out. reflexivity.
    + repeat split; try discriminate.
      rewrite Hout, <- Ht. destruct Hr as [->|[h ->]]; reflexivity.
  - repeat split; try discriminate. congruence.
Qed.

Lemma transferMon_spec wallet to amount (s : Sys Env) :
  wp (transferMon gw wallet to amount)
     (fun r s' =>
        match r with
        | Ok _ => transferredTo to (trace s') = transferredTo to (trace s) + amount
        | Err _ => transferredTo to (trace s') = transferredTo to (trace s)
        | OutOfFuel => False
        end) s.
Proof.
  unfold transferMon. apply wp_rethrow.
  wp_step. eapply wp_mono; [apply sendAndWait_spec|].
  intros [[h rc]|e|] s2 (out & Hout & Hr); [| |contradiction].
  - wp_steps. rewrite Hout. subst out. simpl. rewrite String.eqb_refl. lia.
  - rewrite Hout. destruct Hr as [->|[h ->]]; reflexivity.
Qed.

Lemma getTokenBalance_spec token a (s : Sys Env) :
  wp (getTokenBalance gw token a)
     (fun r s' => trace s' = trace s /\ r <> OutOfFuel /\
                  (readsResolve gw -> exists v, r = Ok v)) s.
Proof.
  unfold getTokenBalance. apply wp_rethrow.
  wp_steps; simpl; repeat split; try discriminate; eauto.
  intros [Hr _]. destruct (Hr token a (env s)) as (v & e1 & Hv). congruence.
Qed.

Lemma getMonBalance_spec a (s : Sys Env) :
  wp (getMonBalance gw a)
     (fun r s' => trace s' = trace s /\ r <> OutOfFuel /\
                  (readsResolve gw -> exists v, r = Ok v)) s.
Proof.
  unfold getMonBalance. apply wp_rethrow.
  wp_steps; simpl; repeat split; try discriminate; eauto.
  intros [_ Hr]. destruct (Hr a (env s)) as (v & e1 & Hv). congruence.
Qed.

End Recovery.

Section Sweep.
Context {Env : Type}.
Variable gw : Gateway Env.
Variable config : Config.

Import NadFunContract RecoveryManager.

(** One wallet: what it returns is what it transferred to the recovery
    address; a failed sale or transfer does not make it throw. *)
Lemma recoverFromWallet_spec this wallet (s : Sys Env) :
  wp (recoverFromWallet gw config this wallet)
     (fun r s' =>
        r <> OutOfFuel /\
        (readsResolve gw -> exists v, r = Ok v) /\
        transferredTo (rm_recoveryAddress this) (trace s') =
          transferredTo (rm_recoveryAddress this) (trace s)
          + match r with Ok v => v | _ => 0 end) s.
Proof.
  unfold recoverFromWallet. set (to := rm_recoveryAddress this).
  wp_step. eapply wp_mono; [apply getTokenBalance_spec|].
  intros [b|e|] s1 (Ht1 & Hne1 & Hres1); [| |congruence].
  2:{ repeat split; [discriminate| |rewrite Ht1; lia].
      intros H. destruct (Hres1 H) as [v Hv]. discriminate. }
  wp_step.
  apply (wp_mono _ (fun r s' => r = Ok 0 /\
           transferredTo to (trace s') = transferredTo to (trace s1))).
  { destruct (0 <? b); [|wp_steps; auto].
    wp_step. wp_step. eapply wp_mono; [apply (sellToken_spec gw config to)|].
    intros [v|e|] s2 (Hne & Hv & Ht2); [| |congruence].
    - rewrite (Hv v eq_refl). wp_steps. auto.
    - wp_steps. auto. }
  intros r s2 [-> Ht2].
  wp_step. eapply wp_mono; [apply getMonBalance_spec|].
  intros [m|e|] s3 (Ht3 & Hne3 & Hres3); [| |congruence].
  2:{ repeat split; [discriminate| |rewrite Ht3, Ht2, Ht1; lia].
      intros H. destruct (Hres3 H) as [v Hv]. discriminate. }
  assert (Hsame : transferredTo to (trace s3) = transferredTo to (trace s))
    by (rewrite Ht3, Ht2, Ht1; reflexivity).
  destruct (0 <? m); [|wp_steps; repeat split; [discriminate|eauto|lia]].
  destruct (0 <? (if gasReserve <? m then m - gasReserve else 0));
    [|wp_steps; repeat split; [discriminate|eauto|lia]].
  wp_step. wp_step. eapply wp_mono; [apply transferMon_spec|].
  intros [h|e|] s4 Ht4; [| |contradiction].
  - wp_steps. repeat split; [discriminate|eauto|lia].
  - wp_steps. repeat split; [discriminate|eauto|lia].
Qed.

Lemma sleep_spec ms (s : Sys Env) :
  wp (sleep gw ms) (fun r s' => r = Ok tt /\ trace s' = EvSleep ms :: trace s) s.
Proof. unfold sleep. wp_steps. auto. Qed.

(** The loop: it always returns, the total grows by what was transferred
    to the recovery address, and the count by at most one per wallet, by
    exactly one when the balance reads resolve. *)
Lemma sweep_spec this wallets : forall total processed (s : Sys Env),
  wp (sweep gw config this wallets total processed)
     (fun r s' =>
        exists total' processed',
          r = Ok (total', processed') /\
          total' - total =
            transferredTo (rm_recoveryAddress this) (trace s')
            - transferredTo (rm_recoveryAddress this) (trace s) /\
          processed <= processed' <= processed + Z.of_nat (length wallets) /\
          (readsResolve gw -> processed' = processed + Z.of_nat (length wallets))) s.
Proof.
  set (to := rm_recoveryAddress this).
  induction wallets as [|w rest IH]; intros total processed s; simpl sweep.
  - wp_steps. exists total, processed. simpl. repeat split; lia.
  - wp_step.
    apply (wp_mono _ (fun r s1 => exists t1 p1, r = Ok (t1, p1) /\
             t1 - total = transferredTo to (trace s1) - transferredTo to (trace s) /\
             processed <= p1 <= processed + 1 /\
             (readsResolve gw -> p1 = processed + 1))).
    { wp_step. wp_step. eapply wp_mono; [apply recoverFromWallet_spec|].
      fold to. intros [v|e|] s1 (Hne & Hres & Ht); [| |congruence].
      - wp_step. eapply wp_mono; [apply sleep_spec|].
        intros r s2 [-> Ht2]. wp_steps.
        exists (total + v), (processed + 1). rewrite Ht2. simpl.
        repeat split; lia.
      - wp_steps. exists total, processed. repeat split; try lia.
        intros H. destruct (Hres H) as [v Hv]. discriminate. }
    intros r s1 (t1 & p1 & -> & Ht1 & Hp1 & Hr1). simpl fst. simpl snd.
    eapply wp_mono; [apply IH|].
    intros r s2 (t2 & p2 & -> & Ht2 & Hp2 & Hr2).
    exists t2, p2. simpl length. repeat split; try lia.
    intros H. specialize (Hr1 H). specialize (Hr2 H). lia.
Qed.

End Sweep.

Section ExecuteRecovery.
Context {Env : Type}.
Variable gw : Gateway Env.
Variable config : Config.

Import NadFunContract RecoveryManager.

Lemma executeRecovery_spec this (s : Sys Env) :
  wp (executeRecovery gw config this)
     (fun r s' =>
        exists total processed,
          r = Ok (total, processed) /\
          total = transferredTo (rm_recoveryAddress this) (trace s')
                  - transferredTo (rm_recoveryAddress this) (trace s) /\
          0 <= processed <= Z.of_nat (length (allWalletsOf s)) /\
          (readsResolve gw -> processed = Z.of_nat (length (allWalletsOf s)))) s.
Proof.
  unfold executeRecovery, WalletManager.getAllWallets. wp_steps.
  eapply wp_mono; [apply sweep_spec|].
  intros r s' (total & processed & -> & Ht & Hp & Hr).
  exists total, processed. unfold allWalletsOf. repeat split; try lia.
  intros H. specialize (Hr H). lia.
Qed.

(** C10: a [sellToken] or [buyToken] that returns, returns 0, whatever
    the receipt holds; and [executeRecovery] always returns, with a total
    that is the sum of the confirmed MON transfers to the recovery address
    made during the call, and of nothing else. *)
Theorem recovered_total_is_the_sum_of_the_transfers
    (this : RecoveryManager) (wallet : Wallet) (token : string) (amount : Z) (s : Sys Env) :
  match fst (sellToken gw config wallet token amount s) with
  | Ok monReceived => monReceived = 0
  | _ => True
  end /\
  match fst (buyToken gw config wallet token amount s) with
  | Ok tokensReceived => tokensReceived = 0
  | _ => True
  end /\
  exists totalMonRecovered walletsProcessed,
    fst (executeRecovery gw config this s) = Ok (totalMonRecovered, walletsProcessed) /\
    totalMonRecovered =
      transferredTo (rm_recoveryAddress this) (trace (snd (executeRecovery gw config this s)))
      - transferredTo (rm_recoveryAddress this) (trace s).
Proof.
  split; [|split].
  - pose proof (sellToken_spec gw config "" wallet token amount s) as (_ & H & _).
    destruct (fst _); auto.
  - pose proof (buyToken_spec gw config "" wallet token amount s) as (_ & H & _).
    destruct (fst _); auto.
  - destruct (executeRecovery_spec this s) as (t & p & Hr & Ht & _). eauto.
Qed.

(** One round of the loop of [executeRecovery]. *)
Lemma sweep_cons this wallet rest total processed (s : Sys Env) :
  sweep gw config this (wallet :: rest) total processed s
  = match recoverFromWallet gw config this wallet s with
    | (Ok recovered, s1) =>
        sweep gw config this rest (total + recovered) (processed + 1)
          (snd (sleep gw 1000 s1))
    | (Err e, s1) => sweep gw config this rest total processed s1
    | (OutOfFuel, s1) => (OutOfFuel, s1)
    end.
Proof.
  simpl sweep. unfold bind at 1, try_catch, bind at 1.
  destruct (recoverFromWallet gw config this wallet s) as [[v|e|] s1]; reflexivity.
Qed.

(** The loop adds to the two counters it is given. *)
Lemma sweep_counters this wallets : forall total processed (s : Sys Env),
  sweep gw config this wallets total processed s
  = (match fst (sweep gw config this wallets 0 0 s) with
     | Ok (t, p) => Ok (total + t, processed + p)
     | Err e => Err e
     | OutOfFuel => OutOfFuel
     end, snd (sweep gw config this wallets 0 0 s)).
Proof.
  induction wallets as [|w rest IH]; intros total processed s.
  - simpl. unfold ret. simpl. rewrite !Z.add_0_r. reflexivity.
  - rewrite !sweep_cons.
    destruct (recoverFromWallet gw config this w s) as [[v|e|] s1].
    + rewrite (IH (total + v) (processed + 1)), (IH (0 + v) (0 + 1)). simpl.
      destruct (fst (sweep gw config this rest 0 0 _)) as [[t p]|e|]; [|reflexivity..].
      f_equal. f_equal. f_equal; lia.
    + apply IH.
    + reflexivity.
Qed.

(** The loop over a list that is made of two: the second part is gone
    through from where the first part ended. *)
Lemma sweep_app this pre post : forall total processed (s : Sys Env),
  sweep gw config this (pre ++ post) total processed s
  = match sweep gw config this pre total processed s with
    | (Ok (t, p), s1) => sweep gw config this post t p s1
    | (Err e, s1) => (Err e, s1)
    | (OutOfFuel, s1) => (OutOfFuel, s1)
    end.
Proof.
  induction pre as [|w pre IH]; intros total processed s.
  - reflexivity.
  - simpl app. rewrite !sweep_cons.
    destruct (recoverFromWallet gw config this w s) as [[v|e|] s1]; [apply IH..|reflexivity].
Qed.

(** A wallet that holds [b] tokens and whose sale throws: [recoverFromWallet]
    catches the error, reads the MON balance [m] and, when it is above the
    gas reserve and the transfer is confirmed, returns [m - gasReserve]. *)
Lemma recoverFromWallet_after_a_failed_sale this wallet (s : Sys Env)
    (b m : Z) (e1 e3 : Env) (error hash : string) :
  call_getTokenBalance gw (rm_tokenAddress this) (address wallet) (env s) = (Resolved b, e1) ->
  0 < b ->
  fst (sellToken gw config wallet (rm_tokenAddress this) b (set_env (fun _ => e1) s))
    = Err error ->
  getBalance gw (address wallet)
    (env (snd (sellToken gw config wallet (rm_tokenAddress this) b (set_env (fun _ => e1) s))))
    = (Resolved m, e3) ->
  gasReserve < m ->
  fst (transferMon gw wallet (rm_recoveryAddress this) (m - gasReserve)
         (set_env (fun _ => e3)
            (snd (sellToken gw config wallet (rm_tokenAddress this) b
                    (set_env (fun _ => e1) s)))))
    = Ok hash ->
  recoverFromWallet gw config this wallet s
  = (Ok (m - gasReserve),
     snd (transferMon gw wallet (rm_recoveryAddress this) (m - gasReserve)
            (set_env (fun _ => e3)
               (snd (sellToken gw config wallet (rm_tokenAddress this) b
                       (set_env (fun _ => e1) s)))))).
Proof.
  intros Hb Hpos Hsale Hm Hres Htransfer.
  unfold recoverFromWallet, getTokenBalance, getMonBalance.
  unfold bind at 1. rewrite try_rethrow. unfold await at 1. rewrite Hb.
  destruct (Z.ltb_spec 0 b) as [_|]; [|lia].
  unfold bind at 1, try_catch at 1, bind at 1.
  destruct (sellToken gw config wallet (rm_tokenAddress this) b (set_env (fun _ => e1) s))
    as [r s2] eqn:Hrun. simpl in Hsale, Hm, Htransfer. subst r.
  unfold ret at 1. unfold bind at 1. rewrite try_rethrow. unfold await at 1. rewrite Hm.
  destruct (Z.ltb_spec 0 m) as [_|]; [|unfold gasReserve in *; lia].
  destruct (Z.ltb_spec gasReserve m) as [_|]; [|lia].
  destruct (Z.ltb_spec 0 (m - gasReserve)) as [_|]; [|lia].
  unfold try_catch, bind. cbn [fst snd].
  destruct (transferMon gw wallet (rm_recoveryAddress this) (m - gasReserve)
              (set_env (fun _ => e3) s2)) as [r s4].
  simpl in Htransfer. subst r. reflexivity.
Qed.

(** C3, amended: a wallet W2 holds [b] tokens and [m] MON, more than the
    gas reserve; its sale throws and its transfer is confirmed; the
    balance reads resolve. Then [executeRecovery] goes through every
    wallet and returns; [walletsProcessed] counts every wallet, W2 as well,
    because [recoverFromWallet] catches the failure of the sale itself;
    and [totalMonRecovered] is what the wallets before W2 gave, plus the
    [m - gasReserve] that W2 transferred, plus what the wallets after W2
    gave, these being gone through from the state the recovery of W2 left.
    It is the sum of the transfers that were confirmed. *)
Theorem recovery_counts_a_wallet_whose_sale_failed
    (this : RecoveryManager) (pre post : list Wallet) (W2 : Wallet) (s : Sys Env)
    (b m : Z) (e1 e3 : Env) (error hash : string) :
  readsResolve gw ->
  allWalletsOf s = pre ++ W2 :: post ->
  let before := sweep gw config this pre 0 0 s in
  call_getTokenBalance gw (rm_tokenAddress this) (address W2) (env (snd before))
    = (Resolved b, e1) ->
  0 < b ->
  let sale := sellToken gw config W2 (rm_tokenAddress this) b
                (set_env (fun _ => e1) (snd before)) in
  fst sale = Err error ->
  getBalance gw (address W2) (env (snd sale)) = (Resolved m, e3) ->
  gasReserve < m ->
  let transfer := transferMon gw W2 (rm_recoveryAddress this) (m - gasReserve)
                    (set_env (fun _ => e3) (snd sale)) in
  fst transfer = Ok hash ->
  let after := sweep gw config this post 0 0 (snd (sleep gw 1000 (snd transfer))) in
  exists total_before total_after,
    fst before = Ok (total_before, Z.of_nat (length pre)) /\
    recoverFromWallet gw config this W2 (snd before) = (Ok (m - gasReserve), snd transfer) /\
    fst after = Ok (total_after, Z.of_nat (length post)) /\
    executeRecovery gw config this s
      = (Ok (total_before + (m - gasReserve) + total_after,
             Z.of_nat (length (allWalletsOf s))),
         snd after) /\
    total_before + (m - gasReserve) + total_after
      = transferredTo (rm_recoveryAddress this) (trace (snd after))
        - transferredTo (rm_recoveryAddress this) (trace s).
Proof.
  intros Hreads Hall before Hb Hpos sale Hsale Hm Hres transfer Htransfer after.
  destruct (sweep_spec gw config this pre 0 0 s)
    as (t1 & p1 & Hr1 & _ & _ & Hp1).
  destruct (sweep_spec gw config this post 0 0 (snd (sleep gw 1000 (snd transfer))))
    as (t3 & p3 & Hr3 & _ & _ & Hp3).
  specialize (Hp1 Hreads). specialize (Hp3 Hreads). simpl in Hp1, Hp3. subst p1 p3.
  fold before in Hr1. fold after in Hr3.
  pose proof (recoverFromWallet_after_a_failed_sale this W2 (snd before) b m e1 e3 error hash
                Hb Hpos Hsale Hm Hres Htransfer) as HW2.
  fold sale in HW2. fold transfer in HW2.
  assert (Hrun : executeRecovery gw config this s
                 = (Ok (t1 + (m - gasReserve) + t3, Z.of_nat (length (allWalletsOf s))),
                    snd after)).
  { unfold executeRecovery, WalletManager.getAllWallets, bind, get, readArray, ret. simpl.
    fold (allWalletsOf s). rewrite Hall, sweep_app.
    fold before. destruct before as [r1 s1] eqn:Hbefore. simpl in Hr1, HW2. subst r1.
    rewrite sweep_cons, HW2.
    rewrite sweep_counters. fold after. rewrite Hr3. simpl.
    f_equal. f_equal. f_equal.
    rewrite length_app. simpl. lia. }
  exists t1, t3. repeat split; try assumption.
  destruct (executeRecovery_spec this s) as (t & p & Hr & Ht & _).
  rewrite Hrun in Hr, Ht. simpl in Hr, Ht. injection Hr as <- _. exact Ht.
Qed.

End ExecuteRecovery.

Lemma script_gateway_readsResolve : readsResolve Script.gateway.
Proof. split; intros; simpl; eauto. Qed.

(** C3, as worded, fails: W2's sale throws, and yet W2 is counted and the
    total holds W2's transfer: it is 2.997 MON, not the 1.998 MON of W1
    and W3. *)
Lemma recovery_total_holds_the_failed_wallet_s_transfer :
  let gw := Script.gateway in
  let config := RecoveryScenario.config in
  let s := RecoveryScenario.start in
  allWalletsOf s = [RecoveryScenario.wallet 0; RecoveryScenario.wallet 1; RecoveryScenario.wallet 2] /\
  fst (NadFunContract.sellToken gw config (RecoveryScenario.wallet 1) "0xTOKEN" 5 s)
    = Err "transaction rejected" /\
  fst (RecoveryManager.executeRecovery gw config RecoveryScenario.manager s)
    = Ok (2997 * 10 ^ 15, 3) /\
  RecoveryScenario.contribution (RecoveryScenario.wallet 0)
    + RecoveryScenario.contribution (RecoveryScenario.wallet 2) = 1998 * 10 ^ 15 /\
  2997 * 10 ^ 15 <>
    RecoveryScenario.contribution (RecoveryScenario.wallet 0)
    + RecoveryScenario.contribution (RecoveryScenario.wallet 2).
Proof.
  cbv zeta. repeat split; try (vm_compute; reflexivity).
  vm_compute. discriminate.
Qed.

(** On the recovery scenario, where the sale of W2 is rejected: W1 comes
    before it and W3 after. *)
Lemma recovery_counts_a_wallet_whose_sale_failed_witness :
  exists total_before total_after,
    fst (RecoveryManager.sweep Script.gateway RecoveryScenario.config RecoveryScenario.manager
           [RecoveryScenario.wallet 0] 0 0 RecoveryScenario.start)
      = Ok (total_before, 1) /\
    total_before = 999 * 10 ^ 15 /\
    total_after = 999 * 10 ^ 15 /\
    fst (RecoveryManager.executeRecovery Script.gateway RecoveryScenario.config
           RecoveryScenario.manager RecoveryScenario.start)
      = Ok (total_before + (10 ^ 18 - RecoveryManager.gasReserve) + total_after, 3).
Proof.
  pose (before := RecoveryManager.sweep Script.gateway RecoveryScenario.config
                    RecoveryScenario.manager [RecoveryScenario.wallet 0] 0 0
                    RecoveryScenario.start).
  pose (sale := NadFunContract.sellToken Script.gateway RecoveryScenario.config
                  (RecoveryScenario.wallet 1) "0xTOKEN" 5 (snd before)).
  destruct (recovery_counts_a_wallet_whose_sale_failed Script.gateway RecoveryScenario.config
              RecoveryScenario.manager [RecoveryScenario.wallet 0] [RecoveryScenario.wallet 2]
              (RecoveryScenario.wallet 1) RecoveryScenario.start
              5 (10 ^ 18) (env (snd before)) (env (snd sale))
              "transaction rejected" "0x1" script_gateway_readsResolve)
    as (t1 & t3 & H1 & _ & H3 & Hrun & _).
  - vm_compute. reflexivity.
  - vm_compute. reflexivity.
  - lia.
  - vm_compute. reflexivity.
  - vm_compute. reflexivity.
  - vm_compute. reflexivity.
  - vm_compute. reflexivity.
  - exists t1, t3. split; [exact H1|].
    assert (Ht1 : t1 = 999 * 10 ^ 15) by (vm_compute in H1 |- *; congruence).
    assert (Ht3 : t3 = 999 * 10 ^ 15) by (vm_compute in H3 |- *; congruence).
    split; [exact Ht1|]. split; [exact Ht3|].
    rewrite Hrun. reflexivity.
Defined.

(* ===================================================================== *)
(** * The bundler *)
(* ===================================================================== *)

Lemma submissions_app (new old : list Event) :
  submissions (new ++ old) = submissions old ++ submissions new.
Proof. unfold submissions. rewrite omap_app, rev_app_distr. reflexivity. Qed.

Section Bundler.
Context {Env : Type}.
Variable gw : Gateway Env.
Variable config : Config.

Import TransactionBundler.

(** The receipt is never searched: no address comes out of it. *)
Lemma extractTokenAddress_is_null receipt : extractTokenAddress receipt = None.
Proof. destruct receipt; reflexivity. Qed.

(** The requests that [wallets.map] builds: one buy per index, for the
    amount at that index; none when an amount is missing. *)
Lemma populated_requests token amounts : forall n k txs,
  Forall2 (fun i tx => exists amount, amounts !! i = Some amount /\
                                      tx = buyRequest config token amount)
          (seq k n) txs ->
  txs = map (buyRequest config token) (take n (drop k amounts)) /\
  length txs = n.
Proof.
  induction n as [|n IH]; intros k txs H; simpl in H.
  - inversion H. split; reflexivity.
  - inversion H as [|i tx l txs' (a & Ha & ->) Hrest]; subst.
    destruct (IH _ _ Hrest) as [-> Hlen].
    rewrite (drop_S _ _ _ Ha). simpl. rewrite length_map in *.
    split; [reflexivity|]. lia.
Qed.

Lemma populateBuy_all token amounts n (s : Sys Env) :
  wp (mapM (populateBuy gw config token amounts) (seq 0 n))
     (fun r s' =>
        trace s' = trace s /\ r <> OutOfFuel /\
        forall txs, r = Ok txs ->
          txs = map (buyRequest config token) (take n amounts) /\ length txs = n) s.
Proof.
  eapply wp_mono.
  { apply (wp_mapM_total (fun s' => trace s' = trace s)
             (fun i tx => exists amount, amounts !! i = Some amount /\
                                         tx = buyRequest config token amount)).
    - intros i s0 H0. unfold populateBuy.
      destruct (amounts !! i) as [a|] eqn:Ha.
      + eapply wp_mono; [apply populate_spec|].
        intros r s1 (Ht & Hne & Htx). repeat split; [congruence|assumption|].
        intros tx ->. exists a. split; [reflexivity|]. apply Htx. reflexivity.
      + wp_steps. repeat split; [assumption|discriminate..].
    - reflexivity. }
  intros r s' (Ht & Hne & HF). repeat split; [assumption..| |].
  - apply (populated_requests token amounts n 0 txs). auto.
  - apply (populated_requests token amounts n 0 txs). auto.
Qed.

(** Building a request changes nothing. *)
Lemma populateBuy_pure token amounts i (s : Sys Env) :
  snd (populateBuy gw config token amounts i s) = s.
Proof.
  unfold populateBuy, populate, bind, get, settled.
  destruct (amounts !! i); [|reflexivity]. simpl.
  destruct (populateTransaction _ _ _ _ _); reflexivity.
Qed.

(** A loop whose rounds change nothing: it returns when every round does,
    and throws what the first round that throws does. *)
Lemma mapM_pure {A B} (f : A -> M Env B) (s : Sys Env) :
  (forall x, snd (f x s) = s) ->
  forall l,
    snd (mapM f l s) = s /\
    match fst (mapM f l s) with
    | Ok ys => Forall2 (fun x y => fst (f x s) = Ok y) l ys
    | Err e => exists x, x ∈ l /\ fst (f x s) = Err e
    | OutOfFuel => exists x, x ∈ l /\ fst (f x s) = OutOfFuel
    end.
Proof.
  intros Hpure. induction l as [|x l [IHs IHr]]; simpl.
  - split; [reflexivity|constructor].
  - unfold bind. specialize (Hpure x).
    destruct (f x s) as [[y|e|] s1] eqn:Hx; simpl in Hpure; subst s1.
    + destruct (mapM f l s) as [[ys|e|] s2]; simpl in *; subst s2.
      * split; [reflexivity|]. constructor; [rewrite Hx; reflexivity|assumption].
      * split; [reflexivity|]. destruct IHr as (x' & Hin & Hx').
        exists x'. split; [apply elem_of_cons; auto|assumption].
      * split; [reflexivity|]. destruct IHr as (x' & Hin & Hx').
        exists x'. split; [apply elem_of_cons; auto|assumption].
    + simpl. split; [reflexivity|]. exists x. split; [apply elem_of_cons; auto|].
      rewrite Hx. reflexivity.
    + simpl. split; [reflexivity|]. exists x. split; [apply elem_of_cons; auto|].
      rewrite Hx. reflexivity.
Qed.

(** [wallets.map] over the indices: it leaves the state as it was; it
    returns when the request of every index can be built, and otherwise
    throws what the callback of one of the indices throws. *)
Lemma populateBuy_each token amounts n (s : Sys Env) :
  snd (mapM (populateBuy gw config token amounts) (seq 0 n) s) = s /\
  match fst (mapM (populateBuy gw config token amounts) (seq 0 n) s) with
  | Ok txs =>
      forall i, (i < n)%nat -> exists tx, fst (populateBuy gw config token amounts i s) = Ok tx
  | Err e =>
      exists i, (i < n)%nat /\ fst (populateBuy gw config token amounts i s) = Err e
  | OutOfFuel => False
  end.
Proof.
  destruct (mapM_pure (populateBuy gw config token amounts) s
              (fun i => populateBuy_pure token amounts i s) (seq 0 n)) as [Hs Hr].
  split; [assumption|].
  pose proof (populateBuy_all token amounts n s) as (_ & Hne & _).
  destruct (fst (mapM _ _ s)) as [txs|e|]; [| |congruence].
  - intros i Hi.
    assert (Hin : seq 0 n !! i = Some i) by (apply lookup_seq; auto).
    destruct (Forall2_lookup_l _ _ _ _ _ Hr Hin) as (tx & _ & Htx). eauto.
  - destruct Hr as (i & Hin & Hi). exists i. split; [|assumption].
    apply elem_of_seq in Hin. lia.
Qed.

(** The sequential loop: what it submits is a prefix of its operations,
    in order; it returns the hashes when all are confirmed, and stops on
    the first that is not, throwing its error. *)
Lemma submitSequentially_spec : forall wallets txs acc1 acc2 (s : Sys Env),
  length txs = length wallets ->
  wp (submitSequentially gw wallets txs acc1 acc2)
     (fun r s' =>
        exists new,
          trace s' = new ++ trace s /\
          (submissions new).*1 = take (length (submissions new)) (zip wallets txs) /\
          match r with
          | Ok bundle =>
              length (submissions new) = length wallets /\
              Forall isConfirmed (submissions new) /\
              transactions bundle = acc1 ++ omap confirmedHash (submissions new) /\
              signatures bundle = acc2 ++ omap confirmedHash (submissions new)
          | Err e =>
              exists done last,
                submissions new = done ++ [last] /\
                Forall isConfirmed done /\ failedWith e last
          | OutOfFuel => False
          end) s.
Proof.
  induction wallets as [|w ws IH]; intros txs acc1 acc2 s Hlen.
  - destruct txs; [|discriminate]. simpl. wp_steps.
    exists []. simpl. rewrite !app_nil_r. repeat split; constructor.
  - destruct txs as [|tx txs]; [discriminate|]. simpl submitSequentially.
    wp_step. eapply wp_mono; [apply sendAndWait_spec|].
    intros [[h rc]|e|] s1 (out & Hout & Hr); [| |contradiction].
    + subst out. wp_step. eapply wp_mono; [apply sleep_spec|].
      intros r s2 [-> Hs2]. simpl fst.
      eapply wp_mono; [apply IH; simpl in Hlen; lia|].
      intros r s3 (new & Hnew & Hpre & Hres).
      exists (new ++ [EvSleep 100; EvTx w tx (Confirmed h rc)]).
      rewrite submissions_app. change (submissions [_; _]) with [(w, tx, Confirmed h rc)].
      split; [rewrite Hnew, Hs2, Hout, <- app_assoc; reflexivity|].
      split; [simpl; f_equal; assumption|].
      destruct r as [b|e|]; [| |assumption].
      * destruct Hres as (Hn & Hall & Ht & Hsig). simpl.
        repeat split.
        -- lia.
        -- constructor; [eexists _, _; reflexivity|assumption].
        -- rewrite Ht, <- app_assoc. reflexivity.
        -- rewrite Hsig, <- app_assoc. reflexivity.
      * destruct Hres as (done & last & Hsub & Hdone & Hlast).
        exists ((w, tx, Confirmed h rc) :: done), last. rewrite Hsub.
        repeat split; [|assumption].
        constructor; [eexists _, _; reflexivity|assumption].
    + exists [EvTx w tx out]. rewrite Hout.
      change (submissions [_]) with [(w, tx, out)].
      split; [reflexivity|]. split; [reflexivity|].
      exists [], (w, tx, out). repeat split; [constructor|].
      destruct Hr as [->|[h ->]]; [left|right; exists h]; reflexivity.
Qed.

End Bundler.

Section SequentialBundle.
Context {Env : Type}.
Variable gw : Gateway Env.
Variable config : Config.

Import TransactionBundler.

(** C2, amended: with no bundler configured, [bundleMultipleBuys] submits
    its operations in input order, each at most once, every one but the
    last confirmed. When all N are confirmed it returns the bundle of
    their N hashes, in order. When it throws, either the request of one of
    the operations could not be built, and then it throws the error of
    that request before anything is submitted; or every request was
    built, operation k is the first that failed, operations 1 to k were
    submitted and nothing after, and it throws the error of operation k:
    no bundle is returned, so neither the k-1 hashes nor the index k is
    reported. *)
Theorem sequential_bundle_stops_at_the_first_failure
    (wallets : list Wallet) (token : string) (amounts : list Z) (s : Sys Env) :
  monad_bundlerRpcUrl config = "" ->
  exists new,
    trace (snd (bundleMultipleBuys gw config wallets token amounts s)) = new ++ trace s /\
    (submissions new).*1
      = take (length (submissions new)) (operations config wallets token amounts) /\
    match fst (bundleMultipleBuys gw config wallets token amounts s) with
    | Ok bundle =>
        length (submissions new) = length wallets /\
        Forall isConfirmed (submissions new) /\
        transactions bundle = omap confirmedHash (submissions new) /\
        signatures bundle = omap confirmedHash (submissions new)
    | Err e =>
        (submissions new = [] /\
         exists i, (i < length wallets)%nat /\
                   fst (populateBuy gw config token amounts i s) = Err e) \/
        ((forall i, (i < length wallets)%nat ->
                    exists tx, fst (populateBuy gw config token amounts i s) = Ok tx) /\
         exists done last,
           submissions new = done ++ [last] /\
           Forall isConfirmed done /\ failedWith e last)
    | OutOfFuel => False
    end.
Proof.
  intros Hseq.
  pose proof (populateBuy_each gw config token amounts (length wallets) s) as [Hpure Hbuilt].
  pose proof (populateBuy_all gw config token amounts (length wallets) s) as (_ & _ & Htxs).
  unfold wp in Htxs.
  assert (Hrun : bundleMultipleBuys gw config wallets token amounts s
                 = match mapM (populateBuy gw config token amounts)
                               (seq 0 (length wallets)) s with
                   | (Ok txs, s1) => submitSequentially gw wallets txs [] [] s1
                   | (Err e, s1) => (Err e, s1)
                   | (OutOfFuel, s1) => (OutOfFuel, s1)
                   end).
  { unfold bundleMultipleBuys. rewrite Hseq. reflexivity. }
  rewrite Hrun. clear Hrun.
  destruct (mapM (populateBuy gw config token amounts) (seq 0 (length wallets)) s)
    as [[txs|e|] s1] eqn:Hmap; simpl in Hpure, Hbuilt, Htxs; subst s1; [| |contradiction].
  - destruct (Htxs txs eq_refl) as [Hreq Hlen].
    pose proof (submitSequentially_spec gw wallets txs [] [] s Hlen) as Hloop.
    unfold wp in Hloop. destruct Hloop as (new & Hnew & Hpre & Hres).
    exists new. split; [assumption|]. split.
    + rewrite Hpre. f_equal. unfold operations. rewrite Hreq.
      rewrite <- firstn_map. apply zip_with_take_r'. lia.
    + destruct (fst (submitSequentially gw wallets txs [] [] s)) as [b|e|]; [| |assumption].
      * destruct Hres as (H1 & H2 & H3 & H4). auto.
      * right. split; assumption.
  - exists []. split; [reflexivity|]. split; [reflexivity|].
    left. split; [reflexivity|assumption].
Qed.

End SequentialBundle.

(** C2, as worded, fails: of three operations the second is rejected, and
    the bundler returns no bundle with the one entry that succeeded; it
    throws, after the first operation was confirmed and the second was
    submitted. *)
Lemma sequential_bundle_throws_on_a_failure :
  let run := TransactionBundler.bundleMultipleBuys Script.gateway BundleScenario.config
               BundleScenario.wallets "0xTOKEN" BundleScenario.amounts BundleScenario.start in
  fst run = Err "transaction rejected" /\
  omap confirmedHash (submissions (trace (snd run))) = ["0x0"] /\
  length (submissions (trace (snd run))) = 2%nat /\
  ~ exists bundle, fst run = Ok bundle /\ length (transactions bundle) = 1%nat.
Proof.
  cbv zeta. repeat split; try (vm_compute; reflexivity).
  intros (b & Hb & _). vm_compute in Hb. discriminate.
Qed.

(** On the bundling scenario, where the second of three operations is rejected. *)
Lemma sequential_bundle_stops_at_the_first_failure_witness :
  monad_bundlerRpcUrl BundleScenario.config = "" /\
  exists new,
    trace (snd (TransactionBundler.bundleMultipleBuys Script.gateway BundleScenario.config
                  BundleScenario.wallets "0xTOKEN" BundleScenario.amounts BundleScenario.start))
      = new ++ trace BundleScenario.start /\
    (submissions new).*1
      = take (length (submissions new))
             (operations BundleScenario.config BundleScenario.wallets "0xTOKEN"
                BundleScenario.amounts) /\
    match fst (TransactionBundler.bundleMultipleBuys Script.gateway BundleScenario.config
                 BundleScenario.wallets "0xTOKEN" BundleScenario.amounts BundleScenario.start) with
    | Ok bundle =>
        length (submissions new) = length BundleScenario.wallets /\
        Forall isConfirmed (submissions new) /\
        transactions bundle = omap confirmedHash (submissions new) /\
        signatures bundle = omap confirmedHash (submissions new)
    | Err e =>
        (submissions new = [] /\
         exists i, (i < length BundleScenario.wallets)%nat /\
                   fst (TransactionBundler.populateBuy Script.gateway BundleScenario.config
                          "0xTOKEN" BundleScenario.amounts i BundleScenario.start) = Err e) \/
        ((forall i, (i < length BundleScenario.wallets)%nat ->
                    exists tx,
                      fst (TransactionBundler.populateBuy Script.gateway BundleScenario.config
                             "0xTOKEN" BundleScenario.amounts i BundleScenario.start) = Ok tx) /\
         exists done last,
           submissions new = done ++ [last] /\
           Forall isConfirmed done /\ failedWith e last)
    | OutOfFuel => False
    end.
Proof.
  split; [reflexivity|].
  apply (sequential_bundle_stops_at_the_first_failure Script.gateway BundleScenario.config
           BundleScenario.wallets "0xTOKEN" BundleScenario.amounts BundleScenario.start).
  reflexivity.
Defined.

Section CreationBundle.
Context {Env : Type}.
Variable gw : Gateway Env.
Variable config : Config.

Import TransactionBundler.

(** With or without a bundler, [bundleTokenCreationAndBuy] submits the
    creation at most, and never the buy: the address the buy needs never
    comes out of the receipt. Without a bundler it then returns an empty
    bundle, and no error. *)
Lemma creation_bundle_never_buys fundingWallet tokenConfig buyAmountMon (s : Sys Env) :
  wp (bundleTokenCreationAndBuy gw config fundingWallet tokenConfig buyAmountMon)
     (fun r s' =>
        exists new, trace s' = new ++ trace s /\
          Forall isCreation (submissions new) /\
          (monad_bundlerRpcUrl config = "" ->
           forall bundle, r = Ok bundle -> transactions bundle = [] /\ signatures bundle = [])) s.
Proof.
  unfold bundleTokenCreationAndBuy. wp_step. wp_step.
  2:{ exists []. repeat split; [constructor|discriminate..]. }
  apply wp_rethrow. wp_step. eapply wp_mono; [apply populate_spec|].
  intros [tx|e|] s1 (Ht & _ & Htx);
    [|exists []; repeat split; [assumption|constructor|discriminate..]..].
  rewrite (Htx tx eq_refl).
  destruct (String.eqb (monad_bundlerRpcUrl config) "") eqn:Hb; simpl negb; cbv iota.
  - wp_step. eapply wp_mono; [apply sendAndWait_spec|].
    intros [[h rc]|e|] s2 (out & Hout & Hr); [| |contradiction].
    + wp_step. wp_step.
      * rewrite extractTokenAddress_is_null. simpl truthy. cbv iota. wp_step.
        eexists [_]. split; [simpl; rewrite Hout, Ht; reflexivity|].
        split; [repeat constructor; eexists _, _, _, _; reflexivity|].
        intros _ b [= <-]. auto.
      * eexists [_]. split; [simpl; rewrite Hout, Ht; reflexivity|].
        split; [repeat constructor; eexists _, _, _, _; reflexivity|]. discriminate.
    + eexists [_]. split; [simpl; rewrite Hout, Ht; reflexivity|].
      split; [repeat constructor; eexists _, _, _, _; reflexivity|]. discriminate.
  - apply String.eqb_neq in Hb.
    unfold submitToBundler. simpl submitEach. wp_step. wp_step.
    2:{ exists []. split; [assumption|]. split; [constructor|]. intros; contradiction. }
    wp_step. eapply wp_mono; [apply sendAndWait_spec|].
    intros [[h rc]|e|] s2 (out & Hout & Hr); [| |contradiction].
    + wp_steps. eexists [_]. split; [simpl; rewrite Hout; simpl; rewrite Ht; reflexivity|].
      split; [repeat constructor; eexists _, _, _, _; reflexivity|]. intros; contradiction.
    + eexists [_]. split; [simpl; rewrite Hout; simpl; rewrite Ht; reflexivity|].
      split; [repeat constructor; eexists _, _, _, _; reflexivity|]. intros; contradiction.
Qed.

End CreationBundle.



(* ===================================================================== *)
(** * Phase 3: the completion poll loop *)
(* ===================================================================== *)

Section PollLoop.
Context {Env : Type}.
Variable gw : Gateway Env.
Variable config : Config.
Hypothesis Hnever : neverCompletes gw.
Hypothesis Hclock : clockAdvances gw.

Import BotOrchestrator.

Lemma polls_app (a b : list Event) : polls (a ++ b) = (polls a + polls b)%nat.
Proof. unfold polls. rewrite filter_app, length_app. reflexivity. Qed.

Lemma pollLoop_deadline fuel startTime (s : Sys Env) :
  maxWaitTime <= Date_now gw (env s) - startTime ->
  pollLoop gw (S fuel) startTime s
    = (Err "Bonding curve did not complete within timeout", s).
Proof.
  intros H. simpl pollLoop. unfold bind, now.
  destruct (Z.ltb_spec (Date_now gw (env s) - startTime) maxWaitTime); [lia|reflexivity].
Qed.

Lemma pollLoop_round fuel startTime (s : Sys Env) st status e1 :
  Date_now gw (env s) - startTime < maxWaitTime ->
  states s !! orch_state s = Some st ->
  call_getBondingCurveStatus gw (default "" (tokenAddress st)) (env s)
    = (Resolved status, e1) ->
  isComplete status = false ->
  pollLoop gw (S fuel) startTime s
    = pollLoop gw fuel startTime (afterRound gw (default "" (tokenAddress st)) e1 s).
Proof.
  intros Hlt Hst Hcall Hno. simpl pollLoop. unfold bind at 1, now.
  destruct (Z.ltb_spec (Date_now gw (env s) - startTime) maxWaitTime); [|lia].
  unfold readState, bind, get, defined, emit, modify, ret,
    NadFunContract.getBondingCurveStatus, try_catch, await, sleep, bind, modify, emit.
  rewrite Hst. simpl. rewrite Hcall. simpl. rewrite Hno. reflexivity.
Qed.

Lemma rounds_cons token date dates :
  rounds token (date :: dates)
  = rounds token dates ++ [EvSleep pollInterval; EvPoll token date].
Proof. unfold rounds. simpl rev. rewrite flat_map_app. simpl. reflexivity. Qed.

(** The loop from a state where [maxWaitTime - elapsed] is at most
    [pollInterval * (fuel - 1)]: it ends by throwing the deadline error,
    at a time when the deadline has passed. Until then it went through
    rounds of a poll and a wait of the poll interval, the first poll made
    at once, every poll before the deadline, and the clock read again one
    poll interval after a poll at the earliest, and exactly one poll
    interval after it when the timers are exact. *)
Lemma pollLoop_times_out : forall fuel startTime (s : Sys Env) st,
  (1 <= fuel)%nat ->
  states s !! orch_state s = Some st ->
  maxWaitTime - (Date_now gw (env s) - startTime) <= pollInterval * (Z.of_nat fuel - 1) ->
  wp (pollLoop gw fuel startTime)
     (fun r s' =>
        r = Err "Bonding curve did not complete within timeout" /\
        maxWaitTime <= Date_now gw (env s') - startTime /\
        states s' = states s /\ orch_state s' = orch_state s /\
        exists dates,
          trace s' = rounds (default "" (tokenAddress st)) dates ++ trace s /\
          pollDates atLeastOneInterval (Date_now gw (env s)) dates (Date_now gw (env s')) /\
          (exactTimers gw ->
           pollDates exactlyOneInterval (Date_now gw (env s)) dates (Date_now gw (env s'))) /\
          Forall (fun date => date - startTime < maxWaitTime) dates /\
          Z.of_nat (length dates) * pollInterval
            < Z.max (maxWaitTime - (Date_now gw (env s) - startTime)) 0 + pollInterval) s.
Proof.
  induction fuel as [|fuel IH]; intros startTime s st Hfuel Hst Hd; [lia|].
  destruct (Z.lt_ge_cases (Date_now gw (env s) - startTime) maxWaitTime) as [Hlt|Hge].
  - destruct (Hnever (default "" (tokenAddress st)) (env s)) as (status & e1 & Hcall & Hno).
    pose proof (proj1 Hclock (default "" (tokenAddress st)) (env s)) as Hmono.
    rewrite Hcall in Hmono. simpl in Hmono.
    pose proof (proj2 Hclock pollInterval e1) as Hsleep.
    unfold wp. rewrite (pollLoop_round _ _ _ _ _ _ Hlt Hst Hcall Hno).
    set (s2 := afterRound gw _ e1 s).
    assert (Hnow2 : Date_now gw (env s) + pollInterval <= Date_now gw (env s2))
      by (simpl; lia).
    assert (Hfuel2 : (1 <= fuel)%nat) by (unfold pollInterval in *; lia).
    destruct (IH startTime s2 st Hfuel2 Hst)
      as (Hr & Hend & Hstates & Horch & dates & Hnew & Hpaced & Hexact & Hall & Hpolls).
    { unfold pollInterval in *. lia. }
    repeat split; try assumption.
    exists (Date_now gw (env s) :: dates).
    split; [rewrite rounds_cons, Hnew, <- app_assoc; reflexivity|].
    split; [split; [reflexivity|]; exists (Date_now gw (env s2)); split; assumption|].
    split.
    + intros Hex. split; [reflexivity|]. exists (Date_now gw (env s2)).
      split; [|exact (Hexact Hex)].
      unfold exactlyOneInterval. simpl.
      rewrite (proj2 Hex pollInterval e1).
      pose proof (proj1 Hex (default "" (tokenAddress st)) (env s)) as Hstill.
      rewrite Hcall in Hstill. simpl in Hstill. lia.
    + split; [constructor; assumption|].
      simpl length. unfold pollInterval in *. lia.
  - unfold wp. rewrite (pollLoop_deadline _ _ _ Hge). simpl.
    repeat split; try lia.
    exists []. split; [reflexivity|]. split; [reflexivity|].
    split; [intros _; reflexivity|]. split; [constructor|].
    unfold pollInterval. simpl. lia.
Qed.

End PollLoop.

(** With exact timers the polls are one poll interval apart. *)
Lemma pollDates_exact dates : forall from till,
  pollDates exactlyOneInterval from dates till ->
  till = from + Z.of_nat (length dates) * BotOrchestrator.pollInterval /\
  forall i date, dates !! i = Some date ->
    date = from + Z.of_nat i * BotOrchestrator.pollInterval.
Proof.
  induction dates as [|d rest IH]; intros from till; simpl.
  - intros ->. split; [lia|]. intros i date H. rewrite lookup_nil in H. discriminate.
  - intros (-> & next & Hnext & Hrest). unfold exactlyOneInterval in Hnext. subst next.
    destruct (IH _ _ Hrest) as [Htill Hat]. split; [lia|].
    intros [|i] date H; simpl in H.
    + injection H as <-. lia.
    + rewrite (Hat i date H). lia.
Qed.

Lemma truthy_Some a x : TransactionBundler.truthy a = Some x -> a = Some x.
Proof.
  destruct a as [y|]; simpl; [|discriminate].
  destruct (String.eqb y ""); [discriminate|]. auto.
Qed.

Section Deadline.
Context {Env : Type}.
Variable gw : Gateway Env.
Variable config : Config.

Import BotOrchestrator.


End Deadline.

Lemma stuck_gateway_neverCompletes : neverCompletes PollScenario.stuck.
Proof. intros token e. simpl. eauto. Qed.

Lemma stuck_gateway_clockAdvances : clockAdvances PollScenario.stuck.
Proof. split; intros; simpl; lia. Qed.

(** On the scripted world the clock moves with the timers only: the loop
    polls 120 times, 30 s apart, and throws when exactly one hour has
    passed. *)
Lemma poll_loop_polls_120_times :
  let run := BotOrchestrator.phase3_WaitForBondingCurve PollScenario.stuck 121
               PollScenario.start in
  fst run = Err "Bonding curve did not complete within timeout" /\
  Script.clock (env (snd run)) - Script.clock (env PollScenario.start) = 3600000 /\
  polls (trace (snd run)) = 120%nat.
Proof. cbv zeta. repeat split; vm_compute; reflexivity. Qed.

Lemma stuck_gateway_exactTimers : exactTimers PollScenario.stuck.
Proof. split; intros; simpl; lia. Qed.


(* ===================================================================== *)
(** * The volume scheduler *)
(* ===================================================================== *)

Section Keeps.
Context {Env : Type}.
Variable gw : Gateway Env.
Variable config : Config.
Variable I : Sys Env -> Prop.
(** [I] looks neither at the outside world nor at the transactions of
    the trace. *)
Hypothesis I_env : forall f s, I s -> I (set_env f s).
Hypothesis I_tx : forall w tx out s, I s -> I (set_trace (cons (EvTx w tx out)) s).

Lemma keeps_weaken {A} (m : M Env A) (P P' : A -> Prop) :
  keeps I m P -> (forall a, P a -> P' a) -> keeps I m P'.
Proof.
  intros Hm HP s Hs. eapply wp_mono; [apply Hm, Hs|].
  intros r s' [HI Hr]. split; auto.
Qed.

Lemma keeps_ret {A} (a : A) (P : A -> Prop) : P a -> keeps I (ret a) P.
Proof. intros Ha s Hs. apply wp_ret. split; [assumption|]. intros b [= <-]. assumption. Qed.

Lemma keeps_throw {A} e (P : A -> Prop) : keeps I (throw e) P.
Proof. intros s Hs. apply wp_throw. split; [assumption|discriminate]. Qed.

Lemma keeps_bind {A B} (m : M Env A) (k : A -> M Env B) (P : A -> Prop) (Q : B -> Prop) :
  keeps I m P -> (forall a, P a -> keeps I (k a) Q) -> keeps I (bind m k) Q.
Proof.
  intros Hm Hk s Hs. apply wp_bind. eapply wp_mono; [apply Hm, Hs|].
  intros [a|e|] s' [HI Hr]; [|split; [assumption|discriminate]..].
  apply Hk; auto.
Qed.

Lemma keeps_try_catch {A} (m : M Env A) (h : string -> M Env A) (P : A -> Prop) :
  keeps I m P -> (forall e, keeps I (h e) P) -> keeps I (try_catch m h) P.
Proof.
  intros Hm Hh s Hs. apply wp_try_catch. eapply wp_mono; [apply Hm, Hs|].
  intros [a|e|] s' [HI Hr]; [split; assumption| |split; [assumption|discriminate]].
  apply Hh; assumption.
Qed.

Lemma keeps_get : keeps I get (fun _ => True).
Proof. intros s Hs. apply wp_get. auto. Qed.

Lemma keeps_await {A} (call : Env -> answer A * Env) : keeps I (await call) (fun _ => True).
Proof. intros s Hs. apply wp_await; intros; (split; [apply I_env; assumption|auto]). Qed.

Lemma keeps_settled {A} (a : answer A) : keeps I (settled a) (fun _ => True).
Proof. intros s Hs. apply wp_settled; intros; auto. Qed.

Lemma keeps_defined {A} (o : option A) : keeps I (defined o) (fun _ => True).
Proof. intros s Hs. apply wp_defined; intros; auto. Qed.

Lemma keeps_now : keeps I (now gw) (fun _ => True).
Proof. intros s Hs. unfold wp, now. simpl. auto. Qed.

Lemma keeps_sendAndWait signer tx : keeps I (sendAndWait gw signer tx) (fun _ => True).
Proof.
  intros s Hs. unfold wp, sendAndWait.
  destruct (sendTransaction gw signer tx (env s)) as [[h|e] e1]; simpl.
  - destruct (wait gw h e1) as [[rc|e] e2]; simpl; auto.
  - auto.
Qed.

Lemma keeps_populate contract data value :
  keeps I (populate gw contract data value) (fun _ => True).
Proof.
  unfold populate. eapply keeps_bind; [apply keeps_get|]. intros s0 _.
  eapply keeps_bind; [apply keeps_settled|].
  intros. apply keeps_ret. exact Logic.I.
Qed.

Lemma keeps_invoke wallet data value :
  keeps I (NadFunContract.invoke gw config wallet data value) (fun _ => True).
Proof.
  unfold NadFunContract.invoke. eapply keeps_bind; [apply keeps_populate|].
  intros. apply keeps_sendAndWait.
Qed.

Lemma keeps_buyToken wallet token amount :
  keeps I (NadFunContract.buyToken gw config wallet token amount) (fun _ => True).
Proof.
  unfold NadFunContract.buyToken. apply keeps_try_catch; [|intros; apply keeps_throw].
  eapply keeps_bind; [apply keeps_invoke|]. intros. apply keeps_ret. exact Logic.I.
Qed.

Lemma keeps_sellToken wallet token amount :
  keeps I (NadFunContract.sellToken gw config wallet token amount) (fun _ => True).
Proof.
  unfold NadFunContract.sellToken. apply keeps_try_catch; [|intros; apply keeps_throw].
  eapply keeps_bind; [apply keeps_invoke|]. intros. apply keeps_ret. exact Logic.I.
Qed.

Lemma keeps_getMonBalance a :
  keeps I (NadFunContract.getMonBalance gw a) (fun _ => True).
Proof.
  unfold NadFunContract.getMonBalance.
  apply keeps_try_catch; [apply keeps_await|intros; apply keeps_throw].
Qed.

Lemma keeps_getTokenBalance token a :
  keeps I (NadFunContract.getTokenBalance gw token a) (fun _ => True).
Proof.
  unfold NadFunContract.getTokenBalance.
  apply keeps_try_catch; [apply keeps_await|intros; apply keeps_throw].
Qed.

Lemma keeps_getTokenPrice token :
  keeps I (NadFunContract.getTokenPrice gw token) (fun _ => True).
Proof.
  unfold NadFunContract.getTokenPrice.
  apply keeps_try_catch; [apply keeps_await|intros; apply keeps_throw].
Qed.

(** [Math.random()], for a source that stays within [[0, 1)]. *)
Lemma keeps_random :
  randomInRange gw ->
  keeps I (random gw) (fun r => (0 <= r)%Q /\ (r < 1)%Q).
Proof.
  intros Hr s Hs. unfold wp, random.
  pose proof (Hr (env s)) as Hin.
  destruct (Math_random gw (env s)) as [r e']. simpl in *.
  split; [apply I_env; assumption|]. intros a [= <-]. assumption.
Qed.

Lemma keeps_this : keeps I VolumeBot.this (fun _ => True).
Proof.
  unfold VolumeBot.this. eapply keeps_bind; [apply keeps_get|].
  intros. apply keeps_defined.
Qed.

End Keeps.

Section Scheduler.
Context {Env : Type}.
Variable gw : Gateway Env.
Variable config : Config.
Variable t0 : list Event.
Hypothesis Hrandom : randomInRange gw.
Hypothesis Hintervals :
  volume_minTradeIntervalMs config <= volume_maxTradeIntervalMs config.
Hypothesis Hamounts :
  (volume_tradeAmountMinMon config <= volume_tradeAmountMaxMon config)%Q.

Import VolumeBot.

Local Abbreviation I := (schedulerInv (Env:=Env) config t0).

Lemma inv_env f (s : Sys Env) : I s -> I (set_env f s).
Proof. auto. Qed.

Lemma inv_event ev (s : Sys Env) :
  intervalOk config ev -> I s -> I (set_trace (cons ev) s).
Proof.
  intros Hev [(new & Hnew & Hall) Hhist]. split; [|assumption].
  exists (ev :: new). simpl. rewrite Hnew. split; [reflexivity|]. constructor; assumption.
Qed.

Lemma inv_tx w tx out (s : Sys Env) : I s -> I (set_trace (cons (EvTx w tx out)) s).
Proof. apply inv_event. exact Logic.I. Qed.

Lemma keeps_modify (f : Sys Env -> Sys Env) :
  (forall s, I s -> I (f s)) -> keeps I (modify f) (fun _ => True).
Proof. intros Hf s Hs. apply wp_modify. auto. Qed.

Lemma keeps_emit ev : intervalOk config ev -> keeps I (emit ev) (fun _ => True).
Proof. intros Hev. apply keeps_modify. intros s. apply inv_event. assumption. Qed.

Lemma keeps_set_isRunning b : keeps I (set_isRunning b) (fun _ => True).
Proof.
  apply keeps_modify. intros s [Ht Hh]. split; [assumption|].
  unfold tradeHistoryOf in *. simpl. destruct (orch_volumeBot s); assumption.
Qed.

Lemma keeps_set_tradeInterval t : keeps I (set_tradeInterval t) (fun _ => True).
Proof.
  apply keeps_modify. intros s [Ht Hh]. split; [assumption|].
  unfold tradeHistoryOf in *. simpl. destruct (orch_volumeBot s); assumption.
Qed.

Lemma keeps_push_order order :
  amountOk config order -> keeps I (push_order order) (fun _ => True).
Proof.
  intros Ho. apply keeps_modify. intros s [Ht Hh]. split; [assumption|].
  unfold tradeHistoryOf in *. simpl. destruct (orch_volumeBot s); simpl; [|assumption].
  apply Forall_app. split; [assumption|]. repeat constructor; apply Ho.
Qed.

Lemma interval_within_bounds (r : Q) :
  (0 <= r)%Q -> (r < 1)%Q ->
  volume_minTradeIntervalMs config
    <= Qfloor (r * inject_Z (volume_maxTradeIntervalMs config
                             - volume_minTradeIntervalMs config + 1))
       + volume_minTradeIntervalMs config
    <= volume_maxTradeIntervalMs config.
Proof.
  intros H0 H1.
  set (n := volume_maxTradeIntervalMs config - volume_minTradeIntervalMs config + 1).
  assert (Hn : (0 < inject_Z n)%Q).
  { change 0%Q with (inject_Z 0). rewrite <- Zlt_Qlt. unfold n; lia. }
  assert (Hlo : (0 <= r * inject_Z n)%Q) by nra.
  assert (Hhi : (r * inject_Z n < inject_Z n)%Q) by nra.
  split.
  - apply Qfloor_resp_le in Hlo. change (Qfloor 0) with 0 in Hlo. lia.
  - pose proof (Qfloor_le (r * inject_Z n)) as Hf.
    assert (Hlt : (inject_Z (Qfloor (r * inject_Z n)) < inject_Z n)%Q) by lra.
    rewrite <- Zlt_Qlt in Hlt. unfold n in *. lia.
Qed.

Lemma keeps_getRandomInterval :
  keeps I (getRandomInterval gw config)
        (fun ms => volume_minTradeIntervalMs config <= ms <= volume_maxTradeIntervalMs config).
Proof.
  unfold getRandomInterval.
  eapply keeps_bind; [apply (keeps_random gw I inv_env Hrandom)|].
  intros r [H0 H1]. apply keeps_ret. apply interval_within_bounds; assumption.
Qed.

Lemma keeps_getRandomTradeAmount :
  keeps I (getRandomTradeAmount gw config)
        (fun a => (volume_tradeAmountMinMon config <= a)%Q /\
                  (a <= volume_tradeAmountMaxMon config)%Q).
Proof.
  unfold getRandomTradeAmount.
  eapply keeps_bind; [apply (keeps_random gw I inv_env Hrandom)|].
  intros r [H0 H1]. apply keeps_ret. split; nra.
Qed.

Lemma keeps_executeBuy wallet amount :
  (volume_tradeAmountMinMon config <= amount)%Q ->
  (amount <= volume_tradeAmountMaxMon config)%Q ->
  keeps I (executeBuy gw config wallet amount) (fun _ => True).
Proof.
  intros Hlo Hhi. unfold executeBuy.
  eapply keeps_bind; [apply keeps_defined|]. intros w _.
  eapply keeps_bind; [apply keeps_this|]. intros vb _.
  eapply keeps_bind; [apply keeps_settled|]. intros wei _.
  eapply keeps_bind; [apply (keeps_getMonBalance gw I inv_env)|]. intros balance _.
  destruct (balance <? wei); [apply keeps_ret; exact Logic.I|].
  eapply keeps_bind; [apply (keeps_buyToken gw config I inv_env inv_tx)|]. intros _ _.
  eapply keeps_bind; [apply keeps_now|]. intros date _.
  apply keeps_push_order. split; assumption.
Qed.

Lemma keeps_executeSell wallet amount :
  (volume_tradeAmountMinMon config <= amount)%Q ->
  (amount <= volume_tradeAmountMaxMon config)%Q ->
  keeps I (executeSell gw config wallet amount) (fun _ => True).
Proof.
  intros Hlo Hhi. unfold executeSell.
  eapply keeps_bind; [apply keeps_defined|]. intros w _.
  eapply keeps_bind; [apply keeps_this|]. intros vb _.
  eapply keeps_bind; [apply (keeps_getTokenBalance gw I inv_env)|]. intros balance _.
  destruct (balance =? 0); [apply keeps_ret; exact Logic.I|].
  eapply keeps_bind; [apply (keeps_getTokenPrice gw I inv_env)|]. intros tokenPrice _.
  eapply keeps_bind; [apply keeps_settled|]. intros wei _.
  eapply (keeps_bind _ _ _ (fun _ => True)).
  { destruct (tokenPrice =? 0); [apply keeps_throw|apply keeps_ret]. exact Logic.I. }
  intros _ _.
  eapply (keeps_bind _ _ _ (fun _ => True)).
  { destruct (_ <? _); apply (keeps_sellToken gw config I inv_env inv_tx). }
  intros _ _.
  eapply keeps_bind; [apply keeps_now|]. intros date _.
  apply keeps_push_order. split; assumption.
Qed.

Lemma keeps_executeRandomTrade wallets :
  keeps I (executeRandomTrade gw config wallets) (fun _ => True).
Proof.
  unfold executeRandomTrade, WalletManager.getRandomWallet.
  eapply (keeps_bind _ _ _ (fun _ => True)).
  { eapply keeps_bind; [apply (keeps_random gw I inv_env Hrandom)|].
    intros r _. apply keeps_ret. exact Logic.I. }
  intros wallet _.
  eapply keeps_bind; [apply (keeps_random gw I inv_env Hrandom)|]. intros r _.
  eapply keeps_bind; [apply keeps_getRandomTradeAmount|]. intros amount [Hlo Hhi].
  apply keeps_try_catch; [|intros; apply keeps_ret; exact Logic.I].
  destruct (Qle_bool r (1 # 2)); [apply keeps_executeSell|apply keeps_executeBuy]; assumption.
Qed.

Lemma keeps_scheduleNextTrade wallets :
  keeps I (scheduleNextTrade gw config wallets) (fun _ => True).
Proof.
  unfold scheduleNextTrade.
  eapply keeps_bind; [apply keeps_this|]. intros vb _.
  destruct (negb (vb_isRunning vb)); [apply keeps_ret; exact Logic.I|].
  eapply keeps_bind; [apply keeps_getRandomInterval|]. intros interval Hin.
  eapply keeps_bind; [apply keeps_emit; exact Hin|]. intros _ _.
  apply keeps_set_tradeInterval.
Qed.

Lemma keeps_timerFired : keeps I (timerFired gw config) (fun _ => True).
Proof.
  unfold timerFired.
  eapply keeps_bind; [apply keeps_this|]. intros vb _.
  destruct (vb_tradeInterval vb) as [timer|]; [|apply keeps_ret; exact Logic.I].
  eapply keeps_bind; [apply keeps_set_tradeInterval|]. intros _ _.
  eapply keeps_bind; [apply keeps_modify; intros s; apply inv_env|]. intros _ _.
  eapply (keeps_bind _ _ _ (fun _ => True)).
  { apply keeps_try_catch; [apply keeps_executeRandomTrade|].
    intros. apply keeps_ret. exact Logic.I. }
  intros _ _. apply keeps_scheduleNextTrade.
Qed.

Lemma keeps_start : keeps I (start gw config) (fun _ => True).
Proof.
  unfold start, WalletManager.getVolumeWallets.
  eapply keeps_bind; [apply keeps_this|]. intros vb _.
  destruct (vb_isRunning vb); [apply keeps_ret; exact Logic.I|].
  eapply (keeps_bind _ _ _ (fun _ => True)).
  { eapply keeps_bind; [apply keeps_get|]. intros s0 _.
    intros s Hs. apply wp_readArray. split; [assumption|].
    intros a _. exact Logic.I. }
  intros ws _.
  destruct (_ =? _)%nat; [apply keeps_throw|].
  eapply keeps_bind; [apply keeps_set_isRunning|]. intros _ _.
  apply keeps_scheduleNextTrade.
Qed.

Lemma keeps_stop : keeps I stop (fun _ => True).
Proof.
  unfold stop.
  eapply keeps_bind; [apply keeps_this|]. intros vb _.
  eapply keeps_bind; [apply keeps_set_isRunning|]. intros _ _.
  destruct (vb_tradeInterval vb); [|apply keeps_ret; exact Logic.I].
  eapply keeps_bind; [apply keeps_emit; exact Logic.I|]. intros _ _.
  apply keeps_set_tradeInterval.
Qed.

Lemma run_keeps_the_invariant (s s' : Sys Env) :
  schedulerRun gw config s s' -> I s -> I s'.
Proof.
  induction 1 as [|s1 s2 s3 _ IH Hstep]; intros Hs; [assumption|].
  specialize (IH Hs). destruct Hstep.
  - apply (keeps_start _ IH).
  - apply (keeps_timerFired _ IH).
  - apply (keeps_stop _ IH).
Qed.

End Scheduler.

Section SchedulerBounds.
Context {Env : Type}.
Variable gw : Gateway Env.
Variable config : Config.

(** C9: for a random source that stays within [[0, 1)] and a configuration
    whose minimum is not above its maximum, in every run of the scheduler
    (the bot is started, its timer fires any number of times, it is stopped,
    in any order) every delay handed to [setTimeout] lies within
    [[minTradeIntervalMs, maxTradeIntervalMs]] and every order of the trade
    history has an amount within [[tradeAmountMinMon, tradeAmountMaxMon]]. *)
Theorem scheduler_stays_within_its_bounds (token : string) (s s' : Sys Env) :
  randomInRange gw ->
  volume_minTradeIntervalMs config <= volume_maxTradeIntervalMs config ->
  (volume_tradeAmountMinMon config <= volume_tradeAmountMaxMon config)%Q ->
  orch_volumeBot s = Some (VolumeBot.constructor token) ->
  schedulerRun gw config s s' ->
  (exists new, trace s' = new ++ trace s /\ Forall (intervalOk config) new) /\
  Forall (amountOk config) (tradeHistoryOf s').
Proof.
  intros Hrandom Hintervals Hamounts Hbot Hrun.
  apply (run_keeps_the_invariant gw config (trace s) Hrandom Hintervals Hamounts s s' Hrun).
  split.
  - exists []. split; [reflexivity|constructor].
  - unfold tradeHistoryOf. rewrite Hbot. constructor.
Qed.

End SchedulerBounds.

Lemma script_gateway_randomInRange : randomInRange Script.gateway.
Proof.
  intros w. simpl. unfold Script.unit_interval.
  destruct (Qle_bool (0 # 1) (hd (0 # 1) (Script.randoms w))) eqn:H0; simpl;
    [|split; [apply Qle_refl|reflexivity]].
  destruct (Qle_bool (1 # 1) (hd (0 # 1) (Script.randoms w))) eqn:H1; simpl;
    [split; [apply Qle_refl|reflexivity]|].
  split.
  - apply Qle_bool_iff. assumption.
  - apply Qnot_le_lt. intros H. apply Qle_bool_iff in H. congruence.
Qed.

(** In the trading scenario the bot is started and its timer fires twice:
    three delays were drawn and two orders recorded, a buy of 40 MON and a
    sale for 99.1 MON. *)
Lemma two_trades_of_the_scenario :
  TradeScenario.delays TradeScenario.finish = [17500; 5000; 26875] /\
  map (fun o => (order_type o, Qred (amountMon o))) (tradeHistoryOf TradeScenario.finish)
    = [(buy, 40 # 1); (sell, 991 # 10)].
Proof. split; vm_compute; reflexivity. Qed.

(** On the trading scenario: the bot is started and its timer fires twice. *)
Lemma scheduler_stays_within_its_bounds_witness :
  (volume_minTradeIntervalMs TradeScenario.config
     <= volume_maxTradeIntervalMs TradeScenario.config /\
   (volume_tradeAmountMinMon TradeScenario.config
      <= volume_tradeAmountMaxMon TradeScenario.config)%Q /\
   orch_volumeBot TradeScenario.start = Some (VolumeBot.constructor "0xTOKEN")) /\
  (exists new, trace TradeScenario.finish = new ++ trace TradeScenario.start /\
               Forall (intervalOk TradeScenario.config) new) /\
  Forall (amountOk TradeScenario.config) (tradeHistoryOf TradeScenario.finish).
Proof.
  split.
  - repeat split; vm_compute; congruence.
  - apply (scheduler_stays_within_its_bounds Script.gateway TradeScenario.config "0xTOKEN"
             TradeScenario.start TradeScenario.finish script_gateway_randomInRange).
    + vm_compute. congruence.
    + vm_compute. congruence.
    + reflexivity.
    + unfold TradeScenario.finish.
      eapply run_step; [eapply run_step; [eapply run_step; [apply run_nil|]|]|].
      * apply step_start.
      * apply step_timer.
      * apply step_timer.
Defined.

(* ===================================================================== *)
(** * The snapshot accessor *)
(* ===================================================================== *)

Lemma getState_copies_the_references {Env} (s : Sys Env) (st : BotState) :
  states s !! orch_state s = Some st ->
  exists snapshot,
    fst (BotOrchestrator.getState s) = Ok snapshot /\
    snapshot <> orch_state s /\
    states (snd (BotOrchestrator.getState s)) !! snapshot = Some st /\
    states (snd (BotOrchestrator.getState s)) !! orch_state s = Some st /\
    arrays (snd (BotOrchestrator.getState s)) = arrays s.
Proof.
  intros Hst. exists (fresh (dom (states s))).
  assert (Hne : fresh (dom (states s)) <> orch_state s).
  { intros Heq. apply (is_fresh (dom (states s))). rewrite Heq.
    apply elem_of_dom. eauto. }
  unfold BotOrchestrator.getState, BotOrchestrator.readState, bind, get, defined, ret.
  rewrite Hst. simpl. repeat split; try assumption.
  - apply lookup_insert_eq.
  - rewrite lookup_insert_ne; assumption.
Qed.

(** C7, on the code: [getState] returns a new object that holds the fields
    of the state, and so the same two arrays: an assignment to a field of
    what it returned leaves the orchestrator's state as it was, but a [push]
    on the [fundingWallets] of what it returned adds a wallet to the
    orchestrator's own list, and to the list the wallet manager hands to
    recovery. *)
Theorem getState_shares_the_wallet_arrays :
  (forall Env (s : Sys Env) (st : BotState),
      states s !! orch_state s = Some st ->
      exists snapshot,
        fst (BotOrchestrator.getState s) = Ok snapshot /\
        snapshot <> orch_state s /\
        states (snd (BotOrchestrator.getState s)) !! snapshot = Some st /\
        states (snd (BotOrchestrator.getState s)) !! orch_state s = Some st /\
        arrays (snd (BotOrchestrator.getState s)) = arrays s) /\
  fst SnapshotScenario.read = Ok SnapshotScenario.snapshot /\
  SnapshotScenario.snapshot <> orch_state SnapshotScenario.start /\
  internalView SnapshotScenario.afterAssign = internalView SnapshotScenario.start /\
  SnapshotScenario.fundingAddresses SnapshotScenario.start
    = Some ["seed@m/44'/60'/0'/0/0"; "seed@m/44'/60'/0'/0/1"; "seed@m/44'/60'/0'/0/2"] /\
  SnapshotScenario.fundingAddresses SnapshotScenario.afterPush
    = Some ["seed@m/44'/60'/0'/0/0"; "seed@m/44'/60'/0'/0/1"; "seed@m/44'/60'/0'/0/2";
            "0xINTRUDER"] /\
  fst (WalletManager.getAllWallets SnapshotScenario.afterPush)
    = Ok (allWalletsOf SnapshotScenario.start ++ [SnapshotScenario.intruder]).
Proof.
  split; [intros Env s st; apply getState_copies_the_references|].
  split; [vm_compute; reflexivity|].
  split; [vm_compute; discriminate|].
  split; [vm_compute; reflexivity|].
  split; [vm_compute; reflexivity|].
  split; vm_compute; reflexivity.
Qed.

(* ===================================================================== *)
(** * Phase 2 and the token address *)
(* ===================================================================== *)

Section Frame.
Context {Env : Type}.
Variable gw : Gateway Env.
Variable config : Config.
Variable I : Sys Env -> Prop.
(** [I] looks neither at the outside world nor at the trace. *)
Hypothesis I_env : forall f s, I s -> I (set_env f s).
Hypothesis I_trace : forall f s, I s -> I (set_trace f s).

Import TransactionBundler.

Lemma frame_tx w tx out (s : Sys Env) : I s -> I (set_trace (cons (EvTx w tx out)) s).
Proof. apply I_trace. Qed.

Lemma keeps_sleep ms : keeps I (sleep gw ms) (fun _ => True).
Proof.
  intros s Hs. unfold sleep. wp_steps. split; [|auto].
  apply I_trace, I_env. assumption.
Qed.

Lemma keeps_mapM {A B} (f : A -> M Env B) (l : list A) :
  (forall x, keeps I (f x) (fun _ => True)) -> keeps I (mapM f l) (fun _ => True).
Proof.
  intros Hf. induction l as [|x l IH]; simpl.
  - apply keeps_ret. exact Logic.I.
  - eapply keeps_bind; [apply Hf|]. intros y _.
    eapply keeps_bind; [apply IH|]. intros ys _.
    apply keeps_ret. exact Logic.I.
Qed.

Lemma keeps_submitEach txs signer : forall acc1 acc2,
  keeps I (submitEach gw txs signer acc1 acc2) (fun _ => True).
Proof.
  induction txs as [|tx txs IH]; intros acc1 acc2; simpl.
  - apply keeps_ret. exact Logic.I.
  - eapply keeps_bind; [apply (keeps_await I I_env)|]. intros signedTx _.
    eapply keeps_bind; [apply (keeps_sendAndWait gw I I_env frame_tx)|]. intros sent _.
    apply IH.
Qed.

Lemma keeps_submitSequentially wallets : forall txs acc1 acc2,
  keeps I (submitSequentially gw wallets txs acc1 acc2) (fun _ => True).
Proof.
  induction wallets as [|w ws IH]; intros txs acc1 acc2; simpl.
  - apply keeps_ret. exact Logic.I.
  - destruct txs as [|tx txs]; [apply keeps_ret; exact Logic.I|].
    eapply keeps_bind; [apply (keeps_sendAndWait gw I I_env frame_tx)|]. intros sent _.
    eapply keeps_bind; [apply keeps_sleep|]. intros _ _.
    apply IH.
Qed.

Lemma keeps_bundleMultipleBuys wallets token amounts :
  keeps I (bundleMultipleBuys gw config wallets token amounts) (fun _ => True).
Proof.
  unfold bundleMultipleBuys.
  eapply keeps_bind.
  { apply keeps_mapM. intros i. unfold populateBuy.
    destruct (amounts !! i); [apply (keeps_populate gw I)|apply keeps_throw]. }
  intros txs _. destruct (negb _).
  - eapply keeps_bind; [apply keeps_defined|]. intros signer _. apply keeps_submitEach.
  - apply keeps_submitSequentially.
Qed.

Lemma keeps_bundleTokenCreationAndBuy fundingWallet tokenConfig amount :
  keeps I (bundleTokenCreationAndBuy gw config fundingWallet tokenConfig amount)
        (fun _ => True).
Proof.
  unfold bundleTokenCreationAndBuy.
  eapply keeps_bind; [apply keeps_defined|]. intros signer _.
  apply keeps_try_catch; [|intros; apply keeps_throw].
  eapply keeps_bind; [apply (keeps_populate gw I)|]. intros createTx _.
  destruct (negb _); [apply keeps_submitEach|].
  eapply keeps_bind; [apply (keeps_sendAndWait gw I I_env frame_tx)|]. intros sent _.
  eapply keeps_bind; [apply (keeps_await I I_env)|]. intros receipt _.
  rewrite extractTokenAddress_is_null. simpl. apply keeps_ret. exact Logic.I.
Qed.

Lemma keeps_parseEther x : keeps I (BotOrchestrator.parseEther gw x) (fun _ => True).
Proof.
  unfold BotOrchestrator.parseEther. destruct x; [apply keeps_settled|apply keeps_throw].
Qed.

End Frame.

Section Unresolved.
Context {Env : Type}.
Variable gw : Gateway Env.
Variable config : Config.

Import BotOrchestrator.

Lemma holdsTokenAddress_env a f (s : Sys Env) :
  holdsTokenAddress a s -> holdsTokenAddress a (set_env f s).
Proof. auto. Qed.

Lemma holdsTokenAddress_trace a f (s : Sys Env) :
  holdsTokenAddress a s -> holdsTokenAddress a (set_trace f s).
Proof. auto. Qed.

(** Whatever the gateway answers and whatever the creation receipt holds,
    with or without a bundler: when phase 2 returns, the token address of
    the state is the empty string. *)
Lemma phase2_leaves_the_token_address_empty tokenConfig (s : Sys Env) :
  wp (phase2_FundBondingCurve gw config tokenConfig)
     (fun r s' => r = Ok tt -> holdsTokenAddress (Some "") s') s.
Proof.
  unfold phase2_FundBondingCurve.
  wp_step. unfold writeState at 1. wp_step.
  wp_step. unfold readState at 1. wp_steps; try discriminate.
  set (s1 := set_states _ s) in *.
  assert (H1 : exists st, states s1 !! orch_state s1 = Some st) by eauto.
  eapply wp_mono.
  { apply (keeps_parseEther gw (fun s => exists st, states s !! orch_state s = Some st));
      auto. }
  intros [amount|e|] s2 [H2 _]; try discriminate.
  wp_step. eapply wp_mono.
  { apply (keeps_bundleTokenCreationAndBuy gw config
             (fun s => exists st, states s !! orch_state s = Some st)); auto. }
  intros [bundle|e|] s3 [[st3 H3] _]; try discriminate.
  wp_step. unfold writeState at 1. wp_step.
  set (s4 := set_states _ s3).
  assert (H4 : holdsTokenAddress (Some "") s4).
  { exists (with_tokenAddress (Some "") st3). split; [|reflexivity].
    unfold s4. simpl. rewrite lookup_alter_eq, H3. reflexivity. }
  wp_step. eapply wp_mono.
  { apply (keeps_mapM (holdsTokenAddress (Some ""))). intros w.
    apply keeps_parseEther. assumption. }
  intros [buyAmounts|e|] s5 [H5 _]; try discriminate.
  wp_step. eapply wp_mono.
  { apply (keeps_bundleMultipleBuys gw config (holdsTokenAddress (Some ""))).
    - apply holdsTokenAddress_env.
    - apply holdsTokenAddress_trace.
    - exact H5. }
  intros [bundle2|e|] s6 [(st6 & H6 & Ht6) _]; try discriminate.
  unfold writeState. wp_step. intros _.
  exists (with_totalMonDeposited (bondingCurve_targetMon config) st6).
  split; [|exact Ht6]. simpl. rewrite lookup_alter_eq, H6. reflexivity.
Qed.

End Unresolved.

(** C1, on the code: whatever the gateway answers and whatever the creation
    receipt holds, when phase 2 returns the token address of the state is
    the empty string. With three funding wallets and a creation receipt
    whose log carries the new token's address, phase 2 ends without an
    error; the token address it stored is the empty string, not the one of
    the log; the first wallet's buy was never submitted; and the two
    remaining buys were submitted, and confirmed, against the empty
    address. With a library that refuses an empty address, phase 2 ends
    with the library's error, after the creation was confirmed and the
    first wallet's buy was skipped in silence. *)
Theorem phase2_buys_against_an_unresolved_address :
  (forall Env (gw : Gateway Env) config tokenConfig (s : Sys Env),
      wp (BotOrchestrator.phase2_FundBondingCurve gw config tokenConfig)
         (fun r s' => r = Ok tt -> holdsTokenAddress (Some "") s') s) /\
  Script.creationLogs FundingScenario.world = [{| log_address := "0xNEWTOKEN" |}] /\
  fst FundingScenario.afterPhase2 = Ok tt /\
  option_map (fun view => view.1.1.2) (internalView (snd FundingScenario.afterPhase2))
    = Some (Some "") /\
  FundingScenario.submitted (snd FundingScenario.afterPhase2)
    = [("seed@m/44'/60'/0'/0/0",
        CreateToken "My Token" "MTK" "Token created by bundler bot" "", true);
       ("seed@m/44'/60'/0'/0/1", BuyToken "" (432000 * 10 ^ 18), true);
       ("seed@m/44'/60'/0'/0/2", BuyToken "" (432000 * 10 ^ 18), true)] /\
  fst FundingScenario.afterPhase2_strict = Err "unconfigured name" /\
  option_map (fun view => view.1.1.2) (internalView (snd FundingScenario.afterPhase2_strict))
    = Some (Some "") /\
  FundingScenario.submitted (snd FundingScenario.afterPhase2_strict)
    = [("seed@m/44'/60'/0'/0/0",
        CreateToken "My Token" "MTK" "Token created by bundler bot" "", true)].
Proof.
  split; [intros; apply phase2_leaves_the_token_address_empty|].
  split; [reflexivity|].
  split; [vm_compute; reflexivity|].
  split; [vm_compute; reflexivity|].
  split; [vm_compute; reflexivity|].
  split; [vm_compute; reflexivity|].
  split; vm_compute; reflexivity.
Qed.

(* ===================================================================== *)
(** * Further properties *)
(* ===================================================================== *)

Section Dust.
Context {Env : Type}.
Variable gw : Gateway Env.
Variable config : Config.

Import NadFunContract RecoveryManager.

Lemma recoverFromWallet_nonneg (this : RecoveryManager) (wallet : Wallet) (s : Sys Env) :
  wp (recoverFromWallet gw config this wallet)
     (fun r _ => match r with Ok recovered => 0 <= recovered | _ => True end) s.
Proof.
  unfold recoverFromWallet.
  wp_step. eapply wp_mono; [apply (getTokenBalance_spec gw)|].
  intros [b|e|] s1 _; try exact Logic.I.
  wp_step.
  apply (wp_mono _ (fun r s' => r = Ok 0)).
  { destruct (0 <? b); [|wp_steps; auto].
    wp_step. wp_step. eapply wp_mono; [apply (sellToken_spec gw config "")|].
    intros [v|e|] s2 (Hne & Hv & _); [| |congruence].
    - rewrite (Hv v eq_refl). wp_steps. auto.
    - wp_steps. auto. }
  intros r s2 ->.
  wp_step. eapply wp_mono; [apply (getMonBalance_spec gw)|].
  intros [m|e|] s3 _; try exact Logic.I.
  destruct (0 <? m); [|wp_steps; lia].
  destruct (Z.ltb_spec gasReserve m); [|wp_steps; lia].
  destruct (Z.ltb_spec 0 (m - gasReserve)); [|wp_steps; lia].
  wp_step. wp_step. eapply wp_mono; [apply (transferMon_spec gw)|].
  intros [h|e|] s4 _; [wp_steps; lia|wp_steps; lia|exact Logic.I].
Qed.

(** The amount a wallet contributes is never negative. On a wallet that
    holds 0.0005 MON, less than the gas reserve of 0.001 MON, the transfer
    amount is 0, and no transfer is submitted. *)
Theorem recovery_of_dust_transfers_nothing (this : RecoveryManager) (wallet : Wallet)
    (s : Sys Env) :
  match fst (recoverFromWallet gw config this wallet s) with
  | Ok recovered => 0 <= recovered
  | _ => True
  end /\
  fst (recoverFromWallet Script.gateway RecoveryScenario.config RecoveryScenario.manager
         (RecoveryScenario.wallet 0) DustScenario.start) = Ok 0 /\
  submissions
    (trace (snd (recoverFromWallet Script.gateway RecoveryScenario.config
                   RecoveryScenario.manager (RecoveryScenario.wallet 0) DustScenario.start)))
    = [].
Proof.
  split; [exact (recoverFromWallet_nonneg this wallet s)|].
  split; vm_compute; reflexivity.
Qed.

End Dust.

(* ===================================================================== *)
(** * Phase 3: when the bonding curve completes *)
(* ===================================================================== *)

Section Completion.
Context {Env : Type}.
Variable gw : Gateway Env.

Import BotOrchestrator.

Lemma pollLoop_last_round fuel startTime (s : Sys Env) st status e1 :
  Date_now gw (env s) - startTime < maxWaitTime ->
  states s !! orch_state s = Some st ->
  call_getBondingCurveStatus gw (default "" (tokenAddress st)) (env s)
    = (Resolved status, e1) ->
  isComplete status = true ->
  pollLoop gw (S fuel) startTime s
  = (Ok tt,
     set_states (alter (with_bondingCurveComplete true) (orch_state s))
       (set_env (fun _ => e1)
          (set_trace (cons (EvPoll (default "" (tokenAddress st)) (Date_now gw (env s)))) s))).
Proof.
  intros Hlt Hst Hcall Hyes. simpl pollLoop. unfold bind at 1, now.
  destruct (Z.ltb_spec (Date_now gw (env s) - startTime) maxWaitTime); [|lia].
  unfold readState, writeState, bind, get, defined, emit, modify, ret,
    NadFunContract.getBondingCurveStatus, try_catch, await, bind, ret.
  rewrite Hst. simpl. rewrite Hcall. simpl. rewrite Hyes. reflexivity.
Qed.

(** The loop, when the status source reports completion on poll number
    [n + 1]: it returns after that poll, having gone through [n] rounds of
    a poll and a wait before. *)
Lemma pollLoop_completes startTime st : forall n fuel (s : Sys Env),
  (n < fuel)%nat ->
  states s !! orch_state s = Some st ->
  completesOnPoll gw (default "" (tokenAddress st)) startTime n (env s) ->
  exists dates last,
    fst (pollLoop gw fuel startTime s) = Ok tt /\
    states (snd (pollLoop gw fuel startTime s))
      = alter (with_bondingCurveComplete true) (orch_state s) (states s) /\
    sameObjects (set_states (fun _ => states (snd (pollLoop gw fuel startTime s))) s)
                (snd (pollLoop gw fuel startTime s)) /\
    length dates = n /\
    trace (snd (pollLoop gw fuel startTime s))
      = EvPoll (default "" (tokenAddress st)) last
        :: rounds (default "" (tokenAddress st)) dates ++ trace s /\
    last - startTime < maxWaitTime /\
    (exactTimers gw ->
     pollDates exactlyOneInterval (Date_now gw (env s)) dates last /\
     Date_now gw (env (snd (pollLoop gw fuel startTime s))) = last).
Proof.
  induction n as [|n IH]; intros fuel s Hfuel Hst Hdone;
    (destruct fuel as [|fuel]; [lia|]).
  - destruct Hdone as (Hlt & status & e1 & Hcall & Hyes).
    rewrite (pollLoop_last_round _ _ _ _ _ _ Hlt Hst Hcall Hyes). cbn [fst snd].
    exists [], (Date_now gw (env s)).
    split; [reflexivity|]. split; [reflexivity|]. split; [repeat split|].
    split; [reflexivity|]. split; [reflexivity|]. split; [assumption|].
    intros Hex. split; [reflexivity|]. simpl.
    pose proof (proj1 Hex (default "" (tokenAddress st)) (env s)) as Hstill.
    rewrite Hcall in Hstill. exact Hstill.
  - destruct Hdone as (Hlt & status & e1 & Hcall & Hno & Hrest).
    rewrite (pollLoop_round gw _ _ _ _ _ _ Hlt Hst Hcall Hno).
    set (s2 := afterRound gw _ e1 s).
    destruct (IH fuel s2) as (dates & last & Hr & Hstates & Hobj & Hlen & Ht & Hlast & Hexact);
      [lia|exact Hst|exact Hrest|].
    exists (Date_now gw (env s) :: dates), last.
    split; [assumption|]. split; [assumption|].
    split; [exact Hobj|].
    split; [simpl; lia|].
    split; [rewrite rounds_cons, Ht, <- app_assoc; reflexivity|].
    split; [assumption|].
    intros Hex. destruct (Hexact Hex) as [Hpaced Hend]. split; [|assumption].
    split; [reflexivity|]. exists (Date_now gw (env s2)). split; [|assumption].
    unfold exactlyOneInterval. simpl.
    rewrite (proj2 Hex pollInterval e1).
    pose proof (proj1 Hex (default "" (tokenAddress st)) (env s)) as Hstill.
    rewrite Hcall in Hstill. simpl in Hstill. lia.
Qed.

(** Phase 3, with a token address set and a status source that reports
    completion on poll number [n + 1], made before the deadline: it returns
    after exactly [n + 1] polls, the first [n] of them each followed by a
    wait of the poll interval, and polls no more; the completion flag of
    the state is set and nothing else of the program's objects is changed.
    When the timers are exact, the polls are 30 s apart and it returns [n]
    times 30 s after it started. *)
Theorem phase3_returns_when_the_curve_completes
    (n fuel : nat) (s : Sys Env) (st : BotState) (token : string) :
  states s !! orch_state s = Some st ->
  tokenAddressSet st = Some token ->
  completesOnPoll gw token (Date_now gw (env s)) n (env s) ->
  (n < fuel)%nat ->
  let run := phase3_WaitForBondingCurve gw fuel s in
  fst run = Ok tt /\
  states (snd run) = <[orch_state s := with_bondingCurveComplete true st]> (states s) /\
  sameObjects (set_states (fun _ => states (snd run)) s) (snd run) /\
  exists dates last,
    length dates = n /\
    trace (snd run) = EvPoll token last :: rounds token dates ++ trace s /\
    polls (trace (snd run)) = (polls (trace s) + n + 1)%nat /\
    last - Date_now gw (env s) < maxWaitTime /\
    (exactTimers gw ->
     pollDates exactlyOneInterval (Date_now gw (env s)) dates last /\
     last = Date_now gw (env s) + Z.of_nat n * pollInterval /\
     Date_now gw (env (snd run)) = last).
Proof.
  intros Hst Htoken Hdone Hfuel. cbv zeta.
  assert (Hrun : phase3_WaitForBondingCurve gw fuel s
                 = pollLoop gw fuel (Date_now gw (env s)) s).
  { unfold phase3_WaitForBondingCurve, readState, bind, get, defined, now, ret.
    rewrite Hst. simpl. rewrite Htoken. reflexivity. }
  rewrite Hrun.
  pose proof (truthy_Some _ _ Htoken) as Ha.
  assert (Hdefault : default "" (tokenAddress st) = token) by (rewrite Ha; reflexivity).
  rewrite <- Hdefault in Hdone.
  destruct (pollLoop_completes (Date_now gw (env s)) st n fuel s Hfuel Hst Hdone)
    as (dates & last & Hr & Hstates & Hobj & Hlen & Ht & Hlast & Hexact).
  rewrite Hdefault in Ht.
  split; [assumption|]. split.
  { rewrite Hstates. apply map_eq. intros l.
    destruct (decide (l = orch_state s)) as [->|Hne].
    - rewrite lookup_alter_eq, lookup_insert_eq, Hst. reflexivity.
    - rewrite lookup_alter_ne, lookup_insert_ne by congruence. reflexivity. }
  split; [assumption|].
  exists dates, last. split; [assumption|]. split; [assumption|].
  split.
  { rewrite Ht. change (EvPoll token last :: rounds token dates ++ trace s)
      with ([EvPoll token last] ++ rounds token dates ++ trace s).
    rewrite !polls_app. change (polls [EvPoll token last]) with 1%nat.
    assert (Hrounds : forall ds, polls (rounds token ds) = length ds).
    { induction ds as [|d ds IHds]; [reflexivity|].
      rewrite rounds_cons, polls_app, IHds. simpl. unfold polls. simpl. lia. }
    rewrite Hrounds. lia. }
  split; [assumption|].
  intros Hex. destruct (Hexact Hex) as [Hpaced Hend].
  split; [assumption|]. split; [|assumption].
  destruct (pollDates_exact _ _ _ Hpaced) as [Htill _]. rewrite Htill, Hlen. reflexivity.
Qed.

End Completion.

Lemma script_gateway_exactTimers : exactTimers Script.gateway.
Proof. split; intros; simpl; lia. Qed.

(** On the completion scenario: the bonding curve completes 90 s after the
    start, which the fourth poll finds. *)
Lemma phase3_returns_when_the_curve_completes_witness :
  fst (BotOrchestrator.phase3_WaitForBondingCurve Script.gateway 121 CompletionScenario.start)
    = Ok tt /\
  polls (trace (snd (BotOrchestrator.phase3_WaitForBondingCurve Script.gateway 121
                       CompletionScenario.start)))
    = (polls (trace CompletionScenario.start) + 3 + 1)%nat /\
  Date_now Script.gateway
    (env (snd (BotOrchestrator.phase3_WaitForBondingCurve Script.gateway 121
                 CompletionScenario.start)))
    = Date_now Script.gateway (env CompletionScenario.start)
      + Z.of_nat 3 * BotOrchestrator.pollInterval.
Proof.
  assert (Hst : states CompletionScenario.start !! orch_state CompletionScenario.start
                = Some {| phase := bonding; tokenAddress := Some "0xNEWTOKEN";
                          fundingWallets := 4%nat; volumeWallets := 3%nat;
                          totalMonDeposited := 1296000 # 1; bondingCurveComplete := false;
                          volumeGenerated := 0 # 1; startTime := None |})
    by (vm_compute; reflexivity).
  assert (Hdone : completesOnPoll Script.gateway "0xNEWTOKEN"
                    (Date_now Script.gateway (env CompletionScenario.start)) 3
                    (env CompletionScenario.start)).
  { split; [vm_compute; reflexivity|]. eexists _, _. split; [reflexivity|].
    split; [vm_compute; reflexivity|].
    split; [vm_compute; reflexivity|]. eexists _, _. split; [reflexivity|].
    split; [vm_compute; reflexivity|].
    split; [vm_compute; reflexivity|]. eexists _, _. split; [reflexivity|].
    split; [vm_compute; reflexivity|].
    split; [vm_compute; reflexivity|]. eexists _, _. split; [reflexivity|].
    vm_compute. reflexivity. }
  destruct (phase3_returns_when_the_curve_completes Script.gateway 3 121
              CompletionScenario.start _ "0xNEWTOKEN" Hst eq_refl Hdone)
    as (Hr & _ & _ & dates & last & _ & _ & Hpolls & _ & Hexact); [lia|].
  destruct (Hexact script_gateway_exactTimers) as (_ & Hlast & Hend).
  split; [exact Hr|]. split; [exact Hpolls|]. exact (eq_trans Hend Hlast).
Defined.

(* ===================================================================== *)
(** * Invariants of computations that end *)
(* ===================================================================== *)

Lemma wp_conj {Env A} (m : M Env A) (Q1 Q2 : result A -> Sys Env -> Prop) s :
  wp m Q1 s -> wp m Q2 s -> wp m (fun r s' => Q1 r s' /\ Q2 r s') s.
Proof. unfold wp. auto. Qed.

Section Preserves.
Context {Env : Type}.
Variable gw : Gateway Env.
Variable config : Config.
Variable I : Sys Env -> Prop.
(** The events that may be added to the trace under [I]. *)
Variable okEv : Event -> Prop.
Hypothesis I_env : forall f s, I s -> I (set_env f s).
Hypothesis I_ev : forall ev s, okEv ev -> I s -> I (set_trace (cons ev) s).

Lemma pre_weaken {A} (m : M Env A) (P P' : A -> Prop) :
  preserves I m P -> (forall a, P a -> P' a) -> preserves I m P'.
Proof.
  intros Hm HP s Hs. eapply wp_mono; [apply Hm, Hs|].
  intros r s' (HI & Hne & Hr). repeat split; auto.
Qed.

Lemma pre_ret {A} (a : A) (P : A -> Prop) : P a -> preserves I (ret a) P.
Proof.
  intros Ha s Hs. apply wp_ret. repeat split; [assumption|discriminate|].
  intros b [= <-]. assumption.
Qed.

Lemma pre_throw {A} e (P : A -> Prop) : preserves I (throw e) P.
Proof. intros s Hs. apply wp_throw. repeat split; [assumption|discriminate..]. Qed.

Lemma pre_bind {A B} (m : M Env A) (k : A -> M Env B) (P : A -> Prop) (Q : B -> Prop) :
  preserves I m P -> (forall a, P a -> preserves I (k a) Q) -> preserves I (bind m k) Q.
Proof.
  intros Hm Hk s Hs. apply wp_bind. eapply wp_mono; [apply Hm, Hs|].
  intros [a|e|] s' (HI & Hne & Hr); [|repeat split; [assumption|discriminate..]|congruence].
  apply Hk; auto.
Qed.

Lemma pre_try_catch {A} (m : M Env A) (h : string -> M Env A) (P : A -> Prop) :
  preserves I m P -> (forall e, preserves I (h e) P) -> preserves I (try_catch m h) P.
Proof.
  intros Hm Hh s Hs. apply wp_try_catch. eapply wp_mono; [apply Hm, Hs|].
  intros [a|e|] s' (HI & Hne & Hr); [repeat split; assumption| |congruence].
  apply Hh; assumption.
Qed.

(** [try { m } catch (error) { throw error }] *)
Lemma pre_rethrow {A} (m : M Env A) (P : A -> Prop) :
  preserves I m P -> preserves I (try_catch m (fun error => throw error)) P.
Proof. intros Hm. apply pre_try_catch; [assumption|]. intros e. apply pre_throw. Qed.

Lemma pre_get : preserves I get I.
Proof.
  intros s Hs. apply wp_get. repeat split; [assumption|discriminate|].
  intros a [= <-]. assumption.
Qed.

Lemma pre_modify (f : Sys Env -> Sys Env) :
  (forall s, I s -> I (f s)) -> preserves I (modify f) (fun _ => True).
Proof. intros Hf s Hs. apply wp_modify. repeat split; [auto|discriminate]. Qed.

Lemma pre_await {A} (call : Env -> answer A * Env) :
  preserves I (await call) (fun _ => True).
Proof.
  intros s Hs. apply wp_await; intros;
    (repeat split; [apply I_env; assumption|discriminate]).
Qed.

Lemma pre_settled {A} (a : answer A) : preserves I (settled a) (fun x => a = Resolved x).
Proof.
  intros s Hs. apply wp_settled; intros; subst;
    (repeat split; [assumption|discriminate|]); [intros a [= <-]; reflexivity|discriminate].
Qed.

Lemma pre_defined {A} (o : option A) : preserves I (defined o) (fun a => o = Some a).
Proof.
  intros s Hs. apply wp_defined; intros; subst;
    (repeat split; [assumption|discriminate|]); [intros a' [= <-]; reflexivity|discriminate].
Qed.

Lemma pre_now : preserves I (now gw) (fun _ => True).
Proof. intros s Hs. unfold wp, now. simpl. repeat split; [assumption|discriminate]. Qed.

Lemma pre_random : preserves I (random gw) (fun _ => True).
Proof.
  intros s Hs. unfold wp, random.
  destruct (Math_random gw (env s)) as [r e']. simpl.
  repeat split; [apply I_env; assumption|discriminate].
Qed.

Lemma pre_readArray l : preserves I (readArray l) (fun _ => True).
Proof. intros s Hs. apply wp_readArray. repeat split; [assumption|discriminate]. Qed.

Lemma pre_emit ev : okEv ev -> preserves I (emit ev) (fun _ => True).
Proof. intros Hev. apply pre_modify. intros s. apply I_ev. assumption. Qed.

Lemma pre_sleep ms : okEv (EvSleep ms) -> preserves I (sleep gw ms) (fun _ => True).
Proof.
  intros Hev. unfold sleep.
  eapply pre_bind; [apply pre_modify; intros s; apply I_env|]. intros _ _.
  apply pre_emit. assumption.
Qed.

Lemma pre_sendAndWait signer tx :
  (forall out, okEv (EvTx signer tx out)) ->
  preserves I (sendAndWait gw signer tx) (fun _ => True).
Proof.
  intros Hev s Hs. unfold wp, sendAndWait.
  destruct (sendTransaction gw signer tx (env s)) as [[h|e] e1]; simpl.
  - destruct (wait gw h e1) as [[rc|e] e2]; simpl;
      (repeat split; [apply I_ev; [apply Hev|apply I_env; assumption]|discriminate..]).
  - repeat split; [apply I_ev; [apply Hev|apply I_env; assumption]|discriminate..].
Qed.

Lemma pre_populate contract data value :
  preserves I (populate gw contract data value)
    (fun tx => tx = {| tx_to := contract; tx_data := data; tx_value := value |}).
Proof.
  unfold populate. eapply pre_bind; [apply pre_get|]. intros s0 _.
  eapply pre_bind; [apply pre_settled|]. intros [] _.
  apply pre_ret. reflexivity.
Qed.

Lemma pre_invoke wallet data value :
  (forall out, okEv (EvTx wallet {| tx_to := contracts_nadFun config;
                                    tx_data := data; tx_value := value |} out)) ->
  preserves I (NadFunContract.invoke gw config wallet data value) (fun _ => True).
Proof.
  intros Hev. unfold NadFunContract.invoke.
  eapply pre_bind; [apply pre_populate|]. intros tx ->.
  apply pre_sendAndWait. assumption.
Qed.

Lemma pre_buyToken wallet token amount :
  (forall out, okEv (EvTx wallet (buyRequest config token amount) out)) ->
  preserves I (NadFunContract.buyToken gw config wallet token amount) (fun _ => True).
Proof.
  intros Hev. unfold NadFunContract.buyToken. apply pre_rethrow.
  eapply pre_bind; [apply pre_invoke; exact Hev|]. intros. apply pre_ret. exact Logic.I.
Qed.

Lemma pre_sellToken wallet token amount :
  (forall out, okEv (EvTx wallet {| tx_to := contracts_nadFun config;
                                    tx_data := SellToken token amount;
                                    tx_value := 0 |} out)) ->
  preserves I (NadFunContract.sellToken gw config wallet token amount) (fun v => v = 0).
Proof.
  intros Hev. unfold NadFunContract.sellToken. apply pre_rethrow.
  eapply pre_bind; [apply pre_invoke; exact Hev|]. intros. apply pre_ret. reflexivity.
Qed.

Lemma pre_transferMon wallet to amount :
  (forall out, okEv (EvTx wallet {| tx_to := to; tx_data := NoData; tx_value := amount |} out)) ->
  preserves I (NadFunContract.transferMon gw wallet to amount) (fun _ => True).
Proof.
  intros Hev. unfold NadFunContract.transferMon. apply pre_rethrow.
  eapply pre_bind; [apply pre_sendAndWait; exact Hev|]. intros. apply pre_ret. exact Logic.I.
Qed.

Lemma pre_getMonBalance a :
  preserves I (NadFunContract.getMonBalance gw a) (fun _ => True).
Proof. unfold NadFunContract.getMonBalance. apply pre_rethrow, pre_await. Qed.

Lemma pre_getTokenBalance token a :
  preserves I (NadFunContract.getTokenBalance gw token a) (fun _ => True).
Proof. unfold NadFunContract.getTokenBalance. apply pre_rethrow, pre_await. Qed.

Lemma pre_getTokenPrice token :
  preserves I (NadFunContract.getTokenPrice gw token) (fun _ => True).
Proof. unfold NadFunContract.getTokenPrice. apply pre_rethrow, pre_await. Qed.

Lemma pre_mapM {A B} (f : A -> M Env B) (l : list A) (P : B -> Prop) :
  (forall x, preserves I (f x) P) -> preserves I (mapM f l) (Forall P).
Proof.
  intros Hf. induction l as [|x l IH]; simpl.
  - apply pre_ret. constructor.
  - eapply pre_bind; [apply Hf|]. intros y Hy.
    eapply pre_bind; [apply IH|]. intros ys Hys.
    apply pre_ret. constructor; assumption.
Qed.

Lemma pre_parseEther x : preserves I (BotOrchestrator.parseEther gw x) (fun _ => True).
Proof.
  unfold BotOrchestrator.parseEther.
  destruct x; [eapply pre_weaken; [apply pre_settled|auto]|apply pre_throw].
Qed.

End Preserves.

(* ===================================================================== *)
(** * contracts/nadfun.ts: what a call submits *)
(* ===================================================================== *)

Section Calls.
Context {Env : Type}.
Variable gw : Gateway Env.
Variable config : Config.

Import NadFunContract.

Lemma failedWith_of_outcome e signer tx out :
  out = NotSent e \/ (exists h, out = NotConfirmed h e) -> failedWith e (signer, tx, out).
Proof. intros [->|[h ->]]; [left|right; exists h]; reflexivity. Qed.

(** Building a request changes nothing: it gives the request, or the
    error of the library. *)
Lemma populate_result contract data value (s : Sys Env) :
  populate gw contract data value s
  = (match populateTransaction gw contract data value (env s) with
     | Resolved _ => Ok {| tx_to := contract; tx_data := data; tx_value := value |}
     | Rejected e => Err e
     end, s).
Proof.
  unfold populate, bind, get, settled.
  destruct (populateTransaction gw contract data value (env s)); reflexivity.
Qed.

Lemma invoke_spec wallet data value (s : Sys Env) :
  wp (invoke gw config wallet data value)
     (fun r s' =>
        let tx := {| tx_to := contracts_nadFun config; tx_data := data; tx_value := value |} in
        match r with
        | Ok (h, rc) => trace s' = EvTx wallet tx (Confirmed h rc) :: trace s
        | Err e => (trace s' = trace s /\
                    populateTransaction gw (contracts_nadFun config) data value (env s)
                      = Rejected e) \/
                   exists out, trace s' = EvTx wallet tx out :: trace s /\
                               failedWith e (wallet, tx, out)
        | OutOfFuel => False
        end) s.
Proof.
  unfold invoke. wp_step. unfold wp at 1. rewrite populate_result.
  destruct (populateTransaction gw (contracts_nadFun config) data value (env s)) as [[]|e];
    cbn [fst snd]; [|left; split; reflexivity].
  eapply wp_mono; [apply sendAndWait_spec|].
  intros [[h rc]|e|] s2 (out & Hout & Hr); [| |contradiction].
  - subst out. congruence.
  - right. exists out. split; [congruence|]. apply failedWith_of_outcome. assumption.
Qed.

Lemma transferMon_event wallet to amount (s : Sys Env) :
  wp (transferMon gw wallet to amount)
     (fun r s' =>
        submitsOnce wallet {| tx_to := to; tx_data := NoData; tx_value := amount |}
          r (trace s) (trace s') /\
        exists out, trace s' = EvTx wallet {| tx_to := to; tx_data := NoData; tx_value := amount |} out
                               :: trace s) s.
Proof.
  unfold transferMon. apply wp_rethrow.
  wp_step. eapply wp_mono; [apply sendAndWait_spec|].
  intros [[h rc]|e|] s2 (out & Hout & Hr); [| |contradiction].
  - wp_steps. subst out. split; [|eauto]. simpl. eauto.
  - split; [|eauto]. right. exists out. split; [assumption|].
    apply failedWith_of_outcome. assumption.
Qed.

End Calls.

(** createToken builds the creation call and submits it, signed by the
    wallet, at most once. When it returns, the creation was submitted and
    confirmed, and what it returns is the address of the first log of the
    receipt, or the empty string when the receipt has no log. It throws only
    when the request could not be built, in which case nothing was
    submitted, or when the creation it submitted was rejected or not
    confirmed; the error is that one. *)
Theorem createToken_returns_the_first_log_address
    {Env} (gw : Gateway Env) (config : Config) (wallet : Wallet)
    (tokenConfig : TokenConfig) (s : Sys Env) :
  let run := NadFunContract.createToken gw config wallet tokenConfig s in
  let request := creationRequest config tokenConfig in
  match fst run with
  | Ok tokenAddress =>
      exists hash receipt,
        trace (snd run) = EvTx wallet request (Confirmed hash receipt) :: trace s /\
        tokenAddress = match receipt_logs receipt with
                       | log :: _ => log_address log
                       | [] => ""
                       end
  | Err e =>
      (trace (snd run) = trace s /\
       populateTransaction gw (tx_to request) (tx_data request) (tx_value request) (env s)
         = Rejected e) \/
      exists out, trace (snd run) = EvTx wallet request out :: trace s /\
                  failedWith e (wallet, request, out)
  | OutOfFuel => False
  end.
Proof.
  cbv zeta.
  change (wp (NadFunContract.createToken gw config wallet tokenConfig)
            (fun r s' =>
               match r with
               | Ok tokenAddress =>
                   exists hash receipt,
                     trace s' = EvTx wallet (creationRequest config tokenConfig)
                                  (Confirmed hash receipt) :: trace s /\
                     tokenAddress = match receipt_logs receipt with
                                    | log :: _ => log_address log
                                    | [] => ""
                                    end
               | Err e =>
                   (trace s' = trace s /\
                    populateTransaction gw (tx_to (creationRequest config tokenConfig))
                      (tx_data (creationRequest config tokenConfig))
                      (tx_value (creationRequest config tokenConfig)) (env s) = Rejected e) \/
                   exists out, trace s' = EvTx wallet (creationRequest config tokenConfig) out
                                          :: trace s /\
                               failedWith e (wallet, creationRequest config tokenConfig, out)
               | OutOfFuel => False
               end) s).
  unfold NadFunContract.createToken. apply wp_rethrow.
  wp_step. eapply wp_mono; [apply invoke_spec|].
  intros [[h rc]|e|] s1 H1; cbv zeta in H1; [| |contradiction].
  - wp_steps. exists h, rc. split; [exact H1|reflexivity].
  - exact H1.
Qed.

(* ===================================================================== *)
(** * The constructor and the configuration *)
(* ===================================================================== *)

(** new BotOrchestrator() throws exactly when NAD_FUN_CONTRACT_ADDRESS is
    unset or empty, with the error 'NAD_FUN_CONTRACT_ADDRESS not configured'
    of the NadFunContract constructor. Otherwise the new orchestrator is
    idle, holds no token address, no volume bot and no recovery manager, the
    wallet manager holds no wallet, and the two wallet lists of the state
    and the two wallet lists of the wallet manager are four distinct arrays,
    all of them empty. *)
Theorem orchestrator_needs_the_contract_address {Env} (e : ProcessEnv) (w : Env) :
  match BotOrchestrator.constructor (config_of e) w with
  | Ok s =>
      (exists a, NAD_FUN_CONTRACT_ADDRESS e = Some a /\ a <> "") /\
      internalView s = Some (idle, None, [], []) /\
      allWalletsOf s = [] /\
      orch_volumeBot s = None /\ orch_recoveryManager s = None /\
      (forall st, states s !! orch_state s = Some st ->
         NoDup [fundingWallets st; volumeWallets st;
                wm_fundingWallets s; wm_volumeWallets s] /\
         Forall (fun l => arrays s !! l = Some [])
                [fundingWallets st; volumeWallets st;
                 wm_fundingWallets s; wm_volumeWallets s])
  | Err msg =>
      msg = "NAD_FUN_CONTRACT_ADDRESS not configured" /\
      (NAD_FUN_CONTRACT_ADDRESS e = None \/ NAD_FUN_CONTRACT_ADDRESS e = Some "")
  | OutOfFuel => False
  end.
Proof.
  unfold BotOrchestrator.constructor, TransactionBundler.constructor,
    NadFunContract.constructor, config_of, or_string; simpl.
  destruct (NAD_FUN_CONTRACT_ADDRESS e) as [a|]; simpl.
  - destruct (String.eqb_spec a "") as [->|Hne]; simpl.
    + split; [reflexivity|right; reflexivity].
    + destruct (String.eqb_spec a "") as [?|_]; [contradiction|]. simpl.
      split; [eauto|].
      split; [vm_compute; reflexivity|].
      split; [vm_compute; reflexivity|].
      split; [reflexivity|]. split; [reflexivity|].
      intros st Hst. vm_compute in Hst. injection Hst as <-.
      split.
      * cbn [fundingWallets volumeWallets wm_fundingWallets wm_volumeWallets].
        apply (bool_decide_unpack _). vm_compute. exact I.
      * repeat constructor; vm_compute; reflexivity.
  - split; [reflexivity|left; reflexivity].
Qed.

(* ===================================================================== *)
(** * utils/wallet.ts: the wallets and their numbers *)
(* ===================================================================== *)

Section Numbering.
Context {Env : Type}.
Variable gw : Gateway Env.

Import WalletManager.

Lemma saveWalletInfo_frame wallet category (s : Sys Env) :
  wp (saveWalletInfo gw wallet category)
     (fun _ s' => set_env (fun _ => env s) s' = s) s.
Proof.
  unfold saveWalletInfo. wp_steps; destruct s; reflexivity.
Qed.

Lemma fundingWalletAt_number i (s : Sys Env) :
  wp (fundingWalletAt gw i)
     (fun r s' => set_env (fun _ => env s) s' = s /\
                  forall w, r = Ok w -> index w = Z.of_nat i /\ type w = funding) s.
Proof.
  unfold fundingWalletAt. wp_steps.
  - eapply wp_mono; [apply saveWalletInfo_frame|].
    intros [[]|e|] s' H1; simpl; try (split; [assumption|discriminate]).
    wp_steps. split; [assumption|]. intros w [= <-]. split; reflexivity.
  - split; [destruct s; reflexivity|discriminate].
Qed.

Lemma volumeWalletAt_number base i (s : Sys Env) :
  wp (volumeWalletAt gw base i)
     (fun r s' => set_env (fun _ => env s) s' = s /\
                  forall w, r = Ok w -> index w = base + Z.of_nat i /\ type w = volume) s.
Proof.
  unfold volumeWalletAt. wp_steps.
  - eapply wp_mono; [apply saveWalletInfo_frame|].
    intros [[]|e|] s' H1; simpl; try (split; [assumption|discriminate]).
    wp_steps. split; [assumption|]. intros w [= <-]. split; reflexivity.
  - split; [destruct s; reflexivity|discriminate].
Qed.

Lemma set_env_twice (f g : Env -> Env) (s : Sys Env) :
  set_env f (set_env g s) = set_env (fun e => f (g e)) s.
Proof. reflexivity. Qed.

(** A loop whose rounds change the outside world only. *)
Lemma mapM_frame {A B} (P : A -> B -> Prop) (f : A -> M Env B) (l : list A) :
  (forall x (s : Sys Env),
     wp (f x) (fun r s' => set_env (fun _ => env s) s' = s /\
                           forall y, r = Ok y -> P x y) s) ->
  forall s : Sys Env,
    wp (mapM f l) (fun r s' => set_env (fun _ => env s) s' = s /\
                               forall ys, r = Ok ys -> Forall2 P l ys) s.
Proof.
  intros Hf s.
  eapply wp_mono.
  { apply (wp_mapM (fun s' => set_env (fun _ => env s) s' = s) P f l).
    - intros x s0 H0. eapply wp_mono; [apply Hf|].
      intros r s1 [H1 H2]. split; [|assumption].
      change (set_env (fun _ => env s) (set_env (fun _ => env s0) s1) = s).
      rewrite H1. assumption.
    - destruct s; reflexivity. }
  auto.
Qed.

Lemma numbered_from {P : Wallet -> Prop} (base : Z) : forall n k ws,
  Forall2 (fun i w => index w = base + Z.of_nat i /\ P w) (seq k n) ws ->
  map index ws = map (fun i => base + Z.of_nat i) (seq k n) /\ Forall P ws.
Proof.
  induction n as [|n IH]; intros k ws H; simpl in H.
  - inversion H. split; constructor.
  - inversion H as [|i w l ws' [Hi HP] Hrest]; subst.
    destruct (IH _ _ Hrest) as [Hmap Hall]. simpl. rewrite Hi, Hmap.
    split; [reflexivity|constructor; assumption].
Qed.

Lemma generateFundingWallets_numbers count (s : Sys Env) :
  wp (generateFundingWallets gw count)
     (fun r s' =>
        forall l, r = Ok l ->
          exists ws,
            arrays s' = <[l := ws]> (arrays s) /\ arrays s !! l = None /\
            wm_fundingWallets s' = l /\ wm_volumeWallets s' = wm_volumeWallets s /\
            map index ws = map Z.of_nat (seq 0 (Z.to_nat count)) /\
            Forall (fun w => type w = funding) ws) s.
Proof.
  unfold generateFundingWallets. wp_step.
  eapply wp_mono.
  { apply (mapM_frame (fun i w => index w = 0 + Z.of_nat i /\ type w = funding)).
    intros i s0. apply fundingWalletAt_number. }
  intros [ws|e|] s1 [H1 H2]; try discriminate.
  wp_steps. intros l [= <-]. simpl. exists ws.
  destruct (numbered_from 0 _ _ _ (H2 ws eq_refl)) as [Hmap Hall].
  assert (Ha : arrays s = arrays s1) by (rewrite <- H1; reflexivity).
  assert (Hw : wm_volumeWallets s = wm_volumeWallets s1) by (rewrite <- H1; reflexivity).
  rewrite Ha, Hw. repeat split; try assumption.
  apply not_elem_of_dom, is_fresh.
Qed.

Lemma generateVolumeWallets_numbers count (s : Sys Env) :
  wp (generateVolumeWallets gw count)
     (fun r s' =>
        forall l, r = Ok l ->
          exists ws,
            arrays s' = <[l := ws]> (arrays s) /\ arrays s !! l = None /\
            wm_volumeWallets s' = l /\ wm_fundingWallets s' = wm_fundingWallets s /\
            map index ws
              = map (fun i => Z.of_nat (length (default [] (arrays s !! wm_fundingWallets s)))
                              + Z.of_nat i)
                    (seq 0 (Z.to_nat count)) /\
            Forall (fun w => type w = volume) ws) s.
Proof.
  unfold generateVolumeWallets. wp_steps.
  eapply wp_mono.
  { apply (mapM_frame (fun i w =>
             index w = Z.of_nat (length (default [] (arrays s !! wm_fundingWallets s)))
                       + Z.of_nat i /\ type w = volume)).
    intros i s0. apply volumeWalletAt_number. }
  intros [ws|e|] s1 [H1 H2]; try discriminate.
  wp_steps. intros l [= <-]. simpl. exists ws.
  destruct (numbered_from _ _ _ _ (H2 ws eq_refl)) as [Hmap Hall].
  assert (Ha : arrays s = arrays s1) by (rewrite <- H1; reflexivity).
  assert (Hw : wm_fundingWallets s = wm_fundingWallets s1) by (rewrite <- H1; reflexivity).
  rewrite Ha, Hw in *. repeat split; try assumption.
  apply not_elem_of_dom, is_fresh.
Qed.

Lemma seq_shifted (base n : nat) :
  map (fun i => Z.of_nat base + Z.of_nat i) (seq 0 n) = map Z.of_nat (seq base n).
Proof.
  assert (H : forall k, map (fun i => Z.of_nat base + Z.of_nat i) (seq k n)
                         = map Z.of_nat (seq (base + k) n)).
  { induction n as [|n IH]; intros k; simpl; [reflexivity|].
    rewrite IH. f_equal; [lia|]. f_equal. f_equal. lia. }
  rewrite H, Nat.add_0_r. reflexivity.
Qed.

(** When generateFundingWallets(nf) and then generateVolumeWallets(nv) have
    returned, getFundingWallets, getVolumeWallets and getAllWallets return
    the nf funding wallets, the nv volume wallets, and the former followed
    by the latter; every wallet has the type of its list, and the index
    fields run from 0 to nf+nv-1 through both lists, the volume wallets
    being numbered from nf on, so that no two wallets share an index. A
    count of zero or less derives no wallet. *)
Theorem wallets_are_numbered_through_both_lists
    (nf nv : Z) (s : Sys Env) (lf : loc) (s1 : Sys Env) (lv : loc) (s2 : Sys Env) :
  generateFundingWallets gw nf s = (Ok lf, s1) ->
  generateVolumeWallets gw nv s1 = (Ok lv, s2) ->
  exists fws vws,
    fst (getFundingWallets s2) = Ok fws /\
    fst (getVolumeWallets s2) = Ok vws /\
    fst (getAllWallets s2) = Ok (fws ++ vws) /\
    length fws = Z.to_nat nf /\ length vws = Z.to_nat nv /\
    Forall (fun w => type w = funding) fws /\
    Forall (fun w => type w = volume) vws /\
    map index (fws ++ vws) = map Z.of_nat (seq 0 (Z.to_nat nf + Z.to_nat nv)) /\
    NoDup (map index (fws ++ vws)).
Proof.
  intros Hf Hv.
  destruct (wp_run _ _ _ _ _ Hf (generateFundingWallets_numbers nf s) lf eq_refl)
    as (fws & Ha1 & Hfresh1 & Hwf1 & _ & Hi1 & Ht1).
  destruct (wp_run _ _ _ _ _ Hv (generateVolumeWallets_numbers nv s1) lv eq_refl)
    as (vws & Ha2 & Hfresh2 & Hwv2 & Hwf2 & Hi2 & Ht2).
  assert (Hlf : arrays s1 !! lf = Some fws) by (rewrite Ha1; apply lookup_insert_eq).
  assert (Hne : lv <> lf) by congruence.
  assert (Hf2 : arrays s2 !! wm_fundingWallets s2 = Some fws).
  { rewrite Hwf2, Hwf1, Ha2, lookup_insert_ne; assumption. }
  assert (Hv2 : arrays s2 !! wm_volumeWallets s2 = Some vws).
  { rewrite Hwv2, Ha2. apply lookup_insert_eq. }
  assert (Hlenf : length fws = Z.to_nat nf).
  { rewrite <- (length_map index), Hi1, length_map, length_seq. reflexivity. }
  assert (Hlenv : length vws = Z.to_nat nv).
  { rewrite <- (length_map index), Hi2, length_map, length_seq. reflexivity. }
  assert (Hall : map index (fws ++ vws) = map Z.of_nat (seq 0 (Z.to_nat nf + Z.to_nat nv))).
  { rewrite map_app, Hi1, Hi2, Hwf1, Hlf. simpl. rewrite Hlenf, seq_shifted.
    rewrite <- map_app, <- seq_app. reflexivity. }
  exists fws, vws.
  unfold getFundingWallets, getVolumeWallets, getAllWallets, bind, get, readArray, ret; simpl.
  rewrite Hf2, Hv2. simpl. repeat split; try assumption.
  rewrite Hall. apply NoDup_fmap_2; [intros a b; lia|apply NoDup_seq].
Qed.

End Numbering.

(** On the scripted world: three funding wallets, then two volume wallets,
    derived from the seed ["seed"]. *)
Lemma wallets_are_numbered_through_both_lists_witness :
  exists fws vws,
    fst (WalletManager.getFundingWallets
           (snd (WalletManager.generateVolumeWallets Script.gateway 2
                   (snd (WalletManager.generateFundingWallets Script.gateway 3 scriptedManager)))))
      = Ok fws /\
    fst (WalletManager.getVolumeWallets
           (snd (WalletManager.generateVolumeWallets Script.gateway 2
                   (snd (WalletManager.generateFundingWallets Script.gateway 3 scriptedManager)))))
      = Ok vws /\
    fst (WalletManager.getAllWallets
           (snd (WalletManager.generateVolumeWallets Script.gateway 2
                   (snd (WalletManager.generateFundingWallets Script.gateway 3 scriptedManager)))))
      = Ok (fws ++ vws) /\
    length fws = Z.to_nat 3 /\ length vws = Z.to_nat 2 /\
    Forall (fun w => type w = funding) fws /\
    Forall (fun w => type w = volume) vws /\
    map index (fws ++ vws) = map Z.of_nat (seq 0 (Z.to_nat 3 + Z.to_nat 2)) /\
    NoDup (map index (fws ++ vws)).
Proof.
  apply (wallets_are_numbered_through_both_lists Script.gateway 3 2 scriptedManager 2%nat
           (snd (WalletManager.generateFundingWallets Script.gateway 3 scriptedManager)) 3%nat
           (snd (WalletManager.generateVolumeWallets Script.gateway 2
                   (snd (WalletManager.generateFundingWallets Script.gateway 3 scriptedManager))))).
  - vm_compute. reflexivity.
  - vm_compute. reflexivity.
Defined.

Section RandomWallet.
Context {Env : Type}.
Variable gw : Gateway Env.

Import WalletManager.

Lemma floor_of_scaled (r : Q) (n : Z) :
  (0 <= r)%Q -> (r < 1)%Q -> 0 < n -> 0 <= Qfloor (r * inject_Z n) < n.
Proof.
  intros H0 H1 Hn.
  assert (Hq : (0 < inject_Z n)%Q).
  { change 0%Q with (inject_Z 0). rewrite <- Zlt_Qlt. assumption. }
  assert (Hlo : (0 <= r * inject_Z n)%Q) by nra.
  assert (Hhi : (r * inject_Z n < inject_Z n)%Q) by nra.
  split.
  - apply Qfloor_resp_le in Hlo. change (Qfloor 0) with 0 in Hlo. assumption.
  - pose proof (Qfloor_le (r * inject_Z n)) as Hf.
    assert (Hlt : (inject_Z (Qfloor (r * inject_Z n)) < inject_Z n)%Q) by lra.
    rewrite <- Zlt_Qlt in Hlt. assumption.
Qed.

(** For Math.random within [0, 1), getRandomWallet returns an element of the
    list it is given when the list is not empty, never undefined; on an
    empty list it returns undefined. It draws one random number and changes
    nothing else. *)
Theorem getRandomWallet_returns_a_member (wallets : list Wallet) (s : Sys Env) :
  randomInRange gw ->
  snd (getRandomWallet gw wallets s) = set_env (fun e => snd (Math_random gw e)) s /\
  (wallets = [] -> fst (getRandomWallet gw wallets s) = Ok None) /\
  (wallets <> [] ->
   exists w, fst (getRandomWallet gw wallets s) = Ok (Some w) /\ w ∈ wallets).
Proof.
  intros Hr. unfold getRandomWallet, bind, random, ret.
  pose proof (Hr (env s)) as [H0 H1].
  destruct (Math_random gw (env s)) as [r e'] eqn:Hrandom. cbn [fst snd] in *.
  split; [unfold set_env; cbn [env]; rewrite Hrandom; reflexivity|]. split.
  - intros ->. destruct (_ <? 0); [reflexivity|].
    rewrite lookup_nil. reflexivity.
  - intros Hne.
    assert (Hlen : 0 < Z.of_nat (length wallets)) by (destruct wallets; [contradiction|simpl; lia]).
    pose proof (floor_of_scaled r _ H0 H1 Hlen) as [Hlo Hhi].
    destruct (Z.ltb_spec (Qfloor (r * inject_Z (Z.of_nat (length wallets)))) 0); [lia|].
    destruct (lookup_lt_is_Some_2 wallets
                (Z.to_nat (Qfloor (r * inject_Z (Z.of_nat (length wallets)))))) as [w Hw];
      [lia|].
    exists w. rewrite Hw. split; [reflexivity|].
    apply list_elem_of_lookup. eauto.
Qed.

End RandomWallet.

(** On the trading scenario: its two volume wallets and its first random
    number, 1/2, which selects the second wallet. *)
Lemma getRandomWallet_returns_a_member_witness :
  snd (WalletManager.getRandomWallet Script.gateway (allWalletsOf TradeScenario.start)
         TradeScenario.start)
    = set_env (fun e => snd (Math_random Script.gateway e)) TradeScenario.start /\
  (allWalletsOf TradeScenario.start = [] ->
   fst (WalletManager.getRandomWallet Script.gateway (allWalletsOf TradeScenario.start)
          TradeScenario.start) = Ok None) /\
  (allWalletsOf TradeScenario.start <> [] ->
   exists w, fst (WalletManager.getRandomWallet Script.gateway (allWalletsOf TradeScenario.start)
                    TradeScenario.start) = Ok (Some w) /\
             w ∈ allWalletsOf TradeScenario.start).
Proof.
  exact (getRandomWallet_returns_a_member Script.gateway (allWalletsOf TradeScenario.start)
           TradeScenario.start script_gateway_randomInRange).
Defined.

(** WalletManager.initialize creates the wallet directory first. With a seed
    configured it keeps that seed and does nothing else: no mnemonic is
    generated and nothing is written. With no seed, or an empty one, it
    generates a mnemonic, keeps it and writes it to wallets/seed.txt; when
    it returns, the phrase written is the phrase kept. It throws only when
    one of these calls fails, with that call's error; when the write fails,
    the manager is left holding a phrase that was not saved. *)
Theorem initialize_keeps_the_seed_it_saved
    {Env} (gw : Gateway Env) (config : Config) (s : Sys Env) :
  let run := WalletManager.initialize gw config s in
  match fst run with
  | Ok _ =>
      exists e1,
        fs_mkdir gw "wallets" (env s) = (Resolved tt, e1) /\
        if String.eqb (wallet_seed config) "" then
          exists m e2,
            generateMnemonic gw e1 = (Resolved m, e2) /\
            fs_writeFile gw "wallets/seed.txt" (SeedFile m) e2 = (Resolved tt, env (snd run)) /\
            wm_seedPhrase (snd run) = m
        else
          wm_seedPhrase (snd run) = wallet_seed config /\ env (snd run) = e1
  | Err e =>
      (exists e1, fs_mkdir gw "wallets" (env s) = (Rejected e, e1)) \/
      (wallet_seed config = "" /\
       exists e1,
         fs_mkdir gw "wallets" (env s) = (Resolved tt, e1) /\
         ((exists e2, generateMnemonic gw e1 = (Rejected e, e2) /\
                      wm_seedPhrase (snd run) = wm_seedPhrase s) \/
          (exists m e2 e3,
             generateMnemonic gw e1 = (Resolved m, e2) /\
             fs_writeFile gw "wallets/seed.txt" (SeedFile m) e2 = (Rejected e, e3) /\
             wm_seedPhrase (snd run) = m)))
  | OutOfFuel => False
  end.
Proof.
  cbv zeta.
  unfold WalletManager.initialize, WalletManager.saveSeedPhrase, WalletManager.WALLETS_DIR,
    bind, await, get, modify.
  destruct (fs_mkdir gw "wallets" (env s)) as [[[]|e] e1] eqn:Hmk; simpl; [|left; eauto].
  destruct (String.eqb_spec (wallet_seed config) "") as [Hseed|Hseed]; simpl.
  - destruct (generateMnemonic gw e1) as [[m|e] e2] eqn:Hgen; simpl.
    + change ("wallets" +:+ "/seed.txt") with "wallets/seed.txt".
      destruct (fs_writeFile gw "wallets/seed.txt" (SeedFile m) e2) as [[[]|e] e3] eqn:Hw;
        simpl.
      * exists e1. split; [reflexivity|]. exists m, e2. rewrite Hgen, Hw. auto.
      * right. split; [assumption|]. exists e1. split; [reflexivity|].
        right. exists m, e2, e3. rewrite Hgen, Hw. auto.
    + right. split; [assumption|]. exists e1. split; [reflexivity|].
      left. exists e2. rewrite Hgen. auto.
  - exists e1. split; [reflexivity|]. split; reflexivity.
Qed.

(* ===================================================================== *)
(** * bundler/transactionBundler.ts: the creation, and the bundler path *)
(* ===================================================================== *)

Section CreationOnly.
Context {Env : Type}.
Variable gw : Gateway Env.
Variable config : Config.

Import TransactionBundler.

(** bundleTokenCreationAndBuy never submits anything but the creation
    transaction, signed by the funding wallet, and at most once:
    buyAmountMon has no effect on what it does or returns. When it returns,
    the creation was confirmed; with no bundler configured the returned
    bundle is empty (the creation hash is not in it), and with a bundler
    configured it holds one signed transaction and the creation hash. *)
Theorem creation_bundle_submits_the_creation_only
    (fundingWallet : option Wallet) (tokenConfig : TokenConfig) (buyAmountMon : Z)
    (s : Sys Env) :
  let run := bundleTokenCreationAndBuy gw config fundingWallet tokenConfig buyAmountMon s in
  (forall otherAmount,
      bundleTokenCreationAndBuy gw config fundingWallet tokenConfig otherAmount s = run) /\
  exists new,
    trace (snd run) = new ++ trace s /\
    (submissions new = [] \/
     exists w out, fundingWallet = Some w /\
                   submissions new = [(w, creationRequest config tokenConfig, out)]) /\
    forall bundle, fst run = Ok bundle ->
      exists w hash receipt,
        submissions new = [(w, creationRequest config tokenConfig, Confirmed hash receipt)] /\
        if String.eqb (monad_bundlerRpcUrl config) "" then
          transactions bundle = [] /\ signatures bundle = []
        else
          signatures bundle = [hash] /\ length (transactions bundle) = 1%nat.
Proof.
  cbv zeta. split.
  - intros other.
    unfold bundleTokenCreationAndBuy, bind, defined, try_catch, populate, get, settled, ret,
      submitToBundler, submitEach, bind, await.
    destruct fundingWallet as [w|]; simpl; [|reflexivity].
    destruct (populateTransaction gw _ _ _ _); simpl; [|reflexivity].
    destruct (negb _); simpl; [reflexivity|].
    destruct (sendAndWait gw w _ s) as [[[h rc]|e|] s1]; simpl; try reflexivity.
    destruct (getTransactionReceipt gw h (env s1)) as [[receipt|e] e2]; simpl; [|reflexivity].
    rewrite extractTokenAddress_is_null. reflexivity.
  - change (wp (bundleTokenCreationAndBuy gw config fundingWallet tokenConfig buyAmountMon)
              (fun r s' =>
                 exists new,
                   trace s' = new ++ trace s /\
                   (submissions new = [] \/
                    exists w out, fundingWallet = Some w /\
                                  submissions new = [(w, creationRequest config tokenConfig, out)]) /\
                   forall bundle, r = Ok bundle ->
                     exists w hash receipt,
                       submissions new
                         = [(w, creationRequest config tokenConfig, Confirmed hash receipt)] /\
                       if String.eqb (monad_bundlerRpcUrl config) "" then
                         transactions bundle = [] /\ signatures bundle = []
                       else
                         signatures bundle = [hash] /\ length (transactions bundle) = 1%nat) s).
    unfold bundleTokenCreationAndBuy. wp_step. wp_step.
    2:{ exists []. repeat split; [left; reflexivity|discriminate]. }
    apply wp_rethrow. wp_step. eapply wp_mono; [apply populate_spec|].
    fold (creationRequest config tokenConfig).
    intros [tx|e|] s1 (Ht & _ & Htx);
      [|exists []; repeat split; [assumption|left; reflexivity|discriminate]..].
    rewrite (Htx tx eq_refl).
    destruct (String.eqb (monad_bundlerRpcUrl config) "") eqn:Hb; simpl negb; cbv iota.
    + wp_step. eapply wp_mono; [apply sendAndWait_spec|].
      intros [[h rc]|e|] s2 (out & Hout & Hr); [| |contradiction].
      * subst out. wp_step. wp_step.
        -- rewrite extractTokenAddress_is_null. simpl truthy. cbv iota. wp_step.
           eexists [_]. split; [simpl; rewrite Hout, Ht; reflexivity|].
           split; [right; eexists _, _; split; [eassumption|reflexivity]|].
           intros b [= <-]. eexists _, _, _. split; [reflexivity|]. split; reflexivity.
        -- eexists [_]. split; [simpl; rewrite Hout, Ht; reflexivity|].
           split; [right; eexists _, _; split; [eassumption|reflexivity]|]. discriminate.
      * eexists [_]. split; [simpl; rewrite Hout, Ht; reflexivity|].
        split; [right; eexists _, _; split; [eassumption|reflexivity]|]. discriminate.
    + unfold submitToBundler. simpl submitEach. wp_step. wp_step.
      2:{ exists []. split; [assumption|]. split; [left; reflexivity|discriminate]. }
      wp_step. eapply wp_mono; [apply sendAndWait_spec|].
      intros [[h rc]|e|] s2 (out & Hout & Hr); [| |contradiction].
      * subst out. wp_steps.
        eexists [_]. split; [simpl; rewrite Hout; simpl; rewrite Ht; reflexivity|].
        split; [right; eexists _, _; split; [eassumption|reflexivity]|].
        intros b [= <-]. eexists _, _, _. split; [reflexivity|]. split; reflexivity.
      * eexists [_]. split; [simpl; rewrite Hout; simpl; rewrite Ht; reflexivity|].
        split; [right; eexists _, _; split; [eassumption|reflexivity]|]. discriminate.
Qed.

End CreationOnly.

Section BundlerPath.
Context {Env : Type}.
Variable gw : Gateway Env.
Variable config : Config.

Import TransactionBundler.

(** The loop of [submitToBundler]: every request is signed and then sent
    by the one signer, in order; the loop stops at the first request that
    cannot be signed, is rejected or is not confirmed. *)
Lemma submitEach_spec signer : forall txs acc1 acc2 (s : Sys Env),
  wp (submitEach gw txs signer acc1 acc2)
     (fun r s' =>
        exists new,
          trace s' = new ++ trace s /\
          (submissions new).*1 = take (length (submissions new)) (map (pair signer) txs) /\
          match r with
          | Ok bundle =>
              length (submissions new) = length txs /\
              Forall isConfirmed (submissions new) /\
              length (transactions bundle) = (length acc1 + length txs)%nat /\
              signatures bundle = acc2 ++ omap confirmedHash (submissions new)
          | Err e =>
              exists done,
                Forall isConfirmed done /\
                (submissions new = done \/
                 exists last, submissions new = done ++ [last] /\ failedWith e last)
          | OutOfFuel => False
          end) s.
Proof.
  induction txs as [|tx txs IH]; intros acc1 acc2 s.
  - simpl. wp_steps. exists []. simpl. rewrite app_nil_r.
    repeat split; [constructor|lia].
  - simpl submitEach. wp_step. wp_step.
    2:{ exists []. repeat split. exists []. split; [constructor|left; reflexivity]. }
    wp_step. eapply wp_mono; [apply sendAndWait_spec|].
    intros [[h rc]|e|] s1 (out & Hout & Hr); [| |contradiction].
    + subst out. simpl fst.
      eapply wp_mono; [apply IH|].
      intros r s2 (new & Hnew & Hpre & Hres).
      exists (new ++ [EvTx signer tx (Confirmed h rc)]).
      rewrite submissions_app. change (submissions [_]) with [(signer, tx, Confirmed h rc)].
      split; [rewrite Hnew, Hout, <- app_assoc; reflexivity|].
      split; [simpl; f_equal; assumption|].
      destruct r as [b|e|]; [| |assumption].
      * destruct Hres as (Hn & Hall & Ht & Hsig). simpl.
        repeat split.
        -- lia.
        -- constructor; [eexists _, _; reflexivity|assumption].
        -- rewrite Ht, length_app. simpl. lia.
        -- rewrite Hsig, <- app_assoc. reflexivity.
      * destruct Hres as (done & Hdone & Hsub).
        exists ((signer, tx, Confirmed h rc) :: done).
        split; [constructor; [eexists _, _; reflexivity|assumption]|].
        destruct Hsub as [->|(last & -> & Hlast)]; [left; reflexivity|].
        right. exists last. split; [reflexivity|assumption].
    + exists [EvTx signer tx out]. rewrite Hout.
      change (submissions [_]) with [(signer, tx, out)].
      split; [reflexivity|]. split; [reflexivity|].
      exists []. split; [constructor|]. right. exists (signer, tx, out).
      split; [reflexivity|]. apply failedWith_of_outcome. assumption.
Qed.

(** With BUNDLER_RPC_URL set, every transaction bundleMultipleBuys submits
    is signed by the first wallet of the list, whichever wallet the buy was
    built for; the transactions it submits are the buys of the list, in
    input order, and all but the last one submitted were confirmed. When it
    returns, all the buys were submitted and confirmed, and the bundle holds
    their hashes in order as its signatures, and as many signed
    transactions. On an empty wallet list it throws, having submitted
    nothing. *)
Theorem bundler_path_sends_every_buy_from_the_first_wallet
    (wallets : list Wallet) (token : string) (amounts : list Z) (s : Sys Env) :
  monad_bundlerRpcUrl config <> "" ->
  let run := bundleMultipleBuys gw config wallets token amounts s in
  exists new,
    trace (snd run) = new ++ trace s /\
    (forall sub, sub ∈ submissions new -> wallets !! 0%nat = Some sub.1.1) /\
    map (fun sub => sub.1.2) (submissions new)
      = take (length (submissions new))
             (map (buyRequest config token) (take (length wallets) amounts)) /\
    Forall isConfirmed (removelast (submissions new)) /\
    (wallets = [] -> submissions new = [] /\ exists e, fst run = Err e) /\
    match fst run with
    | Ok bundle =>
        length (submissions new) = length wallets /\
        Forall isConfirmed (submissions new) /\
        signatures bundle = omap confirmedHash (submissions new) /\
        length (transactions bundle) = length wallets
    | Err e => True
    | OutOfFuel => False
    end.
Proof.
  intros Hb. cbv zeta.
  change (wp (bundleMultipleBuys gw config wallets token amounts)
            (fun r s' =>
               exists new,
                 trace s' = new ++ trace s /\
                 (forall sub, sub ∈ submissions new -> wallets !! 0%nat = Some sub.1.1) /\
                 map (fun sub => sub.1.2) (submissions new)
                   = take (length (submissions new))
                          (map (buyRequest config token) (take (length wallets) amounts)) /\
                 Forall isConfirmed (removelast (submissions new)) /\
                 (wallets = [] -> submissions new = [] /\ exists e, r = Err e) /\
                 match r with
                 | Ok bundle =>
                     length (submissions new) = length wallets /\
                     Forall isConfirmed (submissions new) /\
                     signatures bundle = omap confirmedHash (submissions new) /\
                     length (transactions bundle) = length wallets
                 | Err e => True
                 | OutOfFuel => False
                 end) s).
  unfold bundleMultipleBuys.
  apply String.eqb_neq in Hb. rewrite Hb. simpl negb. cbv iota.
  wp_step. eapply wp_mono; [apply populateBuy_all|].
  intros [txs|e|] s1 (Ht & Hne & Htxs); [| |congruence].
  2:{ exists []. split; [assumption|]. split; [intros sub Hin; inversion Hin|].
      split; [reflexivity|]. split; [constructor|]. split; [|exact Logic.I].
      intros ->. split; [reflexivity|]. eauto. }
  destruct (Htxs txs eq_refl) as [Hmap Hlen].
  wp_step. wp_step.
  2:{ exists []. split; [assumption|]. split; [intros sub Hin; inversion Hin|].
      split; [reflexivity|]. split; [constructor|]. split; [|exact Logic.I].
      intros _. split; [reflexivity|]. eauto. }
  unfold submitToBundler.
  eapply wp_mono; [apply submitEach_spec|].
  intros r s2 (new & Hnew & Hpre & Hres).
  exists new. split; [congruence|].
  assert (Hsigner : forall sub, sub ∈ submissions new -> wallets !! 0%nat = Some sub.1.1).
  { intros sub Hin.
    assert (Hin' : sub.1 ∈ (submissions new).*1) by (apply list_elem_of_fmap; eauto).
    rewrite Hpre in Hin'. apply elem_of_take in Hin' as (i & Hi & _).
    change (map (pair ?w) txs) with (pair w <$> txs) in Hi.
    apply list_lookup_fmap_Some in Hi as (tx & Hsub & Htx). rewrite Hsub. assumption. }
  split; [assumption|].
  split.
  { transitivity (map snd (submissions new).*1).
    - rewrite <- list_fmap_compose. reflexivity.
    - rewrite Hpre, <- Hmap.
      change (map snd (take ?n ?l)) with (snd <$> take n l).
      rewrite fmap_take. f_equal.
      rewrite <- list_fmap_compose. apply list_fmap_id. }
  split.
  { destruct r as [b|e|]; [| |contradiction].
    - destruct Hres as (_ & Hall & _).
      clear -Hall. induction Hall as [|x l Hx Hl IH]; [constructor|].
      destruct l; [constructor|]. simpl. constructor; assumption.
    - destruct Hres as (done & Hdone & [->|(last & -> & _)]).
      + clear -Hdone. induction Hdone as [|x l Hx Hl IH]; [constructor|].
        destruct l; [constructor|]. simpl. constructor; assumption.
      + rewrite removelast_last. assumption. }
  split; [intros ->; discriminate|].
  destruct r as [b|e|]; [|exact Logic.I|assumption].
  destruct Hres as (Hn & Hall & Ht2 & Hsig). simpl in Ht2.
  repeat split; [congruence|assumption|assumption|congruence].
Qed.

(** When bundleMultipleBuys is given fewer amounts than wallets it throws
    while it builds the requests, with or without a bundler: nothing is
    submitted and the state of the program is exactly as before. *)
Theorem a_missing_amount_submits_nothing
    (wallets : list Wallet) (token : string) (amounts : list Z) (s : Sys Env) :
  (length amounts < length wallets)%nat ->
  exists e, bundleMultipleBuys gw config wallets token amounts s = (Err e, s).
Proof.
  intros Hshort. unfold bundleMultipleBuys.
  assert (H : forall n k, (k <= length amounts < k + n)%nat ->
            exists e, mapM (populateBuy gw config token amounts) (seq k n) s = (Err e, s)).
  { induction n as [|n IH]; intros k Hk; [lia|]. simpl.
    unfold populateBuy at 1.
    destruct (amounts !! k) as [a|] eqn:Ha.
    - apply lookup_lt_Some in Ha.
      unfold bind at 1, populate, bind, get, settled.
      destruct (populateTransaction gw _ _ _ _); simpl; [|eauto].
      destruct (IH (S k)) as [e He]; [lia|].
      unfold bind. rewrite He. eauto.
    - unfold bind, throw. eauto. }
  destruct (H (length wallets) 0%nat) as [e He]; [lia|].
  exists e. unfold bind. rewrite He. reflexivity.
Qed.

End BundlerPath.

(** On the bundler scenario: three wallets, three amounts, a bundler URL
    configured. *)
Lemma bundler_path_sends_every_buy_from_the_first_wallet_witness :
  monad_bundlerRpcUrl BundlerScenario.config <> "" /\
  exists new,
    trace (snd (TransactionBundler.bundleMultipleBuys Script.gateway BundlerScenario.config
                  BundlerScenario.wallets "0xTOKEN" BundlerScenario.amounts
                  BundlerScenario.start))
      = new ++ trace BundlerScenario.start /\
    (forall sub, sub ∈ submissions new -> BundlerScenario.wallets !! 0%nat = Some sub.1.1) /\
    map (fun sub => sub.1.2) (submissions new)
      = take (length (submissions new))
             (map (buyRequest BundlerScenario.config "0xTOKEN")
                  (take (length BundlerScenario.wallets) BundlerScenario.amounts)) /\
    Forall isConfirmed (removelast (submissions new)) /\
    (BundlerScenario.wallets = [] ->
     submissions new = [] /\
     exists e, fst (TransactionBundler.bundleMultipleBuys Script.gateway BundlerScenario.config
                      BundlerScenario.wallets "0xTOKEN" BundlerScenario.amounts
                      BundlerScenario.start) = Err e) /\
    match fst (TransactionBundler.bundleMultipleBuys Script.gateway BundlerScenario.config
                 BundlerScenario.wallets "0xTOKEN" BundlerScenario.amounts
                 BundlerScenario.start) with
    | Ok bundle =>
        length (submissions new) = length BundlerScenario.wallets /\
        Forall isConfirmed (submissions new) /\
        signatures bundle = omap confirmedHash (submissions new) /\
        length (transactions bundle) = length BundlerScenario.wallets
    | Err e => True
    | OutOfFuel => False
    end.
Proof.
  split; [vm_compute; discriminate|].
  apply (bundler_path_sends_every_buy_from_the_first_wallet Script.gateway
           BundlerScenario.config BundlerScenario.wallets "0xTOKEN" BundlerScenario.amounts
           BundlerScenario.start).
  vm_compute. discriminate.
Defined.

(** On the bundler scenario the three buys are sent by the first wallet and
    confirmed. *)
Lemma bundler_scenario_signers :
  map (fun sub => address sub.1.1)
      (submissions (trace (snd (TransactionBundler.bundleMultipleBuys Script.gateway
                                  BundlerScenario.config BundlerScenario.wallets "0xTOKEN"
                                  BundlerScenario.amounts BundlerScenario.start))))
    = ["seed@m/44'/60'/0'/0/0"; "seed@m/44'/60'/0'/0/0"; "seed@m/44'/60'/0'/0/0"] /\
  map address BundlerScenario.wallets
    = ["seed@m/44'/60'/0'/0/0"; "seed@m/44'/60'/0'/0/1"; "seed@m/44'/60'/0'/0/2"].
Proof. split; vm_compute; reflexivity. Qed.

(** On the bundling scenario, with three wallets and one amount. *)
Lemma a_missing_amount_submits_nothing_witness :
  (length [(10 ^ 18)%Z] < length BundleScenario.wallets)%nat /\
  exists e, TransactionBundler.bundleMultipleBuys Script.gateway BundleScenario.config
              BundleScenario.wallets "0xTOKEN" [10 ^ 18] BundleScenario.start
            = (Err e, BundleScenario.start).
Proof.
  split; [vm_compute; lia|].
  apply (a_missing_amount_submits_nothing Script.gateway BundleScenario.config
           BundleScenario.wallets "0xTOKEN" [10 ^ 18] BundleScenario.start).
  vm_compute. lia.
Defined.

(* ===================================================================== *)
(** * bot/volumeBot.ts: what the bot submits and what it records *)
(* ===================================================================== *)

Section Objects.
Context {Env : Type}.
Variable gw : Gateway Env.
Variable config : Config.

Lemma sameObjects_refl (s : Sys Env) : sameObjects s s.
Proof. repeat split. Qed.

Lemma sameObjects_trans (s1 s2 s3 : Sys Env) :
  sameObjects s1 s2 -> sameObjects s2 s3 -> sameObjects s1 s3.
Proof.
  intros (A1 & A2 & A3 & A4 & A5 & A6 & A7 & A8) (B1 & B2 & B3 & B4 & B5 & B6 & B7 & B8).
  repeat split; congruence.
Qed.

Lemma sameObjects_env f (s : Sys Env) : sameObjects s (set_env f s).
Proof. repeat split. Qed.

Lemma sameObjects_trace f (s : Sys Env) : sameObjects s (set_trace f s).
Proof. repeat split. Qed.

Lemma wp_random Q (s : Sys Env) :
  Q (Ok (fst (Math_random gw (env s)))) (set_env (fun _ => snd (Math_random gw (env s))) s) ->
  wp (random gw) Q s.
Proof. unfold wp, random. destruct (Math_random gw (env s)). auto. Qed.

Lemma wp_now Q (s : Sys Env) : Q (Ok (Date_now gw (env s))) s -> wp (now gw) Q s.
Proof. auto. Qed.

Lemma sendAndWait_objects signer tx (s : Sys Env) :
  wp (sendAndWait gw signer tx)
     (fun r s' => sameObjects s s' /\ submitsOnce signer tx r (trace s) (trace s') /\
                  exists out, trace s' = EvTx signer tx out :: trace s) s.
Proof.
  unfold wp, sendAndWait.
  destruct (sendTransaction gw signer tx (env s)) as [[h|e] e1]; simpl.
  - destruct (wait gw h e1) as [[rc|e] e2]; simpl.
    + split; [repeat split|]. split; eauto.
    + split; [repeat split|]. split; [|eauto].
      right. eexists. split; [reflexivity|]. right. eexists. reflexivity.
  - split; [repeat split|]. split; [|eauto].
    right. eexists. split; [reflexivity|]. left. reflexivity.
Qed.

Lemma populate_objects contract data value (s : Sys Env) :
  wp (populate gw contract data value)
     (fun r s' => s' = s /\ r <> OutOfFuel /\
                  forall tx, r = Ok tx ->
                    tx = {| tx_to := contract; tx_data := data; tx_value := value |}) s.
Proof.
  unfold populate. wp_steps; simpl; repeat split; try discriminate.
  intros tx [= <-]. reflexivity.
Qed.

Lemma invoke_objects wallet data value (s : Sys Env) :
  wp (NadFunContract.invoke gw config wallet data value)
     (fun r s' =>
        sameObjects s s' /\
        submitsOnce wallet {| tx_to := contracts_nadFun config; tx_data := data;
                              tx_value := value |} r (trace s) (trace s')) s.
Proof.
  unfold NadFunContract.invoke. wp_step. eapply wp_mono; [apply populate_objects|].
  intros [tx|e|] s1 (-> & Hne & Htx); [| |congruence].
  - rewrite (Htx tx eq_refl).
    eapply wp_mono; [apply sendAndWait_objects|].
    intros r s2 (H1 & H2 & _). split; assumption.
  - split; [apply sameObjects_refl|]. left. reflexivity.
Qed.

Lemma buyToken_objects wallet token amount (s : Sys Env) :
  wp (NadFunContract.buyToken gw config wallet token amount)
     (fun r s' =>
        sameObjects s s' /\
        submitsOnce wallet (buyRequest config token amount) r (trace s) (trace s')) s.
Proof.
  unfold NadFunContract.buyToken. apply wp_rethrow.
  wp_step. eapply wp_mono; [apply invoke_objects|].
  intros [[h rc]|e|] s1 [H1 H2]; [wp_steps| |]; split; assumption.
Qed.

Lemma sellToken_objects wallet token amount (s : Sys Env) :
  wp (NadFunContract.sellToken gw config wallet token amount)
     (fun r s' =>
        sameObjects s s' /\
        submitsOnce wallet {| tx_to := contracts_nadFun config;
                              tx_data := SellToken token amount; tx_value := 0 |}
          r (trace s) (trace s')) s.
Proof.
  unfold NadFunContract.sellToken. apply wp_rethrow.
  wp_step. eapply wp_mono; [apply invoke_objects|].
  intros [[h rc]|e|] s1 [H1 H2]; [wp_steps| |]; split; assumption.
Qed.

(** The three reads change the outside world only. *)
Lemma read_objects {A} (call : Env -> answer A * Env) (s : Sys Env) :
  wp (try_catch (await call) (fun error => throw error))
     (fun r s' => r <> OutOfFuel /\
                  exists e', s' = set_env (fun _ => e') s /\
                    match r with
                    | Ok a => call (env s) = (Resolved a, e')
                    | Err msg => call (env s) = (Rejected msg, e')
                    | OutOfFuel => False
                    end) s.
Proof.
  apply wp_rethrow. wp_step; (split; [discriminate|]); eauto.
Qed.

End Objects.

Section Trades.
Context {Env : Type}.
Variable gw : Gateway Env.
Variable config : Config.

Import VolumeBot.

Lemma botAfter_nil vb : botAfter vb [] vb.
Proof. repeat split. rewrite app_nil_r. reflexivity. Qed.

Lemma tradeStep_quiet w kind amount vb (s s' : Sys Env) :
  orch_volumeBot s = Some vb -> sameObjects s s' -> trace s' = trace s ->
  tradeStep config w kind amount vb s s'.
Proof.
  intros Hvb (A1 & A2 & A3 & A4 & A5 & A6 & A7 & A8) Ht.
  split; [assumption|]. split; [assumption|].
  exists [], [], vb. repeat split; [assumption|congruence|..].
  - rewrite app_nil_r. reflexivity.
  - left. split; reflexivity.
Qed.

Lemma tradeStep_failed w kind amount vb tx e (s s' : Sys Env) :
  orch_volumeBot s = Some vb -> sameObjects s s' ->
  (exists out, trace s' = EvTx w tx out :: trace s /\ failedWith e (w, tx, out)) ->
  tx_to tx = contracts_nadFun config ->
  match kind with
  | buy => exists a, tx_data tx = BuyToken (vb_tokenAddress vb) a /\ tx_value tx = a
  | sell => exists a, tx_data tx = SellToken (vb_tokenAddress vb) a /\ tx_value tx = 0
  end ->
  tradeStep config w kind amount vb s s'.
Proof.
  intros Hvb (A1 & A2 & A3 & A4 & A5 & A6 & A7 & A8) (out & Ht & Hfail) Hto Hkind.
  split; [assumption|]. split; [assumption|].
  exists [EvTx w tx out], [], vb. repeat split; [assumption|congruence|..].
  - rewrite app_nil_r. reflexivity.
  - right. exists tx, out. repeat split; try assumption.
    destruct Hfail as [H|[h H]]; simpl in H; rewrite H; reflexivity.
Qed.

Lemma tradeStep_recorded w kind amount vb tx h rc date (s s1 : Sys Env) :
  orch_volumeBot s = Some vb -> sameObjects s s1 ->
  trace s1 = EvTx w tx (Confirmed h rc) :: trace s ->
  tx_to tx = contracts_nadFun config ->
  match kind with
  | buy => exists a, tx_data tx = BuyToken (vb_tokenAddress vb) a /\ tx_value tx = a
  | sell => exists a, tx_data tx = SellToken (vb_tokenAddress vb) a /\ tx_value tx = 0
  end ->
  tradeStep config w kind amount vb s
    (snd (push_order {| order_wallet := w; order_type := kind; amountMon := amount;
                        order_tokenAddress := vb_tokenAddress vb; timestamp := date |} s1)).
Proof.
  intros Hvb (A1 & A2 & A3 & A4 & A5 & A6 & A7 & A8) Ht Hto Hkind.
  split; [assumption|]. split; [assumption|]. simpl. rewrite A7, Hvb. simpl.
  eexists [_], [_], _. split; [exact Ht|]. split; [reflexivity|].
  split; [repeat split|].
  right. exists tx, (Confirmed h rc). repeat split; try assumption. eauto.
Qed.

Lemma executeBuy_spec w amount vb (s : Sys Env) :
  orch_volumeBot s = Some vb ->
  wp (executeBuy gw config (Some w) amount)
     (fun r s' => r <> OutOfFuel /\ tradeStep config w buy amount vb s s') s.
Proof.
  intros Hvb. unfold executeBuy, this. wp_steps; try congruence.
  2:{ split; [discriminate|]. apply tradeStep_quiet; [assumption|apply sameObjects_refl|reflexivity]. }
  match goal with H : Some w = Some ?a |- _ => injection H as <- end.
  match goal with H : orch_volumeBot s = Some ?a |- _ =>
    rewrite Hvb in H; injection H as <- end.
  eapply wp_mono; [apply read_objects|].
  intros [balance|e|] s1 (Hne & e1 & -> & Hread); [| |congruence].
  2:{ split; [discriminate|].
      apply tradeStep_quiet; [assumption|repeat split|reflexivity]. }
  wp_step.
  { wp_step. split; [discriminate|].
    apply tradeStep_quiet; [assumption|repeat split|reflexivity]. }
  wp_step. eapply wp_mono; [apply buyToken_objects|].
  intros [v|e|] s2 [Hobj Hsub]; simpl in Hsub; [| |contradiction].
  - destruct Hsub as (h & rc & Ht).
    wp_step. apply wp_now. unfold push_order at 1. wp_step.
    split; [discriminate|].
    eapply (tradeStep_recorded w buy amount vb _ h rc); [assumption| |exact Ht|reflexivity|].
    + eapply sameObjects_trans; [apply sameObjects_env|exact Hobj].
    + eexists. split; reflexivity.
  - split; [discriminate|].
    destruct Hsub as [Ht|Hfail].
    + apply tradeStep_quiet; [assumption| |assumption].
      eapply sameObjects_trans; [apply sameObjects_env|exact Hobj].
    + eapply tradeStep_failed; [assumption| |exact Hfail|reflexivity|].
      * eapply sameObjects_trans; [apply sameObjects_env|exact Hobj].
      * eexists. split; reflexivity.
Qed.

Lemma executeSell_spec w amount vb (s : Sys Env) :
  orch_volumeBot s = Some vb ->
  wp (executeSell gw config (Some w) amount)
     (fun r s' => r <> OutOfFuel /\ tradeStep config w sell amount vb s s') s.
Proof.
  intros Hvb. unfold executeSell, this. wp_steps; try congruence.
  match goal with H : Some w = Some ?a |- _ => injection H as <- end.
  match goal with H : orch_volumeBot s = Some ?a |- _ =>
    rewrite Hvb in H; injection H as <- end.
  eapply wp_mono; [apply read_objects|].
  intros [tokenBalance|e|] s1 (Hne & e1 & -> & Hread); [| |congruence].
  2:{ split; [discriminate|].
      apply tradeStep_quiet; [assumption|repeat split|reflexivity]. }
  wp_step.
  { wp_step. split; [discriminate|].
    apply tradeStep_quiet; [assumption|repeat split|reflexivity]. }
  wp_step. eapply wp_mono; [apply read_objects|].
  intros [tokenPrice|e|] s2 (Hne2 & e2 & -> & Hread2); [| |congruence].
  2:{ split; [discriminate|].
      apply tradeStep_quiet; [assumption|repeat split|reflexivity]. }
  wp_step. wp_step.
  2:{ split; [discriminate|].
      apply tradeStep_quiet; [assumption|repeat split|reflexivity]. }
  wp_step. wp_step.
  { wp_step. split; [discriminate|].
    apply tradeStep_quiet; [assumption|repeat split|reflexivity]. }
  wp_step. wp_step.
  set (sold := if tokenBalance <? _ then _ else _).
  apply (wp_mono _ (fun r s' =>
           sameObjects s s' /\
           exists a, submitsOnce w {| tx_to := contracts_nadFun config;
                                      tx_data := SellToken (vb_tokenAddress vb) a;
                                      tx_value := 0 |} r (trace s) (trace s'))).
  { unfold sold. destruct (tokenBalance <? _);
      (eapply wp_mono; [apply sellToken_objects|]);
      intros r s3 [Hobj Hsub]; (split; [|eauto]);
      (eapply sameObjects_trans; [|exact Hobj]); repeat split. }
  intros [v|e|] s3 [Hobj (a & Hsub)]; simpl in Hsub; [| |contradiction].
  - destruct Hsub as (h & rc & Ht).
    wp_step. apply wp_now. unfold push_order at 1. wp_step.
    split; [discriminate|].
    eapply (tradeStep_recorded w sell amount vb _ h rc);
      [assumption|exact Hobj|exact Ht|reflexivity|].
    eexists. split; reflexivity.
  - split; [discriminate|].
    destruct Hsub as [Ht|Hfail].
    + apply tradeStep_quiet; assumption.
    + eapply tradeStep_failed; [assumption|exact Hobj|exact Hfail|reflexivity|].
      eexists. split; reflexivity.
Qed.

(** A wallet picked from the list is a wallet of the list. *)
Lemma getRandomWallet_spec wallets (s : Sys Env) :
  wp (WalletManager.getRandomWallet gw wallets)
     (fun r s' => sameObjects s s' /\ trace s' = trace s /\
                  exists o, r = Ok o /\ forall w, o = Some w -> w ∈ wallets) s.
Proof.
  unfold WalletManager.getRandomWallet. wp_step. apply wp_random. wp_step.
  split; [apply sameObjects_env|]. split; [reflexivity|].
  eexists. split; [reflexivity|].
  intros w Hw. destruct (_ <? 0); [discriminate|].
  apply list_elem_of_lookup. eauto.
Qed.

(** What one firing of the timer trades: one trade at most, by a wallet of
    the list; it never throws. *)
Lemma executeRandomTrade_spec wallets vb (s : Sys Env) :
  orch_volumeBot s = Some vb ->
  wp (executeRandomTrade gw config wallets)
     (fun r s' =>
        r = Ok tt /\
        ((sameObjects s s' /\ trace s' = trace s) \/
         exists w kind amount, w ∈ wallets /\ tradeStep config w kind amount vb s s')) s.
Proof.
  intros Hvb. unfold executeRandomTrade.
  wp_step. eapply wp_mono; [apply getRandomWallet_spec|].
  intros r s1 (Hobj1 & Ht1 & o & -> & Ho).
  wp_step. apply wp_random. wp_step.
  unfold getRandomTradeAmount. wp_step. apply wp_random. wp_step.
  set (s2 := set_env _ (set_env _ s1)).
  set (amount := (_ * _ + _)%Q).
  assert (Hobj2 : sameObjects s s2).
  { eapply sameObjects_trans; [exact Hobj1|].
    eapply sameObjects_trans; apply sameObjects_env. }
  assert (Hvb2 : orch_volumeBot s2 = Some vb).
  { destruct Hobj2 as (_ & _ & _ & _ & _ & _ & H & _). congruence. }
  assert (Ht2 : trace s2 = trace s) by exact Ht1.
  wp_step.
  destruct o as [w|].
  - specialize (Ho w eq_refl).
    assert (Hstep : forall kind (s3 : Sys Env),
              tradeStep config w kind amount vb s2 s3 -> tradeStep config w kind amount vb s s3).
    { intros kind s3 (B1 & B2 & new & rec & vb' & B3 & B4 & B5 & B6).
      destruct Hobj2 as (A1 & _ & _ & A4 & _).
      split; [congruence|]. split; [congruence|].
      exists new, rec, vb'. split; [congruence|]. auto. }
    destruct (Qle_bool _ _).
    + eapply wp_mono; [apply executeSell_spec; exact Hvb2|].
      intros [[]|e|] s3 [Hne Hs3]; [| |congruence].
      * split; [reflexivity|]. right. exists w, sell, amount. auto.
      * wp_step. split; [reflexivity|]. right. exists w, sell, amount. auto.
    + eapply wp_mono; [apply executeBuy_spec; exact Hvb2|].
      intros [[]|e|] s3 [Hne Hs3]; [| |congruence].
      * split; [reflexivity|]. right. exists w, buy, amount. auto.
      * wp_step. split; [reflexivity|]. right. exists w, buy, amount. auto.
  - destruct (Qle_bool _ _); unfold executeSell, executeBuy;
      wp_steps; try discriminate; split; auto.
Qed.

End Trades.

(** The bot read a second time is the bot read the first time. *)
Ltac same_bot Hvb :=
  repeat match goal with
         | H : orch_volumeBot ?x = Some ?a |- _ =>
             tryif constr_eq H Hvb then fail else (rewrite Hvb in H; injection H as <-)
         end.

Section SchedulerHealth.
Context {Env : Type}.
Variable gw : Gateway Env.
Variable config : Config.
Variable V : list Wallet.
Variable token : string.

Import VolumeBot.

Lemma traded_refl (s : Sys Env) : traded config V token s s.
Proof.
  split; [reflexivity|]. split; [reflexivity|].
  exists [], []. rewrite app_nil_r. repeat split; constructor.
Qed.

Lemma traded_trans (s1 s2 s3 : Sys Env) :
  traded config V token s1 s2 -> traded config V token s2 s3 -> traded config V token s1 s3.
Proof.
  intros (A1 & A2 & new1 & rec1 & A3 & A4 & A5 & A6 & A7)
         (B1 & B2 & new2 & rec2 & B3 & B4 & B5 & B6 & B7).
  split; [congruence|]. split; [congruence|].
  exists (new2 ++ new1), (rec1 ++ rec2).
  split; [rewrite B3, A3, app_assoc; reflexivity|].
  split; [rewrite B4, A4, app_assoc; reflexivity|].
  rewrite submissions_app. split; [apply Forall_app; split; assumption|].
  split; [rewrite map_app, omap_app; congruence|].
  apply Forall_app. split; assumption.
Qed.

(** Events that are no transactions, and no order. *)
Lemma traded_quietly new (s s' : Sys Env) :
  arrays s' = arrays s -> wm_volumeWallets s' = wm_volumeWallets s ->
  tradeHistoryOf s' = tradeHistoryOf s ->
  trace s' = new ++ trace s -> submissions new = [] ->
  traded config V token s s'.
Proof.
  intros H1 H2 H3 H4 H5. split; [assumption|]. split; [assumption|].
  exists new, []. rewrite app_nil_r, H5. repeat split; try assumption; constructor.
Qed.

Lemma oneTrade_facts w kind amount new rec :
  w ∈ V -> oneTrade config token w kind amount new rec ->
  Forall (botSubmission config V token) (submissions new) /\
  map orderKey rec = omap confirmedTrade (submissions new) /\
  Forall (fun order => order_tokenAddress order = token) rec.
Proof.
  intros Hw [[-> ->]|(tx & out & -> & Hto & Hkind & Hout)].
  - repeat split; constructor.
  - change (submissions [EvTx w tx out]) with [(w, tx, out)].
    split; [|split].
    + constructor; [|constructor].
      split; [assumption|]. split; [assumption|].
      destruct kind; [left|right]; assumption.
    + unfold confirmedTrade, tradeKind. simpl.
      destruct out; try (rewrite Hout; reflexivity).
      destruct Hout as [date ->].
      destruct kind; destruct Hkind as (a & -> & _); reflexivity.
    + destruct out; try (rewrite Hout; constructor).
      destruct Hout as [date ->]. repeat constructor.
Qed.

Lemma tradeStep_traded w kind amount vb (s s' : Sys Env) :
  orch_volumeBot s = Some vb -> vb_tokenAddress vb = token -> w ∈ V ->
  tradeStep config w kind amount vb s s' ->
  traded config V token s s' /\
  exists rec vb', orch_volumeBot s' = Some vb' /\ botAfter vb rec vb'.
Proof.
  intros Hvb Htoken Hw (A1 & A2 & new & rec & vb' & A3 & A4 & A5 & A6).
  rewrite Htoken in A6.
  destruct (oneTrade_facts _ _ _ _ _ Hw A6) as (F1 & F2 & F3).
  split; [|eauto].
  split; [assumption|]. split; [assumption|].
  exists new, rec. repeat split; try assumption.
  unfold tradeHistoryOf. rewrite Hvb, A4. apply A5.
Qed.

(** [scheduleNextTrade] on a running bot with no timer pending: it draws a
    delay and arms the timer. *)
Lemma scheduleNextTrade_arms vb (s : Sys Env) :
  orch_volumeBot s = Some vb -> vb_isRunning vb = true ->
  exists delay,
    scheduleNextTrade gw config V s
    = (Ok tt,
       set_orch_volumeBot (fun _ => Some {| vb_tokenAddress := vb_tokenAddress vb;
                                            vb_isRunning := true;
                                            vb_tradeInterval :=
                                              Some {| timer_delay := delay; timer_wallets := V |};
                                            vb_tradeHistory := vb_tradeHistory vb |})
         (set_trace (cons (EvSetTimeout delay))
            (set_env (fun _ => snd (Math_random gw (env s))) s))).
Proof.
  intros Hvb Hrun.
  exists (Qfloor (fst (Math_random gw (env s))
                  * inject_Z (volume_maxTradeIntervalMs config
                              - volume_minTradeIntervalMs config + 1))
          + volume_minTradeIntervalMs config).
  unfold scheduleNextTrade, this, bind, get, defined, getRandomInterval, bind, random, ret,
    emit, set_tradeInterval, modify.
  rewrite Hvb. cbn -[Qfloor Qmult inject_Z]. rewrite Hrun. cbn -[Qfloor Qmult inject_Z].
  destruct (Math_random gw (env s)) as [r e']. cbn -[Qfloor Qmult inject_Z].
  unfold set_orch_volumeBot. cbn -[Qfloor Qmult inject_Z].
  rewrite Hvb. cbn -[Qfloor Qmult inject_Z]. rewrite Hrun. reflexivity.
Qed.

Lemma start_keeps_the_bot_healthy (s : Sys Env) :
  botHealthy V token s ->
  botHealthy V token (snd (start gw config s)) /\
  traded config V token s (snd (start gw config s)).
Proof.
  intros (HV & vb & Hvb & Htoken & Htimer).
  change (wp (start gw config)
            (fun _ s' => botHealthy V token s' /\ traded config V token s s') s).
  unfold start, this, WalletManager.getVolumeWallets. wp_steps; try congruence.
  all: same_bot Hvb.
  - split; [|apply traded_refl]. split; [assumption|]. eauto.
  - split; [|apply traded_refl]. split; [assumption|]. eauto.
  - unfold set_isRunning at 1. wp_step.
    set (vb1 := {| vb_tokenAddress := vb_tokenAddress vb; vb_isRunning := true;
                   vb_tradeInterval := vb_tradeInterval vb;
                   vb_tradeHistory := vb_tradeHistory vb |}).
    set (s1 := set_orch_volumeBot _ s).
    assert (Hvb1 : orch_volumeBot s1 = Some vb1)
      by (unfold s1; simpl; rewrite Hvb; reflexivity).
    fold (volumeWalletsOf s). rewrite HV.
    destruct (scheduleNextTrade_arms vb1 s1 Hvb1 eq_refl) as [delay Harm].
    unfold wp. rewrite Harm. simpl. split.
    + split; [exact HV|]. eexists. split; [reflexivity|]. simpl. auto.
    + apply (traded_quietly [EvSetTimeout delay]); try reflexivity.
      unfold tradeHistoryOf. simpl. rewrite Hvb. reflexivity.
Qed.

Lemma stop_keeps_the_bot_healthy (s : Sys Env) :
  botHealthy V token s ->
  botHealthy V token (snd (stop s)) /\ traded config V token s (snd (stop s)).
Proof.
  intros (HV & vb & Hvb & Htoken & Htimer).
  change (wp stop (fun _ s' => botHealthy V token s' /\ traded config V token s s') s).
  unfold stop, this, set_isRunning, set_tradeInterval. wp_steps; try congruence.
  all: same_bot Hvb.
  - split.
    + split; [exact HV|]. simpl. rewrite Hvb. simpl.
      eexists. split; [reflexivity|]. simpl. auto.
    + apply (traded_quietly [EvClearTimeout]); try reflexivity.
      unfold tradeHistoryOf. simpl. rewrite Hvb. reflexivity.
  - split.
    + split; [exact HV|]. simpl. rewrite Hvb. simpl.
      eexists. split; [reflexivity|]. simpl.
      match goal with H : vb_tradeInterval vb = None |- _ => rewrite H end. auto.
    + apply (traded_quietly []); try reflexivity.
      unfold tradeHistoryOf. simpl. rewrite Hvb. reflexivity.
Qed.

Lemma timerFired_keeps_the_bot_healthy (s : Sys Env) :
  botHealthy V token s ->
  botHealthy V token (snd (timerFired gw config s)) /\
  traded config V token s (snd (timerFired gw config s)).
Proof.
  intros (HV & vb & Hvb & Htoken & Htimer).
  change (wp (timerFired gw config)
            (fun _ s' => botHealthy V token s' /\ traded config V token s s') s).
  unfold timerFired, this. wp_steps; try congruence.
  all: same_bot Hvb.
  2:{ split; [|apply traded_refl]. split; [assumption|]. eauto. }
  match goal with H : vb_tradeInterval vb = Some ?t |- _ =>
    rename H into Hint; rename t into timer end.
  rewrite Hint in Htimer. destruct Htimer as [Hrun HVt]. rewrite HVt.
  unfold set_tradeInterval at 1. wp_step. wp_step. wp_step.
  set (vb0 := {| vb_tokenAddress := vb_tokenAddress vb; vb_isRunning := vb_isRunning vb;
                 vb_tradeInterval := None; vb_tradeHistory := vb_tradeHistory vb |}).
  set (s0 := set_env _ (set_orch_volumeBot _ s)).
  assert (Hvb0 : orch_volumeBot s0 = Some vb0) by (unfold s0; simpl; rewrite Hvb; reflexivity).
  assert (H0 : traded config V token s s0).
  { apply (traded_quietly []); try reflexivity.
    unfold tradeHistoryOf. simpl. rewrite Hvb. reflexivity. }
  wp_step. wp_step.
  eapply wp_mono; [apply (executeRandomTrade_spec gw config V vb0 s0 Hvb0)|].
  intros r s1 [-> Hcases].
  assert (Hdone : exists rec vb1,
            traded config V token s0 s1 /\
            orch_volumeBot s1 = Some vb1 /\ botAfter vb0 rec vb1).
  { destruct Hcases as [[Hobj Ht]|(w & kind & amount & Hw & Hstep)].
    - exists [], vb0.
      destruct Hobj as (A1 & _ & _ & A4 & _ & _ & A7 & _).
      split; [|split; [congruence|apply botAfter_nil]].
      apply (traded_quietly []); [assumption|assumption| |exact Ht|reflexivity].
      unfold tradeHistoryOf. rewrite A7. reflexivity.
    - destruct (tradeStep_traded w kind amount vb0 s0 s1 Hvb0 Htoken Hw Hstep)
        as (Htr & rec & vb1 & Hvb1 & Hafter).
      exists rec, vb1. auto. }
  destruct Hdone as (rec & vb1 & Htr1 & Hvb1 & Ht1 & Hr1 & Hi1 & Hh1).
  destruct (scheduleNextTrade_arms vb1 s1 Hvb1) as [delay Harm];
    [simpl in Hr1; congruence|].
  unfold wp. rewrite Harm. simpl. split.
  - split.
    + destruct Htr1 as (A1 & A2 & _). destruct H0 as (B1 & B2 & _).
      unfold volumeWalletsOf in *. simpl. rewrite A1, A2, B1, B2. exact HV.
    + eexists. split; [reflexivity|]. simpl. split; [rewrite Ht1; exact Htoken|]. auto.
  - eapply traded_trans; [exact H0|]. eapply traded_trans; [exact Htr1|].
    apply (traded_quietly [EvSetTimeout delay]); try reflexivity.
    unfold tradeHistoryOf. simpl. rewrite Hvb1. reflexivity.
Qed.

Lemma run_keeps_the_bot_healthy (s s' : Sys Env) :
  schedulerRun gw config s s' ->
  botHealthy V token s ->
  botHealthy V token s' /\ traded config V token s s'.
Proof.
  induction 1 as [|s1 s2 s3 _ IH Hstep]; intros Hs; [split; [assumption|apply traded_refl]|].
  destruct (IH Hs) as [H2 Ht2].
  assert (H3 : botHealthy V token s3 /\ traded config V token s2 s3).
  { destruct Hstep.
    - apply start_keeps_the_bot_healthy; assumption.
    - apply timerFired_keeps_the_bot_healthy; assumption.
    - apply stop_keeps_the_bot_healthy; assumption. }
  destruct H3 as [H3 Ht3]. split; [assumption|].
  eapply traded_trans; eassumption.
Qed.

End SchedulerHealth.

Section SchedulerTheorems.
Context {Env : Type}.
Variable gw : Gateway Env.
Variable config : Config.

Lemma new_bot_is_healthy token (s : Sys Env) :
  orch_volumeBot s = Some (VolumeBot.constructor token) ->
  botHealthy (volumeWalletsOf s) token s.
Proof. intros H. split; [reflexivity|]. eexists. split; [exact H|]. simpl. auto. Qed.

(** In every run of start, timer and stop steps that begins with a new
    VolumeBot, the bot is running exactly when one of its timers is pending:
    it is never left running without a timer, whatever fails in a trade, and
    it never has a timer pending while it is not running. A pending timer
    holds the volume wallets of the wallet manager, which the bot never
    changes. (A step runs to its end before the next one starts.) *)
Theorem a_running_bot_has_a_timer_pending (token : string) (s s' : Sys Env) :
  orch_volumeBot s = Some (VolumeBot.constructor token) ->
  schedulerRun gw config s s' ->
  exists vb,
    orch_volumeBot s' = Some vb /\ vb_tokenAddress vb = token /\
    (vb_isRunning vb = true <-> is_Some (vb_tradeInterval vb)) /\
    volumeWalletsOf s' = volumeWalletsOf s /\
    forall timer, vb_tradeInterval vb = Some timer -> timer_wallets timer = volumeWalletsOf s.
Proof.
  intros Hbot Hrun.
  destruct (run_keeps_the_bot_healthy gw config _ token s s' Hrun (new_bot_is_healthy _ _ Hbot))
    as [(HV & vb & Hvb & Htoken & Htimer) _].
  exists vb. repeat split; try assumption.
  - intros Hr. destruct (vb_tradeInterval vb); [eauto|congruence].
  - intros [timer Ht]. rewrite Ht in Htimer. apply Htimer.
  - intros timer Ht. rewrite Ht in Htimer. apply Htimer.
Qed.

(** In every run of start, timer and stop steps that begins with a new
    VolumeBot for a token, every transaction the bot submits is signed by
    one of the volume wallets the wallet manager held at the beginning and
    is a call of the nad.fun contract: buyToken on that token, paying the
    amount it buys for, or sellToken on that token, paying nothing. *)
Theorem the_bot_trades_from_the_volume_wallets_only (token : string) (s s' : Sys Env) :
  orch_volumeBot s = Some (VolumeBot.constructor token) ->
  schedulerRun gw config s s' ->
  exists new,
    trace s' = new ++ trace s /\
    Forall (botSubmission config (volumeWalletsOf s) token) (submissions new).
Proof.
  intros Hbot Hrun.
  destruct (run_keeps_the_bot_healthy gw config _ token s s' Hrun (new_bot_is_healthy _ _ Hbot))
    as [_ (_ & _ & new & rec & Ht & _ & Hall & _)].
  exists new. auto.
Qed.

(** In every run of start, timer and stop steps that begins with a new
    VolumeBot for a token, the trade history lists exactly the trades that
    were confirmed, in the order in which they were made: an order is
    recorded for a submitted transaction exactly when it was confirmed, with
    the wallet that signed it and the kind of the call (buy or sell); a
    trade that was skipped, rejected or not confirmed leaves no order. Every
    order names the token. *)
Theorem the_history_lists_the_confirmed_trades (token : string) (s s' : Sys Env) :
  orch_volumeBot s = Some (VolumeBot.constructor token) ->
  schedulerRun gw config s s' ->
  exists new,
    trace s' = new ++ trace s /\
    map orderKey (tradeHistoryOf s') = omap confirmedTrade (submissions new) /\
    Forall (fun order => order_tokenAddress order = token) (tradeHistoryOf s').
Proof.
  intros Hbot Hrun.
  destruct (run_keeps_the_bot_healthy gw config _ token s s' Hrun (new_bot_is_healthy _ _ Hbot))
    as [_ (_ & _ & new & rec & Ht & Hh & _ & Hmap & Htok)].
  assert (H0 : tradeHistoryOf s = []) by (unfold tradeHistoryOf; rewrite Hbot; reflexivity).
  rewrite H0 in Hh. simpl in Hh. exists new. rewrite Hh. auto.
Qed.

End SchedulerTheorems.

(** The three steps of the trading scenario. *)
Lemma trade_scenario_run :
  schedulerRun Script.gateway TradeScenario.config TradeScenario.start TradeScenario.finish.
Proof.
  unfold TradeScenario.finish.
  eapply run_step; [eapply run_step; [eapply run_step; [apply run_nil|]|]|].
  - apply step_start.
  - apply step_timer.
  - apply step_timer.
Qed.

(** On the trading scenario: the bot is started and its timer fires twice. *)
Lemma a_running_bot_has_a_timer_pending_witness :
  orch_volumeBot TradeScenario.start = Some (VolumeBot.constructor "0xTOKEN") /\
  exists vb,
    orch_volumeBot TradeScenario.finish = Some vb /\ vb_tokenAddress vb = "0xTOKEN" /\
    (vb_isRunning vb = true <-> is_Some (vb_tradeInterval vb)) /\
    volumeWalletsOf TradeScenario.finish = volumeWalletsOf TradeScenario.start /\
    forall timer, vb_tradeInterval vb = Some timer ->
                  timer_wallets timer = volumeWalletsOf TradeScenario.start.
Proof.
  split; [reflexivity|].
  apply (a_running_bot_has_a_timer_pending Script.gateway TradeScenario.config "0xTOKEN"
           TradeScenario.start TradeScenario.finish eq_refl trade_scenario_run).
Defined.

(** On the trading scenario: the bot is started and its timer fires twice. *)
Lemma the_bot_trades_from_the_volume_wallets_only_witness :
  orch_volumeBot TradeScenario.start = Some (VolumeBot.constructor "0xTOKEN") /\
  exists new,
    trace TradeScenario.finish = new ++ trace TradeScenario.start /\
    Forall (botSubmission TradeScenario.config (volumeWalletsOf TradeScenario.start) "0xTOKEN")
           (submissions new).
Proof.
  split; [reflexivity|].
  apply (the_bot_trades_from_the_volume_wallets_only Script.gateway TradeScenario.config
           "0xTOKEN" TradeScenario.start TradeScenario.finish eq_refl trade_scenario_run).
Defined.

(** On the trading scenario: the bot is started and its timer fires twice. *)
Lemma the_history_lists_the_confirmed_trades_witness :
  orch_volumeBot TradeScenario.start = Some (VolumeBot.constructor "0xTOKEN") /\
  exists new,
    trace TradeScenario.finish = new ++ trace TradeScenario.start /\
    map orderKey (tradeHistoryOf TradeScenario.finish)
      = omap confirmedTrade (submissions new) /\
    Forall (fun order => order_tokenAddress order = "0xTOKEN")
           (tradeHistoryOf TradeScenario.finish).
Proof.
  split; [reflexivity|].
  apply (the_history_lists_the_confirmed_trades Script.gateway TradeScenario.config
           "0xTOKEN" TradeScenario.start TradeScenario.finish eq_refl trade_scenario_run).
Defined.

Section TradeLimits.
Context {Env : Type}.
Variable gw : Gateway Env.
Variable config : Config.

Import VolumeBot.

(** executeBuy submits one transaction at most, a buyToken call on the bot's
    token signed by the wallet, for the parsed amount, and never for more
    than the MON balance it read: when the balance is below the amount the
    buy is skipped without an error, nothing is submitted and no order is
    recorded. *)
Theorem a_buy_never_exceeds_the_balance
    (w : Wallet) (amount : Q) (vb : VolumeBot) (balance : Z) (e1 : Env) (s : Sys Env) :
  orch_volumeBot s = Some vb ->
  getBalance gw (address w) (env s) = (Resolved balance, e1) ->
  let run := executeBuy gw config (Some w) amount s in
  (forall wei, parseEther_of_number gw amount = Resolved wei -> balance < wei ->
     run = (Ok tt, set_env (fun _ => e1) s)) /\
  exists new,
    trace (snd run) = new ++ trace s /\
    (length (submissions new) <= 1)%nat /\
    Forall (fun sub =>
              sub.1.1 = w /\
              exists wei, parseEther_of_number gw amount = Resolved wei /\
                          sub.1.2 = buyRequest config (vb_tokenAddress vb) wei /\
                          wei <= balance)
           (submissions new).
Proof.
  intros Hvb Hbal. cbv zeta. split.
  - intros wei Hwei Hlt.
    unfold executeBuy, this, bind, get, defined, settled, NadFunContract.getMonBalance,
      try_catch, await, ret.
    rewrite Hvb, Hwei. simpl. rewrite Hbal. simpl.
    destruct (Z.ltb_spec balance wei); [reflexivity|lia].
  - change (wp (executeBuy gw config (Some w) amount)
              (fun r s' =>
                 exists new,
                   trace s' = new ++ trace s /\
                   (length (submissions new) <= 1)%nat /\
                   Forall (fun sub =>
                             sub.1.1 = w /\
                             exists wei, parseEther_of_number gw amount = Resolved wei /\
                                         sub.1.2 = buyRequest config (vb_tokenAddress vb) wei /\
                                         wei <= balance)
                          (submissions new)) s).
    unfold executeBuy, this. wp_steps; try congruence;
      try (exists []; repeat split; [simpl; lia|constructor]).
    match goal with H : Some w = Some ?a |- _ => injection H as <- end.
    same_bot Hvb.
    eapply wp_mono; [apply read_objects|].
    intros [b|e|] s1 (Hne & e1' & -> & Hread); [| |congruence];
      [|exists []; repeat split; [simpl; lia|constructor]].
    rewrite Hbal in Hread. injection Hread as <- <-.
    wp_step.
    { wp_step. exists []. repeat split; [simpl; lia|constructor]. }
    match goal with H : (balance <? ?x) = false |- _ =>
      apply Z.ltb_ge in H; rename H into Hle end.
    wp_step. eapply wp_mono; [apply buyToken_objects|].
    intros r s2 [Hobj Hsub].
    assert (Hone : exists new, trace s2 = new ++ trace s /\
              (new = [] \/ exists out, new = [EvTx w (buyRequest config (vb_tokenAddress vb) x) out])).
    { destruct r as [v|e|]; simpl in Hsub; [| |contradiction].
      - destruct Hsub as (h & rc & Ht). eexists [_]. split; [exact Ht|]. right. eauto.
      - destruct Hsub as [Ht|(out & Ht & _)].
        + exists []. split; [exact Ht|]. left. reflexivity.
        + eexists [_]. split; [exact Ht|]. right. eauto. }
    destruct Hone as (new & Ht & Hnew).
    assert (Hgoal : (length (submissions new) <= 1)%nat /\
              Forall (fun sub =>
                        sub.1.1 = w /\
                        exists wei, parseEther_of_number gw amount = Resolved wei /\
                                    sub.1.2 = buyRequest config (vb_tokenAddress vb) wei /\
                                    wei <= balance)
                     (submissions new)).
    { destruct Hnew as [->|[out ->]].
      - split; [simpl; lia|constructor].
      - split; [simpl; lia|]. constructor; [|constructor].
        split; [reflexivity|]. exists x. auto. }
    destruct r as [v|e|]; [|exists new; split; assumption..].
    wp_step. apply wp_now. unfold push_order. wp_step.
    exists new. split; assumption.
Qed.


End TradeLimits.

(** On the trading scenario, where every wallet holds 1000 MON: a buy for
    2000 MON is skipped. *)
Lemma a_buy_never_exceeds_the_balance_witness :
  VolumeBot.executeBuy Script.gateway TradeScenario.config
    (Some (RecoveryScenario.wallet 0)) (2000 # 1) TradeScenario.start
  = (Ok tt, set_env (fun _ => env TradeScenario.start) TradeScenario.start).
Proof.
  assert (Hvb : orch_volumeBot TradeScenario.start = Some (VolumeBot.constructor "0xTOKEN"))
    by reflexivity.
  assert (Hbal : getBalance Script.gateway (address (RecoveryScenario.wallet 0))
                   (env TradeScenario.start)
                 = (Resolved (1000 * 10 ^ 18), env TradeScenario.start))
    by reflexivity.
  assert (Hwei : parseEther_of_number Script.gateway (2000 # 1) = Resolved (2000 * 10 ^ 18))
    by (vm_compute; reflexivity).
  assert (Hlt : 1000 * 10 ^ 18 < 2000 * 10 ^ 18) by lia.
  exact (proj1 (a_buy_never_exceeds_the_balance Script.gateway TradeScenario.config
                  (RecoveryScenario.wallet 0) (2000 # 1) (VolumeBot.constructor "0xTOKEN")
                  (1000 * 10 ^ 18) (env TradeScenario.start) TradeScenario.start Hvb Hbal)
               (2000 * 10 ^ 18) Hwei Hlt).
Defined.


Section StartAndStop.
Context {Env : Type}.
Variable gw : Gateway Env.
Variable config : Config.

Import VolumeBot.

(** VolumeBot.start on a running bot does nothing: no second timer is set.
    On a bot that is not running it throws 'No volume wallets available'
    when the wallet manager holds no volume wallet, leaving the bot as it
    was; otherwise it returns with the bot running and exactly one timer
    set, which holds the volume wallets, and a second start then changes
    nothing. *)
Theorem a_second_start_changes_nothing (vb : VolumeBot) (s : Sys Env) :
  orch_volumeBot s = Some vb ->
  let run := start gw config s in
  (vb_isRunning vb = true -> run = (Ok tt, s)) /\
  (vb_isRunning vb = false -> volumeWalletsOf s = [] ->
   run = (Err "No volume wallets available", s)) /\
  (vb_isRunning vb = false -> volumeWalletsOf s <> [] ->
   fst run = Ok tt /\
   (exists delay,
      trace (snd run) = EvSetTimeout delay :: trace s /\
      orch_volumeBot (snd run)
        = Some {| vb_tokenAddress := vb_tokenAddress vb; vb_isRunning := true;
                  vb_tradeInterval := Some {| timer_delay := delay;
                                              timer_wallets := volumeWalletsOf s |};
                  vb_tradeHistory := vb_tradeHistory vb |}) /\
   start gw config (snd run) = (Ok tt, snd run)).
Proof.
  intros Hvb. cbv zeta.
  assert (Hrunning : forall vb' (s' : Sys Env),
            orch_volumeBot s' = Some vb' -> vb_isRunning vb' = true ->
            start gw config s' = (Ok tt, s')).
  { intros vb' s' Hvb' Hrun. unfold start, this, bind, get, defined.
    rewrite Hvb'. simpl. rewrite Hrun. reflexivity. }
  split; [apply Hrunning; assumption|].
  split.
  - intros Hrun Hno. unfold start, this, WalletManager.getVolumeWallets, bind, get, defined,
      readArray.
    rewrite Hvb. simpl. rewrite Hrun. simpl.
    fold (volumeWalletsOf s). rewrite Hno. reflexivity.
  - intros Hrun Hsome.
    set (vb1 := {| vb_tokenAddress := vb_tokenAddress vb; vb_isRunning := true;
                   vb_tradeInterval := vb_tradeInterval vb;
                   vb_tradeHistory := vb_tradeHistory vb |}).
    set (s1 := set_orch_volumeBot (fun _ => Some vb1) s).
    destruct (scheduleNextTrade_arms gw config (volumeWalletsOf s) vb1 s1 eq_refl eq_refl)
      as [delay Harm].
    assert (Hstart : start gw config s = scheduleNextTrade gw config (volumeWalletsOf s) s1).
    { unfold start, this, WalletManager.getVolumeWallets, set_isRunning,
        bind, get, defined, readArray, modify, ret.
      rewrite Hvb. cbn -[scheduleNextTrade]. rewrite Hrun. cbn -[scheduleNextTrade].
      fold (volumeWalletsOf s).
      destruct (volumeWalletsOf s) as [|v V] eqn:HV; [contradiction|].
      cbn -[scheduleNextTrade].
      replace (set_orch_volumeBot _ s) with s1; [reflexivity|].
      unfold s1, set_orch_volumeBot. rewrite Hvb. reflexivity. }
    rewrite Hstart, Harm. simpl.
    split; [reflexivity|]. split; [eauto|].
    eapply Hrunning; reflexivity.
Qed.

Lemma stop_result vb (s : Sys Env) :
  orch_volumeBot s = Some vb ->
  stop s
  = (Ok tt,
     set_orch_volumeBot
       (fun _ => Some {| vb_tokenAddress := vb_tokenAddress vb; vb_isRunning := false;
                         vb_tradeInterval := None; vb_tradeHistory := vb_tradeHistory vb |})
       (set_trace (fun t => match vb_tradeInterval vb with
                            | Some _ => EvClearTimeout :: t
                            | None => t
                            end) s)).
Proof.
  intros Hvb.
  unfold stop, this, bind, get, defined, set_isRunning, set_tradeInterval, emit, modify, ret.
  rewrite Hvb. simpl.
  destruct (vb_tradeInterval vb) eqn:Hint; simpl;
    unfold set_orch_volumeBot, set_trace; simpl; rewrite Hvb; simpl; [reflexivity|].
  rewrite Hint. reflexivity.
Qed.

(** BotOrchestrator.stop never throws and submits no transaction. Without a
    volume bot it changes nothing. With one, of the program's objects it
    changes only the bot, which is left not running and with no timer
    pending, its token and its history as they were; a timer step made
    afterwards does nothing, and neither does a second stop. *)
Theorem stop_ends_the_trading (s : Sys Env) :
  let stopped := snd (BotOrchestrator.stop s) in
  fst (BotOrchestrator.stop s) = Ok tt /\
  submissions (trace stopped) = submissions (trace s) /\
  sameObjects (set_orch_volumeBot (fun _ => orch_volumeBot stopped) s) stopped /\
  (orch_volumeBot s = None -> stopped = s) /\
  (forall vb, orch_volumeBot s = Some vb ->
     orch_volumeBot stopped
       = Some {| vb_tokenAddress := vb_tokenAddress vb; vb_isRunning := false;
                 vb_tradeInterval := None; vb_tradeHistory := vb_tradeHistory vb |} /\
     timerFired gw config stopped = (Ok tt, stopped) /\
     BotOrchestrator.stop stopped = (Ok tt, stopped)).
Proof.
  cbv zeta.
  assert (Hstop : forall s0 : Sys Env,
            BotOrchestrator.stop s0
            = match orch_volumeBot s0 with Some _ => stop s0 | None => (Ok tt, s0) end).
  { intros s0. unfold BotOrchestrator.stop, BotOrchestrator.stopVolumeBot, bind, get.
    destruct (orch_volumeBot s0); reflexivity. }
  rewrite (Hstop s).
  destruct (orch_volumeBot s) as [vb|] eqn:Hvb.
  - rewrite (stop_result vb s Hvb). cbn [fst snd].
    split; [reflexivity|].
    split; [destruct (vb_tradeInterval vb); reflexivity|].
    split; [repeat split|].
    split; [discriminate|]. intros vb' [= <-].
    split; [reflexivity|]. split.
    + unfold timerFired, this, bind, get, defined. reflexivity.
    + rewrite Hstop. cbn [orch_volumeBot set_orch_volumeBot].
      erewrite stop_result by reflexivity. reflexivity.
  - split; [reflexivity|]. split; [reflexivity|].
    split; [repeat split|].
    split; [reflexivity|]. discriminate.
Qed.

End StartAndStop.

(** On the trading scenario, where the bot is not running and the wallet
    manager holds two volume wallets. *)
Lemma a_second_start_changes_nothing_witness :
  orch_volumeBot TradeScenario.start = Some (VolumeBot.constructor "0xTOKEN") /\
  fst (VolumeBot.start Script.gateway TradeScenario.config TradeScenario.start) = Ok tt /\
  VolumeBot.start Script.gateway TradeScenario.config
    (snd (VolumeBot.start Script.gateway TradeScenario.config TradeScenario.start))
  = (Ok tt, snd (VolumeBot.start Script.gateway TradeScenario.config TradeScenario.start)).
Proof.
  split; [reflexivity|].
  destruct (a_second_start_changes_nothing Script.gateway TradeScenario.config
              (VolumeBot.constructor "0xTOKEN") TradeScenario.start eq_refl)
    as (_ & _ & H).
  destruct H as (H1 & _ & H3); [reflexivity|vm_compute; discriminate|].
  split; assumption.
Defined.

Section NextTimer.
Context {Env : Type}.
Variable gw : Gateway Env.
Variable config : Config.

Import VolumeBot.

(** When the pending timer of a running bot fires, the callback returns,
    whatever happens in the trade: the bot is still running and a new timer
    is pending, set after the trade and for the wallets of the timer that
    fired, so a failed trade does not end the schedule. The trade submitted
    one transaction at most and recorded one order at most, an order exactly
    when a buy or a sale it submitted was confirmed; the token of the bot is
    unchanged. (The callback runs to its end before anything else happens.) *)
Theorem a_failed_trade_does_not_end_the_schedule
    (vb : VolumeBot) (timer : Timer) (s : Sys Env) :
  orch_volumeBot s = Some vb ->
  vb_isRunning vb = true ->
  vb_tradeInterval vb = Some timer ->
  let run := timerFired gw config s in
  fst run = Ok tt /\
  exists delay new rec,
    orch_volumeBot (snd run)
      = Some {| vb_tokenAddress := vb_tokenAddress vb; vb_isRunning := true;
                vb_tradeInterval := Some {| timer_delay := delay;
                                            timer_wallets := timer_wallets timer |};
                vb_tradeHistory := vb_tradeHistory vb ++ rec |} /\
    trace (snd run) = EvSetTimeout delay :: new ++ trace s /\
    (length (submissions new) <= 1)%nat /\
    length rec = length (omap confirmedTrade (submissions new)).
Proof.
  intros Hvb Hrun Hint. cbv zeta.
  change (wp (timerFired gw config)
            (fun r s' =>
               r = Ok tt /\
               exists delay new rec,
                 orch_volumeBot s'
                   = Some {| vb_tokenAddress := vb_tokenAddress vb; vb_isRunning := true;
                             vb_tradeInterval :=
                               Some {| timer_delay := delay;
                                       timer_wallets := timer_wallets timer |};
                             vb_tradeHistory := vb_tradeHistory vb ++ rec |} /\
                 trace s' = EvSetTimeout delay :: new ++ trace s /\
                 (length (submissions new) <= 1)%nat /\
                 length rec = length (omap confirmedTrade (submissions new))) s).
  unfold timerFired, this. wp_steps; try congruence.
  all: same_bot Hvb.
  match goal with
  | H : vb_tradeInterval _ = Some ?t |- _ =>
      tryif constr_eq H Hint then fail else (rewrite Hint in H; injection H as <-)
  end.
  unfold set_tradeInterval at 1. wp_step. wp_step. wp_step.
  set (vb0 := {| vb_tokenAddress := vb_tokenAddress vb; vb_isRunning := vb_isRunning vb;
                 vb_tradeInterval := None; vb_tradeHistory := vb_tradeHistory vb |}).
  set (s0 := set_env _ (set_orch_volumeBot _ s)).
  assert (Hvb0 : orch_volumeBot s0 = Some vb0) by (unfold s0; simpl; rewrite Hvb; reflexivity).
  assert (Ht0 : trace s0 = trace s) by reflexivity.
  wp_step. wp_step.
  eapply wp_mono; [apply (executeRandomTrade_spec gw config (timer_wallets timer) vb0 s0 Hvb0)|].
  intros r s1 [-> Hcases].
  assert (Hdone : exists new rec vb1,
            trace s1 = new ++ trace s /\
            orch_volumeBot s1 = Some vb1 /\ botAfter vb0 rec vb1 /\
            (length (submissions new) <= 1)%nat /\
            length rec = length (omap confirmedTrade (submissions new))).
  { destruct Hcases as [[Hobj Ht]|(w & kind & amount & Hw & Hstep)].
    - exists [], [], vb0.
      destruct Hobj as (_ & _ & _ & _ & _ & _ & A7 & _).
      split; [rewrite Ht; exact Ht0|]. split; [congruence|].
      split; [apply botAfter_nil|]. split; [simpl; lia|reflexivity].
    - destruct Hstep as (_ & _ & new & rec & vb1 & B3 & B4 & B5 & B6).
      exists new, rec, vb1. split; [rewrite B3, Ht0; reflexivity|].
      split; [exact B4|]. split; [exact B5|].
      destruct B6 as [[-> ->]|(tx & out & -> & Hto & Hkind & Hout)].
      + split; [simpl; lia|reflexivity].
      + change (submissions [EvTx w tx out]) with [(w, tx, out)].
        split; [simpl; lia|].
        unfold confirmedTrade, tradeKind. simpl.
        destruct out; try (rewrite Hout; reflexivity).
        destruct Hout as [date ->].
        destruct kind; destruct Hkind as (a & -> & _); reflexivity. }
  destruct Hdone as (new & rec & vb1 & Ht1 & Hvb1 & (Htok & Hr1 & Hi1 & Hh1) & Hone & Hrec).
  destruct (scheduleNextTrade_arms gw config (timer_wallets timer) vb1 s1 Hvb1)
    as [delay Harm]; [simpl in Hr1; congruence|].
  unfold wp. rewrite Harm. cbn [fst snd]. split; [reflexivity|].
  exists delay, new, rec.
  split; [|split; [|split; assumption]].
  - simpl. rewrite Htok, Hh1. reflexivity.
  - simpl. rewrite Ht1. reflexivity.
Qed.

End NextTimer.

(** On the trading scenario, when the bot has been started: the timer
    fires, and the next one is set. *)
Lemma a_failed_trade_does_not_end_the_schedule_witness :
  let s := snd (VolumeBot.start Script.gateway TradeScenario.config TradeScenario.start) in
  let run := VolumeBot.timerFired Script.gateway TradeScenario.config s in
  option_map vb_isRunning (orch_volumeBot s) = Some true /\
  fst run = Ok tt /\
  exists vb', orch_volumeBot (snd run) = Some vb' /\
              vb_isRunning vb' = true /\ is_Some (vb_tradeInterval vb').
Proof.
  cbv zeta.
  destruct (orch_volumeBot
              (snd (VolumeBot.start Script.gateway TradeScenario.config TradeScenario.start)))
    as [vb|] eqn:Hvb; [|vm_compute in Hvb; discriminate].
  destruct (vb_tradeInterval vb) as [timer|] eqn:Hint;
    [|vm_compute in Hvb; injection Hvb as <-; discriminate].
  assert (Hrun : vb_isRunning vb = true)
    by (vm_compute in Hvb; injection Hvb as <-; reflexivity).
  destruct (a_failed_trade_does_not_end_the_schedule Script.gateway TradeScenario.config
              vb timer _ Hvb Hrun Hint) as (Hok & delay & new & rec & Hbot & _).
  split; [simpl; rewrite Hrun; reflexivity|].
  split; [exact Hok|].
  eexists. split; [exact Hbot|]. split; [reflexivity|]. eexists. reflexivity.
Defined.

Section TotalVolume.
Context {Env : Type}.
Variable gw : Gateway Env.
Variable config : Config.

Lemma sum_within_bounds (lo hi : Q) (orders : list TradeOrder) : forall acc : Q,
  Forall (fun order => (lo <= amountMon order)%Q /\ (amountMon order <= hi)%Q) orders ->
  (acc + inject_Z (Z.of_nat (length orders)) * lo
   <= fold_left (fun sum order => sum + amountMon order) orders acc)%Q /\
  (fold_left (fun sum order => sum + amountMon order) orders acc
   <= acc + inject_Z (Z.of_nat (length orders)) * hi)%Q.
Proof.
  induction orders as [|o orders IH]; intros acc Hall.
  - cbn [fold_left length]. change (inject_Z (Z.of_nat 0)) with 0%Q. split; lra.
  - inversion Hall as [|? ? [Hlo Hhi] Hrest]; subst.
    destruct (IH (acc + amountMon o)%Q Hrest) as [IHlo IHhi].
    cbn [fold_left length].
    rewrite Nat2Z.inj_succ, <- Z.add_1_r, inject_Z_plus.
    change (inject_Z 1) with 1%Q.
    split; lra.
Qed.

Lemma sum_from_the_left (orders : list TradeOrder) : forall acc : Q,
  (fold_left (fun sum order => sum + amountMon order) orders acc
   == acc + fold_right (fun order sum => amountMon order + sum) 0 orders)%Q.
Proof.
  induction orders as [|o orders IH]; intros acc; cbn [fold_left fold_right].
  - ring.
  - rewrite IH. ring.
Qed.


End TotalVolume.


(* ===================================================================== *)
(** * bot/recovery.ts: what the recovery of a wallet submits *)
(* ===================================================================== *)

Section RecoverySteps.
Context {Env : Type}.
Variable gw : Gateway Env.
Variable config : Config.

Import NadFunContract RecoveryManager.

Lemma transferMon_objects wallet to amount (s : Sys Env) :
  wp (transferMon gw wallet to amount)
     (fun r s' =>
        sameObjects s s' /\
        submitsOnce wallet {| tx_to := to; tx_data := NoData; tx_value := amount |}
          r (trace s) (trace s')) s.
Proof.
  unfold transferMon. apply wp_rethrow.
  wp_step. eapply wp_mono; [apply sendAndWait_objects|].
  intros [[h rc]|e|] s1 (H1 & H2 & _); [wp_steps| |]; split; assumption.
Qed.

(** What a call that submits [tx] once at most left in the trace. *)
Lemma submitsOnce_submissions {A} signer tx (r : result A) t t' :
  submitsOnce signer tx r t t' ->
  exists new, t' = new ++ t /\
              (submissions new = [] \/ exists out, submissions new = [(signer, tx, out)]).
Proof.
  destruct r as [a|e|]; simpl; [| |contradiction].
  - intros (h & rc & ->). eexists [_]. split; [reflexivity|]. right. eexists. reflexivity.
  - intros [->|(out & -> & _)].
    + exists []. split; [reflexivity|]. left. reflexivity.
    + eexists [_]. split; [reflexivity|]. right. eexists. reflexivity.
Qed.

Lemma recoverFromWallet_steps this wallet (s : Sys Env) :
  wp (recoverFromWallet gw config this wallet)
     (fun r s' => r <> OutOfFuel /\ recoveredFrom gw config this wallet s s') s.
Proof.
  unfold recoverFromWallet.
  wp_step. unfold getTokenBalance. eapply wp_mono; [apply read_objects|].
  intros [b|e|] s1 (Hne & e1 & -> & Hread); [| |congruence].
  2:{ split; [discriminate|]. split; [repeat split|].
      exists [], [], []. repeat split; simpl; try lia; constructor. }
  wp_step.
  (* the sale *)
  apply (wp_mono _ (fun r s2 =>
           r = Ok 0 /\ sameObjects s s2 /\
           exists new sales,
             trace s2 = new ++ trace s /\ submissions new = sales /\
             (length sales <= 1)%nat /\
             Forall (recoverySale gw config this wallet (env s)) sales)).
  { destruct (Z.ltb_spec 0 b) as [Hpos|_].
    - wp_step. wp_step.
      eapply wp_mono;
        [apply wp_conj; [apply sellToken_objects|apply (sellToken_spec gw config "")]|].
      intros r s2 [[Hobj Hsub] (_ & Hzero & _)].
      assert (Hs2 : sameObjects s s2).
      { eapply sameObjects_trans; [|exact Hobj]. repeat split. }
      destruct (submitsOnce_submissions _ _ _ _ _ Hsub) as (new & Ht & Hnew).
      assert (Hsales : exists new sales,
                trace s2 = new ++ trace s /\ submissions new = sales /\
                (length sales <= 1)%nat /\
                Forall (recoverySale gw config this wallet (env s)) sales).
      { exists new. destruct Hnew as [Hn|[out Hn]]; rewrite Hn.
        - exists []. repeat split; [exact Ht|simpl; lia|constructor].
        - eexists [_]. repeat split; [exact Ht|simpl; lia|].
          constructor; [|constructor]. split; [reflexivity|].
          exists b, e1. auto. }
      destruct r as [v|e|]; simpl in Hsub; [| |contradiction].
      + rewrite (Hzero v eq_refl). wp_steps. auto.
      + wp_steps. auto.
    - wp_steps. split; [reflexivity|]. split; [repeat split|].
      exists [], []. repeat split; [simpl; lia|constructor]. }
  intros r s2 (-> & Hobj2 & new1 & sales & Ht1 & Hs1 & Hlen1 & Hall1).
  wp_step. unfold getMonBalance. eapply wp_mono; [apply read_objects|].
  intros [m|e|] s3 (Hne3 & e3 & -> & Hread3); [| |congruence].
  2:{ split; [discriminate|].
      split; [eapply sameObjects_trans; [exact Hobj2|repeat split]|].
      exists new1, sales, []. rewrite app_nil_r.
      repeat split; try assumption; [simpl; lia|constructor]. }
  assert (Hquiet : recoveredFrom gw config this wallet s (set_env (fun _ => e3) s2)).
  { split; [eapply sameObjects_trans; [exact Hobj2|repeat split]|].
    exists new1, sales, []. rewrite app_nil_r.
    repeat split; try assumption; [simpl; lia|constructor]. }
  destruct (0 <? m); [|wp_steps; split; [discriminate|exact Hquiet]].
  destruct (Z.ltb_spec gasReserve m) as [Hres|_].
  2:{ change (0 <? 0) with false. cbv iota. wp_steps. split; [discriminate|exact Hquiet]. }
  destruct (0 <? m - gasReserve); [|wp_steps; split; [discriminate|exact Hquiet]].
  wp_step. wp_step. eapply wp_mono; [apply transferMon_objects|].
  intros r s4 [Hobj4 Hsub4].
  assert (Hdone : recoveredFrom gw config this wallet s s4).
  { split.
    - eapply sameObjects_trans; [exact Hobj2|].
      eapply sameObjects_trans; [|exact Hobj4]. repeat split.
    - destruct (submitsOnce_submissions _ _ _ _ _ Hsub4) as (new2 & Ht2 & Hnew2).
      exists (new2 ++ new1), sales.
      destruct Hnew2 as [Hn|[out Hn]].
      + exists []. rewrite submissions_app, Hn, !app_nil_r.
        split; [rewrite Ht2; simpl; rewrite Ht1, app_assoc; reflexivity|].
        split; [assumption|].
        repeat split; [assumption|simpl; lia|assumption|constructor].
      + eexists [_]. rewrite submissions_app, Hn, Hs1.
        split; [rewrite Ht2; simpl; rewrite Ht1, app_assoc; reflexivity|].
        split; [reflexivity|].
        repeat split; [assumption|simpl; lia|assumption|].
        constructor; [|constructor]. split; [reflexivity|].
        exists m, (env s2), e3. auto. }
  destruct r as [h|e|]; simpl in Hsub4; [| |contradiction].
  - wp_steps. split; [discriminate|exact Hdone].
  - wp_steps. split; [discriminate|exact Hdone].
Qed.

(** For a wallet, recoverFromWallet changes none of the program's objects
    and submits one sale at most and then one transfer at most, both signed
    by the wallet itself. A sale it submits is of the whole token balance it
    read, which was above zero; a transfer it submits goes to the recovery
    address and is of a MON balance it read, which was above the gas reserve
    of 0.001 MON, less that reserve, so it never submits a transfer of zero.
    What it returns, when it returns, is never negative. *)
Theorem recovery_sells_the_tokens_and_then_transfers_the_rest
    (this : RecoveryManager) (wallet : Wallet) (s : Sys Env) :
  let run := recoverFromWallet gw config this wallet s in
  recoveredFrom gw config this wallet s (snd run) /\
  match fst run with
  | Ok totalRecovered => 0 <= totalRecovered
  | Err e => True
  | OutOfFuel => False
  end.
Proof.
  cbv zeta. split.
  - exact (proj2 (recoverFromWallet_steps this wallet s)).
  - pose proof (recoverFromWallet_steps this wallet s) as [Hne _].
    pose proof (recoverFromWallet_nonneg gw config this wallet s) as Hpos.
    unfold wp in *. destruct (fst _); auto.
Qed.

(** For a wallet whose MON balance, whenever it is read, is not above the
    gas reserve of 0.001 MON, recoverFromWallet submits no transfer (what it
    submits are sales of the wallet's token balance only), nothing reaches
    the recovery address, and what it returns, when it returns, is 0. *)
Theorem recovery_below_the_reserve_transfers_nothing (this : RecoveryManager) (wallet : Wallet)
    (s : Sys Env) :
  (forall e, exists m e', getBalance gw (address wallet) e = (Resolved m, e') /\
                          m <= gasReserve) ->
  let run := recoverFromWallet gw config this wallet s in
  (exists new,
     trace (snd run) = new ++ trace s /\
     Forall (recoverySale gw config this wallet (env s)) (submissions new) /\
     transferredTo (rm_recoveryAddress this) (trace (snd run))
       = transferredTo (rm_recoveryAddress this) (trace s)) /\
  forall totalRecovered, fst run = Ok totalRecovered -> totalRecovered = 0.
Proof.
  intros Hdust. cbv zeta.
  pose proof (recoverFromWallet_steps this wallet s) as [_ Hsteps].
  pose proof (recoverFromWallet_spec gw config this wallet s) as (_ & _ & Htotal).
  unfold wp in *.
  destruct Hsteps as (_ & new & sales & transfers & Ht & Hsub & _ & _ & Hsales & Htransfers).
  assert (Hnone : transfers = []).
  { destruct transfers as [|sub rest]; [reflexivity|].
    inversion Htransfers as [|? ? (_ & m & e & e' & Hread & Hres & _) _]; subst.
    destruct (Hdust e) as (m' & e'' & Hread' & Hle). rewrite Hread in Hread'.
    injection Hread' as <- <-. lia. }
  subst transfers. rewrite app_nil_r in Hsub.
  assert (Hsame : transferredTo (rm_recoveryAddress this) (new ++ trace s)
                  = transferredTo (rm_recoveryAddress this) (trace s)).
  { assert (Hno : Forall (fun sub => exists b, tx_data sub.1.2 = SellToken (rm_tokenAddress this) b)
                         (submissions new)).
    { rewrite Hsub. eapply Forall_impl; [exact Hsales|].
      intros sub (_ & b & e' & _ & _ & ->). eauto. }
    clear -Hno. induction new as [|ev new IH]; [reflexivity|].
    change (ev :: new) with ([ev] ++ new) in Hno. rewrite submissions_app in Hno.
    apply Forall_app in Hno as [Hnew Hev]. simpl. rewrite (IH Hnew).
    destruct ev as [signer tx out| | | |]; try reflexivity.
    inversion Hev as [|? ? [b Hb] _]; subst. simpl in Hb.
    destruct out; simpl; try reflexivity. rewrite Hb. reflexivity. }
  split.
  - exists new. rewrite Ht, Hsub. auto.
  - intros total Hr. rewrite Hr, Ht, Hsame in Htotal. lia.
Qed.

End RecoverySteps.

(** On a node that reports 0.0005 MON for every address, and a funding
    wallet of the recovery scenario, which holds 5 tokens. *)
Lemma recovery_below_the_reserve_transfers_nothing_witness :
  (exists new,
     trace (snd (RecoveryManager.recoverFromWallet DustyNode.gateway RecoveryScenario.config
                   RecoveryScenario.manager (RecoveryScenario.wallet 1) RecoveryScenario.start))
       = new ++ trace RecoveryScenario.start /\
     Forall (recoverySale DustyNode.gateway RecoveryScenario.config RecoveryScenario.manager
               (RecoveryScenario.wallet 1) (env RecoveryScenario.start))
            (submissions new) /\
     transferredTo (rm_recoveryAddress RecoveryScenario.manager)
       (trace (snd (RecoveryManager.recoverFromWallet DustyNode.gateway RecoveryScenario.config
                      RecoveryScenario.manager (RecoveryScenario.wallet 1)
                      RecoveryScenario.start)))
       = transferredTo (rm_recoveryAddress RecoveryScenario.manager)
           (trace RecoveryScenario.start)) /\
  forall totalRecovered,
    fst (RecoveryManager.recoverFromWallet DustyNode.gateway RecoveryScenario.config
           RecoveryScenario.manager (RecoveryScenario.wallet 1) RecoveryScenario.start)
      = Ok totalRecovered ->
    totalRecovered = 0.
Proof.
  apply (recovery_below_the_reserve_transfers_nothing DustyNode.gateway RecoveryScenario.config
           RecoveryScenario.manager (RecoveryScenario.wallet 1) RecoveryScenario.start).
  intros e. exists (5 * 10 ^ 14), e.
  split; [reflexivity|]. vm_compute. discriminate.
Defined.

(** On that node the wallet's sale is still submitted (and rejected, in the
    recovery scenario), no transfer follows, and the wallet contributes 0. *)
Lemma dust_scenario_run :
  let run := RecoveryManager.recoverFromWallet DustyNode.gateway RecoveryScenario.config
               RecoveryScenario.manager (RecoveryScenario.wallet 1) RecoveryScenario.start in
  fst run = Ok 0 /\
  map (fun sub => tx_data sub.1.2) (submissions (trace (snd run))) = [SellToken "0xTOKEN" 5].
Proof. cbv zeta. split; vm_compute; reflexivity. Qed.

(* ===================================================================== *)
(** * bot/orchestrator.ts: the phases *)
(* ===================================================================== *)

Section OnlyOnCompletion.
Context {Env : Type}.
Variable gw : Gateway Env.

Import BotOrchestrator.

Lemma getBondingCurveStatus_spec token (s : Sys Env) :
  wp (NadFunContract.getBondingCurveStatus gw token)
     (fun r s' =>
        r <> OutOfFuel /\
        exists e', s' = set_env (fun _ => e') s /\
          forall status, r = Ok status ->
            exists status', call_getBondingCurveStatus gw token (env s) = (Resolved status', e') /\
                            isComplete status = isComplete status') s.
Proof.
  unfold NadFunContract.getBondingCurveStatus. apply wp_rethrow.
  wp_steps; (split; [discriminate|]); eexists; (split; [reflexivity|]).
  - intros status [= <-]. eauto.
  - discriminate.
Qed.

Lemma pollLoop_returns_on_completion startTime : forall fuel (s : Sys Env),
  wp (pollLoop gw fuel startTime)
     (fun r s' =>
        r = Ok tt ->
        exists st new,
          states s !! orch_state s = Some st /\
          states s' = <[orch_state s := with_bondingCurveComplete true st]> (states s) /\
          orch_state s' = orch_state s /\ arrays s' = arrays s /\
          orch_volumeBot s' = orch_volumeBot s /\
          trace s' = new ++ trace s /\ endsWithCompletion gw startTime new) s.
Proof.
  induction fuel as [|fuel IH]; intros s; [discriminate|].
  simpl pollLoop. wp_step. apply wp_now. wp_step; [|wp_step; discriminate].
  match goal with H : (_ <? _) = true |- _ => apply Z.ltb_lt in H; rename H into Hlt end.
  unfold readState. wp_steps; try discriminate.
  match goal with H : states s !! orch_state s = Some ?a |- _ =>
    rename H into Hst; rename a into st end.
  eapply wp_mono; [apply getBondingCurveStatus_spec|].
  intros [status|e|] s1 (Hne & e1 & -> & Hread); [|discriminate|congruence].
  destruct (Hread status eq_refl) as (status' & Hcall & Hsame).
  wp_step.
  - unfold writeState. wp_step. intros _.
    exists st, [EvPoll (default "" (tokenAddress st)) (Date_now gw (env s))].
    simpl. rewrite Hst.
    split; [reflexivity|].
    split.
    { apply map_eq. intros l. destruct (decide (l = orch_state s)) as [->|Hne'].
      - rewrite lookup_alter_eq, lookup_insert_eq, Hst. reflexivity.
      - rewrite lookup_alter_ne, lookup_insert_ne by congruence. reflexivity. }
    repeat split.
    eexists _, _, [], _, status', _. repeat split; try eassumption; [constructor|congruence].
  - wp_step. unfold sleep. wp_steps.
    eapply wp_mono; [apply IH|].
    intros r s2 H Hr. destruct (H Hr) as (st2 & new & Hst2 & Hstates & Horch & Harr & Hbot & Ht & Hend).
    simpl in Hst2, Hstates, Horch, Harr, Hbot, Ht.
    rewrite Hst in Hst2. injection Hst2 as <-.
    exists st, (new ++ [EvSleep pollInterval;
                        EvPoll (default "" (tokenAddress st)) (Date_now gw (env s))]).
    repeat split; try assumption.
    + rewrite Ht, <- app_assoc. reflexivity.
    + destruct Hend as (token & date & older & e & st' & e' & -> & Hd & Hold & Hc & Hi).
      exists token, date, (older ++ [EvSleep pollInterval;
                                     EvPoll (default "" (tokenAddress st)) (Date_now gw (env s))]),
        e, st', e'.
      repeat split; try assumption.
      apply Forall_app. split; [assumption|].
      repeat constructor. assumption.
Qed.

(** phase3_WaitForBondingCurve never returns unless a poll reported
    completion: when it returns, a token address was set, the last thing it
    did was a poll made less than an hour after it started, a status read
    reported isComplete, everything it did before were polls made before the
    deadline and waits of 30 s, and the only change to the state object is
    that bondingCurveComplete is set; the arrays and the volume bot are as
    they were. *)
Theorem phase3_returns_only_on_completion (fuel : nat) (s s' : Sys Env) :
  phase3_WaitForBondingCurve gw fuel s = (Ok tt, s') ->
  exists st token new,
    states s !! orch_state s = Some st /\ tokenAddressSet st = Some token /\
    states s' = <[orch_state s := with_bondingCurveComplete true st]> (states s) /\
    orch_state s' = orch_state s /\ arrays s' = arrays s /\
    orch_volumeBot s' = orch_volumeBot s /\
    trace s' = new ++ trace s /\
    endsWithCompletion gw (Date_now gw (env s)) new.
Proof.
  intros Hrun.
  assert (H : wp (phase3_WaitForBondingCurve gw fuel)
                (fun r s' =>
                   r = Ok tt ->
                   exists st token new,
                     states s !! orch_state s = Some st /\ tokenAddressSet st = Some token /\
                     states s' = <[orch_state s := with_bondingCurveComplete true st]> (states s) /\
                     orch_state s' = orch_state s /\ arrays s' = arrays s /\
                     orch_volumeBot s' = orch_volumeBot s /\
                     trace s' = new ++ trace s /\
                     endsWithCompletion gw (Date_now gw (env s)) new) s).
  { unfold phase3_WaitForBondingCurve, readState. wp_steps; try discriminate.
    apply wp_now. cbn beta iota.
    eapply wp_mono; [apply pollLoop_returns_on_completion|].
    intros r s2 Hloop Hr.
    destruct (Hloop Hr) as (st & new & Hst & Hrest).
    match goal with H : states s !! orch_state s = Some ?a |- _ =>
      rewrite Hst in H; injection H as <- end.
    exists st. eexists. exists new. split; [assumption|]. split; [eassumption|]. exact Hrest. }
  unfold wp in H. rewrite Hrun in H. apply H. reflexivity.
Qed.

End OnlyOnCompletion.

(** On the completion scenario: the bonding curve completes 90 s after the
    start, and phase 3 returns. *)
Lemma phase3_returns_only_on_completion_witness :
  exists s' st token new,
    BotOrchestrator.phase3_WaitForBondingCurve Script.gateway 121 CompletionScenario.start
      = (Ok tt, s') /\
    states CompletionScenario.start !! orch_state CompletionScenario.start = Some st /\
    BotOrchestrator.tokenAddressSet st = Some token /\
    states s'
      = <[orch_state CompletionScenario.start
            := BotOrchestrator.with_bondingCurveComplete true st]>
          (states CompletionScenario.start) /\
    trace s' = new ++ trace CompletionScenario.start /\
    endsWithCompletion Script.gateway
      (Date_now Script.gateway (env CompletionScenario.start)) new.
Proof.
  destruct (BotOrchestrator.phase3_WaitForBondingCurve Script.gateway 121
              CompletionScenario.start) as [r s'] eqn:Hrun.
  assert (Hr : r = Ok tt).
  { change r with (fst (r, s')). rewrite <- Hrun. vm_compute. reflexivity. }
  subst r.
  destruct (phase3_returns_only_on_completion Script.gateway 121 CompletionScenario.start s'
              Hrun) as (st & token & new & H1 & H2 & H3 & _ & _ & _ & H4 & H5).
  exists s', st, token, new. repeat split; assumption.
Defined.

Section Phases.
Context {Env : Type}.
Variable gw : Gateway Env.
Variable config : Config.
Variable I : Sys Env -> Prop.
Variable okEv : Event -> Prop.
(** [I] depends neither on the outside world, nor on the transactions and
    the waits of the trace, nor on the arrays, nor on the fields of the
    state object, nor on the funding wallets of the wallet manager. *)
Hypothesis I_env : forall f s, I s -> I (set_env f s).
Hypothesis I_ev : forall ev s, okEv ev -> I s -> I (set_trace (cons ev) s).
Hypothesis ok_tx : forall w tx out, okEv (EvTx w tx out).
Hypothesis ok_sleep : forall ms, okEv (EvSleep ms).
Hypothesis I_arrays : forall f s, I s -> I (set_arrays f s).
Hypothesis I_write : forall f s, I s -> I (set_states (alter f (orch_state s)) s).
Hypothesis I_funding : forall l s, I s -> I (set_wm_fundingWallets l s).

Import WalletManager TransactionBundler BotOrchestrator.

Lemma pre_writeState f : preserves I (writeState f) (fun _ => True).
Proof. unfold writeState. apply pre_modify. intros s. apply I_write. Qed.

Lemma pre_readState : preserves I readState (fun _ => True).
Proof.
  unfold readState. eapply pre_bind; [apply pre_get|]. intros s0 _.
  eapply pre_weaken; [apply pre_defined|auto].
Qed.

Lemma pre_newArray ws : preserves I (newArray ws) (fun _ => True).
Proof.
  intros s Hs. apply wp_newArray. repeat split; [apply I_arrays; assumption|discriminate].
Qed.

Lemma pre_saveWalletInfo wallet category :
  preserves I (saveWalletInfo gw wallet category) (fun _ => True).
Proof.
  unfold saveWalletInfo.
  eapply pre_bind; [apply (pre_await I I_env)|]. intros _ _.
  eapply pre_bind; [apply (pre_await I I_env)|]. intros _ _.
  apply (pre_await I I_env).
Qed.

Lemma pre_generateFundingWallets count :
  preserves I (generateFundingWallets gw count) (fun _ => True).
Proof.
  unfold generateFundingWallets.
  eapply pre_bind.
  { apply (pre_mapM I _ _ (fun _ => True)). intros i. unfold fundingWalletAt.
    eapply pre_bind; [apply pre_get|]. intros s0 _.
    eapply pre_bind; [apply pre_settled|]. intros node _.
    eapply pre_bind; [apply pre_saveWalletInfo|]. intros _ _.
    apply pre_ret. exact Logic.I. }
  intros ws _.
  eapply pre_bind; [apply pre_newArray|]. intros l _.
  eapply pre_bind; [apply pre_modify; intros s; apply I_funding|]. intros _ _.
  apply pre_ret. exact Logic.I.
Qed.

Lemma pre_phase1 : preserves I (phase1_GenerateFundingWallets gw config) (fun _ => True).
Proof.
  unfold phase1_GenerateFundingWallets, verifyWalletIsolation.
  eapply pre_bind; [apply pre_writeState|]. intros _ _.
  eapply pre_bind; [apply pre_generateFundingWallets|]. intros l _.
  eapply pre_bind; [apply pre_writeState|]. intros _ _.
  eapply pre_bind with (P := fun _ => True); [apply pre_ret; exact Logic.I|]. intros _ _.
  apply pre_ret. exact Logic.I.
Qed.

Lemma pre_submitEach txs signer : forall acc1 acc2,
  preserves I (submitEach gw txs signer acc1 acc2) (fun _ => True).
Proof.
  induction txs as [|tx txs IH]; intros acc1 acc2; simpl.
  - apply pre_ret. exact Logic.I.
  - eapply pre_bind; [apply (pre_await I I_env)|]. intros signedTx _.
    eapply pre_bind; [apply (pre_sendAndWait gw I okEv I_env I_ev); intros; apply ok_tx|].
    intros sent _. apply IH.
Qed.

Lemma pre_submitSequentially wallets : forall txs acc1 acc2,
  preserves I (submitSequentially gw wallets txs acc1 acc2) (fun _ => True).
Proof.
  induction wallets as [|w ws IH]; intros txs acc1 acc2; simpl.
  - apply pre_ret. exact Logic.I.
  - destruct txs as [|tx txs]; [apply pre_ret; exact Logic.I|].
    eapply pre_bind; [apply (pre_sendAndWait gw I okEv I_env I_ev); intros; apply ok_tx|].
    intros sent _.
    eapply pre_bind; [apply (pre_sleep gw I okEv I_env I_ev); apply ok_sleep|]. intros _ _.
    apply IH.
Qed.

Lemma pre_bundleMultipleBuys wallets token amounts :
  preserves I (bundleMultipleBuys gw config wallets token amounts) (fun _ => True).
Proof.
  unfold bundleMultipleBuys.
  eapply pre_bind.
  { apply (pre_mapM I _ _ (fun _ => True)). intros i. unfold populateBuy.
    destruct (amounts !! i); [|apply pre_throw].
    eapply pre_weaken; [apply (pre_populate gw I)|auto]. }
  intros txs _. destruct (negb _).
  - eapply pre_bind; [apply pre_defined|]. intros signer _. apply pre_submitEach.
  - apply pre_submitSequentially.
Qed.

Lemma pre_bundleTokenCreationAndBuy fundingWallet tokenConfig amount :
  preserves I (bundleTokenCreationAndBuy gw config fundingWallet tokenConfig amount)
            (fun _ => True).
Proof.
  unfold bundleTokenCreationAndBuy.
  eapply pre_bind; [apply pre_defined|]. intros signer _.
  apply pre_rethrow.
  eapply pre_bind; [apply (pre_populate gw I)|]. intros createTx _.
  destruct (negb _); [apply pre_submitEach|].
  eapply pre_bind; [apply (pre_sendAndWait gw I okEv I_env I_ev); intros; apply ok_tx|].
  intros sent _.
  eapply pre_bind; [apply (pre_await I I_env)|]. intros receipt _.
  rewrite extractTokenAddress_is_null. simpl. apply pre_ret. exact Logic.I.
Qed.

Lemma pre_phase2 tokenConfig :
  preserves I (phase2_FundBondingCurve gw config tokenConfig) (fun _ => True).
Proof.
  unfold phase2_FundBondingCurve.
  eapply pre_bind; [apply pre_writeState|]. intros _ _.
  eapply pre_bind; [apply pre_readState|]. intros st _.
  eapply pre_bind; [apply pre_readArray|]. intros ws _.
  eapply pre_bind; [apply (pre_parseEther gw I)|]. intros amount _.
  eapply pre_bind; [apply pre_bundleTokenCreationAndBuy|]. intros bundle _.
  eapply pre_bind; [apply pre_writeState|]. intros _ _.
  eapply pre_bind.
  { apply (pre_mapM I _ _ (fun _ => True)). intros w. apply (pre_parseEther gw I). }
  intros amounts _.
  eapply pre_bind; [apply pre_bundleMultipleBuys|]. intros bundle2 _.
  apply pre_writeState.
Qed.

End Phases.

Section Execute.
Context {Env : Type}.
Variable gw : Gateway Env.
Variable config : Config.

Import BotOrchestrator.

Lemma bind_assoc {A B C} (m : M Env A) (k : A -> M Env B) (h : B -> M Env C) s :
  bind (bind m k) h s = bind m (fun a => bind (k a) h) s.
Proof. unfold bind. destruct (m s) as [[a|e|] s1]; reflexivity. Qed.

Lemma polls_cons ev (t : list Event) : isPoll ev = false -> polls (ev :: t) = polls t.
Proof.
  intros H. unfold polls. rewrite filter_cons. destruct (decide (isPoll ev = true)); [congruence|].
  reflexivity.
Qed.

(** execute never returns normally: whatever the gateway answers, with or
    without a bundler, it throws. When phase 1 and phase 2 succeed, the
    token address phase 2 stored is empty, phase 3 throws 'Token address not
    set' at once and the state is left as phase 2 left it. So execute never
    polls the bonding curve, never replaces the volume wallet list of the
    wallet manager and never creates a volume bot. *)
Theorem execute_never_gets_past_phase3
    (tokenConfig : TokenConfig) (fuel : nat) (s : Sys Env) :
  let run := execute gw config tokenConfig fuel s in
  (exists e, fst run = Err e) /\
  polls (trace (snd run)) = polls (trace s) /\
  orch_volumeBot (snd run) = orch_volumeBot s /\
  wm_volumeWallets (snd run) = wm_volumeWallets s /\
  forall s2,
    (phase1_GenerateFundingWallets gw config ;;;
     phase2_FundBondingCurve gw config tokenConfig) s = (Ok tt, s2) ->
    run = (Err "Token address not set", s2).
Proof.
  cbv zeta.
  set (I := fun s' : Sys Env =>
              polls (trace s') = polls (trace s) /\
              orch_volumeBot s' = orch_volumeBot s /\
              wm_volumeWallets s' = wm_volumeWallets s).
  set (okEv := fun ev => isPoll ev = false).
  assert (I_env : forall f s', I s' -> I (set_env f s')) by auto.
  assert (I_ev : forall ev s', okEv ev -> I s' -> I (set_trace (cons ev) s')).
  { intros ev s' Hev (H1 & H2 & H3). repeat split; try assumption.
    simpl. rewrite polls_cons; assumption. }
  assert (Hfront : wp (phase1_GenerateFundingWallets gw config ;;;
                       phase2_FundBondingCurve gw config tokenConfig)
                      (fun r s2 => I s2 /\ r <> OutOfFuel /\
                                   (r = Ok tt -> holdsTokenAddress (Some "") s2)) s).
  { apply wp_bind.
    eapply wp_mono; [eapply (pre_phase1 gw config I); auto; repeat split|].
    intros [[]|e|] s1 (H1 & Hne & _); [| |congruence].
    2:{ repeat split; [apply H1..|discriminate|discriminate]. }
    eapply wp_mono.
    { apply wp_conj; [eapply (pre_phase2 gw config I okEv); auto; try reflexivity|].
      apply phase2_leaves_the_token_address_empty. }
    intros r s2 [(H2 & Hne2 & _) Htoken]. auto. }
  assert (Hrun : execute gw config tokenConfig fuel s
                 = match (phase1_GenerateFundingWallets gw config ;;;
                          phase2_FundBondingCurve gw config tokenConfig) s with
                   | (Ok _, s2) => (Err "Token address not set", s2)
                   | (Err e, s2) => (Err e, s2)
                   | (OutOfFuel, s2) => (OutOfFuel, s2)
                   end).
  { unfold execute. rewrite try_rethrow.
    unfold wp in Hfront.
    rewrite <- (bind_assoc (phase1_GenerateFundingWallets gw config)
                  (fun _ => phase2_FundBondingCurve gw config tokenConfig)
                  (fun _ => phase3_WaitForBondingCurve gw fuel ;;;
                            phase4_StartVolumeGeneration gw config)).
    unfold bind at 1.
    destruct ((phase1_GenerateFundingWallets gw config;;;
               phase2_FundBondingCurve gw config tokenConfig) s) as [[[]|e|] s2];
      try reflexivity.
    simpl in Hfront. destruct Hfront as (_ & _ & Htoken).
    destruct (Htoken eq_refl) as (st & Hst & Haddr).
    unfold bind, phase3_WaitForBondingCurve, readState, bind, get, defined, tokenAddressSet.
    rewrite Hst. simpl. rewrite Haddr. reflexivity. }
  rewrite Hrun. unfold wp in Hfront.
  destruct ((phase1_GenerateFundingWallets gw config;;;
             phase2_FundBondingCurve gw config tokenConfig) s) as [[[]|e|] s2];
    simpl in *; destruct Hfront as ((H1 & H2 & H3) & Hne & _).
  - repeat split; eauto. intros s3 [= <-]. reflexivity.
  - repeat split; eauto. discriminate.
  - congruence.
Qed.

End Execute.

Section SharedList.
Context {Env : Type}.
Variable gw : Gateway Env.
Variable config : Config.

Import BotOrchestrator.

Lemma generateFundingWallets_keeps_the_state count (s : Sys Env) :
  wp (WalletManager.generateFundingWallets gw count)
     (fun _ s' => states s' = states s /\ orch_state s' = orch_state s) s.
Proof.
  eapply wp_mono.
  { apply (pre_generateFundingWallets gw
             (fun s' => states s' = states s /\ orch_state s' = orch_state s)); auto. }
  intros r s' (H & _). exact H.
Qed.

(** When phase1_GenerateFundingWallets returns, the state's phase is
    'funding' and state.fundingWallets is the very array the wallet manager
    holds as its funding wallets, of config.bondingCurve.walletCount
    wallets: a wallet pushed onto the state's list is returned by
    WalletManager.getFundingWallets from then on. The other fields of the
    state are as they were. *)
Theorem phase1_shares_its_list_with_the_wallet_manager (st : BotState) (s s' : Sys Env) :
  states s !! orch_state s = Some st ->
  phase1_GenerateFundingWallets gw config s = (Ok tt, s') ->
  exists ws,
    orch_state s' = orch_state s /\
    states s' !! orch_state s'
      = Some (with_fundingWallets (wm_fundingWallets s') (with_phase phase_funding st)) /\
    arrays s' !! wm_fundingWallets s' = Some ws /\
    length ws = Z.to_nat (bondingCurve_walletCount config) /\
    forall w,
      fst (WalletManager.getFundingWallets (snd (array_push (wm_fundingWallets s') w s')))
        = Ok (ws ++ [w]).
Proof.
  intros Hst Hrun.
  assert (H : wp (phase1_GenerateFundingWallets gw config)
                (fun r s' =>
                   r = Ok tt ->
                   exists ws,
                     orch_state s' = orch_state s /\
                     states s' !! orch_state s'
                       = Some (with_fundingWallets (wm_fundingWallets s')
                                 (with_phase phase_funding st)) /\
                     arrays s' !! wm_fundingWallets s' = Some ws /\
                     length ws = Z.to_nat (bondingCurve_walletCount config)) s).
  { unfold phase1_GenerateFundingWallets, writeState, WalletManager.verifyWalletIsolation.
    wp_step. wp_step. wp_step.
    eapply wp_mono.
    { apply wp_conj; [apply generateFundingWallets_numbers|
                      apply generateFundingWallets_keeps_the_state]. }
    intros [l|e|] s1 [Hnum [Hstates Horch]]; try discriminate.
    destruct (Hnum l eq_refl) as (ws & Harr & _ & Hwf & _ & Hidx & _).
    wp_steps. intros _. exists ws. simpl in *.
    rewrite Horch, Hstates, Hwf, Harr.
    repeat split.
    - rewrite lookup_alter_eq, lookup_alter_eq, Hst. reflexivity.
    - apply lookup_insert_eq.
    - rewrite <- (length_map index), Hidx, length_map, length_seq. reflexivity. }
  unfold wp in H. rewrite Hrun in H. cbn [fst snd] in H.
  destruct (H eq_refl) as (ws & H1 & H2 & H3 & H4).
  exists ws. repeat split; try assumption.
  intros w. unfold WalletManager.getFundingWallets, array_push, bind, get, readArray, modify.
  cbn [fst snd]. simpl. rewrite lookup_alter_eq, H3. reflexivity.
Qed.

End SharedList.

(** On the scripted world, from a new orchestrator configured for three
    funding wallets. *)
Lemma phase1_shares_its_list_with_the_wallet_manager_witness :
  exists ws,
    orch_state SnapshotScenario.start = 0%nat /\
    states SnapshotScenario.start !! orch_state SnapshotScenario.start
      = Some (BotOrchestrator.with_fundingWallets (wm_fundingWallets SnapshotScenario.start)
                (BotOrchestrator.with_phase phase_funding
                   {| phase := idle; tokenAddress := None;
                      fundingWallets := 2%nat; volumeWallets := 3%nat;
                      totalMonDeposited := 0 # 1; bondingCurveComplete := false;
                      volumeGenerated := 0 # 1; startTime := None |})) /\
    arrays SnapshotScenario.start !! wm_fundingWallets SnapshotScenario.start = Some ws /\
    length ws = Z.to_nat (bondingCurve_walletCount SnapshotScenario.config) /\
    forall w,
      fst (WalletManager.getFundingWallets
             (snd (array_push (wm_fundingWallets SnapshotScenario.start) w
                     SnapshotScenario.start)))
        = Ok (ws ++ [w]).
Proof.
  destruct (BotOrchestrator.constructor SnapshotScenario.config Script.quiet) as [s0| |] eqn:H0;
    [|vm_compute in H0; discriminate..].
  pose (s1 := snd (BotOrchestrator.initialize Script.gateway SnapshotScenario.config s0)).
  assert (H1 : orch_state s1 = 0%nat).
  { vm_compute in H0. injection H0 as <-. vm_compute. reflexivity. }
  rewrite <- H1.
  apply (phase1_shares_its_list_with_the_wallet_manager Script.gateway SnapshotScenario.config
           _ s1 SnapshotScenario.start).
  - vm_compute in H0. injection H0 as <-. vm_compute. reflexivity.
  - vm_compute in H0. injection H0 as <-. vm_compute. reflexivity.
Defined.

(* ===================================================================== *)
(** * utils/wallet.ts: the addresses of the two namespaces *)
(* ===================================================================== *)

Section Disjoint.
Context {Env : Type}.
Variable gw : Gateway Env.

Import WalletManager.


End Disjoint.


(* ===================================================================== *)
(** * bot/recovery.ts and bot/orchestrator.ts: triggering a recovery *)
(* ===================================================================== *)

Section TriggerRecovery.
Context {Env : Type}.
Variable gw : Gateway Env.
Variable config : Config.

Import RecoveryManager BotOrchestrator.

Lemma recoveredFrom_submissions this W wallet (s s' : Sys Env) :
  wallet ∈ W ->
  recoveredFrom gw config this wallet s s' ->
  sameObjects s s' /\
  exists new, trace s' = new ++ trace s /\
              Forall (recoverySubmission config this W) (submissions new) /\
              (length (submissions new) <= 2)%nat.
Proof.
  intros Hin (Hobj & new & sales & transfers & Ht & Hsub & Hl1 & Hl2 & Hs & Htr).
  split; [assumption|]. exists new. split; [assumption|].
  rewrite Hsub. split; [|rewrite length_app; lia].
  apply Forall_app. split.
  - eapply Forall_impl; [exact Hs|].
    intros sub (Hw & b & e' & _ & Hb & Htx). split; [rewrite Hw; assumption|].
    left. exists b. auto.
  - eapply Forall_impl; [exact Htr|].
    intros sub (Hw & m & e & e' & _ & Hm & Htx). split; [rewrite Hw; assumption|].
    right. exists (m - gasReserve). split; [lia|assumption].
Qed.

(** The loop of [executeRecovery] over wallets of [W]. *)
Lemma sweep_submissions this W wallets : forall total processed (s : Sys Env),
  (forall w, w ∈ wallets -> w ∈ W) ->
  wp (sweep gw config this wallets total processed)
     (fun r s' =>
        sameObjects s s' /\
        exists new, trace s' = new ++ trace s /\
                    Forall (recoverySubmission config this W) (submissions new) /\
                    (length (submissions new) <= 2 * length wallets)%nat) s.
Proof.
  induction wallets as [|w rest IH]; intros total processed s Hin.
  - simpl sweep. wp_steps. split; [apply sameObjects_refl|].
    exists []. repeat split; [constructor|simpl; lia].
  - unfold wp. rewrite sweep_cons.
    pose proof (recoverFromWallet_steps gw config this w s) as [Hne Hrec].
    apply (recoveredFrom_submissions this W) in Hrec; [|apply Hin; apply elem_of_cons; auto].
    destruct Hrec as (Hobj & new1 & Ht1 & Hall1 & Hlen1).
    assert (Hrest : forall w', w' ∈ rest -> w' ∈ W)
      by (intros w' Hw'; apply Hin; apply elem_of_cons; auto).
    destruct (recoverFromWallet gw config this w s) as [[v|e|] s1];
      cbn [fst snd] in *; [| |congruence].
    + destruct (IH (total + v) (processed + 1) (snd (sleep gw 1000 s1)) Hrest)
        as (Hobj2 & new2 & Ht2 & Hall2 & Hlen2).
      split.
      { eapply sameObjects_trans; [exact Hobj|].
        eapply sameObjects_trans; [|exact Hobj2]. repeat split. }
      exists (new2 ++ EvSleep 1000 :: new1).
      split; [rewrite Ht2; simpl; rewrite Ht1, <- app_assoc; reflexivity|].
      change (EvSleep 1000 :: new1) with ([EvSleep 1000] ++ new1).
      rewrite !submissions_app. change (submissions [EvSleep 1000]) with
        (@nil (Wallet * TransactionRequest * TxOutcome)).
      rewrite app_nil_r. split; [apply Forall_app; split; assumption|].
      rewrite length_app. simpl length. lia.
    + destruct (IH total processed s1 Hrest) as (Hobj2 & new2 & Ht2 & Hall2 & Hlen2).
      split; [eapply sameObjects_trans; eassumption|].
      exists (new2 ++ new1).
      split; [rewrite Ht2, Ht1, <- app_assoc; reflexivity|].
      rewrite submissions_app. split; [apply Forall_app; split; assumption|].
      rewrite length_app. simpl length. lia.
Qed.

Lemma executeRecovery_submissions (this : RecoveryManager) (s : Sys Env) :
  sameObjects s (snd (executeRecovery gw config this s)) /\
  exists new,
    trace (snd (executeRecovery gw config this s)) = new ++ trace s /\
    Forall (recoverySubmission config this (allWalletsOf s)) (submissions new) /\
    (length (submissions new) <= 2 * length (allWalletsOf s))%nat.
Proof.
  unfold executeRecovery, WalletManager.getAllWallets, bind, get, readArray, ret. simpl.
  fold (allWalletsOf s).
  apply (sweep_submissions this (allWalletsOf s) (allWalletsOf s) 0 0 s). auto.
Qed.

(** executeRecovery changes none of the program's objects. Every transaction
    it submits is signed by one of the wallets of the wallet manager and is
    either a sale of tokens of the manager's token, paying nothing, or a
    plain transfer of a positive amount to the recovery address: it never
    buys and never pays anyone else, and it submits two transactions for a
    wallet at most. *)
Theorem recovery_submits_sales_and_transfers_only (this : RecoveryManager) (s : Sys Env) :
  let run := executeRecovery gw config this s in
  sameObjects s (snd run) /\
  exists new,
    trace (snd run) = new ++ trace s /\
    Forall (recoverySubmission config this (allWalletsOf s)) (submissions new) /\
    (length (submissions new) <= 2 * length (allWalletsOf s))%nat.
Proof. exact (executeRecovery_submissions this s). Qed.

Lemma stopVolumeBot_result (s : Sys Env) :
  stopVolumeBot s
  = (Ok tt,
     set_orch_volumeBot (option_map stoppedBot)
       (set_trace (fun t => match orch_volumeBot s with
                            | Some {| vb_tradeInterval := Some _ |} => EvClearTimeout :: t
                            | _ => t
                            end) s)).
Proof.
  unfold stopVolumeBot, bind, get.
  destruct (orch_volumeBot s) as [vb|] eqn:Hvb.
  - rewrite (stop_result vb s Hvb). unfold set_orch_volumeBot, set_trace. simpl.
    rewrite Hvb. destruct vb as [a b [t|] h]; reflexivity.
  - unfold ret, set_orch_volumeBot, set_trace. simpl. rewrite Hvb.
    destruct s; simpl in *; subst; reflexivity.
Qed.

(** When phase2_FundBondingCurve has returned, no recovery can be triggered:
    the token address it left is the empty string, so triggerRecovery throws
    'Token address not set'. It has then set the phase to 'recovery' and
    done nothing else: the volume bot is not stopped, no recovery manager is
    made and nothing is submitted. *)
Theorem recovery_cannot_be_triggered_after_phase2
    (tokenConfig : TokenConfig) (expectedDemand : Q) (s s2 : Sys Env) :
  phase2_FundBondingCurve gw config tokenConfig s = (Ok tt, s2) ->
  triggerRecovery gw config expectedDemand s2
  = (Err "Token address not set",
     set_states (alter (with_phase phase_recovery) (orch_state s2)) s2).
Proof.
  intros Hrun.
  destruct (wp_run _ _ _ _ _ Hrun (phase2_leaves_the_token_address_empty gw config tokenConfig s)
              eq_refl) as (st & Hst & Htoken).
  unfold triggerRecovery, writeState, readState, bind, modify, get, defined. simpl.
  rewrite lookup_alter_eq, Hst. simpl.
  unfold tokenAddressSet. simpl. rewrite Htoken. reflexivity.
Qed.

(** With a token address set and RECOVERY_WALLET_ADDRESS not configured,
    triggerRecovery throws 'Recovery wallet address not configured', but
    only after it has set the phase to 'recovery' and stopped the volume
    bot: the bot is left stopped, no recovery manager is stored, the wallet
    lists are unchanged and nothing is submitted. *)
Theorem recovery_without_an_address_stops_the_bot
    (expectedDemand : Q) (s : Sys Env) (st : BotState) (token : string) :
  states s !! orch_state s = Some st ->
  tokenAddressSet st = Some token ->
  recovery_walletAddress config = "" ->
  let run := triggerRecovery gw config expectedDemand s in
  fst run = Err "Recovery wallet address not configured" /\
  states (snd run) = <[orch_state s := with_phase phase_recovery st]> (states s) /\
  orch_volumeBot (snd run) = option_map stoppedBot (orch_volumeBot s) /\
  orch_recoveryManager (snd run) = orch_recoveryManager s /\
  arrays (snd run) = arrays s /\
  submissions (trace (snd run)) = submissions (trace s).
Proof.
  intros Hst Htoken Hno. cbv zeta.
  assert (Hrun : triggerRecovery gw config expectedDemand s
                 = (Err "Recovery wallet address not configured",
                    set_orch_volumeBot (option_map stoppedBot)
                      (set_trace (fun t => match orch_volumeBot s with
                                           | Some {| vb_tradeInterval := Some _ |} =>
                                               EvClearTimeout :: t
                                           | _ => t
                                           end)
                         (set_states (alter (with_phase phase_recovery) (orch_state s)) s)))).
  { unfold triggerRecovery, writeState at 1, readState. unfold bind at 1, modify at 1.
    unfold bind at 1, bind at 1, get at 1, defined.
    cbn [fst snd states orch_state set_states].
    rewrite lookup_alter_eq, Hst. cbn [fmap option_fmap option_map ret].
    change (tokenAddressSet (with_phase phase_recovery st)) with (tokenAddressSet st).
    rewrite Htoken. unfold bind at 1. rewrite stopVolumeBot_result. cbn [fst snd].
    unfold RecoveryManager.constructor. rewrite Hno. reflexivity. }
  rewrite Hrun. cbn [fst snd]. clear Hrun.
  split; [reflexivity|]. split.
  { cbn [states set_orch_volumeBot set_trace set_states].
    apply map_eq. intros l. destruct (decide (l = orch_state s)) as [->|Hne].
    - rewrite lookup_alter_eq, lookup_insert_eq, Hst. reflexivity.
    - rewrite lookup_alter_ne, lookup_insert_ne by congruence. reflexivity. }
  repeat split.
  cbn [trace set_orch_volumeBot set_trace set_states orch_volumeBot].
  destruct (orch_volumeBot s) as [[a b [t|] h]|]; reflexivity.
Qed.

(** With a token address set and a recovery address configured,
    triggerRecovery returns, whatever the sales and the transfers of the
    sweep do: it stops the volume bot, stores a recovery manager for the
    token and the configured address, runs executeRecovery of that manager
    to its end, from the world as it was and over the wallets as they were,
    and sets the phase to 'completed', even when nothing was recovered. The
    wallet lists are left as they were, and every transaction it submits is
    a sale or a transfer of the recovery, signed by a wallet of the wallet
    manager. *)
Theorem recovery_completes_whatever_the_sweep_does
    (expectedDemand : Q) (s : Sys Env) (st : BotState) (token : string) :
  states s !! orch_state s = Some st ->
  tokenAddressSet st = Some token ->
  recovery_walletAddress config <> "" ->
  let run := triggerRecovery gw config expectedDemand s in
  let this := {| rm_tokenAddress := token;
                 rm_recoveryAddress := recovery_walletAddress config |} in
  fst run = Ok tt /\
  states (snd run) = <[orch_state s := with_phase completed st]> (states s) /\
  orch_volumeBot (snd run) = option_map stoppedBot (orch_volumeBot s) /\
  orch_recoveryManager (snd run) = Some this /\
  arrays (snd run) = arrays s /\
  allWalletsOf (snd run) = allWalletsOf s /\
  (exists mid result,
     env mid = env s /\ allWalletsOf mid = allWalletsOf s /\
     submissions (trace mid) = submissions (trace s) /\
     fst (executeRecovery gw config this mid) = Ok result /\
     env (snd run) = env (snd (executeRecovery gw config this mid)) /\
     trace (snd run) = trace (snd (executeRecovery gw config this mid))) /\
  exists new,
    trace (snd run) = new ++ trace s /\
    Forall (recoverySubmission config this (allWalletsOf s)) (submissions new).
Proof.
  intros Hst Htoken Hyes. cbv zeta.
  set (this := {| rm_tokenAddress := token;
                  rm_recoveryAddress := recovery_walletAddress config |}).
  set (s1 := set_states (alter (with_phase phase_recovery) (orch_state s)) s).
  set (s2 := set_orch_volumeBot (option_map stoppedBot)
               (set_trace (fun t => match orch_volumeBot s1 with
                                    | Some {| vb_tradeInterval := Some _ |} =>
                                        EvClearTimeout :: t
                                    | _ => t
                                    end) s1)).
  set (s3 := set_orch_recoveryManager (Some this) s2).
  assert (Hrun : triggerRecovery gw config expectedDemand s
                 = (executeRecovery gw config this ;;;
                    writeState (with_phase completed)) s3).
  { unfold triggerRecovery, writeState at 1, readState. unfold bind at 1, modify at 1.
    unfold bind at 1, bind at 1, get at 1, defined.
    cbn [fst snd states orch_state set_states].
    rewrite lookup_alter_eq, Hst. cbn [fmap option_fmap option_map ret].
    change (tokenAddressSet (with_phase phase_recovery st)) with (tokenAddressSet st).
    rewrite Htoken. unfold bind at 1. rewrite stopVolumeBot_result. cbn [fst snd].
    unfold RecoveryManager.constructor.
    destruct (String.eqb_spec (recovery_walletAddress config) "") as [|_]; [contradiction|].
    unfold bind at 1, ret at 1. unfold bind at 1, modify at 1. reflexivity. }
  rewrite Hrun. clear Hrun.
  destruct (executeRecovery_spec gw config this s3) as (total & processed & Hr & _).
  destruct (executeRecovery_submissions this s3)
    as ((Harr & Hstates & Hf & Hv & _ & Horch & Hbot & Hman) & new & Ht & Hall & _).
  set (s4 := snd (executeRecovery gw config this s3)) in *.
  assert (Hfull : (executeRecovery gw config this ;;; writeState (with_phase completed)) s3
                  = (Ok tt, set_states (alter (with_phase completed) (orch_state s4)) s4)).
  { unfold bind, s4. destruct (executeRecovery gw config this s3) as [r s5].
    cbn [fst snd] in *. subst r. reflexivity. }
  rewrite Hfull. clear Hfull.
  cbn [fst snd states set_states orch_volumeBot orch_recoveryManager arrays trace].
  assert (Hwallets : allWalletsOf s3 = allWalletsOf s) by reflexivity.
  split; [reflexivity|]. split.
  { rewrite Hstates, Horch.
    cbn [states orch_state set_orch_recoveryManager set_orch_volumeBot set_trace
         s3 s2 s1 set_states].
    apply map_eq. intros l. destruct (decide (l = orch_state s)) as [->|Hne].
    - rewrite !lookup_alter_eq, lookup_insert_eq, Hst. reflexivity.
    - rewrite !lookup_alter_ne, lookup_insert_ne by congruence. reflexivity. }
  split; [rewrite Hbot; reflexivity|].
  split; [rewrite Hman; reflexivity|].
  split; [rewrite Harr; reflexivity|].
  split.
  { unfold allWalletsOf. cbn [arrays wm_fundingWallets wm_volumeWallets set_states].
    rewrite Harr, Hf, Hv. reflexivity. }
  split.
  { exists s3, (total, processed).
    split; [reflexivity|]. split; [exact Hwallets|]. split.
    { cbn [trace set_orch_recoveryManager set_orch_volumeBot set_trace s3 s2 s1
           set_states orch_volumeBot].
      destruct (orch_volumeBot s) as [[a b [t|] h]|]; reflexivity. }
    split; [exact Hr|]. split; reflexivity. }
  rewrite Hwallets in Hall.
  exists (new ++ match orch_volumeBot s with
                 | Some {| vb_tradeInterval := Some _ |} => [EvClearTimeout]
                 | _ => []
                 end).
  split.
  - rewrite Ht. cbn [trace set_orch_recoveryManager set_orch_volumeBot set_trace s3 s2 s1
      set_states orch_volumeBot].
    rewrite <- app_assoc.
    destruct (orch_volumeBot s) as [[a b [t|] h]|]; reflexivity.
  - rewrite submissions_app.
    replace (submissions match orch_volumeBot s with
                         | Some {| vb_tradeInterval := Some _ |} => [EvClearTimeout]
                         | _ => []
                         end) with (@nil (Wallet * TransactionRequest * TxOutcome))
      by (destruct (orch_volumeBot s) as [[a b [t|] h]|]; reflexivity).
    exact Hall.
Qed.

End TriggerRecovery.

(** On the funding scenario, when phase 2 has run. *)
Lemma recovery_cannot_be_triggered_after_phase2_witness :
  BotOrchestrator.triggerRecovery Script.gateway FundingScenario.config (0 # 1)
    (snd FundingScenario.afterPhase2)
  = (Err "Token address not set",
     set_states (alter (BotOrchestrator.with_phase phase_recovery)
                   (orch_state (snd FundingScenario.afterPhase2)))
       (snd FundingScenario.afterPhase2)).
Proof.
  apply (recovery_cannot_be_triggered_after_phase2 Script.gateway FundingScenario.config
           FundingScenario.tokenConfig (0 # 1)
           (snd (Script.afterPhase1 FundingScenario.config FundingScenario.world))
           (snd FundingScenario.afterPhase2)).
  vm_compute. reflexivity.
Defined.

(** On the scenario for [triggerRecovery], with no recovery address
    configured: the bot was running, and is left stopped. *)
Lemma recovery_without_an_address_stops_the_bot_witness :
  option_map vb_isRunning (orch_volumeBot TriggerScenario.start) = Some true /\
  let run := BotOrchestrator.triggerRecovery Script.gateway TriggerScenario.unconfigured
               (0 # 1) TriggerScenario.start in
  fst run = Err "Recovery wallet address not configured" /\
  states (snd run)
    = <[orch_state TriggerScenario.start
          := BotOrchestrator.with_phase phase_recovery TriggerScenario.state]>
        (states TriggerScenario.start) /\
  orch_volumeBot (snd run) = option_map stoppedBot (orch_volumeBot TriggerScenario.start) /\
  orch_recoveryManager (snd run) = orch_recoveryManager TriggerScenario.start /\
  arrays (snd run) = arrays TriggerScenario.start /\
  submissions (trace (snd run)) = submissions (trace TriggerScenario.start).
Proof.
  split; [vm_compute; reflexivity|].
  assert (Hst : states TriggerScenario.start !! orch_state TriggerScenario.start
                = Some TriggerScenario.state) by (vm_compute; reflexivity).
  exact (recovery_without_an_address_stops_the_bot Script.gateway TriggerScenario.unconfigured
           (0 # 1) TriggerScenario.start TriggerScenario.state "0xTOKEN" Hst eq_refl eq_refl).
Defined.

(** On the scenario for [triggerRecovery], with the recovery address
    0xRECOVERY configured. *)
Lemma recovery_completes_whatever_the_sweep_does_witness :
  recovery_walletAddress TradeScenario.config = "0xRECOVERY" /\
  let run := BotOrchestrator.triggerRecovery Script.gateway TradeScenario.config
               (0 # 1) TriggerScenario.start in
  let this := {| rm_tokenAddress := "0xTOKEN";
                 rm_recoveryAddress := recovery_walletAddress TradeScenario.config |} in
  fst run = Ok tt /\
  states (snd run)
    = <[orch_state TriggerScenario.start
          := BotOrchestrator.with_phase completed TriggerScenario.state]>
        (states TriggerScenario.start) /\
  orch_volumeBot (snd run) = option_map stoppedBot (orch_volumeBot TriggerScenario.start) /\
  orch_recoveryManager (snd run) = Some this /\
  arrays (snd run) = arrays TriggerScenario.start /\
  allWalletsOf (snd run) = allWalletsOf TriggerScenario.start /\
  (exists mid result,
     env mid = env TriggerScenario.start /\
     allWalletsOf mid = allWalletsOf TriggerScenario.start /\
     submissions (trace mid) = submissions (trace TriggerScenario.start) /\
     fst (RecoveryManager.executeRecovery Script.gateway TradeScenario.config this mid)
       = Ok result /\
     env (snd run)
       = env (snd (RecoveryManager.executeRecovery Script.gateway TradeScenario.config
                     this mid)) /\
     trace (snd run)
       = trace (snd (RecoveryManager.executeRecovery Script.gateway TradeScenario.config
                       this mid))) /\
  exists new,
    trace (snd run) = new ++ trace TriggerScenario.start /\
    Forall (recoverySubmission TradeScenario.config this (allWalletsOf TriggerScenario.start))
           (submissions new).
Proof.
  split; [reflexivity|].
  assert (Hst : states TriggerScenario.start !! orch_state TriggerScenario.start
                = Some TriggerScenario.state) by (vm_compute; reflexivity).
  assert (Hyes : recovery_walletAddress TradeScenario.config <> "")
    by (vm_compute; discriminate).
  exact (recovery_completes_whatever_the_sweep_does Script.gateway TradeScenario.config
           (0 # 1) TriggerScenario.start TriggerScenario.state "0xTOKEN" Hst eq_refl Hyes).
Defined.

(* ===================================================================== *)
(** * Phase 4: who pays the volume wallets *)
(* ===================================================================== *)

Section FundVolumeWallets.
Context {Env : Type}.
Variable gw : Gateway Env.
Variable config : Config.

Import BotOrchestrator.

Lemma removelast_confirmed sub subs :
  isConfirmed sub -> Forall isConfirmed (removelast subs) ->
  Forall isConfirmed (removelast (sub :: subs)).
Proof.
  intros H1 H2. destruct subs as [|x subs]; [constructor|].
  change (removelast (sub :: x :: subs)) with (sub :: removelast (x :: subs)).
  constructor; assumption.
Qed.

Lemma sleep_objects ms (s : Sys Env) :
  wp (sleep gw ms)
     (fun r s' => r = Ok tt /\ sameObjects s s' /\ trace s' = EvSleep ms :: trace s) s.
Proof. unfold sleep. wp_steps. repeat split. Qed.

Lemma fundingPlan_facts fws amount wallets : forall i,
  Forall (fun p => p.1 ∈ fws /\ tx_data p.2 = NoData /\ tx_value p.2 = amount /\
                   exists vw, vw ∈ wallets /\ tx_to p.2 = address vw)
         (fundingPlan fws amount wallets i).
Proof.
  induction wallets as [|vw rest IH]; intros i; simpl; [constructor|].
  destruct (fws !! (i mod length fws)%nat) as [fw|] eqn:Hfw; [|constructor].
  constructor.
  - simpl. split; [eapply list_elem_of_lookup_2; exact Hfw|].
    split; [reflexivity|]. split; [reflexivity|]. exists vw. split; [apply list_elem_of_here|reflexivity].
  - eapply Forall_impl; [apply IH|].
    intros p (H1 & H2 & H3 & vw' & H4 & H5). repeat split; try assumption.
    exists vw'. split; [apply list_elem_of_further; assumption|assumption].
Qed.

Lemma fundEach_spec fws mon amount wallets :
  parseEther_of_number gw mon = Resolved amount ->
  forall i (s : Sys Env),
  wp (fundEach gw fws mon wallets i)
     (fun r s' =>
        sameObjects s s' /\
        exists new,
          trace s' = new ++ trace s /\
          (submissions new).*1
            = take (length (submissions new)) (fundingPlan fws amount wallets i) /\
          Forall isConfirmed (removelast (submissions new)) /\
          match r with
          | Ok _ => length (submissions new) = length wallets /\
                    Forall isConfirmed (submissions new)
          | Err e => True
          | OutOfFuel => False
          end) s.
Proof.
  intros Hparse. induction wallets as [|vw rest IH]; intros i s; simpl fundEach.
  - wp_steps. split; [apply sameObjects_refl|]. exists [].
    repeat split; constructor.
  - assert (Hpayer : (if (length fws =? 0)%nat then None
                      else fws !! (i mod length fws)%nat)
                     = fws !! (i mod length fws)%nat).
    { destruct fws; reflexivity. }
    rewrite Hpayer. clear Hpayer.
    wp_step. unfold parseEther. apply wp_settled; [|congruence].
    intros x Hx. rewrite Hparse in Hx. injection Hx as <-.
    wp_step. apply wp_defined.
    2:{ intros _. split; [apply sameObjects_refl|]. exists [].
        repeat split; constructor. }
    intros fw Hfw. wp_step.
    eapply wp_mono; [apply transferMon_objects|].
    set (tx := {| tx_to := address vw; tx_data := NoData; tx_value := amount |}).
    intros [h|e|] s1 [Hobj1 Hsub]; [| |contradiction].
    + destruct Hsub as (hash & receipt & Ht1).
      wp_step. eapply wp_mono; [apply sleep_objects|].
      intros r s2 (-> & Hobj2 & Ht2).
      eapply wp_mono; [apply IH|].
      intros r s3 (Hobj3 & new & Hnew & Hpre & Hlast & Hres).
      split; [eapply sameObjects_trans; [exact Hobj1|];
              eapply sameObjects_trans; [exact Hobj2|exact Hobj3]|].
      exists (new ++ [EvSleep 500; EvTx fw tx (Confirmed hash receipt)]).
      rewrite submissions_app.
      change (submissions [EvSleep 500; EvTx fw tx (Confirmed hash receipt)])
        with [(fw, tx, Confirmed hash receipt)].
      split; [rewrite Hnew, Ht2, Ht1, <- app_assoc; reflexivity|].
      simpl fundingPlan. rewrite Hfw.
      split; [simpl; f_equal; exact Hpre|].
      split; [apply removelast_confirmed; [eexists _, _; reflexivity|exact Hlast]|].
      destruct r as [u|e|]; [|exact I|exact Hres].
      destruct Hres as [Hn Hall]. split; [simpl; lia|].
      constructor; [eexists _, _; reflexivity|exact Hall].
    + split; [exact Hobj1|].
      destruct Hsub as [Ht1|(out & Ht1 & Hfail)].
      * exists []. repeat split; [exact Ht1|constructor].
      * exists [EvTx fw tx out].
        change (submissions [EvTx fw tx out]) with [(fw, tx, out)].
        split; [exact Ht1|]. simpl fundingPlan. rewrite Hfw.
        repeat split. constructor.
Qed.

Lemma take_at_most n (l : list Wallet) : take (Nat.min n (length l)) l = take n l.
Proof.
  destruct (Nat.le_gt_cases n (length l)) as [H|H].
  - rewrite Nat.min_l by assumption. reflexivity.
  - rewrite Nat.min_r by lia. rewrite !take_ge by lia. reflexivity.
Qed.

(** fundVolumeWallets pays the wallets it is given out of the funding
    wallets: every transaction it submits is a plain transfer, signed by one
    of the first ten funding wallets of the state, to the address of one of
    the wallets it was given, of the amount parseEther gives for ten times
    the mean of tradeAmountMinMon and tradeAmountMaxMon. It takes the
    wallets in the order of the list, wallet number i being paid by funding
    wallet number i mod n of the n funding wallets it uses, and all but the
    last transfer it submitted were confirmed. When it returns, every wallet
    of the list was paid, one confirmed transfer each. It changes none of
    the program's objects. *)
Theorem volume_wallets_are_paid_by_the_funding_wallets
    (wallets : list Wallet) (st : BotState) (s : Sys Env) :
  states s !! orch_state s = Some st ->
  let run := fundVolumeWallets gw config wallets s in
  let payers := take 10 (default [] (arrays s !! fundingWallets st)) in
  let monPerWallet :=
    ((volume_tradeAmountMinMon config + volume_tradeAmountMaxMon config) / (2 # 1)
     * (10 # 1))%Q in
  sameObjects s (snd run) /\
  exists new,
    trace (snd run) = new ++ trace s /\
    Forall (fun sub =>
              sub.1.1 ∈ payers /\ tx_data sub.1.2 = NoData /\
              parseEther_of_number gw monPerWallet = Resolved (tx_value sub.1.2) /\
              exists vw, vw ∈ wallets /\ tx_to sub.1.2 = address vw)
           (submissions new) /\
    (forall amount,
        parseEther_of_number gw monPerWallet = Resolved amount ->
        (submissions new).*1
          = take (length (submissions new)) (fundingPlan payers amount wallets 0)) /\
    Forall isConfirmed (removelast (submissions new)) /\
    match fst run with
    | Ok _ => length (submissions new) = length wallets /\
              Forall isConfirmed (submissions new)
    | Err e => True
    | OutOfFuel => False
    end.
Proof.
  intros Hst. cbv zeta.
  set (payers := take 10 (default [] (arrays s !! fundingWallets st))).
  set (mon := ((volume_tradeAmountMinMon config + volume_tradeAmountMaxMon config) / (2 # 1)
               * (10 # 1))%Q).
  change (wp (fundVolumeWallets gw config wallets)
            (fun r s' =>
               sameObjects s s' /\
               exists new,
                 trace s' = new ++ trace s /\
                 Forall (fun sub =>
                           sub.1.1 ∈ payers /\ tx_data sub.1.2 = NoData /\
                           parseEther_of_number gw mon = Resolved (tx_value sub.1.2) /\
                           exists vw, vw ∈ wallets /\ tx_to sub.1.2 = address vw)
                        (submissions new) /\
                 (forall amount,
                     parseEther_of_number gw mon = Resolved amount ->
                     (submissions new).*1
                       = take (length (submissions new))
                              (fundingPlan payers amount wallets 0)) /\
                 Forall isConfirmed (removelast (submissions new)) /\
                 match r with
                 | Ok _ => length (submissions new) = length wallets /\
                           Forall isConfirmed (submissions new)
                 | Err e => True
                 | OutOfFuel => False
                 end) s).
  unfold fundVolumeWallets, readState. cbv zeta. fold mon.
  wp_steps; [|congruence].
  match goal with H : states s !! orch_state s = Some _ |- _ =>
    rewrite Hst in H; injection H as <- end.
  rewrite take_at_most. fold payers.
  destruct (parseEther_of_number gw mon) as [amount|e] eqn:Hparse.
  - destruct (fundEach_spec payers mon amount wallets Hparse 0%nat s)
      as (Hobj & new & Hnew & Hpre & Hlast & Hres).
    split; [exact Hobj|]. exists new. split; [exact Hnew|].
    split; [|split; [|split; assumption]].
    + assert (Hfacts := fundingPlan_facts payers amount wallets 0).
      apply (Forall_take _ (length (submissions new))) in Hfacts.
      rewrite <- Hpre in Hfacts. apply Forall_fmap in Hfacts.
      eapply Forall_impl; [exact Hfacts|].
      intros [[w tx] out] (H1 & H2 & H3 & H4). simpl in *.
      repeat split; try assumption. rewrite H3. reflexivity.
    + intros a Ha. injection Ha as <-. exact Hpre.
  - assert (Hrun : fundEach gw payers mon wallets 0 s
                   = (match wallets with [] => Ok tt | _ => Err e end, s)).
    { destruct wallets as [|vw rest]; simpl fundEach; [reflexivity|].
      unfold bind, parseEther, settled. rewrite Hparse. reflexivity. }
    unfold wp. rewrite Hrun. cbn [fst snd].
    split; [apply sameObjects_refl|]. exists [].
    split; [reflexivity|]. split; [constructor|].
    split; [intros a Ha; discriminate|]. split; [constructor|].
    destruct wallets; [split; [reflexivity|constructor]|exact I].
Qed.

End FundVolumeWallets.

(** On the trading scenario: the two volume wallets are paid 550 MON each,
    the first by funding wallet number 0 and the second by funding wallet
    number 1. *)
Lemma volume_wallets_are_paid_by_the_funding_wallets_witness :
  exists st new,
    states TradeScenario.start !! orch_state TradeScenario.start = Some st /\
    fst (BotOrchestrator.fundVolumeWallets Script.gateway TradeScenario.config
           (volumeWalletsOf TradeScenario.start) TradeScenario.start) = Ok tt /\
    trace (snd (BotOrchestrator.fundVolumeWallets Script.gateway TradeScenario.config
                  (volumeWalletsOf TradeScenario.start) TradeScenario.start))
      = new ++ trace TradeScenario.start /\
    map (fun sub => (address sub.1.1, tx_to sub.1.2, tx_value sub.1.2)) (submissions new)
      = [("seed@m/44'/60'/0'/0/0", "seed@m/44'/60'/1'/0/0", 550 * 10 ^ 18);
         ("seed@m/44'/60'/0'/0/1", "seed@m/44'/60'/1'/0/1", 550 * 10 ^ 18)] /\
    Forall isConfirmed (submissions new).
Proof.
  set (st := {| phase := phase_funding; tokenAddress := None;
                fundingWallets := 4%nat; volumeWallets := 3%nat;
                totalMonDeposited := 0 # 1; bondingCurveComplete := false;
                volumeGenerated := 0 # 1; startTime := None |}).
  assert (Hst : states TradeScenario.start !! orch_state TradeScenario.start = Some st)
    by (vm_compute; reflexivity).
  destruct (volume_wallets_are_paid_by_the_funding_wallets Script.gateway
              TradeScenario.config (volumeWalletsOf TradeScenario.start)
              st TradeScenario.start Hst)
    as (_ & new & Hnew & _ & Hpre & _ & Hres).
  assert (Hok : fst (BotOrchestrator.fundVolumeWallets Script.gateway TradeScenario.config
                       (volumeWalletsOf TradeScenario.start) TradeScenario.start) = Ok tt)
    by (vm_compute; reflexivity).
  rewrite Hok in Hres. destruct Hres as [Hn Hall].
  exists st, new.
  split; [exact Hst|]. split; [exact Hok|]. split; [exact Hnew|]. split; [|exact Hall].
  specialize (Hpre (550 * 10 ^ 18) ltac:(vm_compute; reflexivity)).
  rewrite Hn in Hpre.
  replace (map (fun sub => (address sub.1.1, tx_to sub.1.2, tx_value sub.1.2))
               (submissions new))
    with (map (fun p : Wallet * TransactionRequest => (address p.1, tx_to p.2, tx_value p.2))
              ((submissions new).*1)).
  - rewrite Hpre. vm_compute. reflexivity.
  - rewrite <- list_fmap_compose. reflexivity.
Defined.
